(** * standup.py: daily standup report generator

    A shallow embedding of [src/standup.py] and the properties of its
    date-window resolver, source-control scan, issue classification,
    commit/issue reconciliation and the two report renderers.

    Conventions of the embedding:
    - a Python [str] is a Rocq [string] holding its UTF-8 bytes; character
      classes, case mapping and slicing act on ASCII characters and leave
      every byte above 127 untouched;
    - a Python [dict] keyed by ticket identifiers is a [gmap string _]; where
      the program iterates over a dict, the iteration order is made explicit;
    - a Python exception is an explicit error result. *)

From Stdlib Require Import ZArith Lia Ascii String List Bool.
From stdpp Require Import gmap strings list fin_maps.

Local Open Scope string_scope.
Local Open Scope Z_scope.

(** * [datetime.date]

    The program uses [date.weekday], [date - timedelta(days=k)],
    [date.isoformat] and date comparison.  They are embedded after the
    reference implementation of the [datetime] module: arithmetic goes
    through proleptic Gregorian ordinals, comparison is on
    (year, month, day). *)

Module PyDate.

Record date := Date { year : Z; month : Z; day : Z }.

Definition MAXORDINAL : Z := 3652059.

Definition is_leap (y : Z) : bool :=
  (y mod 4 =? 0) && (negb (y mod 100 =? 0) || (y mod 400 =? 0)).

Definition days_before_year (y : Z) : Z :=
  let p := y - 1 in p * 365 + p / 4 - p / 100 + p / 400.

Definition DAYS_IN_MONTH (m : Z) : Z :=
  match m with
  | 1 => 31 | 2 => 28 | 3 => 31 | 4 => 30 | 5 => 31 | 6 => 30
  | 7 => 31 | 8 => 31 | 9 => 30 | 10 => 31 | 11 => 30 | 12 => 31
  | _ => -1
  end.

Definition DAYS_BEFORE_MONTH (m : Z) : Z :=
  match m with
  | 1 => 0 | 2 => 31 | 3 => 59 | 4 => 90 | 5 => 120 | 6 => 151
  | 7 => 181 | 8 => 212 | 9 => 243 | 10 => 273 | 11 => 304 | 12 => 334
  | _ => -1
  end.

Definition days_in_month (y m : Z) : Z :=
  if (m =? 2) && is_leap y then 29 else DAYS_IN_MONTH m.

Definition days_before_month (y m : Z) : Z :=
  DAYS_BEFORE_MONTH m + (if (2 <? m) && is_leap y then 1 else 0).

Definition ymd2ord (y m d : Z) : Z :=
  days_before_year y + days_before_month y m + d.

Definition DI400Y : Z := 146097.
Definition DI100Y : Z := 36524.
Definition DI4Y : Z := 1461.

(** Month and day of the [n]-th day (from 0) of a year. *)
Definition month_day (n : Z) (leapyear : bool) : Z * Z :=
  let month := Z.shiftr (n + 50) 5 in
  let preceding :=
    DAYS_BEFORE_MONTH month + (if (2 <? month) && leapyear then 1 else 0) in
  if n <? preceding then
    let month' := month - 1 in
    let preceding' :=
      preceding
      - (DAYS_IN_MONTH month' + (if (month' =? 2) && leapyear then 1 else 0)) in
    (month', n - preceding' + 1)
  else (month, n - preceding + 1).

Definition ord2ymd (n : Z) : date :=
  let n := n - 1 in
  let n400 := n / DI400Y in
  let n := n mod DI400Y in
  let n100 := n / DI100Y in
  let n := n mod DI100Y in
  let n4 := n / DI4Y in
  let n := n mod DI4Y in
  let n1 := n / 365 in
  let n := n mod 365 in
  let y := n400 * 400 + 1 + n100 * 100 + n4 * 4 + n1 in
  if (n1 =? 4) || (n100 =? 4) then Date (y - 1) 12 31
  else
    let leapyear := (n1 =? 3) && (negb (n4 =? 24) || (n100 =? 3)) in
    let md := month_day n leapyear in
    Date y (fst md) (snd md).

Definition toordinal (d : date) : Z := ymd2ord (year d) (month d) (day d).
Definition fromordinal (n : Z) : date := ord2ymd n.

(** Monday is 0 and Sunday is 6. *)
Definition weekday (d : date) : Z := (toordinal d + 6) mod 7.

(** [d - timedelta(days=k)]; [None] is [OverflowError]. *)
Definition sub_days (d : date) (k : Z) : option date :=
  let o := toordinal d - k in
  if (0 <? o) && (o <=? MAXORDINAL) then Some (fromordinal o) else None.

(** The class invariant of [date]. *)
Definition valid (d : date) : Prop :=
  1 <= year d <= 9999 /\ 1 <= month d <= 12 /\
  1 <= day d <= days_in_month (year d) (month d).

(** Comparison of dates is comparison of (year, month, day). *)
Definition compare (a b : date) : comparison :=
  match year a ?= year b with
  | Eq => match month a ?= month b with
          | Eq => day a ?= day b
          | c => c
          end
  | c => c
  end.

Definition leb (a b : date) : bool :=
  match compare a b with Gt => false | _ => true end.

(** [d.isoformat()], the format [%04d-%02d-%02d]: the fields of a date
    have at most four, two and two digits, and [fixed w n] is the [w]
    decimal digits of [n]. *)
Definition digit (n : Z) : ascii := ascii_of_nat (48 + Z.to_nat (n mod 10)).

Fixpoint fixed (w : nat) (n : Z) : string :=
  match w with
  | O => EmptyString
  | S w' => String (digit (n / 10 ^ Z.of_nat w')) (fixed w' n)
  end.

Definition isoformat (d : date) : string :=
  fixed 4 (year d) +:+ "-" +:+ fixed 2 (month d) +:+ "-" +:+ fixed 2 (day d).

(** The property of [month_day] that is checked on days 0..364. *)
Definition month_day_ok (n : Z) (leapyear : bool) : bool :=
  let md := month_day n leapyear in
  (1 <=? md.1) && (md.1 <=? 12) && (1 <=? md.2)
  && (md.2 <=? DAYS_IN_MONTH md.1 + (if (md.1 =? 2) && leapyear then 1 else 0))
  && (DAYS_BEFORE_MONTH md.1 + (if (2 <? md.1) && leapyear then 1 else 0) + md.2
      =? n + 1).

End PyDate.

Import PyDate.

(** * Working day helpers *)

(** [prev_workday]: the start of the previous working period before [ref]. *)
Definition prev_workday (ref : date) : option date :=
  let delta := if weekday ref =? 0 then 3 else 1 in
  sub_days ref delta.

(** [workday_range]: the (start, end) range used to filter issues and
    commits. *)
Definition workday_range (workday today : date) : option (date * date) :=
  if weekday today =? 0 then
    end_ ← sub_days today 1;
    Some (workday, end_)
  else Some (workday, workday).

(** The three lines of [main] that resolve the reporting window from the
    parsed [--date] argument and [date.today()]: the result is
    [(workday, date_from, date_to)]. *)
Definition resolve_window (arg_date : option date) (today : date)
  : option (date * date * date) :=
  workday ← (match arg_date with Some d => Some d | None => prev_workday today end);
  r ← workday_range workday
        (match arg_date with None => today | Some _ => workday end);
  Some (workday, r.1, r.2).

(** * Python [str]

    A [str] is modelled by its UTF-8 bytes.  The classes of characters
    below are those of Python on ASCII characters; [str.isspace], [\s],
    [\d], [\w], [\b], [str.lower] and [str.upper] also know characters
    outside ASCII, which are sequences of bytes from 128 on and are in none
    of the classes here.  The statements that depend on what a class holds
    are made for ASCII text.  The line boundaries and the order of strings
    are those of Python on every text. *)

Module PyStr.

Definition code (c : ascii) : nat := nat_of_ascii c.

Definition in_range (lo hi : nat) (c : ascii) : bool :=
  ((lo <=? code c) && (code c <=? hi))%nat.

(** [str.isspace] and [\s] on ASCII: tab to carriage return, the four
    separators [\x1c]..[\x1f], and the space. *)
Definition is_space (c : ascii) : bool := in_range 9 13 c || in_range 28 32 c.

(** [\d] on ASCII. *)
Definition is_digit (c : ascii) : bool := in_range 48 57 c.
Definition is_upper (c : ascii) : bool := in_range 65 90 c.
Definition is_lower (c : ascii) : bool := in_range 97 122 c.

(** [\w] on ASCII: letters, digits and the underscore. *)
Definition is_word (c : ascii) : bool :=
  is_upper c || is_lower c || is_digit c || (code c =? 95)%nat.

(** The line boundaries of [str.splitlines] that are one ASCII
    character. *)
Definition is_linebreak (c : ascii) : bool := in_range 10 13 c || in_range 28 30 c.

(** [str.lower] and [str.upper] on an ASCII character. *)
Definition lower_char (c : ascii) : ascii :=
  if is_upper c then ascii_of_nat (code c + 32) else c.

Definition upper_char (c : ascii) : ascii :=
  if is_lower c then ascii_of_nat (code c - 32) else c.

Fixpoint map_chars (f : ascii -> ascii) (s : string) : string :=
  match s with
  | EmptyString => EmptyString
  | String c s' => String (f c) (map_chars f s')
  end.

Definition lower : string -> string := map_chars lower_char.
Definition upper : string -> string := map_chars upper_char.

Definition is_empty (s : string) : bool :=
  match s with EmptyString => true | _ => false end.

(** [s[:n]] *)
Fixpoint take (n : nat) (s : string) : string :=
  match n, s with
  | S n', String c s' => String c (take n' s')
  | _, _ => EmptyString
  end.

(** [s[n:]] *)
Fixpoint drop (n : nat) (s : string) : string :=
  match n, s with
  | S n', String _ s' => drop n' s'
  | _, _ => s
  end.

Fixpoint lstrip_by (p : ascii -> bool) (s : string) : string :=
  match s with
  | String c s' => if p c then lstrip_by p s' else s
  | EmptyString => EmptyString
  end.

Fixpoint rstrip_by (p : ascii -> bool) (s : string) : string :=
  match s with
  | String c s' =>
      let r := rstrip_by p s' in
      if is_empty r && p c then EmptyString else String c r
  | EmptyString => EmptyString
  end.

Definition strip_by (p : ascii -> bool) (s : string) : string :=
  lstrip_by p (rstrip_by p s).

(** [s.strip()] and [s.lstrip()] *)
Definition strip : string -> string := strip_by is_space.
Definition lstrip : string -> string := lstrip_by is_space.

(** Every character of [s] is of the class [p]. *)
Fixpoint every (p : ascii -> bool) (s : string) : bool :=
  match s with
  | EmptyString => true
  | String c s' => p c && every p s'
  end.

(** The last character of [s], or [d] when [s] is empty. *)
Fixpoint last_or (d : option ascii) (s : string) : option ascii :=
  match s with
  | EmptyString => d
  | String c s' => last_or (Some c) s'
  end.

(** [needle in s] *)
Fixpoint contains (needle s : string) : bool :=
  String.prefix needle s
  || match s with
     | String _ s' => contains needle s'
     | EmptyString => false
     end.

(** The number of bytes of the line boundary that [s] starts with, 0 when
    it starts with none.  The boundaries of [str.splitlines] are the line
    feed, the carriage return with or without a line feed after it, the
    vertical tab, the form feed, the separators [\x1c], [\x1d] and [\x1e],
    and, in UTF-8, [U+0085], [U+2028] and [U+2029]. *)
Definition boundary_length (s : string) : nat :=
  match s with
  | String c s1 =>
      if (code c =? 13)%nat then
        match s1 with
        | String c2 _ => if (code c2 =? 10)%nat then 2%nat else 1%nat
        | EmptyString => 1%nat
        end
      else if is_linebreak c then 1%nat
      else if (code c =? 194)%nat then
        match s1 with
        | String c2 _ => if (code c2 =? 133)%nat then 2%nat else 0%nat
        | EmptyString => 0%nat
        end
      else if (code c =? 226)%nat then
        match s1 with
        | String c2 (String c3 _) =>
            if (code c2 =? 128)%nat && ((code c3 =? 168)%nat || (code c3 =? 169)%nat)
            then 3%nat else 0%nat
        | _ => 0%nat
        end
      else 0%nat
  | EmptyString => 0%nat
  end.

(** [s.splitlines()[0]]: the text before the first line boundary; [None]
    is the [IndexError] raised on the empty string, which has no lines. *)
Fixpoint until_linebreak (s : string) : string :=
  match s with
  | String c s' =>
      match boundary_length s with
      | O => String c (until_linebreak s')
      | S _ => EmptyString
      end
  | EmptyString => EmptyString
  end.

Definition first_line (s : string) : option string :=
  if is_empty s then None else Some (until_linebreak s).

(** [sep.join(l)] *)
Fixpoint join (sep : string) (l : list string) : string :=
  match l with
  | [] => EmptyString
  | [x] => x
  | x :: l' => x +:+ sep +:+ join sep l'
  end.

(** [s.split(" ", 1)]: the text before and after the first space, when
    there is one. *)
Fixpoint split_space (s : string) : option (string * string) :=
  match s with
  | EmptyString => None
  | String c s' =>
      if (code c =? 32)%nat then Some (EmptyString, s')
      else match split_space s' with
           | Some (a, b) => Some (String c a, b)
           | None => None
           end
  end.

(** Comparison of strings, as [<=] on [str]: by code points, which is
    the order of the UTF-8 bytes. *)
Definition le (a b : string) : bool := String.leb a b.

(** [sorted(l)] on strings: insertion into an ordered list. *)
Fixpoint insert_sorted (x : string) (l : list string) : list string :=
  match l with
  | [] => [x]
  | y :: l' => if le x y then x :: l else y :: insert_sorted x l'
  end.

Definition sorted (l : list string) : list string :=
  foldr insert_sorted [] l.

End PyStr.

(** * Regular expressions

    The patterns of the program use literals, character classes, greedy
    repetition of one character class, an alternative of literals, the
    anchors [^] and [$], the word boundary [\b] and capture groups.  A
    pattern is a list of such atoms, matched by backtracking, longest
    repetition first, as [re] does. *)

Module PyRe.

Import PyStr.

Inductive atom :=
  | Chr (p : ascii -> bool)     (* one character of a class *)
  | Star (p : ascii -> bool)    (* [p*] *)
  | Plus (p : ascii -> bool)    (* [p+] *)
  | Opt (p : ascii -> bool)     (* [p?] *)
  | Alt (alts : list string)    (* one of several literals, in order *)
  | Bol                         (* [^] *)
  | Eol                         (* [$] *)
  | WordB                       (* [\b] *)
  | GOpen (g : nat)             (* the opening parenthesis of group [g] *)
  | GClose (g : nat).           (* the closing parenthesis of group [g] *)

(** A position in the subject: the character before it, the text after
    it, its offset, and the groups opened and closed so far. *)
Record mstate := MState {
  ms_prev : option ascii;
  ms_rest : string;
  ms_pos : nat;
  ms_open : list (nat * nat);
  ms_groups : list (nat * (nat * nat))
}.

Definition start (s : string) : mstate := MState None s 0 [] [].

Fixpoint advance (n : nat) (st : mstate) : mstate :=
  match n, ms_rest st with
  | S n', String c s' =>
      advance n' (MState (Some c) s' (S (ms_pos st)) (ms_open st) (ms_groups st))
  | _, _ => st
  end.

(** The length of the longest prefix of [s] made of characters of [p]. *)
Fixpoint span (p : ascii -> bool) (s : string) : nat :=
  match s with
  | String c s' => if p c then S (span p s') else O
  | EmptyString => O
  end.

Definition is_word_opt (c : option ascii) : bool :=
  match c with Some c => is_word c | None => false end.

Definition next_char (s : string) : option ascii :=
  match s with String c _ => Some c | EmptyString => None end.

(** The text [rest] starts with a character of a word. *)
Definition ends_word (rest : string) : bool := is_word_opt (next_char rest).

Definition at_boundary (st : mstate) : bool :=
  xorb (is_word_opt (ms_prev st)) (is_word_opt (next_char (ms_rest st))).

(** [$] matches at the end and before a newline that ends the subject. *)
Definition at_end (st : mstate) : bool :=
  match ms_rest st with
  | EmptyString => true
  | String c EmptyString => (code c =? 10)%nat
  | _ => false
  end.

Definition open_group (g : nat) (st : mstate) : mstate :=
  MState (ms_prev st) (ms_rest st) (ms_pos st)
         ((g, ms_pos st) :: ms_open st) (ms_groups st).

Definition close_group (g : nat) (st : mstate) : mstate :=
  match List.find (fun o => (o.1 =? g)%nat) (ms_open st) with
  | Some (_, from) =>
      MState (ms_prev st) (ms_rest st) (ms_pos st) (ms_open st)
             ((g, (from, ms_pos st)) :: ms_groups st)
  | None => st
  end.

(** Greedy repetition: try the continuation [k] after [n] characters,
    then after fewer, down to [lo]. *)
Fixpoint greedy (k : mstate -> option mstate) (st : mstate) (lo n : nat)
  : option mstate :=
  match k (advance n st) with
  | Some r => Some r
  | None =>
      match n with
      | O => None
      | S n' => if (lo <=? n')%nat then greedy k st lo n' else None
      end
  end.

Fixpoint first_alt (k : mstate -> option mstate) (st : mstate)
  (alts : list string) : option mstate :=
  match alts with
  | [] => None
  | a :: alts' =>
      let here :=
        if String.prefix a (ms_rest st)
        then k (advance (String.length a) st) else None in
      match here with
      | Some r => Some r
      | None => first_alt k st alts'
      end
  end.

Fixpoint rmatch (r : list atom) (st : mstate) : option mstate :=
  match r with
  | [] => Some st
  | a :: r' =>
      match a with
      | Chr p =>
          match ms_rest st with
          | String c _ => if p c then rmatch r' (advance 1 st) else None
          | EmptyString => None
          end
      | Star p => greedy (rmatch r') st 0 (span p (ms_rest st))
      | Plus p =>
          let n := span p (ms_rest st) in
          if (1 <=? n)%nat then greedy (rmatch r') st 1 n else None
      | Opt p => greedy (rmatch r') st 0 (Nat.min 1 (span p (ms_rest st)))
      | Alt alts => first_alt (rmatch r') st alts
      | Bol => if (ms_pos st =? 0)%nat then rmatch r' st else None
      | Eol => if at_end st then rmatch r' st else None
      | WordB => if at_boundary st then rmatch r' st else None
      | GOpen g => rmatch r' (open_group g st)
      | GClose g => rmatch r' (close_group g st)
      end
  end.

(** The literal [s] and the literal [s] under [re.IGNORECASE]. *)
Fixpoint lit (s : string) : list atom :=
  match s with
  | EmptyString => []
  | String c s' => Chr (Ascii.eqb c) :: lit s'
  end.

Fixpoint lit_ci (s : string) : list atom :=
  match s with
  | EmptyString => []
  | String c s' =>
      Chr (fun x => Ascii.eqb (lower_char x) (lower_char c)) :: lit_ci s'
  end.

(** [m.group(g)] of a match [m] on the subject [s]. *)
Definition group (s : string) (m : mstate) (g : nat) : string :=
  match List.find (fun o => (o.1 =? g)%nat) (ms_groups m) with
  | Some (_, (from, to)) => take (to - from) (drop from s)
  | None => EmptyString
  end.

(** [r.match(s)]: a match at the start of [s]. *)
Definition re_match (r : list atom) (s : string) : option mstate :=
  rmatch r (start s).

(** The successive non-overlapping matches of [r], scanning from the
    position [st]; each match is given with the position it started at. *)
Fixpoint scan (fuel : nat) (r : list atom) (st : mstate)
  : list (mstate * mstate) :=
  match fuel with
  | O => []
  | S fuel' =>
      let fresh := MState (ms_prev st) (ms_rest st) (ms_pos st) [] [] in
      match rmatch r fresh with
      | Some m =>
          if (ms_pos st <? ms_pos m)%nat then (fresh, m) :: scan fuel' r m
          else
            match ms_rest st with
            | EmptyString => [(fresh, m)]
            | _ => (fresh, m) :: scan fuel' r (advance 1 st)
            end
      | None =>
          match ms_rest st with
          | EmptyString => []
          | _ => scan fuel' r (advance 1 st)
          end
      end
  end.

Definition matches (r : list atom) (s : string) : list (mstate * mstate) :=
  scan (S (String.length s)) r (start s).

(** [r.findall(s)] for a pattern with one group. *)
Definition findall (r : list atom) (s : string) : list string :=
  map (fun m => group s m.2 1) (matches r s).

(** [r.sub("", s)]: [s] without the matches of [r]. *)
Fixpoint cut (s : string) (pos : nat) (ms : list (mstate * mstate)) : string :=
  match ms with
  | [] => drop pos s
  | (a, b) :: ms' =>
      take (ms_pos a - pos) (drop pos s) +:+ cut s (ms_pos b) ms'
  end.

Definition sub_empty (r : list atom) (s : string) : string :=
  cut s 0 (matches r s).

End PyRe.

(** * The program: configuration and tracker records *)

Import PyStr PyRe.

(** The environment variables the embedded functions read. *)
Record config := Config {
  PLANE_WORKSPACE_SLUG : string;
  GITHUB_TOKEN : string
}.

(** A project, a workflow state, a label and an issue, as the tracker
    returns them; a field read with [.get] is optional.  The sequence
    number is held as the text that an f-string gives it. *)
Record project := Project {
  prj_id : string;
  prj_identifier : option string;
  prj_name : option string
}.

Record wstate := WState {
  st_group : option string;
  st_type : option string;
  st_name : option string
}.

Record issue := Issue {
  iss_id : string;
  iss_name : option string;
  iss_title : option string;
  iss_sequence_id : option string;
  iss_updated_at : option string;
  iss_state : option string;
  iss_label_details : list (option string)
}.

(** What [get_states] and [get_my_issues] gave for one project; [None] is
    the [HTTPError] after which [main] skips the project. *)
Record project_fetch := ProjectFetch {
  pf_project : project;
  pf_data : option (gmap string wstate * list issue)
}.

(** A commit, as the source-control client returns it. *)
Record commit := Commit {
  c_sha : string;
  c_message : string;
  c_html_url : string
}.

(** * Patterns *)

Definition is_hex (c : ascii) : bool := is_digit c || in_range 97 102 c.
Definition not_newline (c : ascii) : bool := negb (code c =? 10)%nat.
Definition not_space (c : ascii) : bool := negb (is_space c).

(** [\b(DATA-\d+)\b], ignoring case *)
Definition TICKET_RE : list atom :=
  [WordB; GOpen 1] ++ lit_ci "DATA-" ++ [Plus is_digit; GClose 1; WordB].

(** [^Merge ], ignoring case *)
Definition MERGE_RE : list atom := Bol :: lit_ci "Merge ".

(** [^(`[0-9a-f]+`) (.+) \((https?://\S+)\)$] *)
Definition COMMIT_RE : list atom :=
  [Bol; GOpen 1] ++ lit "`" ++ [Plus is_hex] ++ lit "`" ++ [GClose 1]
  ++ lit " " ++ [GOpen 2; Plus not_newline; GClose 2] ++ lit " ("
  ++ [GOpen 3] ++ lit "http" ++ [Opt (Ascii.eqb "s")] ++ lit "://"
  ++ [Plus not_space; GClose 3] ++ lit ")" ++ [Eol].

Definition SEC_DONE : string := ":white_check_mark: Done:".
Definition SEC_REVIEW : string := ":eyes: Moved to review:".
Definition SEC_IN_PROGRESS : string :=
  ":arrows_counterclockwise: In progress / planned (with ETA):".
Definition SEC_ORPHAN_COMMITS : string := ":ghost: Commits without ticket:".
Definition SEC_BLOCKED : string := ":no_entry: Blocked:".
Definition SEC_NEED_TASKS : string := ":jigsaw: Need tasks (Optional):".
Definition SEC_BACKLOG : string := ":card_index: Backlog (assigned, not started):".
Definition SEC_UNKNOWN_TICKETS : string :=
  ":spiral_note_pad: Commits linked to unknown ticket:".

(** * Plane helpers *)

Definition get_issue_identifier (p : project) (i : issue) : string :=
  let identifier := default (default "??" (prj_name p)) (prj_identifier p) in
  let seq := default (iss_id i) (iss_sequence_id i) in
  identifier +:+ "-" +:+ seq.

Definition build_issue_url (cfg : config) (project_id issue_id : string) : string :=
  "https://app.plane.so/" +:+ PLANE_WORKSPACE_SLUG cfg +:+ "/projects/"
  +:+ project_id +:+ "/issues/" +:+ issue_id.

Definition build_browse_url (cfg : config) (ticket : string) : string :=
  "https://app.plane.so/" +:+ PLANE_WORKSPACE_SLUG cfg +:+ "/browse/" +:+ ticket +:+ "/".

(** [^\s*{re.escape(ticket)}\s*[-–—:]\s*], ignoring case *)
Definition prefix_re (ticket : string) : list atom :=
  [Bol; Star is_space] ++ lit_ci ticket
  ++ [Star is_space; Alt ["-"; "–"; "—"; ":"]; Star is_space].

(** The message part of a rendered commit line, or the line itself when
    it does not have the form of one. *)
Definition line_message (line : string) : string :=
  match re_match COMMIT_RE line with
  | Some m => group line m 2
  | None => line
  end.

Definition cleaned_title (ticket line : string) : string :=
  strip (sub_empty (prefix_re ticket) (line_message line)).

Fixpoint title_from_commits (ticket : string) (commit_lines : list string) : string :=
  match commit_lines with
  | [] => EmptyString
  | line :: rest =>
      let cleaned := cleaned_title ticket line in
      if is_empty cleaned then title_from_commits ticket rest else cleaned
  end.

(** * GitHub helpers *)

(** The two collections that [get_github_commits] fills. *)
Record scan_state := ScanState {
  by_ticket : gmap string (gset string);
  orphans : gset string
}.

(** A computation that may raise and that keeps what it wrote to the
    collections before it raised. *)
Inductive outcome (A : Type) : Type :=
  | Ok (a : A)
  | Raised.
Arguments Ok {A} a.
Arguments Raised {A}.

Definition M (A : Type) : Type := scan_state -> scan_state * outcome A.

Definition ret {A} (a : A) : M A := fun s => (s, Ok a).
Definition raise {A} : M A := fun s => (s, Raised).
Definition bind {A B} (m : M A) (k : A -> M B) : M B :=
  fun s => match m s with
           | (s', Ok a) => k a s'
           | (s', Raised) => (s', Raised)
           end.
Definition modify (f : scan_state -> scan_state) : M unit := fun s => (f s, Ok tt).

(** [try: m except Exception: pass] *)
Definition try_pass (m : M unit) : M unit := fun s => ((m s).1, Ok tt).

Notation "m ;;; k" := (bind m (fun _ => k))
  (at level 100, k at level 200, right associativity).

Definition short_line (c : commit) (msg : string) : string :=
  "`" +:+ take 7 (c_sha c) +:+ "` " +:+ msg +:+ " (" +:+ c_html_url c +:+ ")".

Definition add_orphan (short : string) (s : scan_state) : scan_state :=
  ScanState (by_ticket s) ({[short]} ∪ orphans s).

(** [by_ticket.setdefault(t.upper(), set()).add(short)] *)
Definition add_ticket (short : string) (s : scan_state) (t : string) : scan_state :=
  let key := upper t in
  ScanState (<[key := {[short]} ∪ default ∅ (by_ticket s !! key)]> (by_ticket s))
            (orphans s).

Definition process (c : commit) : M unit :=
  match first_line (c_message c) with
  | None => raise
  | Some msg =>
      match re_match MERGE_RE msg with
      | Some _ => ret tt
      | None =>
          let short := short_line c msg in
          let tickets := findall TICKET_RE msg in
          match tickets with
          | [] => modify (add_orphan short)
          | _ => modify (fun s => foldl (add_ticket short) s tickets)
          end
      end
  end.

(** What iterating over [repo.get_commits(...)] gives: commits, and
    possibly a failure of the listing. *)
Inductive fetched :=
  | Yield (c : commit)
  | Fail.

Fixpoint for_commits (listing : list fetched) : M unit :=
  match listing with
  | [] => ret tt
  | Yield c :: rest => process c ;;; for_commits rest
  | Fail :: _ => raise
  end.

Fixpoint for_repos (repos : list (list fetched)) : M unit :=
  match repos with
  | [] => ret tt
  | repo :: rest => try_pass (for_commits repo) ;;; for_repos rest
  end.

Definition ticket_map (s : scan_state) : list (string * list string) :=
  map (fun t => (t, sorted (elements (default ∅ (by_ticket s !! t)))))
      (sorted (elements (dom (by_ticket s)))).

(** [get_github_commits]; [org] is the listing of the repositories of the
    organisation, which may itself fail. *)
Definition get_github_commits (cfg : config) (org : outcome (list (list fetched)))
  : outcome (list (string * list string) * list string) :=
  if is_empty (GITHUB_TOKEN cfg) then Ok ([], [])
  else
    match org with
    | Raised => Raised
    | Ok repos =>
        match for_repos repos (ScanState ∅ ∅) with
        | (s, Ok _) => Ok (ticket_map s, sorted (elements (orphans s)))
        | (_, Raised) => Raised
        end
    end.

(** The commits of a listing that [process] handles before the listing
    fails or [process] raises, and what [process] does with one of them. *)
Fixpoint yielded (listing : list fetched) : list commit :=
  match listing with
  | Yield c :: rest => if is_empty (c_message c) then [] else c :: yielded rest
  | _ => []
  end.

Definition collect (s : scan_state) (c : commit) : scan_state := (process c s).1.

(** The collection [by_ticket] holds the line [l] under the ticket [k]. *)
Definition holds (s : scan_state) (k l : string) : Prop :=
  exists msgs, by_ticket s !! k = Some msgs /\ l ∈ msgs.

(** * Classification of the issues ([main], first loop) *)

(** An issue in a bucket: (identifier, title, url). *)
Definition entry : Type := string * string * string.

(** The record kept for an issue: [{"title": ..., "url": ...}]. *)
Record info := Info { i_title : string; i_url : string }.

(** An in-progress entry: [{**info, "commits": [...]}]. *)
Record worked := Worked {
  w_title : string;
  w_url : string;
  w_commits : list string
}.

Record buckets := Buckets {
  done_issues : list entry;
  review_issues : list entry;
  blocked_issues : list entry;
  backlog_issues : list entry;
  plane_active : gmap string info;
  all_issues_lookup : gmap string info
}.

Definition no_buckets : buckets := Buckets [] [] [] [] ∅ ∅.

Definition issue_title (i : issue) : string :=
  default (default "Untitled" (iss_title i)) (iss_name i).

Definition issue_entry (cfg : config) (p : project) (i : issue) : entry :=
  (get_issue_identifier p i, issue_title i, build_issue_url cfg (prj_id p) (iss_id i)).

Definition issue_info (cfg : config) (p : project) (i : issue) : info :=
  Info (issue_title i) (build_issue_url cfg (prj_id p) (iss_id i)).

(** [updated_in_range]: a comparison of strings. *)
Definition updated_date (i : issue) : string :=
  let updated_at := default EmptyString (iss_updated_at i) in
  if is_empty updated_at then EmptyString else take 10 updated_at.

Definition updated_in_range (date_from date_to : date) (i : issue) : bool :=
  le (isoformat date_from) (updated_date i)
  && le (updated_date i) (isoformat date_to).

Definition issue_state (states : gmap string wstate) (i : issue) : wstate :=
  default (WState None None None) (iss_state i ≫= (states !!.)).

Definition state_group (states : gmap string wstate) (i : issue) : string :=
  let state := issue_state states i in
  default (default EmptyString (st_type state)) (st_group state).

Definition state_name (states : gmap string wstate) (i : issue) : string :=
  lower (default EmptyString (st_name (issue_state states i))).

Definition is_blocked (i : issue) : bool :=
  existsb (String.eqb "blocked")
          (map (fun l => lower (default EmptyString l)) (iss_label_details i)).

Definition in_backlog_group (g : string) : bool :=
  String.eqb g "backlog" || String.eqb g "unstarted".

(** The body of the loop over the issues of a project. *)
Definition classify_issue (cfg : config) (date_from date_to : date)
  (p : project) (states : gmap string wstate) (b : buckets) (i : issue) : buckets :=
  let identifier := get_issue_identifier p i in
  let e := issue_entry cfg p i in
  let lookup := <[identifier := issue_info cfg p i]> (all_issues_lookup b) in
  let g := state_group states i in
  if in_backlog_group g then
    Buckets (done_issues b) (review_issues b) (blocked_issues b)
            (backlog_issues b ++ [e]) (plane_active b) lookup
  else if negb (updated_in_range date_from date_to i) then
    Buckets (done_issues b) (review_issues b) (blocked_issues b)
            (backlog_issues b) (plane_active b) lookup
  else if String.eqb g "completed" then
    Buckets (done_issues b ++ [e]) (review_issues b) (blocked_issues b)
            (backlog_issues b) (plane_active b) lookup
  else if contains "review" (state_name states i) then
    Buckets (done_issues b) (review_issues b ++ [e]) (blocked_issues b)
            (backlog_issues b) (plane_active b) lookup
  else if is_blocked i then
    Buckets (done_issues b) (review_issues b) (blocked_issues b ++ [e])
            (backlog_issues b) (plane_active b) lookup
  else if String.eqb g "started" then
    Buckets (done_issues b) (review_issues b) (blocked_issues b)
            (backlog_issues b)
            (<[identifier := issue_info cfg p i]> (plane_active b)) lookup
  else
    Buckets (done_issues b) (review_issues b) (blocked_issues b)
            (backlog_issues b) (plane_active b) lookup.

(** The body of the loop over the projects. *)
Definition classify_project (cfg : config) (date_from date_to : date)
  (b : buckets) (pf : project_fetch) : buckets :=
  match pf_data pf with
  | None => b
  | Some (states, issues) =>
      foldl (classify_issue cfg date_from date_to (pf_project pf) states) b issues
  end.

Definition classify (cfg : config) (date_from date_to : date)
  (projects : list project_fetch) : buckets :=
  foldl (classify_project cfg date_from date_to) no_buckets projects.

(** * Reconciliation of commits and issues ([main], merge step) *)

Definition entry_ids (l : list entry) : gset string := list_to_set (map (fun e => e.1.1) l).

(** [done_ids] *)
Definition done_ids_of (done review : list entry) : gset string :=
  entry_ids done ∪ entry_ids review.

(** What the merge loops write to. *)
Record merge_state := MergeState {
  m_plane_active : gmap string info;
  m_worked_on : gmap string worked;
  m_done_commits : gmap string (list string)
}.

(** [plane_active.pop(ticket, None) or all_issues_lookup.get(ticket) or
    {"title": title_from_commits(...), "url": build_browse_url(ticket)}],
    where [active] is what the pop returned. *)
Definition ticket_info (cfg : config) (lookup : gmap string info)
  (active : option info) (ticket : string) (commit_lines : list string) : info :=
  match active with
  | Some i => i
  | None =>
      match lookup !! ticket with
      | Some i => i
      | None => Info (title_from_commits ticket commit_lines)
                     (build_browse_url cfg ticket)
      end
  end.

(** The body of the loop over [commits_by_ticket.items()]. *)
Definition merge_ticket (cfg : config) (done_ids : gset string)
  (lookup : gmap string info) (m : merge_state) (tc : string * list string)
  : merge_state :=
  let ticket := tc.1 in
  let commit_lines := tc.2 in
  if bool_decide (ticket ∈ done_ids) then
    MergeState (m_plane_active m) (m_worked_on m)
               (<[ticket := commit_lines]> (m_done_commits m))
  else
    let i := ticket_info cfg lookup (m_plane_active m !! ticket) ticket commit_lines in
    MergeState (delete ticket (m_plane_active m))
               (<[ticket := Worked (i_title i) (i_url i) commit_lines]> (m_worked_on m))
               (m_done_commits m).

(** The body of the loop over [plane_active.items()]. *)
Definition add_active (done_ids : gset string) (wo : gmap string worked)
  (ti : string * info) : gmap string worked :=
  if bool_decide (ti.1 ∈ done_ids) then wo
  else <[ti.1 := Worked (i_title ti.2) (i_url ti.2) []]> wo.

(** Everything the two renderers are given. *)
Record reconciled := Reconciled {
  r_done_issues : list entry;
  r_review_issues : list entry;
  r_worked_on : gmap string worked;
  r_blocked_issues : list entry;
  r_backlog_issues : list entry;
  r_commits_by_ticket : list (string * list string);
  r_orphan_commits : list string;
  r_done_commits : gmap string (list string)
}.

Definition reconcile (cfg : config) (b : buckets)
  (commits_by_ticket : list (string * list string)) (orphan_commits : list string)
  : reconciled :=
  let done_ids := done_ids_of (done_issues b) (review_issues b) in
  let m := foldl (merge_ticket cfg done_ids (all_issues_lookup b))
                 (MergeState (plane_active b) ∅ ∅) commits_by_ticket in
  let worked_on :=
    foldl (add_active done_ids) (m_worked_on m) (map_to_list (m_plane_active m)) in
  Reconciled (done_issues b) (review_issues b) worked_on (blocked_issues b)
             (backlog_issues b) commits_by_ticket orphan_commits (m_done_commits m).

(** [main] from the resolved window to the reconciled buckets; it raises
    when the scan of the repositories does. *)
Definition run (cfg : config) (date_from date_to : date)
  (projects : list project_fetch) (org : outcome (list (list fetched)))
  : outcome reconciled :=
  let b := classify cfg date_from date_to projects in
  match get_github_commits cfg org with
  | Raised => Raised
  | Ok (commits_by_ticket, orphan_commits) =>
      Ok (reconcile cfg b commits_by_ticket orphan_commits)
  end.

(** * The issues of a run and the branch that classifies each *)

(** An issue with the project it was fetched for and the states of that
    project. *)
Definition fetched_issue : Type := project * gmap string wstate * issue.

Definition fetched_issues (projects : list project_fetch) : list fetched_issue :=
  concat (map (fun pf =>
                 match pf_data pf with
                 | None => []
                 | Some (states, issues) =>
                     map (fun i => (pf_project pf, states, i)) issues
                 end) projects).

Definition ident (x : fetched_issue) : string := get_issue_identifier x.1.1 x.2.
Definition entry_of (cfg : config) (x : fetched_issue) : entry :=
  issue_entry cfg x.1.1 x.2.
Definition info_of (cfg : config) (x : fetched_issue) : info :=
  issue_info cfg x.1.1 x.2.
Definition group_of (x : fetched_issue) : string := state_group x.1.2 x.2.

(** The body of the loop over the issues, on a fetched issue. *)
Definition classify_step (cfg : config) (date_from date_to : date)
  (b : buckets) (x : fetched_issue) : buckets :=
  classify_issue cfg date_from date_to x.1.1 x.1.2 b x.2.

(** The branch of the classification that an issue takes. *)
Inductive verdict :=
  | VBacklog | VExcluded | VDone | VReview | VBlocked | VActive | VNone.

Definition verdict_of (date_from date_to : date) (x : fetched_issue) : verdict :=
  let g := group_of x in
  if in_backlog_group g then VBacklog
  else if negb (updated_in_range date_from date_to x.2) then VExcluded
  else if String.eqb g "completed" then VDone
  else if contains "review" (state_name x.1.2 x.2) then VReview
  else if is_blocked x.2 then VBlocked
  else if String.eqb g "started" then VActive
  else VNone.

(** The state of an issue lets it be done, in review, blocked or active. *)
Definition has_work_state (x : fetched_issue) : bool :=
  String.eqb (group_of x) "completed"
  || contains "review" (state_name x.1.2 x.2)
  || is_blocked x.2
  || String.eqb (group_of x) "started".

#[global] Instance verdict_eq_dec : EqDecision verdict.
Proof. solve_decision. Defined.

(** The issues of a list that took the branch [v], as bucket entries. *)
Definition entries_with (cfg : config) (date_from date_to : date) (v : verdict)
  (l : list fetched_issue) : list entry :=
  map (entry_of cfg) (filter (fun x => verdict_of date_from date_to x = v) l).

(** An issue is in one of the buckets done, in review, blocked or in
    progress. *)
Definition in_work_bucket (cfg : config) (r : reconciled) (x : fetched_issue) : Prop :=
  entry_of cfg x ∈ r_done_issues r \/ entry_of cfg x ∈ r_review_issues r \/
  entry_of cfg x ∈ r_blocked_issues r \/
  exists lines,
    r_worked_on r !! ident x
    = Some (Worked (i_title (info_of cfg x)) (i_url (info_of cfg x)) lines).

(** * Rendering *)

(** [sorted] on a list, by insertion into an ordered list. *)
Fixpoint insert_by {A} (leb : A -> A -> bool) (x : A) (l : list A) : list A :=
  match l with
  | [] => [x]
  | y :: l' => if leb x y then x :: l else y :: insert_by leb x l'
  end.

Definition sort_by {A} (leb : A -> A -> bool) (l : list A) : list A :=
  foldr (insert_by leb) [] l.

(** [<=] on (identifier, title, url) *)
Definition entry_le (a b : entry) : bool :=
  if String.eqb a.1.1 b.1.1 then
    if String.eqb a.1.2 b.1.2 then le a.2 b.2 else le a.1.2 b.1.2
  else le a.1.1 b.1.1.

(** [sorted(d.items())] for a dict with string keys *)
Definition sorted_items {V} (d : gmap string V) : list (string * V) :=
  omap (fun k => (fun v => (k, v)) <$> d !! k) (sorted (elements (dom d))).

(** [s.lstrip(" -–—")] *)
Fixpoint lstrip_dashes (s : string) : string :=
  match s with
  | String c s1 =>
      if (code c =? 32)%nat || (code c =? 45)%nat then lstrip_dashes s1
      else
        match s1 with
        | String c2 (String c3 s3) =>
            if (code c =? 226)%nat && (code c2 =? 128)%nat
               && ((code c3 =? 147)%nat || (code c3 =? 148)%nat)
            then lstrip_dashes s3 else s
        | _ => s
        end
  | EmptyString => EmptyString
  end.

(** [_slack_commit_line]: (sha, msg, url) of a rendered commit line;
    [_render_commits_plain] parses the line in the same way. *)
Definition _slack_commit_line (c : string) : option (string * string * string) :=
  match re_match COMMIT_RE c with
  | None => None
  | Some m =>
      let sha := strip_by (Ascii.eqb "`") (group c m 1) in
      let raw_msg := strip (lstrip_dashes (sub_empty TICKET_RE (group c m 2))) in
      let commit_url := group c m 3 in
      Some (sha, raw_msg, commit_url)
  end.

(** [by_msg.setdefault(k, []).append(v)] on an [OrderedDict] *)
Fixpoint od_append {V} (k : string) (v : V) (d : list (string * list V))
  : list (string * list V) :=
  match d with
  | [] => [(k, [v])]
  | (k', vs) :: d' =>
      if String.eqb k k' then (k', (vs ++ [v])%list) :: d'
      else (k', vs) :: od_append k v d'
  end.

Definition group_by_msg (commits : list string)
  : list (string * list (string * string)) :=
  foldl (fun d c =>
           match _slack_commit_line c with
           | None => d
           | Some (sha, raw_msg, commit_url) => od_append raw_msg (sha, commit_url) d
           end) [] commits.

Definition commit_subline (msg sha_str : string) : string :=
  "  ↳ " +:+ msg +:+ " (" +:+ sha_str +:+ ")".

Definition _render_commits_slack (commits : list string) : list string :=
  map (fun ms =>
         commit_subline ms.1
           (join ", " (map (fun sc => "<" +:+ sc.2 +:+ "|" +:+ sc.1 +:+ ">") ms.2)))
      (group_by_msg commits).

Definition _render_commits_plain (commits : list string) (add_links : bool)
  : list string :=
  map (fun ms =>
         commit_subline ms.1
           (join ", " (map (fun sc => if add_links then sc.1 +:+ " " +:+ sc.2 else sc.1)
                           ms.2)))
      (group_by_msg commits).

(** The sections of a report, and what a line of a report is: the tag
    records which statement of the renderer appended the line, and, for
    the line of an issue, the identifier it was built from. *)
Inductive section :=
  | SDone | SReview | SInProgress | SUnknown | SOrphan
  | SBlocked | SNeedTasks | SBacklog.

Inductive line_kind :=
  | KTitle
  | KHeading (s : section)
  | KIssue (s : section) (ident : string)
  | KCommit (s : section)
  | KPlaceholder (s : section).

Definition line : Type := line_kind * string.

Definition tagged (k : line_kind) (l : list string) : list line :=
  map (fun s => (k, s)) l.

Definition shows (show_commits : gset string) (group : string) : bool :=
  bool_decide (group ∈ show_commits).

Definition nl (s : string) : string := String "010" s.

Definition kind_section (k : line_kind) : option section :=
  match k with
  | KTitle => None
  | KHeading s | KIssue s _ | KCommit s | KPlaceholder s => Some s
  end.

#[global] Instance section_eq_dec : EqDecision section.
Proof. solve_decision. Defined.

(** The lines of a report that belong to a section, and the identifiers
    of the issues listed in a section, in the order of the report. *)
Definition section_lines (s : section) (lines : list line) : list line :=
  filter (fun l => kind_section l.1 = Some s) lines.

Definition in_section (s : section) (l : line) : Prop :=
  kind_section l.1 = Some s.

Definition issues_in (s : section) (lines : list line) : list string :=
  omap (fun l : line =>
          match l.1 with
          | KIssue s' i => if decide (s' = s) then Some i else None
          | _ => None
          end) lines.

(** ** Plain text *)

Definition plain_issue_line (add_links : bool) (ident title url suffix : string)
  : string :=
  let link := if add_links && negb (is_empty url) then " " +:+ url else EmptyString in
  "• " +:+ ident +:+ (if is_empty title then EmptyString else " — " +:+ title)
  +:+ suffix +:+ link.

(** The body of the loops over [done_issues] and [review_issues]. *)
Definition plain_done_item (add_links : bool) (show_commits : gset string)
  (done_commits : gmap string (list string)) (s : section) (e : entry) : list line :=
  (KIssue s e.1.1, plain_issue_line add_links e.1.1 e.1.2 e.2 EmptyString)
  :: (if shows show_commits "done"
      then tagged (KCommit s)
             (_render_commits_plain (default [] (done_commits !! e.1.1)) add_links)
      else []).

(** The body of the loop over [sorted(worked_on.items())]. *)
Definition plain_worked_item (add_links : bool) (show_commits : gset string)
  (ti : string * worked) : list line :=
  (KIssue SInProgress ti.1,
   plain_issue_line add_links ti.1 (w_title ti.2) (w_url ti.2) EmptyString)
  :: (if shows show_commits "in_progress"
      then tagged (KCommit SInProgress)
             (_render_commits_plain (w_commits ti.2) add_links)
      else []).

(** The body of the loop over [blocked_issues]. *)
Definition plain_blocked_item (add_links : bool) (e : entry) : line :=
  (KIssue SBlocked e.1.1, plain_issue_line add_links e.1.1 e.1.2 e.2 " blocked").

Definition build_report_lines (today : string)
  (done_issues review_issues : list entry) (worked_on : gmap string worked)
  (blocked_issues : list entry) (add_links : bool) (show_commits : gset string)
  (done_commits : gmap string (list string)) (orphan_commits : list string)
  : list line :=
  [(KTitle, "Daily standup — " +:+ today +:+ nl EmptyString)]
  ++ [(KHeading SDone, SEC_DONE)]
  ++ (match done_issues with
      | [] => [(KPlaceholder SDone, "• —")]
      | _ => concat (map (plain_done_item add_links show_commits done_commits SDone)
                         done_issues)
      end)
  ++ (match review_issues with
      | [] => []
      | _ => (KHeading SReview, nl SEC_REVIEW)
             :: concat (map (plain_done_item add_links show_commits done_commits
                               SReview) review_issues)
      end)
  ++ [(KHeading SInProgress, nl SEC_IN_PROGRESS)]
  ++ (if bool_decide (worked_on = ∅) then [(KPlaceholder SInProgress, "• —")]
      else concat (map (plain_worked_item add_links show_commits)
                       (sorted_items worked_on)))
  ++ (if shows show_commits "orphan" && negb (bool_decide (orphan_commits = []))
      then (KHeading SOrphan, nl SEC_ORPHAN_COMMITS)
           :: tagged (KCommit SOrphan) (_render_commits_plain orphan_commits add_links)
      else [])
  ++ [(KHeading SBlocked, nl SEC_BLOCKED)]
  ++ (match blocked_issues with
      | [] => [(KPlaceholder SBlocked, "• No")]
      | _ => map (plain_blocked_item add_links) blocked_issues
      end)
  ++ [(KHeading SNeedTasks, nl SEC_NEED_TASKS)]
  ++ [(KPlaceholder SNeedTasks, "• Need tasks: no")].

(** [build_report] *)
Definition build_report (today : string)
  (done_issues review_issues : list entry) (worked_on : gmap string worked)
  (blocked_issues : list entry) (add_links : bool) (show_commits : gset string)
  (done_commits : gmap string (list string)) (orphan_commits : list string)
  : string :=
  join (nl EmptyString)
       (map snd (build_report_lines today done_issues review_issues worked_on
                   blocked_issues add_links show_commits done_commits orphan_commits)).

(** ** Chat markup *)

Definition slack_issue_line (i t u suffix : string) : string :=
  let linked := if is_empty u then i else "<" +:+ u +:+ "|" +:+ i +:+ ">" in
  let label := if is_empty t then EmptyString else " — " +:+ t in
  "• " +:+ linked +:+ label +:+ suffix.

Definition bold (s : string) : string :=
  match split_space s with
  | Some (a, b) => a +:+ " *" +:+ b +:+ "*"
  | None => "*" +:+ s +:+ "*"
  end.

(** [commits_by_ticket[ticket]] *)
Fixpoint dict_get {V} (d : list (string * V)) (k : string) : option V :=
  match d with
  | [] => None
  | (k', v) :: d' => if String.eqb k k' then Some v else dict_get d' k
  end.

(** The tickets with commits that are neither in progress nor done. *)
Definition orphan_tickets (done_issues review_issues : list entry)
  (worked_on : gmap string worked) (commits_by_ticket : list (string * list string))
  : gset string :=
  let done_ids := done_ids_of done_issues review_issues in
  list_to_set
    (filter (fun t => worked_on !! t = None /\ t ∉ done_ids)
            (map fst commits_by_ticket)).

(** The body of the loops over [done_issues] and [review_issues]. *)
Definition slack_done_item (show_commits : gset string)
  (done_commits : gmap string (list string)) (s : section) (e : entry) : list line :=
  (KIssue s e.1.1, slack_issue_line e.1.1 e.1.2 e.2 EmptyString)
  :: (if shows show_commits "done"
      then tagged (KCommit s)
             (_render_commits_slack (default [] (done_commits !! e.1.1)))
      else []).

(** The body of the loop over [sorted(worked_on.items())]. *)
Definition slack_worked_item (show_commits : gset string) (ti : string * worked)
  : list line :=
  (KIssue SInProgress ti.1,
   slack_issue_line ti.1 (w_title ti.2) (w_url ti.2) EmptyString)
  :: (if shows show_commits "in_progress"
      then tagged (KCommit SInProgress) (_render_commits_slack (w_commits ti.2))
      else []).

(** The body of the loop over [sorted(orphan_tickets)]. *)
Definition slack_unknown_item (commits_by_ticket : list (string * list string))
  (ticket : string) : list line :=
  tagged (KCommit SUnknown)
    (map (fun l => "  " +:+ ticket +:+ ":" +:+ lstrip l)
         (_render_commits_slack (default [] (dict_get commits_by_ticket ticket)))).

(** The bodies of the loops over [blocked_issues] and
    [sorted(backlog_issues)]. *)
Definition slack_blocked_item (e : entry) : line :=
  (KIssue SBlocked e.1.1, slack_issue_line e.1.1 e.1.2 e.2 " — blocked").

Definition slack_backlog_item (e : entry) : line :=
  (KIssue SBacklog e.1.1, slack_issue_line e.1.1 e.1.2 e.2 EmptyString).

(** The section of the tickets with commits and no task. *)
Definition slack_unknown_section (done_issues review_issues : list entry)
  (worked_on : gmap string worked) (commits_by_ticket : list (string * list string))
  (show_commits : gset string) : list line :=
  if shows show_commits "in_progress" then
    let unknown :=
      orphan_tickets done_issues review_issues worked_on commits_by_ticket in
    if bool_decide (unknown = ∅) then []
    else (KHeading SUnknown, nl (bold SEC_UNKNOWN_TICKETS))
         :: concat (map (slack_unknown_item commits_by_ticket)
                        (sorted (elements unknown)))
  else [].

Definition build_slack_report_lines (today : string)
  (done_issues review_issues : list entry) (worked_on : gmap string worked)
  (blocked_issues backlog_issues : list entry)
  (commits_by_ticket : list (string * list string)) (orphan_commits : list string)
  (show_commits : gset string) (done_commits : gmap string (list string))
  : list line :=
  [(KTitle, "*Daily standup — " +:+ today +:+ "*" +:+ nl EmptyString)]
  ++ [(KHeading SDone, bold SEC_DONE)]
  ++ (match done_issues with
      | [] => [(KPlaceholder SDone, "• —")]
      | _ => concat (map (slack_done_item show_commits done_commits SDone)
                         done_issues)
      end)
  ++ (match review_issues with
      | [] => []
      | _ => (KHeading SReview, nl (bold SEC_REVIEW))
             :: concat (map (slack_done_item show_commits done_commits SReview)
                            review_issues)
      end)
  ++ [(KHeading SInProgress, nl (bold SEC_IN_PROGRESS))]
  ++ (if bool_decide (worked_on = ∅) then [(KPlaceholder SInProgress, "• —")]
      else concat (map (slack_worked_item show_commits) (sorted_items worked_on)))
  ++ slack_unknown_section done_issues review_issues worked_on commits_by_ticket
       show_commits
  ++ (if shows show_commits "orphan" && negb (bool_decide (orphan_commits = []))
      then (KHeading SOrphan, nl (bold SEC_ORPHAN_COMMITS))
           :: tagged (KCommit SOrphan) (_render_commits_slack orphan_commits)
      else [])
  ++ [(KHeading SBlocked, nl (bold SEC_BLOCKED))]
  ++ (match blocked_issues with
      | [] => [(KPlaceholder SBlocked, "• No")]
      | _ => map slack_blocked_item blocked_issues
      end)
  ++ [(KHeading SNeedTasks, nl (bold SEC_NEED_TASKS))]
  ++ [(KPlaceholder SNeedTasks, "• Need tasks: no")]
  ++ (match backlog_issues with
      | [] => []
      | _ => (KHeading SBacklog, nl ("---" +:+ nl (bold SEC_BACKLOG)))
             :: map slack_backlog_item (sort_by entry_le backlog_issues)
      end).

(** [build_slack_report] *)
Definition build_slack_report (today : string)
  (done_issues review_issues : list entry) (worked_on : gmap string worked)
  (blocked_issues backlog_issues : list entry)
  (commits_by_ticket : list (string * list string)) (orphan_commits : list string)
  (show_commits : gset string) (done_commits : gmap string (list string))
  : string :=
  join (nl EmptyString)
       (map snd (build_slack_report_lines today done_issues review_issues worked_on
                   blocked_issues backlog_issues commits_by_ticket orphan_commits
                   show_commits done_commits)).

(** * A run of the program, for the examples

    One project, [DATA], with five workflow states; the reporting window is
    Thursday 2024-01-04. *)

Module Example.

Definition cfg : config := Config "acme" "token".
Definition day : date := Date 2024 1 4.
Definition data : project := Project "p1" (Some "DATA") (Some "Data platform").

Definition states : gmap string wstate :=
  {[ "s-backlog" := WState (Some "backlog") None (Some "Backlog");
     "s-started" := WState (Some "started") None (Some "In Progress");
     "s-review" := WState (Some "started") None (Some "In Review");
     "s-done" := WState (Some "completed") None (Some "Done");
     "s-cancelled" := WState (Some "cancelled") None (Some "Cancelled") ]}.

Definition mk_issue (uuid seq title updated_at state : string) : issue :=
  Issue uuid (Some title) None (Some seq) (Some updated_at) (Some state) [].

(** Done on the day, with a commit. *)
Definition fix_bug : issue :=
  mk_issue "u42" "42" "Fix bug" "2024-01-04T16:20:00Z" "s-done".
(** In the backlog, last touched a month before, with a commit on the day. *)
Definition planned : issue :=
  mk_issue "u7" "7" "Plan the migration" "2023-12-01T09:00:00Z" "s-backlog".
(** Cancelled on the day. *)
Definition dropped : issue :=
  mk_issue "u8" "8" "Drop the old export" "2024-01-04T10:00:00Z" "s-cancelled".
(** Started, last touched a month before, with a commit on the day. *)
Definition stale : issue :=
  mk_issue "u9" "9" "Rework the loader" "2023-12-01T09:00:00Z" "s-started".
(** Started, with no date of last update. *)
Definition undated : issue :=
  Issue "u10" (Some "Tidy up") None (Some "10") None (Some "s-started") [].

Definition projects : list project_fetch :=
  [ProjectFetch data (Some (states, [fix_bug; planned; dropped; stale; undated]))].

Definition commit_of (sha message : string) : commit :=
  Commit sha message ("https://github.com/acme/etl/commit/" +:+ sha).

Definition repos : list (list fetched) :=
  [ [Fail];
    [Yield (commit_of "a1b2c3d4e5" "DATA-42 - Fix bug");
     Yield (commit_of "b2c3d4e5f6" "data-99: add the parser");
     Yield (commit_of "c3d4e5f6a7" "DATA-7 start the plan");
     Yield (commit_of "d4e5f6a7b8" "data-9: rework the loader");
     Yield (commit_of "e5f6a7b8c9" "Merge branch main into DATA-42");
     Yield (commit_of "f6a7b8c9d0" "Random fix with no ticket")] ].

Definition the_backlog_issue : fetched_issue := (data, states, planned).
Definition the_cancelled_issue : fetched_issue := (data, states, dropped).
Definition the_stale_issue : fetched_issue := (data, states, stale).

Definition parser_commit : commit := commit_of "b2c3d4e5f6" "data-99: add the parser".
Definition loader_commit : commit := commit_of "d4e5f6a7b8" "data-9: rework the loader".

Definition outcome_of_run : outcome reconciled :=
  run cfg day day projects (Ok repos).

Definition result : reconciled :=
  match outcome_of_run with
  | Ok r => r
  | Raised => Reconciled [] [] ∅ [] [] [] [] ∅
  end.

End Example.

(** * The window of the commits *)

(** A [datetime] in UTC: a date and a time of day.  Two of them are
    compared field by field, from the year to the microsecond. *)
Record datetime := DateTime {
  dt_date : date;
  dt_hour : Z;
  dt_minute : Z;
  dt_second : Z;
  dt_microsecond : Z
}.

Definition time_compare (a b : datetime) : comparison :=
  match dt_hour a ?= dt_hour b with
  | Eq => match dt_minute a ?= dt_minute b with
          | Eq => match dt_second a ?= dt_second b with
                  | Eq => dt_microsecond a ?= dt_microsecond b
                  | c => c
                  end
          | c => c
          end
  | c => c
  end.

Definition dt_compare (a b : datetime) : comparison :=
  match PyDate.compare (dt_date a) (dt_date b) with
  | Eq => time_compare a b
  | c => c
  end.

Definition dt_leb (a b : datetime) : bool :=
  match dt_compare a b with Gt => false | _ => true end.

(** [_date_window]: from [start] at 00:00:00 to [end] at 23:59:59. *)
Definition _date_window (start end_ : date) : datetime * datetime :=
  (DateTime start 0 0 0 0, DateTime end_ 23 59 59 0).

(** * The groups of [--commits] *)

Definition COMMIT_CHOICES : list string := ["all"; "done"; "in_progress"; "orphan"].

(** [show_commits] of [main]: [all] stands for the three groups. *)
Definition expand_commits (commits : list string) : gset string :=
  if bool_decide ("all" ∈ commits) then {["done"; "in_progress"; "orphan"]}
  else list_to_set commits.

(** The values of [--commits] as the argument parser accepts them: each
    one is checked against the choices, and [None] is the usage error that
    ends the program. *)
Definition parse_commits (values : list string) : option (gset string) :=
  if forallb (fun v => bool_decide (v ∈ COMMIT_CHOICES)) values
  then Some (expand_commits values) else None.

(** * The issues of a member ([get_my_issues]) *)

(** An entry of the [assignees] of a work item: an object that may have
    an ["id"], or a plain identifier. *)
Inductive assignee :=
  | AObject (id : option string)
  | AId (id : string).

(** A work item as the tracker lists it: the issue, and its assignees when
    it has the key. *)
Record work_item := WorkItem {
  wi_issue : issue;
  wi_assignees : option (list assignee)
}.

(** A page of work items: a bare list, or an object that may have
    ["results"] and whose ["next"] is truthy or not. *)
Inductive page :=
  | PageList (items : list work_item)
  | PageObject (results : option (list work_item)) (next : bool).

Definition is_assigned (member_id : string) (w : work_item) : bool :=
  existsb (fun a => match a with
                    | AObject (Some i) => String.eqb i member_id
                    | AObject None => false
                    | AId i => String.eqb i member_id
                    end)
          (default [] (wi_assignees w)).

(** The loop over the pages, from the page [page_no] on; [api n] is the
    answer to the request for the page [n], [Raised] when it is an HTTP
    error.  The loop has no bound of its own: [None] says that it is still
    running after [fuel] requests. *)
Fixpoint fetch_pages (fuel : nat) (api : nat -> outcome page) (page_no : nat)
  (all_issues : list work_item) : option (outcome (list work_item)) :=
  match fuel with
  | O => None
  | S fuel' =>
      match api page_no with
      | Raised => Some Raised
      | Ok (PageList items) => Some (Ok (all_issues ++ items)%list)
      | Ok (PageObject results next) =>
          let all_issues' := (all_issues ++ default [] results)%list in
          if next then fetch_pages fuel' api (S page_no) all_issues'
          else Some (Ok all_issues')
      end
  end.

Definition get_my_issues (fuel : nat) (api : nat -> outcome page)
  (member_id : string) : option (outcome (list work_item)) :=
  match fetch_pages fuel api 1 [] with
  | Some (Ok all_issues) => Some (Ok (filter (fun w => is_assigned member_id w = true) all_issues))
  | Some Raised => Some Raised
  | None => None
  end.

(** What a page adds to the issues, and whether the loop ends on it. *)
Definition page_items (p : page) : list work_item :=
  match p with
  | PageList items => items
  | PageObject results _ => default [] results
  end.

Definition last_page (p : page) : bool :=
  match p with
  | PageList _ => true
  | PageObject _ next => negb next
  end.

(** The [try] of the loop over the projects: the project is skipped when
    [get_states] or [get_my_issues] raises an HTTP error. *)
Definition fetch_project (p : project) (states : outcome (gmap string wstate))
  (issues : outcome (list work_item)) : project_fetch :=
  ProjectFetch p
    match states, issues with
    | Ok states, Ok issues => Some (states, map wi_issue issues)
    | _, _ => None
    end.

(** * ASCII text

    The classes of characters of [PyStr] and the patterns of [PyRe] are
    those of Python on ASCII text: [str.isspace], [\s], [\d], [\w], [\b],
    [str.lower], [str.upper] and the line boundaries of [str.splitlines]
    also know characters outside ASCII, which in UTF-8 are sequences of
    bytes from 128 on.  A statement on what a pattern matches or on what
    [strip] removes is made for text whose bytes are all below 128. *)

Definition is_ascii (c : ascii) : bool := (code c <? 128)%nat.

Definition ascii_text (s : string) : bool := every is_ascii s.

(** The first line of the message of a commit is ASCII text; so are the
    three texts that make the line of the commit: the first seven
    characters of its hash, the first line of its message and its
    address. *)
Definition ascii_message (c : commit) : bool :=
  ascii_text (until_linebreak (c_message c)).


(** * What a commit is filed as *)

(** The line of a commit and the keys it is filed under, the empty list
    for a commit without ticket; [None] for a commit that is not filed: a
    merge, or a commit with an empty message. *)
Definition filed (c : commit) : option (string * list string) :=
  match first_line (c_message c) with
  | None => None
  | Some msg =>
      match re_match MERGE_RE msg with
      | Some _ => None
      | None => Some (short_line c msg, map upper (findall TICKET_RE msg))
      end
  end.

(** A list of strings in strictly ascending order. *)
Fixpoint ascending (l : list string) : bool :=
  match l with
  | a :: l' =>
      match l' with
      | b :: _ => String.ltb a b && ascending l'
      | [] => true
      end
  | [] => true
  end.

(** No key of [by_ticket] has an empty set of lines. *)
Definition inhabited_keys (s : scan_state) : Prop :=
  forall k msgs, by_ticket s !! k = Some msgs -> exists l, l ∈ msgs.

(** A printable ASCII character other than the space. *)
Definition is_graph (c : ascii) : bool := in_range 33 126 c.

(** The text starts and ends with a printable ASCII character other than
    the space. *)
Definition trimmed (s : string) : bool :=
  match s with
  | String x _ =>
      is_graph x
      && match last_or None s with Some y => is_graph y | None => false end
  | EmptyString => false
  end.

(** * The outline of a report *)

(** The group of [--commits] that the commit lines of a section belong
    to. *)
Definition section_group (s : section) : option string :=
  match s with
  | SDone | SReview => Some "done"
  | SInProgress | SUnknown => Some "in_progress"
  | SOrphan => Some "orphan"
  | SBlocked | SNeedTasks | SBacklog => None
  end.

(** A commit line is in a section whose group is shown. *)
Definition commits_allowed (show_commits : gset string) (l : line) : Prop :=
  match l.1 with
  | KCommit s => exists g, section_group s = Some g /\ g ∈ show_commits
  | _ => True
  end.

(** The headings and the placeholders of a report, in its order. *)
Definition headings (lines : list line) : list section :=
  omap (fun l : line => match l.1 with KHeading s => Some s | _ => None end) lines.

Definition placeholders (lines : list line) : list section :=
  omap (fun l : line => match l.1 with KPlaceholder s => Some s | _ => None end) lines.

(** The line of an item of a section: an issue, or its commits. *)
Definition item_line (l : line) : Prop :=
  match l.1 with KIssue _ _ | KCommit _ => True | _ => False end.

(** * The text copied to the clipboard *)

(** [c] put in front of the first of the lines [ls]. *)
Definition push (c : ascii) (ls : list string) : list string :=
  match ls with
  | [] => [String c EmptyString]
  | l :: ls' => String c l :: ls'
  end.

(** The lines of [s], after the [skip] bytes that are left of a
    boundary. *)
Fixpoint lines_from (skip : nat) (s : string) : list string :=
  match s with
  | EmptyString => []
  | String c s' =>
      match skip with
      | S k => lines_from k s'
      | O =>
          match boundary_length s with
          | O => push c (lines_from 0 s')
          | S k => EmptyString :: lines_from k s'
          end
      end
  end.

(** [s.splitlines()] *)
Definition splitlines (s : string) : list string := lines_from 0 s.

(** The text that [main] copies: the report without its first two
    lines. *)
Definition clipboard_body (report : string) : string :=
  join (nl EmptyString) (skipn 2 (splitlines report)).

(** A character of a date in the format [%Y-%m-%d]. *)
Definition is_date_char (c : ascii) : bool := is_digit c || (code c =? 45)%nat.

(** The line feed is the only line boundary of [s]. *)
Fixpoint only_line_feeds (s : string) : bool :=
  match s with
  | EmptyString => true
  | String c s' =>
      ((boundary_length s =? 0)%nat || (code c =? 10)%nat) && only_line_feeds s'
  end.

(** * The backlog on the terminal *)

(** The lines that [main] prints last: the backlog, sorted, one line an
    issue, under a heading; nothing when the backlog is empty. *)
Definition backlog_terminal_line (add_links : bool) (e : entry) : line :=
  (KIssue SBacklog e.1.1,
   "• " +:+ e.1.1 +:+ " — " +:+ e.1.2
   +:+ (if add_links then " " +:+ e.2 else EmptyString)).

Definition backlog_terminal_lines (add_links : bool) (backlog_issues : list entry)
  : list line :=
  match backlog_issues with
  | [] => []
  | _ => (KHeading SBacklog, nl "--- Backlog (assigned, not started) ---")
         :: map (backlog_terminal_line add_links) (sort_by entry_le backlog_issues)
  end.

(** A list in which every element is below the next, for [leb]. *)
Fixpoint ordered {A} (leb : A -> A -> bool) (l : list A) : bool :=
  match l with
  | a :: l' =>
      match l' with
      | b :: _ => leb a b && ordered leb l'
      | [] => true
      end
  | [] => true
  end.

(** * Reading a report

    What a reader finds in the text of a report: its lines; among them
    the headings of the sections, with or without the emphasis of the chat
    markup; and, under a heading, the lines of the issues, each with the
    identifier it starts with, bare or as the label of a link
    [<url|label>], the lines of the commits, which are indented, and the
    placeholder of an empty section. *)

(** [text.split("\n")] *)
Fixpoint split_nl (s : string) : list string :=
  match s with
  | EmptyString => [EmptyString]
  | String c s' =>
      if (code c =? 10)%nat then EmptyString :: split_nl s'
      else push c (split_nl s')
  end.

(** The line without the asterisks of the emphasis. *)
Fixpoint unbold (s : string) : string :=
  match s with
  | String c s' => if Ascii.eqb c "*" then unbold s' else String c (unbold s')
  | EmptyString => EmptyString
  end.

Definition section_headings : list (string * section) :=
  [(SEC_DONE, SDone); (SEC_REVIEW, SReview); (SEC_IN_PROGRESS, SInProgress);
   (SEC_UNKNOWN_TICKETS, SUnknown); (SEC_ORPHAN_COMMITS, SOrphan);
   (SEC_BLOCKED, SBlocked); (SEC_NEED_TASKS, SNeedTasks); (SEC_BACKLOG, SBacklog)].

Definition read_heading (l : string) : option section :=
  snd <$> List.find (fun h : string * section => String.eqb (unbold l) h.1)
            section_headings.

(** The text before the first [c], and the text after it. *)
Fixpoint until_char (c : ascii) (s : string) : string :=
  match s with
  | String x s' => if Ascii.eqb x c then EmptyString else String x (until_char c s')
  | EmptyString => EmptyString
  end.

Fixpoint after_char (c : ascii) (s : string) : string :=
  match s with
  | String x s' => if Ascii.eqb x c then s' else after_char c s'
  | EmptyString => EmptyString
  end.

Definition bullet : string := "• ".

(** The lines that the renderers put in a section that lists nothing. *)
Definition placeholder_lines : list string := ["• —"; "• No"; "• Need tasks: no"].

(** The identifier that an item starts with: the label of the link when
    the item starts with a link, its first word otherwise. *)
Definition read_identifier (item : string) : string :=
  match item with
  | String c link =>
      if Ascii.eqb c "<" then until_char ">" (after_char "|" link)
      else until_char " " item
  | EmptyString => EmptyString
  end.

Inductive mark :=
  | MHeading (s : section)
  | MIssue (ident : string)
  | MCommit
  | MPlaceholder.

Definition read_line (l : string) : option mark :=
  match read_heading l with
  | Some s => Some (MHeading s)
  | None =>
      if String.prefix bullet l then
        if bool_decide (l ∈ placeholder_lines) then Some MPlaceholder
        else Some (MIssue (read_identifier (drop (String.length bullet) l)))
      else if String.prefix "  " l then Some MCommit
      else None
  end.

(** What the lines of a text are read as, in the order of the text. *)
Definition marks (text : string) : list mark := omap read_line (split_nl text).

(** The marks under the heading of the section [s]: from the heading to
    the next heading; [cur] is the heading read last. *)
Fixpoint under (cur : option section) (s : section) (ms : list mark) : list mark :=
  match ms with
  | [] => []
  | MHeading s' :: ms' => under (Some s') s ms'
  | m :: ms' =>
      if decide (cur = Some s) then m :: under cur s ms' else under cur s ms'
  end.

Definition section_marks (s : section) (text : string) : list mark :=
  under None s (marks text).

Definition issue_of (m : mark) : option string :=
  match m with MIssue i => Some i | _ => None end.

Definition heading_of (m : mark) : option section :=
  match m with MHeading s => Some s | _ => None end.

(** The identifiers of the issues that the text lists in the section [s],
    the identifiers of all the issues that it lists, and its headings. *)
Definition issues_read (s : section) (text : string) : list string :=
  omap issue_of (section_marks s text).

Definition issues_listed (text : string) : list string :=
  omap issue_of (marks text).

Definition headings_read (text : string) : list section :=
  omap heading_of (marks text).

(** ** Texts that can be read back

    An identifier is made of letters, digits, underscores and hyphens, with
    a hyphen at least, as those that [get_issue_identifier] makes from the
    identifier of a project and those of the pattern of the tickets are.
    A title, an address and the line of a commit have no line feed, and an
    address has no vertical bar, which ends the address of a link. *)
Definition id_char (c : ascii) : bool := is_word c || Ascii.eqb c "-".

Definition is_identifier (i : string) : bool := every id_char i && contains "-" i.

Definition single_line (s : string) : bool := every not_newline s.

Definition link_char (c : ascii) : bool := not_newline c && negb (Ascii.eqb c "|").

Definition link_target (u : string) : bool := every link_char u.

Definition readable_entry (e : entry) : bool :=
  is_identifier e.1.1 && single_line e.1.2 && link_target e.2.

Definition readable_worked (kw : string * worked) : bool :=
  is_identifier kw.1 && single_line (w_title kw.2) && link_target (w_url kw.2)
  && forallb single_line (w_commits kw.2).

Definition readable_commits (kl : string * list string) : bool :=
  single_line kl.1 && forallb single_line kl.2.

(** The arguments of the renderers can be read back. *)
Definition readable (today : string) (done_issues review_issues : list entry)
  (worked_on : gmap string worked) (blocked_issues backlog_issues : list entry)
  (commits_by_ticket : list (string * list string)) (orphan_commits : list string)
  (done_commits : gmap string (list string)) : bool :=
  single_line today
  && forallb readable_entry done_issues && forallb readable_entry review_issues
  && forallb readable_worked (map_to_list worked_on)
  && forallb readable_entry blocked_issues && forallb readable_entry backlog_issues
  && forallb readable_commits commits_by_ticket
  && forallb single_line orphan_commits
  && forallb readable_commits (map_to_list done_commits).

(** What [main] prints last, as one text: [print] ends each of its lines
    with a line feed. *)
Definition printed (lines : list string) : string :=
  foldr (fun l text => l +:+ nl text) EmptyString lines.

Definition backlog_terminal_text (add_links : bool) (backlog_issues : list entry)
  : string :=
  printed (map snd (backlog_terminal_lines add_links backlog_issues)).

(** ** The reading of a tagged line

    What the text of a line of the model is to be read as, given its tag;
    that the text is read so is proved, not assumed. *)
Definition mark_of (l : line) : option mark :=
  match l.1 with
  | KTitle => None
  | KHeading s => Some (MHeading s)
  | KIssue _ i => Some (MIssue i)
  | KCommit _ => Some MCommit
  | KPlaceholder _ => Some MPlaceholder
  end.

Definition reads_as (l : line) : Prop :=
  omap read_line (split_nl l.2) = option_list (mark_of l).

(** A line of the section [s] that is not its heading. *)
Definition item_of (s : section) (l : line) : Prop :=
  match l.1 with
  | KIssue s' _ | KCommit s' | KPlaceholder s' => s' = s
  | _ => False
  end.

(** A heading and the lines of its section, or nothing. *)
Definition block (b : list line) : Prop :=
  b = [] \/ exists s t body, b = (KHeading s, t) :: body /\ Forall (item_of s) body.

Definition items_of (s : section) (lines : list line) : list mark :=
  omap (fun l : line =>
          match l.1 with
          | KIssue s' _ | KCommit s' | KPlaceholder s' =>
              if decide (s' = s) then mark_of l else None
          | _ => None
          end) lines.

(** The parts of the commits grouped under a message have no line feed. *)
Definition single_group (ms : string * list (string * string)) : bool :=
  single_line ms.1 && forallb (fun sc => single_line sc.1 && single_line sc.2) ms.2.

(** * A second run, a paginated listing and two reports, for the examples

    The project [DATA] again, with an issue that has the blocked label and
    a commit on the day, and an issue whose state is not among the states
    of the project; and three answers of the tracker to the requests for
    the pages of work items. *)

Module Example2.

Definition waiting : issue :=
  Issue "u20" (Some "Wait for the vendor") None (Some "20")
        (Some "2024-01-04T08:00:00Z") (Some "s-started") [Some "Blocked"].

Definition stateless : issue :=
  Issue "u21" (Some "Lost state") None (Some "21")
        (Some "2024-01-04T09:00:00Z") (Some "s-deleted") [Some "blocked"].

Definition second_projects : list project_fetch :=
  [ProjectFetch Example.data (Some (Example.states, [waiting; stateless]))].

Definition vendor_commit : commit :=
  Example.commit_of "0a1b2c3d4e" "DATA-20: ask the vendor again".

Definition second_repos : list (list fetched) := [[Yield vendor_commit]].

Definition the_blocked_issue : fetched_issue := (Example.data, Example.states, waiting).
Definition the_stateless_issue : fetched_issue :=
  (Example.data, Example.states, stateless).

Definition second_result : reconciled :=
  match run Example.cfg Example.day Example.day second_projects (Ok second_repos) with
  | Ok r => r
  | Raised => Reconciled [] [] ∅ [] [] [] [] ∅
  end.

Definition mine : work_item := WorkItem Example.fix_bug (Some [AId "me"]).
Definition yours : work_item :=
  WorkItem Example.planned (Some [AObject (Some "you"); AObject None]).
Definition ours : work_item :=
  WorkItem Example.stale (Some [AId "you"; AObject (Some "me")]).

Definition first_page : page := PageObject (Some [mine; yours]) true.
Definition second_page : page := PageList [ours].

(** Two pages, the second a bare list. *)
Definition api (n : nat) : outcome page :=
  match n with
  | 1%nat => Ok first_page
  | 2%nat => Ok second_page
  | _ => Raised
  end.

(** The second page is an HTTP error. *)
Definition failing_api (n : nat) : outcome page :=
  match n with
  | 1%nat => Ok first_page
  | _ => Raised
  end.

(** Every page names a next page. *)
Definition endless_api (n : nat) : outcome page := Ok (PageObject None true).

(** The two reports of the first run, of the day after, with all the
    commits and with links. *)
Definition shown : gset string := {["done"; "in_progress"; "orphan"]}.

Definition plain_report (add_links : bool) (show_commits : gset string) : string :=
  build_report "2024-01-05" (r_done_issues Example.result)
    (r_review_issues Example.result) (r_worked_on Example.result)
    (r_blocked_issues Example.result) add_links show_commits
    (r_done_commits Example.result) (r_orphan_commits Example.result).

Definition chat_report (show_commits : gset string) : string :=
  build_slack_report "2024-01-05" (r_done_issues Example.result)
    (r_review_issues Example.result) (r_worked_on Example.result)
    (r_blocked_issues Example.result) (r_backlog_issues Example.result)
    (r_commits_by_ticket Example.result) (r_orphan_commits Example.result)
    show_commits (r_done_commits Example.result).

End Example2.

(* ===================================================================== *)
(** * Part II: properties *)
(* ===================================================================== *)

Local Open Scope list_scope.

(** ** Calendar facts *)

Section Calendar.

Lemma days_before_year_split (a b c d : Z) :
  0 <= b <= 3 -> 0 <= c <= 24 -> 0 <= d <= 3 ->
  days_before_year (a * 400 + 1 + b * 100 + c * 4 + d)
  = a * 146097 + b * 36524 + c * 1461 + d * 365.
Proof.
  intros Hb Hc Hd. unfold days_before_year. cbv zeta.
  replace (a * 400 + 1 + b * 100 + c * 4 + d - 1)
    with (a * 400 + b * 100 + c * 4 + d) by ring.
  assert (H4 : (a * 400 + b * 100 + c * 4 + d) / 4 = a * 100 + b * 25 + c).
  { symmetry. apply Z.div_unique with (r := d); lia. }
  assert (H100 : (a * 400 + b * 100 + c * 4 + d) / 100 = a * 4 + b).
  { symmetry. apply Z.div_unique with (r := c * 4 + d); lia. }
  assert (H400 : (a * 400 + b * 100 + c * 4 + d) / 400 = a).
  { symmetry. apply Z.div_unique with (r := b * 100 + c * 4 + d); lia. }
  rewrite H4, H100, H400. ring.
Qed.

Lemma is_leap_split (a b c d : Z) :
  0 <= b <= 3 -> 0 <= c <= 24 -> 0 <= d <= 3 ->
  is_leap (a * 400 + 1 + b * 100 + c * 4 + d)
  = (d =? 3) && (negb (c =? 24) || (b =? 3)).
Proof.
  intros Hb Hc Hd. unfold is_leap.
  assert (H4 : (a * 400 + 1 + b * 100 + c * 4 + d) mod 4 = (d + 1) mod 4).
  { replace (a * 400 + 1 + b * 100 + c * 4 + d)
      with (d + 1 + (a * 100 + b * 25 + c) * 4) by ring.
    apply Z_mod_plus_full. }
  assert (H100 : (a * 400 + 1 + b * 100 + c * 4 + d) mod 100
                 = (c * 4 + d + 1) mod 100).
  { replace (a * 400 + 1 + b * 100 + c * 4 + d)
      with (c * 4 + d + 1 + (a * 4 + b) * 100) by ring.
    apply Z_mod_plus_full. }
  assert (H400 : (a * 400 + 1 + b * 100 + c * 4 + d) mod 400
                 = (b * 100 + c * 4 + d + 1) mod 400).
  { replace (a * 400 + 1 + b * 100 + c * 4 + d)
      with (b * 100 + c * 4 + d + 1 + a * 400) by ring.
    apply Z_mod_plus_full. }
  rewrite H4, H100, H400.
  destruct (Z.eqb_spec d 3) as [->|Hd3].
  - destruct (Z.eqb_spec c 24) as [->|Hc24].
    + destruct (Z.eqb_spec b 3) as [->|Hb3]; [reflexivity|].
      assert (b = 0 \/ b = 1 \/ b = 2) as [->|[->| ->]] by lia; reflexivity.
    + assert (Hm : (c * 4 + 3 + 1) mod 100 <> 0).
      { rewrite Z.mod_small by lia. lia. }
      apply Z.eqb_neq in Hm. rewrite Hm. reflexivity.
  - assert (Hm : (d + 1) mod 4 <> 0).
    { rewrite Z.mod_small by lia. lia. }
    apply Z.eqb_neq in Hm. rewrite Hm. reflexivity.
Qed.

Lemma month_day_table :
  forallb (fun k => month_day_ok (Z.of_nat k) true && month_day_ok (Z.of_nat k) false)
          (seq 0 365) = true.
Proof. vm_compute. reflexivity. Qed.

Lemma month_day_spec (n : Z) (leapyear : bool) :
  0 <= n <= 364 -> month_day_ok n leapyear = true.
Proof.
  intros Hn.
  pose proof month_day_table as T.
  rewrite forallb_forall in T.
  specialize (T (Z.to_nat n)).
  rewrite Z2Nat.id in T by lia.
  assert (Hin : In (Z.to_nat n) (seq 0 365)) by (apply in_seq; lia).
  apply T in Hin. apply andb_true_iff in Hin.
  destruct leapyear; tauto.
Qed.

(** Splitting an ordinal into 400-, 100-, 4- and 1-year cycles. *)
Lemma ord_cycles (n : Z) :
  0 <= n ->
  let a := n / DI400Y in
  let r1 := n mod DI400Y in
  let b := r1 / DI100Y in
  let r2 := r1 mod DI100Y in
  let c := r2 / DI4Y in
  let r3 := r2 mod DI4Y in
  let d := r3 / 365 in
  let r4 := r3 mod 365 in
  n = a * 146097 + b * 36524 + c * 1461 + d * 365 + r4 /\
  0 <= a /\ 0 <= b <= 4 /\ 0 <= c <= 24 /\ 0 <= d <= 4 /\ 0 <= r4 <= 364 /\
  (b = 4 -> c = 0 /\ d = 0 /\ r4 = 0) /\
  (d = 4 -> r4 = 0 /\ c <= 23).
Proof.
  intros Hn. unfold DI400Y, DI100Y, DI4Y. cbv zeta.
  pose proof (Z.div_mod n 146097 ltac:(lia)) as E1.
  pose proof (Z.mod_pos_bound n 146097 ltac:(lia)) as B1.
  set (a := n / 146097) in *. set (r1 := n mod 146097) in *.
  pose proof (Z.div_mod r1 36524 ltac:(lia)) as E2.
  pose proof (Z.mod_pos_bound r1 36524 ltac:(lia)) as B2.
  set (b := r1 / 36524) in *. set (r2 := r1 mod 36524) in *.
  pose proof (Z.div_mod r2 1461 ltac:(lia)) as E3.
  pose proof (Z.mod_pos_bound r2 1461 ltac:(lia)) as B3.
  set (c := r2 / 1461) in *. set (r3 := r2 mod 1461) in *.
  pose proof (Z.div_mod r3 365 ltac:(lia)) as E4.
  pose proof (Z.mod_pos_bound r3 365 ltac:(lia)) as B4.
  set (d := r3 / 365) in *. set (r4 := r3 mod 365) in *.
  clearbody a r1 b r2 c r3 d r4.
  repeat split; lia.
Qed.

(** Converting an ordinal to a date and back is the identity. *)
Lemma toordinal_fromordinal (n : Z) :
  1 <= n -> toordinal (fromordinal n) = n.
Proof.
  intros Hn. unfold fromordinal, ord2ymd. cbv zeta.
  pose proof (ord_cycles (n - 1) ltac:(lia)) as C. cbv zeta in C.
  set (a := (n - 1) / DI400Y) in *.
  set (r1 := (n - 1) mod DI400Y) in *.
  set (b := r1 / DI100Y) in *. set (r2 := r1 mod DI100Y) in *.
  set (c := r2 / DI4Y) in *. set (r3 := r2 mod DI4Y) in *.
  set (d := r3 / 365) in *. set (r4 := r3 mod 365) in *.
  clearbody a r1 b r2 c r3 d r4.
  destruct C as (E & Ha & Hb & Hc & Hd & Hr & Hb4 & Hd4).
  destruct (Z.eqb_spec d 4) as [Ed|Nd]; cbn [orb].
  - destruct (Hd4 Ed) as [Er Hc']. subst d r4.
    unfold toordinal, ymd2ord, days_before_month. cbn [year month day].
    replace (a * 400 + 1 + b * 100 + c * 4 + 4 - 1)
      with (a * 400 + 1 + b * 100 + c * 4 + 3) by ring.
    assert (Hb3 : 0 <= b <= 3).
    { destruct (Z.eq_dec b 4) as [Eb|]; [destruct (Hb4 Eb); lia | lia]. }
    rewrite is_leap_split, days_before_year_split by lia.
    assert (Hc24 : (c =? 24) = false) by (apply Z.eqb_neq; lia).
    rewrite Hc24. cbn. lia.
  - destruct (Z.eqb_spec b 4) as [Eb|Nb].
    + destruct (Hb4 Eb) as (Ec & Ed & Er). subst b c d r4.
      unfold toordinal, ymd2ord, days_before_month. cbn [year month day].
      replace (a * 400 + 1 + 4 * 100 + 0 * 4 + 0 - 1)
        with (a * 400 + 1 + 3 * 100 + 24 * 4 + 3) by ring.
      rewrite is_leap_split, days_before_year_split by lia.
      cbn. lia.
    + pose proof (month_day_spec r4 ((d =? 3) && (negb (c =? 24) || (b =? 3))) Hr)
        as M.
      unfold month_day_ok in M. cbv zeta in M.
      set (md := month_day r4 ((d =? 3) && (negb (c =? 24) || (b =? 3)))) in *.
      unfold toordinal, ymd2ord, days_before_month. cbn [year month day].
      rewrite is_leap_split, days_before_year_split by lia.
      repeat (apply andb_true_iff in M; destruct M as [M ?]).
      match goal with H : (_ =? r4 + 1) = true |- _ => apply Z.eqb_eq in H end.
      lia.
Qed.

Lemma sub_days_Some (d : date) (k : Z) :
  0 < toordinal d - k <= MAXORDINAL ->
  exists d', sub_days d k = Some d' /\ toordinal d' = toordinal d - k.
Proof.
  intros [Hlo Hhi]. unfold sub_days. cbv zeta.
  assert (E : (0 <? toordinal d - k) && (toordinal d - k <=? MAXORDINAL) = true).
  { apply andb_true_iff; split; [apply Z.ltb_lt | apply Z.leb_le]; lia. }
  rewrite E. eexists; split; [reflexivity|].
  apply toordinal_fromordinal. lia.
Qed.

Lemma weekday_shift (d d' : date) (k : Z) :
  toordinal d' = toordinal d - k ->
  weekday d' = (weekday d - k) mod 7.
Proof.
  intros E. unfold weekday. rewrite E.
  rewrite Zminus_mod_idemp_l. f_equal. ring.
Qed.

Lemma days_before_month_bound (y m d : Z) :
  1 <= m <= 12 -> 1 <= d <= days_in_month y m ->
  1 <= days_before_month y m + d <= 365 + (if is_leap y then 1 else 0).
Proof.
  intros Hm Hd. unfold days_before_month, days_in_month in *.
  assert (m = 1 \/ m = 2 \/ m = 3 \/ m = 4 \/ m = 5 \/ m = 6 \/ m = 7 \/
          m = 8 \/ m = 9 \/ m = 10 \/ m = 11 \/ m = 12) as Hcases by lia.
  destruct (is_leap y);
    repeat (destruct Hcases as [-> | Hcases]); try subst m; cbn in *; lia.
Qed.

Lemma toordinal_bounds (d : date) :
  valid d -> 1 <= toordinal d <= MAXORDINAL.
Proof.
  intros (Hy & Hm & Hd).
  pose proof (days_before_month_bound _ _ _ Hm Hd) as B.
  unfold toordinal, ymd2ord, MAXORDINAL.
  destruct (Z.eq_dec (year d) 9999) as [E|N].
  - rewrite E in *. change (is_leap 9999) with false in B.
    change (days_before_year 9999) with 3651694. lia.
  - assert (0 <= days_before_year (year d) <= 3651331).
    { unfold days_before_year. cbv zeta.
      set (p := year d - 1). assert (0 <= p <= 9997) by (subst p; lia).
      clearbody p.
      pose proof (Z.div_mod p 4 ltac:(lia)).
      pose proof (Z.mod_pos_bound p 4 ltac:(lia)).
      pose proof (Z.div_mod p 100 ltac:(lia)).
      pose proof (Z.mod_pos_bound p 100 ltac:(lia)).
      pose proof (Z.div_mod p 400 ltac:(lia)).
      pose proof (Z.mod_pos_bound p 400 ltac:(lia)).
      lia. }
    destruct (is_leap (year d)); lia.
Qed.

End Calendar.

(** ** The reporting window *)

Section Window.

Lemma prev_workday_monday (today : date) :
  valid today -> 3 < toordinal today -> weekday today = 0 ->
  exists fri, prev_workday today = Some fri
    /\ toordinal fri = toordinal today - 3 /\ weekday fri = 4.
Proof.
  intros V Hlo Hw. pose proof (toordinal_bounds _ V) as B.
  unfold prev_workday. rewrite Hw. cbn [Z.eqb].
  destruct (sub_days_Some today 3 ltac:(lia)) as (fri & E & O).
  exists fri. split; [exact E|]. split; [exact O|].
  rewrite (weekday_shift today fri 3 O), Hw. reflexivity.
Qed.

Lemma prev_workday_other (today : date) :
  valid today -> 1 < toordinal today -> weekday today <> 0 ->
  exists y, prev_workday today = Some y /\ toordinal y = toordinal today - 1.
Proof.
  intros V Hlo Hw. pose proof (toordinal_bounds _ V) as B.
  unfold prev_workday. apply Z.eqb_neq in Hw. rewrite Hw.
  apply sub_days_Some. lia.
Qed.

(** An override that does not fall on a Monday is reported as that single
    day. *)
Lemma override_other_day (d today : date) :
  weekday d <> 0 -> resolve_window (Some d) today = Some (d, d, d).
Proof.
  intros Hw. unfold resolve_window, workday_range. cbn.
  apply Z.eqb_neq in Hw. rewrite Hw. reflexivity.
Qed.

(** An override that falls on a Monday yields a window that ends on the
    Sunday before it starts. *)
Lemma override_monday (d today : date) :
  valid d -> 1 < toordinal d -> weekday d = 0 ->
  exists e, resolve_window (Some d) today = Some (d, d, e)
    /\ toordinal e = toordinal d - 1.
Proof.
  intros V Hlo Hw. pose proof (toordinal_bounds _ V) as B.
  unfold resolve_window, workday_range. cbn. rewrite Hw. cbn [Z.eqb].
  destruct (sub_days_Some d 1 ltac:(lia)) as (e & E & O).
  exists e. rewrite E. cbn. split; [reflexivity | exact O].
Qed.

(** C1 (the code departs from the claim): with [--date 2024-01-01], a
    Monday, the resolved window runs from 2024-01-01 to 2023-12-31; it is
    not the single overridden day, and its start is after its end. *)
Theorem override_on_monday_window :
  forall today : date,
    weekday (Date 2024 1 1) = 0 /\
    resolve_window (Some (Date 2024 1 1)) today
      = Some (Date 2024 1 1, Date 2024 1 1, Date 2023 12 31) /\
    PyDate.leb (Date 2024 1 1) (Date 2023 12 31) = false.
Proof. intros today. repeat split; vm_compute; reflexivity. Qed.

(** C6: with no override, on a Monday the window starts on the Friday three
    days before today and ends on the Sunday immediately before today, three
    calendar days in all; on any other day the window is yesterday alone. *)
Theorem window_without_override (today : date) :
  valid today -> 3 < toordinal today ->
  (weekday today = 0 ->
   exists fri sun,
     resolve_window None today = Some (fri, fri, sun)
     /\ toordinal fri = toordinal today - 3 /\ weekday fri = 4
     /\ toordinal sun = toordinal today - 1 /\ weekday sun = 6
     /\ toordinal sun - toordinal fri + 1 = 3)
  /\
  (weekday today <> 0 ->
   exists yesterday,
     resolve_window None today = Some (yesterday, yesterday, yesterday)
     /\ toordinal yesterday = toordinal today - 1).
Proof.
  intros V Hlo. pose proof (toordinal_bounds _ V) as B. split; intros Hw.
  - destruct (prev_workday_monday today V Hlo Hw) as (fri & Ef & Of & Wf).
    destruct (sub_days_Some today 1 ltac:(lia)) as (sun & Es & Os).
    exists fri, sun. unfold resolve_window, workday_range.
    rewrite Ef. cbn. rewrite Hw. cbn [Z.eqb]. rewrite Es. cbn.
    repeat split; try assumption; try lia.
    rewrite (weekday_shift today sun 1 Os), Hw. reflexivity.
  - destruct (prev_workday_other today V ltac:(lia) Hw) as (y & Ey & Oy).
    exists y. unfold resolve_window, workday_range.
    rewrite Ey. cbn. apply Z.eqb_neq in Hw. rewrite Hw. cbn.
    split; [reflexivity | exact Oy].
Qed.

Lemma window_without_override_witness :
  valid (Date 2024 1 8) /\ 3 < toordinal (Date 2024 1 8) /\
  weekday (Date 2024 1 8) = 0 /\
  exists fri sun,
    resolve_window None (Date 2024 1 8) = Some (fri, fri, sun)
    /\ toordinal fri = toordinal (Date 2024 1 8) - 3 /\ weekday fri = 4
    /\ toordinal sun = toordinal (Date 2024 1 8) - 1 /\ weekday sun = 6
    /\ toordinal sun - toordinal fri + 1 = 3.
Proof.
  assert (V : valid (Date 2024 1 8)) by (vm_compute; intuition discriminate).
  assert (L : 3 < toordinal (Date 2024 1 8)) by (vm_compute; reflexivity).
  assert (W : weekday (Date 2024 1 8) = 0) by (vm_compute; reflexivity).
  split; [exact V|]. split; [exact L|]. split; [exact W|].
  exact (proj1 (window_without_override (Date 2024 1 8) V L) W).
Defined.

End Window.

(** ** Dates as text

    The window is applied to the first ten characters of a timestamp by
    comparing strings; on a timestamp that starts with an ISO date this is
    the comparison of the dates. *)

Section DateText.

Lemma digit_compare (x y : Z) :
  Ascii.compare (digit x) (digit y) = (x mod 10 ?= y mod 10).
Proof.
  unfold digit.
  pose proof (Z.mod_pos_bound x 10 ltac:(lia)) as Hx.
  pose proof (Z.mod_pos_bound y 10 ltac:(lia)) as Hy.
  set (a := x mod 10) in *. set (b := y mod 10) in *. clearbody a b.
  assert (a = 0 \/ a = 1 \/ a = 2 \/ a = 3 \/ a = 4 \/ a = 5 \/ a = 6 \/ a = 7
          \/ a = 8 \/ a = 9) as Ha by lia.
  assert (b = 0 \/ b = 1 \/ b = 2 \/ b = 3 \/ b = 4 \/ b = 5 \/ b = 6 \/ b = 7
          \/ b = 8 \/ b = 9) as Hb by lia.
  repeat (destruct Ha as [-> | Ha]); try subst a;
    repeat (destruct Hb as [-> | Hb]); try subst b; reflexivity.
Qed.

Lemma lexicographic_compare (M ha la hb lb : Z) :
  0 <= la < M -> 0 <= lb < M ->
  (ha * M + la ?= hb * M + lb)
  = match ha ?= hb with Eq => la ?= lb | c => c end.
Proof.
  intros Ha Hb. destruct (Z.compare_spec ha hb) as [->|H|H].
  - destruct (Z.compare_spec la lb); [apply Z.compare_eq_iff | apply Z.compare_lt_iff
                                     | apply Z.compare_gt_iff]; lia.
  - apply Z.compare_lt_iff. nia.
  - apply Z.compare_gt_iff. nia.
Qed.

Lemma fixed_length (w : nat) (n : Z) : String.length (fixed w n) = w.
Proof. induction w as [|w IH]; cbn [fixed String.length]; congruence. Qed.

Lemma fixed_compare_mod (w : nat) (a b : Z) :
  String.compare (fixed w a) (fixed w b)
  = (a mod 10 ^ Z.of_nat w ?= b mod 10 ^ Z.of_nat w).
Proof.
  induction w as [|w IH].
  - cbn [fixed String.compare]. change (10 ^ Z.of_nat 0) with 1.
    rewrite !Z.mod_1_r. reflexivity.
  - cbn [fixed String.compare]. rewrite digit_compare, IH.
    assert (P : 0 < 10 ^ Z.of_nat w) by (apply Z.pow_pos_nonneg; lia).
    replace (10 ^ Z.of_nat (S w)) with (10 ^ Z.of_nat w * 10)
      by (rewrite Nat2Z.inj_succ, Z.pow_succ_r by lia; ring).
    rewrite !Z.rem_mul_r by lia.
    pose proof (Z.mod_pos_bound a (10 ^ Z.of_nat w) P).
    pose proof (Z.mod_pos_bound b (10 ^ Z.of_nat w) P).
    replace (a mod 10 ^ Z.of_nat w + 10 ^ Z.of_nat w * ((a / 10 ^ Z.of_nat w) mod 10))
      with ((a / 10 ^ Z.of_nat w) mod 10 * 10 ^ Z.of_nat w + a mod 10 ^ Z.of_nat w)
      by ring.
    replace (b mod 10 ^ Z.of_nat w + 10 ^ Z.of_nat w * ((b / 10 ^ Z.of_nat w) mod 10))
      with ((b / 10 ^ Z.of_nat w) mod 10 * 10 ^ Z.of_nat w + b mod 10 ^ Z.of_nat w)
      by ring.
    rewrite lexicographic_compare by assumption.
    destruct (_ ?= _); reflexivity.
Qed.

Lemma fixed_compare (w : nat) (a b : Z) :
  0 <= a < 10 ^ Z.of_nat w -> 0 <= b < 10 ^ Z.of_nat w ->
  String.compare (fixed w a) (fixed w b) = (a ?= b).
Proof.
  intros Ha Hb. rewrite fixed_compare_mod, !Z.mod_small by assumption. reflexivity.
Qed.

Lemma compare_append (s1 s2 t1 t2 : string) :
  String.length s1 = String.length s2 ->
  String.compare (s1 +:+ t1) (s2 +:+ t2)
  = match String.compare s1 s2 with Eq => String.compare t1 t2 | c => c end.
Proof.
  revert s2. induction s1 as [|c1 s1 IH]; intros [|c2 s2] Hl; try discriminate.
  - reflexivity.
  - change (String c1 s1 +:+ t1) with (String c1 (s1 +:+ t1)).
    change (String c2 s2 +:+ t2) with (String c2 (s2 +:+ t2)).
    cbn [String.compare]. cbn [String.length] in Hl.
    destruct (Ascii.compare c1 c2); [apply IH; congruence | reflexivity | reflexivity].
Qed.

(** The fields of a valid date fit their columns. *)
Lemma valid_columns (d : date) :
  valid d -> 0 <= year d < 10 ^ Z.of_nat 4 /\ 0 <= month d < 10 ^ Z.of_nat 2
             /\ 0 <= day d < 10 ^ Z.of_nat 2.
Proof.
  intros (Hy & Hm & Hd). change (10 ^ Z.of_nat 4) with 10000.
  change (10 ^ Z.of_nat 2) with 100.
  assert (days_in_month (year d) (month d) <= 31).
  { unfold days_in_month.
    assert (month d = 1 \/ month d = 2 \/ month d = 3 \/ month d = 4
            \/ month d = 5 \/ month d = 6 \/ month d = 7 \/ month d = 8
            \/ month d = 9 \/ month d = 10 \/ month d = 11 \/ month d = 12)
      as Hc by lia.
    destruct (is_leap (year d));
      repeat (destruct Hc as [-> | Hc]); try rewrite Hc; cbn; lia. }
  lia.
Qed.

Lemma isoformat_compare (a b : date) :
  valid a -> valid b ->
  String.compare (isoformat a) (isoformat b) = PyDate.compare a b.
Proof.
  intros Va Vb.
  destruct (valid_columns a Va) as (Ya & Ma & Da).
  destruct (valid_columns b Vb) as (Yb & Mb & Db).
  unfold isoformat, PyDate.compare.
  rewrite compare_append by (rewrite !fixed_length; reflexivity).
  rewrite fixed_compare by assumption.
  destruct (year a ?= year b); try reflexivity.
  rewrite (compare_append "-" "-") by reflexivity.
  change (String.compare "-" "-") with Eq. cbv iota.
  rewrite compare_append by (rewrite !fixed_length; reflexivity).
  rewrite fixed_compare by assumption.
  destruct (month a ?= month b); try reflexivity.
  rewrite (compare_append "-" "-") by reflexivity.
  change (String.compare "-" "-") with Eq. cbv iota.
  apply fixed_compare; assumption.
Qed.

Lemma isoformat_le (a b : date) :
  valid a -> valid b -> le (isoformat a) (isoformat b) = PyDate.leb a b.
Proof.
  intros Va Vb. unfold le, String.leb, PyDate.leb.
  rewrite isoformat_compare by assumption. reflexivity.
Qed.

Lemma take_append (s t : string) : take (String.length s) (s +:+ t) = s.
Proof.
  induction s as [|c s IH]; [reflexivity|].
  change (String c s +:+ t) with (String c (s +:+ t)).
  cbn [take String.length]. f_equal. exact IH.
Qed.

Lemma isoformat_length (d : date) : String.length (isoformat d) = 10%nat.
Proof. reflexivity. Qed.

(** For an issue whose timestamp of last update starts with the ISO form
    of a date, [updated_in_range] says that the date is in the window. *)
Lemma updated_in_range_dates
  (date_from date_to updated : date) (time : string) (i : issue) :
  valid date_from -> valid date_to -> valid updated ->
  iss_updated_at i = Some (isoformat updated +:+ time) ->
  updated_in_range date_from date_to i
  = PyDate.leb date_from updated && PyDate.leb updated date_to.
Proof.
  intros Vf Vt Vu Hu. unfold updated_in_range, updated_date. rewrite Hu.
  change (default EmptyString (Some (isoformat updated +:+ time)))
    with (isoformat updated +:+ time).
  assert (E : is_empty (isoformat updated +:+ time) = false) by reflexivity.
  assert (T : take 10 (isoformat updated +:+ time) = isoformat updated)
    by exact (take_append (isoformat updated) time).
  rewrite E, T, !isoformat_le by assumption. reflexivity.
Qed.

End DateText.

(** ** The pattern of the tickets *)

Section Patterns.

Lemma span_every (p : ascii -> bool) (ds rest : string) :
  every p ds = true ->
  match next_char rest with Some c => p c = false | None => True end ->
  span p (ds +:+ rest) = String.length ds.
Proof.
  intros Hd Hr. induction ds as [|c ds IH].
  - change (EmptyString +:+ rest) with rest.
    destruct rest as [|c r]; [reflexivity|]. cbn in Hr. cbn [span]. rewrite Hr. reflexivity.
  - cbn [every] in Hd. apply andb_true_iff in Hd as [Hc Hd].
    change (String c ds +:+ rest) with (String c (ds +:+ rest)).
    cbn [span String.length]. rewrite Hc, IH by exact Hd. reflexivity.
Qed.

Lemma advance_append (ds rest : string) (prev : option ascii) (pos : nat) o g :
  advance (String.length ds) (MState prev (ds +:+ rest) pos o g)
  = MState (last_or prev ds) rest (pos + String.length ds) o g.
Proof.
  revert prev pos. induction ds as [|c ds IH]; intros prev pos.
  - change (EmptyString +:+ rest) with rest. cbn [String.length last_or advance].
    rewrite Nat.add_0_r. reflexivity.
  - change (String c ds +:+ rest) with (String c (ds +:+ rest)).
    cbn [String.length advance ms_rest ms_pos ms_open ms_groups last_or].
    rewrite IH. f_equal. lia.
Qed.

Lemma last_or_word (ds : string) (prev : option ascii) :
  every is_digit ds = true -> ds <> EmptyString \/ is_word_opt prev = true ->
  is_word_opt (last_or prev ds) = true.
Proof.
  revert prev. induction ds as [|c ds IH]; intros prev Hd Hp.
  - destruct Hp as [Hp|Hp]; [congruence | exact Hp].
  - cbn [every] in Hd. apply andb_true_iff in Hd as [Hc Hd].
    cbn [last_or]. apply IH; [exact Hd|]. right. cbn [is_word_opt].
    unfold is_word. rewrite Hc. rewrite !orb_true_r. reflexivity.
Qed.

Lemma rmatch_chr (p : ascii -> bool) (r : list atom) prev c rest pos o g :
  p c = true ->
  rmatch (Chr p :: r) (MState prev (String c rest) pos o g)
  = rmatch r (MState (Some c) rest (S pos) o g).
Proof. intros Hp. cbn [rmatch ms_rest]. rewrite Hp. reflexivity. Qed.

Lemma greedy_first (k : mstate -> option mstate) (st m : mstate) (lo n : nat) :
  k (advance n st) = Some m -> greedy k st lo n = Some m.
Proof. intros Hk. destruct n; cbn [greedy]; rewrite Hk; reflexivity. Qed.

Lemma rmatch_plus_all (p : ascii -> bool) (r : list atom) (st m : mstate) :
  (1 <= span p (ms_rest st))%nat ->
  rmatch r (advance (span p (ms_rest st)) st) = Some m ->
  rmatch (Plus p :: r) st = Some m.
Proof.
  intros Hn Hk. cbn [rmatch]. apply Nat.leb_le in Hn. rewrite Hn.
  apply greedy_first, Hk.
Qed.

Lemma rmatch_wordb (r : list atom) (st : mstate) :
  at_boundary st = true -> rmatch (WordB :: r) st = rmatch r st.
Proof. intros Hb. cbn [rmatch]. rewrite Hb. reflexivity. Qed.

Lemma rmatch_open (g : nat) (r : list atom) (st : mstate) :
  rmatch (GOpen g :: r) st = rmatch r (open_group g st).
Proof. reflexivity. Qed.

Lemma rmatch_close (g : nat) (r : list atom) (st : mstate) :
  rmatch (GClose g :: r) st = rmatch r (close_group g st).
Proof. reflexivity. Qed.

Lemma ticket_match (prev : option ascii) (pos : nat) (ds rest : string) :
  is_word_opt prev = false -> every is_digit ds = true -> ds <> EmptyString ->
  ends_word rest = false ->
  rmatch TICKET_RE (MState prev ("data-" +:+ ds +:+ rest) pos [] [])
  = Some (MState (last_or (Some "-"%char) ds) rest (pos + 5 + String.length ds)
            [(1%nat, pos)] [(1%nat, (pos, (pos + 5 + String.length ds)%nat))]).
Proof.
  intros Hp Hd Hne Hr.
  change ("data-" +:+ ds +:+ rest)
    with (String "d" (String "a" (String "t" (String "a" (String "-" (ds +:+ rest)))))).
  unfold TICKET_RE. cbn [app lit_ci].
  rewrite rmatch_wordb
    by (unfold at_boundary; cbn [ms_prev ms_rest next_char]; rewrite Hp; reflexivity).
  rewrite rmatch_open. unfold open_group.
  cbn [ms_prev ms_rest ms_pos ms_open ms_groups].
  rewrite !rmatch_chr by reflexivity.
  assert (Hrun : span is_digit (ds +:+ rest) = String.length ds).
  { apply span_every; [exact Hd|]. unfold ends_word in Hr.
    destruct (next_char rest) as [c|]; [|exact I].
    cbn [is_word_opt] in Hr. unfold is_word in Hr.
    destruct (is_digit c); [|reflexivity].
    rewrite !orb_true_r in Hr. discriminate. }
  apply rmatch_plus_all; cbn [ms_rest]; rewrite Hrun.
  - destruct ds; [congruence | cbn; lia].
  - rewrite advance_append, rmatch_close. unfold close_group.
    cbn [ms_open ms_prev ms_rest ms_pos ms_groups List.find fst Nat.eqb].
    rewrite rmatch_wordb.
    + cbn [rmatch]. repeat f_equal; lia.
    + unfold at_boundary. cbn [ms_prev ms_rest].
      rewrite last_or_word by auto. unfold ends_word in Hr. rewrite Hr. reflexivity.
Qed.

Lemma upper_digits (ds : string) : every is_digit ds = true -> upper ds = ds.
Proof.
  induction ds as [|c ds IH]; [reflexivity|]. cbn [every]. intros H.
  apply andb_true_iff in H as [Hc Hd].
  unfold upper in *. cbn [map_chars]. rewrite IH by exact Hd. f_equal.
  unfold upper_char.
  assert (is_lower c = false) as ->; [|reflexivity].
  unfold is_digit, is_lower, in_range in *.
  apply andb_true_iff in Hc as [H1 H2]. apply Nat.leb_le in H1, H2.
  apply andb_false_iff. left. apply Nat.leb_gt. lia.
Qed.

(** A message that starts with a ticket written in lower case is a
    reference to the ticket in upper case. *)
Lemma lowercase_reference (ds rest : string) :
  every is_digit ds = true -> ds <> EmptyString -> ends_word rest = false ->
  head (findall TICKET_RE ("data-" +:+ ds +:+ rest)) = Some ("data-" +:+ ds)
  /\ upper ("data-" +:+ ds) = "DATA-" +:+ ds.
Proof.
  intros Hd Hne Hr. split.
  - unfold findall, matches, start. cbn [scan ms_prev ms_rest ms_pos].
    rewrite (ticket_match None 0 ds rest) by auto.
    cbn [ms_pos Nat.add Nat.ltb Nat.leb map head snd].
    unfold group. cbn [ms_groups List.find fst snd Nat.eqb Nat.sub drop].
    f_equal.
    change ("data-" +:+ ds +:+ rest) with (("data-" +:+ ds) +:+ rest).
    apply (take_append ("data-" +:+ ds) rest).
  - change (upper ("data-" +:+ ds)) with ("DATA-" +:+ upper ds).
    rewrite upper_digits by exact Hd. reflexivity.
Qed.

End Patterns.

(** ** The scan of the repositories *)

Section Scan.

Lemma first_line_None (s : string) :
  first_line s = None <-> is_empty s = true.
Proof. unfold first_line. destruct (is_empty s); split; congruence. Qed.

Lemma process_outcome (c : commit) (s : scan_state) :
  (process c s).2 = if is_empty (c_message c) then Raised else Ok tt.
Proof.
  unfold process, first_line.
  destruct (is_empty (c_message c)); [reflexivity|].
  destruct (re_match MERGE_RE _); [reflexivity|].
  destruct (findall TICKET_RE _); reflexivity.
Qed.

Lemma process_raise_state (c : commit) (s : scan_state) :
  is_empty (c_message c) = true -> (process c s).1 = s.
Proof. intros E. unfold process, first_line. rewrite E. reflexivity. Qed.

Lemma for_commits_state (listing : list fetched) (s : scan_state) :
  (for_commits listing s).1 = foldl collect s (yielded listing).
Proof.
  revert s. induction listing as [|[c|] rest IH]; intros s; cbn [for_commits yielded].
  - reflexivity.
  - unfold bind. pose proof (process_outcome c s) as O.
    destruct (process c s) as [s' o] eqn:E. cbn [snd] in O.
    destruct (is_empty (c_message c)) eqn:Em; subst o.
    + pose proof (process_raise_state c s Em) as R. rewrite E in R.
      cbn in *. exact R.
    + cbn. rewrite IH. replace (collect s c) with s'; [reflexivity|].
      unfold collect. rewrite E. reflexivity.
  - reflexivity.
Qed.

(** Whatever the listings do, the loop over the repositories ends
    normally, with what the commits yielded before each failure gave. *)
Lemma for_repos_run (repos : list (list fetched)) (s : scan_state) :
  for_repos repos s = (foldl collect s (concat (map yielded repos)), Ok tt).
Proof.
  revert s. induction repos as [|repo rest IH]; intros s; cbn [for_repos].
  - reflexivity.
  - unfold bind, try_pass. rewrite IH, for_commits_state.
    cbn [map concat]. rewrite foldl_app. reflexivity.
Qed.

(** After a repository whose listing fails, the remaining repositories are
    scanned, from what had been collected so far. *)
Lemma scan_continues_after_failure
  (before : list (list fetched)) (bad : list fetched)
  (after : list (list fetched)) (s : scan_state) :
  for_repos (before ++ bad :: after) s
  = for_repos after (foldl collect (for_repos before s).1 (yielded bad)).
Proof.
  rewrite !for_repos_run. cbn [fst].
  rewrite map_app, concat_app, foldl_app. cbn [map concat].
  rewrite foldl_app. reflexivity.
Qed.

(** C8: the scan does not raise on the failure of a repository: once the
    repositories are listed, its result is the one built from the commits
    that each repository yielded before it failed, the repositories after
    a failing one included; and without a token the result is the empty
    ticket map and the empty orphan list, whatever the listing of the
    organisation does. *)
Theorem scan_swallows_repository_failures
  (cfg : config) (repos : list (list fetched)) :
  get_github_commits cfg (Ok repos)
  = (if is_empty (GITHUB_TOKEN cfg) then Ok ([], [])
     else let s := foldl collect (ScanState ∅ ∅) (concat (map yielded repos)) in
          Ok (ticket_map s, sorted (elements (orphans s))))
  /\ get_github_commits cfg Raised
     = (if is_empty (GITHUB_TOKEN cfg) then Ok ([], []) else Raised).
Proof.
  unfold get_github_commits. split.
  - destruct (is_empty (GITHUB_TOKEN cfg)); [reflexivity|].
    rewrite for_repos_run. reflexivity.
  - reflexivity.
Qed.

End Scan.

(** ** Classification *)

Section Classification.

Context (cfg : config) (date_from date_to : date).

#[local] Abbreviation step := (classify_step cfg date_from date_to).

Lemma classify_flat (projects : list project_fetch) (b : buckets) :
  foldl (classify_project cfg date_from date_to) b projects
  = foldl step b (fetched_issues projects).
Proof.
  revert b. induction projects as [|pf rest IH]; intros b; [reflexivity|].
  cbn [foldl]. rewrite IH. unfold fetched_issues. cbn [map concat].
  rewrite foldl_app. f_equal.
  unfold classify_project. destruct (pf_data pf) as [[states issues]|]; [|reflexivity].
  generalize b. induction issues as [|i issues IHi]; intros b0; [reflexivity|].
  cbn [map foldl]. apply IHi.
Qed.

(** What one step does, by the branch taken. *)
Lemma step_verdict (b : buckets) (x : fetched_issue) :
  step b x =
  let lookup := <[ident x := info_of cfg x]> (all_issues_lookup b) in
  let e := entry_of cfg x in
  match verdict_of date_from date_to x with
  | VBacklog => Buckets (done_issues b) (review_issues b) (blocked_issues b)
                        (backlog_issues b ++ [e]) (plane_active b) lookup
  | VDone => Buckets (done_issues b ++ [e]) (review_issues b) (blocked_issues b)
                     (backlog_issues b) (plane_active b) lookup
  | VReview => Buckets (done_issues b) (review_issues b ++ [e]) (blocked_issues b)
                       (backlog_issues b) (plane_active b) lookup
  | VBlocked => Buckets (done_issues b) (review_issues b) (blocked_issues b ++ [e])
                        (backlog_issues b) (plane_active b) lookup
  | VActive => Buckets (done_issues b) (review_issues b) (blocked_issues b)
                       (backlog_issues b)
                       (<[ident x := info_of cfg x]> (plane_active b)) lookup
  | VExcluded | VNone =>
      Buckets (done_issues b) (review_issues b) (blocked_issues b)
              (backlog_issues b) (plane_active b) lookup
  end.
Proof.
  destruct x as [[p states] i].
  unfold classify_step, classify_issue, verdict_of, group_of, ident, info_of, entry_of.
  cbn [fst snd]. cbv zeta.
  destruct (in_backlog_group _); [reflexivity|].
  destruct (negb _); [reflexivity|].
  destruct (String.eqb _ "completed"); [reflexivity|].
  destruct (contains _ _); [reflexivity|].
  destruct (is_blocked _); [reflexivity|].
  destruct (String.eqb _ "started"); reflexivity.
Qed.

Lemma filter_snoc_verdict (v : verdict) (l : list fetched_issue) (x : fetched_issue) :
  entries_with cfg date_from date_to v (l ++ [x])
  = entries_with cfg date_from date_to v l
    ++ (if decide (verdict_of date_from date_to x = v) then [entry_of cfg x] else []).
Proof.
  unfold entries_with. rewrite filter_app, map_app. f_equal.
  rewrite filter_cons, filter_nil. destruct (decide _); reflexivity.
Qed.

(** The four list buckets after a run of the loop. *)
Lemma buckets_after (b : buckets) (l : list fetched_issue) :
  let b' := foldl step b l in
  done_issues b' = done_issues b ++ entries_with cfg date_from date_to VDone l /\
  review_issues b' = review_issues b ++ entries_with cfg date_from date_to VReview l /\
  blocked_issues b' = blocked_issues b ++ entries_with cfg date_from date_to VBlocked l /\
  backlog_issues b' = backlog_issues b ++ entries_with cfg date_from date_to VBacklog l.
Proof.
  induction l as [|x l IH] using rev_ind; cbv zeta.
  - unfold entries_with. cbn. rewrite !app_nil_r. auto.
  - rewrite foldl_app. cbn [foldl]. rewrite step_verdict. cbv zeta.
    rewrite !filter_snoc_verdict. cbv zeta in IH.
    destruct IH as (D & R & B & K).
    destruct (verdict_of date_from date_to x); cbn [done_issues review_issues blocked_issues backlog_issues];
      rewrite ?D, ?R, ?B, ?K;
      repeat (destruct (decide _); try congruence);
      rewrite <- ?app_assoc, ?app_nil_r; auto.
Qed.

Lemma step_lookup (b : buckets) (x : fetched_issue) :
  all_issues_lookup (step b x)
  = <[ident x := info_of cfg x]> (all_issues_lookup b).
Proof.
  rewrite step_verdict. cbv zeta.
  destruct (verdict_of date_from date_to x); reflexivity.
Qed.

(** The two dictionaries after a run of the loop. *)
Lemma lookup_after (b : buckets) (l : list fetched_issue) (k : string) :
  all_issues_lookup (foldl step b l) !! k
  = match last (filter (fun x => ident x = k) l) with
    | Some x => Some (info_of cfg x)
    | None => all_issues_lookup b !! k
    end.
Proof.
  induction l as [|x l IH] using rev_ind; [reflexivity|].
  rewrite foldl_app. cbn [foldl]. rewrite step_lookup.
  rewrite filter_app, filter_cons, filter_nil.
  destruct (decide (ident x = k)) as [->|N].
  - rewrite lookup_insert_eq, last_snoc. reflexivity.
  - rewrite lookup_insert_ne by exact N. rewrite app_nil_r. exact IH.
Qed.

Lemma active_after (b : buckets) (l : list fetched_issue) (k : string) :
  plane_active (foldl step b l) !! k
  = match last (filter (fun x => ident x = k
                                /\ verdict_of date_from date_to x = VActive) l) with
    | Some x => Some (info_of cfg x)
    | None => plane_active b !! k
    end.
Proof.
  induction l as [|x l IH] using rev_ind; [reflexivity|].
  rewrite foldl_app. cbn [foldl]. rewrite step_verdict. cbv zeta.
  rewrite filter_app, filter_cons, filter_nil.
  destruct (decide (ident x = k /\ verdict_of date_from date_to x = VActive))
    as [[<- V]|N].
  - rewrite V. cbn [plane_active]. rewrite lookup_insert_eq, last_snoc. reflexivity.
  - rewrite app_nil_r, <- IH.
    destruct (verdict_of date_from date_to x) eqn:V; try reflexivity.
    cbn [plane_active]. apply lookup_insert_ne. intros E. apply N. auto.
Qed.

Lemma isoformat_not_below_empty (d : date) :
  le (isoformat d) EmptyString = false.
Proof. reflexivity. Qed.

(** C10: an issue outside the backlog and unstarted groups whose date of
    last update is missing or empty is not in the window, and the
    classification puts it in no bucket: it only records the issue in the
    lookup of all the issues. *)
Theorem undated_issue_is_left_out
  (p : project) (states : gmap string wstate) (b : buckets) (i : issue) :
  in_backlog_group (state_group states i) = false ->
  iss_updated_at i = None \/ iss_updated_at i = Some EmptyString ->
  updated_in_range date_from date_to i = false
  /\ classify_issue cfg date_from date_to p states b i
     = Buckets (done_issues b) (review_issues b) (blocked_issues b)
               (backlog_issues b) (plane_active b)
               (<[get_issue_identifier p i := issue_info cfg p i]>
                  (all_issues_lookup b)).
Proof.
  intros Hg Hu.
  assert (E : updated_in_range date_from date_to i = false).
  { unfold updated_in_range, updated_date.
    destruct Hu as [-> | ->]; cbn [default is_empty];
      rewrite isoformat_not_below_empty; reflexivity. }
  split; [exact E|].
  unfold classify_issue. cbv zeta. rewrite Hg, E. reflexivity.
Qed.

End Classification.

(** ** Reconciliation *)

Section Merge.

Context (cfg : config) (done_ids : gset string) (lookup : gmap string info).

#[local] Abbreviation mstep := (merge_ticket cfg done_ids lookup).

(** A ticket that the loop does not visit keeps what it had. *)
Lemma merge_other (cs : list (string * list string)) (m : merge_state) (k : string) :
  k ∉ map fst cs ->
  m_plane_active (foldl mstep m cs) !! k = m_plane_active m !! k /\
  m_worked_on (foldl mstep m cs) !! k = m_worked_on m !! k /\
  m_done_commits (foldl mstep m cs) !! k = m_done_commits m !! k.
Proof.
  revert m. induction cs as [|[t lines] cs IH]; intros m Hk; [auto|].
  cbn [map fst] in Hk. apply not_elem_of_cons in Hk as [Hne Hk].
  cbn [foldl]. destruct (IH (mstep m (t, lines)) Hk) as (A & W & D).
  rewrite A, W, D. unfold merge_ticket. cbn [fst snd].
  destruct (bool_decide (t ∈ done_ids));
    cbn [m_plane_active m_worked_on m_done_commits];
    rewrite ?lookup_insert_ne, ?lookup_delete_ne by congruence; auto.
Qed.

(** A ticket of a done or in-review issue: its commits go to
    [done_commits], and nothing else changes for it. *)
Lemma merge_done (cs : list (string * list string)) (m : merge_state)
  (t : string) (lines : list string) :
  NoDup (map fst cs) -> (t, lines) ∈ cs -> t ∈ done_ids ->
  m_done_commits (foldl mstep m cs) !! t = Some lines /\
  m_worked_on (foldl mstep m cs) !! t = m_worked_on m !! t /\
  m_plane_active (foldl mstep m cs) !! t = m_plane_active m !! t.
Proof.
  revert m. induction cs as [|[t0 l0] cs IH]; intros m Hnd Hin Hd.
  - apply elem_of_nil in Hin. destruct Hin.
  - cbn [map fst] in Hnd. apply NoDup_cons in Hnd as [Hfresh Hnd].
    cbn [foldl]. apply elem_of_cons in Hin as [E|Hin].
    + inversion E; subst t0 l0. clear E.
      destruct (merge_other cs (mstep m (t, lines)) t Hfresh) as (A & W & D).
      rewrite A, W, D. unfold merge_ticket. cbn [fst snd].
      rewrite bool_decide_eq_true_2 by exact Hd.
      cbn [m_plane_active m_worked_on m_done_commits].
      rewrite lookup_insert_eq. auto.
    + assert (t <> t0) as Hne.
      { intros ->. apply Hfresh. apply list_elem_of_fmap. exists (t0, lines). auto. }
      destruct (IH (mstep m (t0, l0)) Hnd Hin Hd) as (D & W & A).
      rewrite D, W, A. unfold merge_ticket. cbn [fst snd].
      destruct (bool_decide (t0 ∈ done_ids));
        cbn [m_plane_active m_worked_on m_done_commits];
        rewrite ?lookup_insert_ne, ?lookup_delete_ne by congruence; auto.
Qed.

(** Any other ticket with commits becomes an in-progress entry that holds
    its commits, and leaves [plane_active]. *)
Lemma merge_worked (cs : list (string * list string)) (m : merge_state)
  (t : string) (lines : list string) :
  NoDup (map fst cs) -> (t, lines) ∈ cs -> t ∉ done_ids ->
  let i := ticket_info cfg lookup (m_plane_active m !! t) t lines in
  m_worked_on (foldl mstep m cs) !! t = Some (Worked (i_title i) (i_url i) lines) /\
  m_done_commits (foldl mstep m cs) !! t = m_done_commits m !! t /\
  m_plane_active (foldl mstep m cs) !! t = None.
Proof.
  revert m. induction cs as [|[t0 l0] cs IH]; intros m Hnd Hin Hd; cbv zeta.
  - apply elem_of_nil in Hin. destruct Hin.
  - cbn [map fst] in Hnd. apply NoDup_cons in Hnd as [Hfresh Hnd].
    cbn [foldl]. apply elem_of_cons in Hin as [E|Hin].
    + inversion E; subst t0 l0. clear E.
      destruct (merge_other cs (mstep m (t, lines)) t Hfresh) as (A & W & D).
      rewrite A, W, D. unfold merge_ticket. cbn [fst snd].
      rewrite bool_decide_eq_false_2 by exact Hd.
      cbn [m_plane_active m_worked_on m_done_commits].
      rewrite lookup_insert_eq, lookup_delete_eq. auto.
    + assert (t <> t0) as Hne.
      { intros ->. apply Hfresh. apply list_elem_of_fmap. exists (t0, lines). auto. }
      destruct (IH (mstep m (t0, l0)) Hnd Hin Hd) as (W & D & A).
      rewrite W, D, A. unfold merge_ticket. cbn [fst snd].
      destruct (bool_decide (t0 ∈ done_ids));
        cbn [m_plane_active m_worked_on m_done_commits];
        rewrite ?lookup_insert_ne, ?lookup_delete_ne by congruence; auto.
Qed.

(** The second loop: the issues left in [plane_active]. *)
Lemma add_active_other (l : list (string * info)) (wo : gmap string worked) (k : string) :
  k ∉ map fst l \/ k ∈ done_ids ->
  foldl (add_active done_ids) wo l !! k = wo !! k.
Proof.
  revert wo. induction l as [|[t i] l IH]; intros wo Hk; [reflexivity|].
  cbn [foldl]. rewrite IH.
  - unfold add_active. cbn [fst snd]. destruct (bool_decide_reflect (t ∈ done_ids)) as [Ht|Ht];
      [reflexivity|].
    apply lookup_insert_ne. intros ->. destruct Hk as [Hk|Hk]; [|contradiction].
    apply Hk. cbn. left.
  - destruct Hk as [Hk|Hk]; [left|right; exact Hk].
    cbn [map fst] in Hk. apply not_elem_of_cons in Hk. tauto.
Qed.

Lemma add_active_at (l : list (string * info)) (wo : gmap string worked)
  (k : string) (i : info) :
  NoDup (map fst l) -> (k, i) ∈ l -> k ∉ done_ids ->
  foldl (add_active done_ids) wo l !! k = Some (Worked (i_title i) (i_url i) []).
Proof.
  revert wo. induction l as [|[t0 i0] l IH]; intros wo Hnd Hin Hd.
  - apply elem_of_nil in Hin. destruct Hin.
  - cbn [map fst] in Hnd. apply NoDup_cons in Hnd as [Hfresh Hnd].
    cbn [foldl]. apply elem_of_cons in Hin as [E|Hin].
    + inversion E; subst t0 i0. clear E.
      rewrite add_active_other by (left; exact Hfresh).
      unfold add_active. cbn [fst snd].
      rewrite bool_decide_eq_false_2 by exact Hd. apply lookup_insert_eq.
    + apply IH; assumption.
Qed.

End Merge.

Section Reconcile.

Context (cfg : config) (b : buckets)
        (cs : list (string * list string)) (oc : list string).
Hypothesis cs_keys : NoDup (map fst cs).

#[local] Abbreviation d := (done_ids_of (done_issues b) (review_issues b)).
#[local] Abbreviation r := (reconcile cfg b cs oc).

Lemma key_has_commits (t : string) :
  t ∈ map fst cs -> exists lines, (t, lines) ∈ cs.
Proof.
  intros H. apply list_elem_of_fmap in H as ([t' lines] & E & H).
  cbn in E. subst t'. eauto.
Qed.

Lemma commits_have_key (t : string) (lines : list string) :
  (t, lines) ∈ cs -> t ∈ map fst cs.
Proof. intros H. apply list_elem_of_fmap. exists (t, lines). auto. Qed.

Lemma reconcile_worked_commits (t : string) (lines : list string) :
  (t, lines) ∈ cs -> t ∉ d ->
  let i := ticket_info cfg (all_issues_lookup b) (plane_active b !! t) t lines in
  r_worked_on r !! t = Some (Worked (i_title i) (i_url i) lines).
Proof.
  intros Hin Hd. cbv zeta. unfold reconcile. cbn [r_worked_on].
  destruct (merge_worked cfg d (all_issues_lookup b) cs
              (MergeState (plane_active b) ∅ ∅) t lines cs_keys Hin Hd) as (W & _ & A).
  rewrite add_active_other; [exact W|].
  left. intros H. apply list_elem_of_fmap in H as ([t' i] & E & H).
  cbn in E. subst t'. apply elem_of_map_to_list in H. congruence.
Qed.

Lemma reconcile_worked_active (t : string) :
  t ∉ map fst cs -> t ∉ d ->
  r_worked_on r !! t
  = (fun i => Worked (i_title i) (i_url i) []) <$> plane_active b !! t.
Proof.
  intros Hk Hd. unfold reconcile. cbn [r_worked_on].
  destruct (merge_other cfg d (all_issues_lookup b) cs
              (MergeState (plane_active b) ∅ ∅) t Hk) as (A & W & _).
  cbn [m_plane_active m_worked_on] in A, W.
  destruct (plane_active b !! t) as [i|] eqn:E; cbn [fmap option_fmap option_map].
  - apply add_active_at; [apply NoDup_fst_map_to_list | | exact Hd].
    apply elem_of_map_to_list. exact A.
  - rewrite add_active_other; [rewrite W; apply lookup_empty|].
    left. intros H. apply list_elem_of_fmap in H as ([t' i] & E' & H).
    cbn in E'. subst t'. apply elem_of_map_to_list in H. congruence.
Qed.

Lemma reconcile_worked_done (t : string) :
  t ∈ d -> r_worked_on r !! t = None.
Proof.
  intros Hd. unfold reconcile. cbn [r_worked_on].
  rewrite add_active_other by (right; exact Hd).
  destruct (decide (t ∈ map fst cs)) as [Hk|Hk].
  - destruct (key_has_commits t Hk) as [lines Hin].
    destruct (merge_done cfg d (all_issues_lookup b) cs
                (MergeState (plane_active b) ∅ ∅) t lines cs_keys Hin Hd) as (_ & W & _).
    rewrite W. apply lookup_empty.
  - destruct (merge_other cfg d (all_issues_lookup b) cs
                (MergeState (plane_active b) ∅ ∅) t Hk) as (_ & W & _).
    rewrite W. apply lookup_empty.
Qed.

Lemma reconcile_done_commits (t : string) (lines : list string) :
  (t, lines) ∈ cs -> t ∈ d -> r_done_commits r !! t = Some lines.
Proof.
  intros Hin Hd. unfold reconcile. cbn [r_done_commits].
  apply (merge_done cfg d (all_issues_lookup b) cs _ t lines cs_keys Hin Hd).
Qed.

Lemma reconcile_done_commits_none (t : string) :
  t ∉ d \/ t ∉ map fst cs -> r_done_commits r !! t = None.
Proof.
  intros H. unfold reconcile. cbn [r_done_commits].
  destruct (decide (t ∈ map fst cs)) as [Hk|Hk].
  - destruct H as [Hd|]; [|contradiction].
    destruct (key_has_commits t Hk) as [lines Hin].
    destruct (merge_worked cfg d (all_issues_lookup b) cs
                (MergeState (plane_active b) ∅ ∅) t lines cs_keys Hin Hd) as (_ & D & _).
    rewrite D. apply lookup_empty.
  - destruct (merge_other cfg d (all_issues_lookup b) cs
                (MergeState (plane_active b) ∅ ∅) t Hk) as (_ & _ & D).
    rewrite D. apply lookup_empty.
Qed.

End Reconcile.

(** ** The ticket map of the scan *)

Section TicketMap.

Lemma insert_sorted_perm (x : string) (l : list string) :
  insert_sorted x l ≡ₚ x :: l.
Proof.
  induction l as [|y l IH]; cbn [insert_sorted]; [reflexivity|].
  destruct (le x y); [reflexivity|].
  rewrite IH. apply Permutation_swap.
Qed.

Lemma sorted_perm (l : list string) : sorted l ≡ₚ l.
Proof.
  induction l as [|x l IH]; [reflexivity|].
  unfold sorted in *. cbn [foldr]. rewrite insert_sorted_perm, IH. reflexivity.
Qed.

Lemma ticket_map_keys (s : scan_state) :
  map fst (ticket_map s) = sorted (elements (dom (by_ticket s))).
Proof.
  unfold ticket_map. rewrite map_map. cbn [fst]. apply map_id.
Qed.

Lemma ticket_map_NoDup (s : scan_state) : NoDup (map fst (ticket_map s)).
Proof.
  rewrite ticket_map_keys. rewrite sorted_perm. apply NoDup_elements.
Qed.

Lemma ticket_map_elem (s : scan_state) (t : string) (lines : list string) :
  (t, lines) ∈ ticket_map s <->
  exists msgs, by_ticket s !! t = Some msgs /\ lines = sorted (elements msgs).
Proof.
  unfold ticket_map. rewrite list_elem_of_fmap. split.
  - intros (t' & E & H). inversion E; subst t' lines. clear E.
    rewrite sorted_perm in H. apply elem_of_elements, elem_of_dom in H as [msgs H].
    exists msgs. rewrite H. auto.
  - intros (msgs & H & ->). exists t. rewrite H. split; [reflexivity|].
    rewrite sorted_perm. apply elem_of_elements, elem_of_dom. eauto.
Qed.

Lemma scan_keys (cfg : config) (org : outcome (list (list fetched)))
  (cs : list (string * list string)) (oc : list string) :
  get_github_commits cfg org = Ok (cs, oc) -> NoDup (map fst cs).
Proof.
  unfold get_github_commits.
  destruct (is_empty (GITHUB_TOKEN cfg)).
  - intros E. inversion E. constructor.
  - destruct org as [repos|]; [|discriminate].
    rewrite for_repos_run. intros E. inversion E. apply ticket_map_NoDup.
Qed.

End TicketMap.

(** ** The tickets of the commit map *)

Section Tickets.

Context (cfg : config) (date_from date_to : date)
        (projects : list project_fetch) (org : outcome (list (list fetched))).

Lemma run_Ok (r : reconciled) :
  run cfg date_from date_to projects org = Ok r ->
  exists cs oc,
    get_github_commits cfg org = Ok (cs, oc) /\ NoDup (map fst cs) /\
    r = reconcile cfg (classify cfg date_from date_to projects) cs oc.
Proof.
  unfold run. destruct (get_github_commits cfg org) as [[cs oc]|] eqn:E;
    [|discriminate].
  intros H. inversion H. exists cs, oc. split; [reflexivity|].
  split; [eapply scan_keys; exact E | reflexivity].
Qed.

Lemma filter_none {A} (P : A -> Prop) `{!forall x, Decision (P x)} (l : list A) :
  (forall x, x ∈ l -> ~ P x) -> filter P l = [].
Proof.
  induction l as [|x l IH]; intros Hl; [reflexivity|].
  rewrite filter_cons. destruct (decide (P x)) as [p|_].
  - exfalso. apply (Hl x); [left | exact p].
  - apply IH. intros y Hy. apply Hl. right. exact Hy.
Qed.

(** Where the commits of a ticket of the commit map go. *)
Lemma ticket_filed_once
  (r : reconciled) (ticket : string) (commit_lines : list string) :
  run cfg date_from date_to projects org = Ok r ->
  (ticket, commit_lines) ∈ r_commits_by_ticket r ->
  ((ticket ∈ done_ids_of (r_done_issues r) (r_review_issues r))
   /\ r_done_commits r !! ticket = Some commit_lines
   /\ r_worked_on r !! ticket = None)
  \/
  ((ticket ∉ done_ids_of (r_done_issues r) (r_review_issues r))
   /\ r_done_commits r !! ticket = None
   /\ exists w, r_worked_on r !! ticket = Some w /\ w_commits w = commit_lines).
Proof.
  intros Hrun Hin. destruct (run_Ok r Hrun) as (cs & oc & _ & Hnd & ->).
  set (b := classify cfg date_from date_to projects) in *.
  change (r_commits_by_ticket (reconcile cfg b cs oc)) with cs in Hin.
  change (r_done_issues (reconcile cfg b cs oc)) with (done_issues b).
  change (r_review_issues (reconcile cfg b cs oc)) with (review_issues b).
  destruct (decide (ticket ∈ done_ids_of (done_issues b) (review_issues b)))
    as [Hd|Hd].
  - left. split; [exact Hd|]. split.
    + apply reconcile_done_commits; assumption.
    + apply reconcile_worked_done; assumption.
  - right. split; [exact Hd|]. split.
    + apply reconcile_done_commits_none; auto.
    + eexists. split; [apply reconcile_worked_commits; eassumption | reflexivity].
Qed.


End Tickets.

(** ** The lines of the reports, by section *)

Section Rendering.

Lemma tagged_in (s : section) (l : list string) :
  Forall (in_section s) (tagged (KCommit s) l).
Proof. induction l; constructor; [reflexivity | assumption]. Qed.

Lemma concat_map_in {A} (s : section) (f : A -> list line) (l : list A) :
  (forall a, Forall (in_section s) (f a)) ->
  Forall (in_section s) (concat (map f l)).
Proof.
  intros Hf. induction l as [|a l IH]; cbn [map concat]; [constructor|].
  apply Forall_app. split; [apply Hf | exact IH].
Qed.

Lemma map_in {A} (s : section) (f : A -> line) (l : list A) :
  (forall a, in_section s (f a)) -> Forall (in_section s) (map f l).
Proof. intros Hf. induction l; constructor; [apply Hf | assumption]. Qed.

Lemma plain_done_item_in add_links show dc (s : section) (e : entry) :
  Forall (in_section s) (plain_done_item add_links show dc s e).
Proof.
  unfold plain_done_item. constructor; [reflexivity|].
  destruct (shows show "done"); [apply tagged_in | constructor].
Qed.

Lemma slack_done_item_in show dc (s : section) (e : entry) :
  Forall (in_section s) (slack_done_item show dc s e).
Proof.
  unfold slack_done_item. constructor; [reflexivity|].
  destruct (shows show "done"); [apply tagged_in | constructor].
Qed.

Lemma plain_worked_item_in add_links show (ti : string * worked) :
  Forall (in_section SInProgress) (plain_worked_item add_links show ti).
Proof.
  unfold plain_worked_item. constructor; [reflexivity|].
  destruct (shows show "in_progress"); [apply tagged_in | constructor].
Qed.

Lemma slack_worked_item_in show (ti : string * worked) :
  Forall (in_section SInProgress) (slack_worked_item show ti).
Proof.
  unfold slack_worked_item. constructor; [reflexivity|].
  destruct (shows show "in_progress"); [apply tagged_in | constructor].
Qed.

Lemma section_lines_other (s s' : section) (l : list line) :
  s <> s' -> Forall (in_section s') l -> section_lines s l = [].
Proof.
  intros Hne Hl. apply filter_none. intros x Hx E.
  rewrite Forall_forall in Hl. specialize (Hl x Hx).
  unfold in_section in Hl. congruence.
Qed.

Lemma section_lines_title (s : section) (text : string) :
  section_lines s [(KTitle, text)] = [].
Proof.
  apply filter_none. intros x Hx E. apply list_elem_of_singleton in Hx.
  subst x. discriminate.
Qed.

Lemma issues_in_other (s s' : section) (l : list line) :
  s <> s' -> Forall (in_section s') l -> issues_in s l = [].
Proof.
  intros Hne Hl. induction Hl as [|[k text] l Hk _ IH]; [reflexivity|].
  unfold issues_in in *. cbn [omap list_omap]. rewrite IH.
  unfold in_section in Hk. cbn [fst] in *.
  destruct k as [|h|s0 i|c|c]; try reflexivity.
  cbn in Hk. destruct (decide (s0 = s)); [congruence | reflexivity].
Qed.

Lemma issues_in_tagged (s s' : section) (l : list string) :
  issues_in s (tagged (KCommit s') l) = [].
Proof. induction l as [|x l IH]; [reflexivity | exact IH]. Qed.

Lemma sorted_items_empty {V} : sorted_items (∅ : gmap string V) = [].
Proof. unfold sorted_items. rewrite dom_empty_L, elements_empty. reflexivity. Qed.

Lemma issues_in_heading (s s' : section) (text : string) (l : list line) :
  issues_in s ((KHeading s', text) :: l) = issues_in s l.
Proof. reflexivity. Qed.

Lemma issues_in_app (s : section) (l1 l2 : list line) :
  issues_in s (l1 ++ l2) = issues_in s l1 ++ issues_in s l2.
Proof. apply omap_app. Qed.

(** The issue lines of a loop that appends, for every element, the line of
    an issue and then lines of commits. *)
Lemma issues_in_items {A} (s : section) (f : A -> list line) (id : A -> string)
  (l : list A) :
  (forall a, issues_in s (f a) = [id a]) ->
  issues_in s (concat (map f l)) = map id l.
Proof.
  intros Hf. induction l as [|a l IH]; [reflexivity|].
  cbn [map concat]. rewrite issues_in_app, Hf, IH. reflexivity.
Qed.

Lemma issues_in_lines {A} (s : section) (f : A -> line) (id : A -> string)
  (l : list A) :
  (forall a, (f a).1 = KIssue s (id a)) ->
  issues_in s (map f l) = map id l.
Proof.
  intros Hf. induction l as [|a l IH]; [reflexivity|].
  cbn [map]. unfold issues_in in *. cbn [omap list_omap]. rewrite IH, Hf.
  destruct (decide (s = s)); [reflexivity | congruence].
Qed.

Lemma issues_in_issue_line (s : section) (i text : string) (rest : list line) :
  issues_in s ((KIssue s i, text) :: rest) = i :: issues_in s rest.
Proof.
  unfold issues_in. cbn [omap list_omap fst].
  destruct (decide (s = s)); [reflexivity | congruence].
Qed.

Lemma plain_done_items_issues add_links show dc (s s' : section) (l : list entry) :
  issues_in s (concat (map (plain_done_item add_links show dc s') l))
  = if decide (s = s') then map (fun e : entry => e.1.1) l else [].
Proof.
  destruct (decide (s = s')) as [<-|Hne].
  - apply issues_in_items. intros e. unfold plain_done_item.
    rewrite issues_in_issue_line.
    destruct (shows show "done"); [rewrite issues_in_tagged|]; reflexivity.
  - apply (issues_in_other s s'); [exact Hne|].
    apply concat_map_in. intros e. apply plain_done_item_in.
Qed.

Lemma slack_done_items_issues show dc (s s' : section) (l : list entry) :
  issues_in s (concat (map (slack_done_item show dc s') l))
  = if decide (s = s') then map (fun e : entry => e.1.1) l else [].
Proof.
  destruct (decide (s = s')) as [<-|Hne].
  - apply issues_in_items. intros e. unfold slack_done_item.
    rewrite issues_in_issue_line.
    destruct (shows show "done"); [rewrite issues_in_tagged|]; reflexivity.
  - apply (issues_in_other s s'); [exact Hne|].
    apply concat_map_in. intros e. apply slack_done_item_in.
Qed.

Lemma plain_worked_items_issues add_links show (s : section)
  (l : list (string * worked)) :
  issues_in s (concat (map (plain_worked_item add_links show) l))
  = if decide (s = SInProgress) then map fst l else [].
Proof.
  destruct (decide (s = SInProgress)) as [->|Hne].
  - apply issues_in_items. intros ti. unfold plain_worked_item.
    rewrite issues_in_issue_line.
    destruct (shows show "in_progress"); [rewrite issues_in_tagged|]; reflexivity.
  - apply (issues_in_other s SInProgress); [exact Hne|].
    apply concat_map_in. intros ti. apply plain_worked_item_in.
Qed.

Lemma slack_worked_items_issues show (s : section) (l : list (string * worked)) :
  issues_in s (concat (map (slack_worked_item show) l))
  = if decide (s = SInProgress) then map fst l else [].
Proof.
  destruct (decide (s = SInProgress)) as [->|Hne].
  - apply issues_in_items. intros ti. unfold slack_worked_item.
    rewrite issues_in_issue_line.
    destruct (shows show "in_progress"); [rewrite issues_in_tagged|]; reflexivity.
  - apply (issues_in_other s SInProgress); [exact Hne|].
    apply concat_map_in. intros ti. apply slack_worked_item_in.
Qed.

Lemma issue_lines_issues {A} (s s' : section) (f : A -> line) (id : A -> string)
  (l : list A) :
  (forall a, f a = (KIssue s' (id a), (f a).2)) ->
  issues_in s (map f l) = if decide (s = s') then map id l else [].
Proof.
  intros Hf. destruct (decide (s = s')) as [<-|Hne].
  - apply issues_in_lines. intros a. rewrite Hf. reflexivity.
  - apply (issues_in_other s s'); [exact Hne|].
    apply map_in. intros a. rewrite Hf. reflexivity.
Qed.

Lemma slack_unknown_section_in done review wo cs show :
  Forall (in_section SUnknown) (slack_unknown_section done review wo cs show).
Proof.
  unfold slack_unknown_section.
  destruct (shows show "in_progress"); [|constructor].
  destruct (bool_decide _); constructor; [reflexivity|].
  apply concat_map_in. intros t. apply tagged_in.
Qed.

Lemma orphan_section_issues (s : section) (c : bool) (heading : string)
  (l : list string) :
  issues_in s (if c then (KHeading SOrphan, heading) :: tagged (KCommit SOrphan) l
               else []) = [].
Proof.
  destruct c; [|reflexivity].
  change (issues_in s (tagged (KCommit SOrphan) l) = []). apply issues_in_tagged.
Qed.

(** The identifiers of the issue lines of the plain-text report. *)
Lemma plain_issues today done review wo blocked add_links show dc oc (s : section) :
  issues_in s (build_report_lines today done review wo blocked add_links show dc oc)
  = match s with
    | SDone => map (fun e : entry => e.1.1) done
    | SReview => map (fun e : entry => e.1.1) review
    | SInProgress => map fst (sorted_items wo)
    | SBlocked => map (fun e : entry => e.1.1) blocked
    | _ => []
    end.
Proof.
  unfold build_report_lines. rewrite !issues_in_app.
  rewrite orphan_section_issues.
  destruct done as [|d0 done]; destruct review as [|r0 review];
    destruct blocked as [|b0 blocked];
    (destruct (bool_decide_reflect (wo = ∅)) as [->|_];
     [rewrite sorted_items_empty|]);
    rewrite ?issues_in_heading, ?plain_done_items_issues,
      ?plain_worked_items_issues,
      ?(issue_lines_issues s SBlocked (plain_blocked_item add_links)
          (fun e : entry => e.1.1)) by reflexivity;
    destruct s; cbn; rewrite ?app_nil_r; reflexivity.
Qed.

Lemma issues_in_unknown_section (s : section) done review wo cs show :
  issues_in s (slack_unknown_section done review wo cs show) = [].
Proof.
  unfold slack_unknown_section.
  destruct (shows show "in_progress"); [|reflexivity].
  destruct (bool_decide _); [reflexivity|].
  rewrite issues_in_heading.
  induction (sorted (elements _)) as [|t l IH]; [reflexivity|].
  cbn [map concat]. rewrite issues_in_app, IH.
  unfold slack_unknown_item. rewrite issues_in_tagged. reflexivity.
Qed.

(** The identifiers of the issue lines of the chat report. *)
Lemma slack_issues today done review wo blocked backlog cs oc show dc (s : section) :
  issues_in s (build_slack_report_lines today done review wo blocked backlog cs oc
                 show dc)
  = match s with
    | SDone => map (fun e : entry => e.1.1) done
    | SReview => map (fun e : entry => e.1.1) review
    | SInProgress => map fst (sorted_items wo)
    | SBlocked => map (fun e : entry => e.1.1) blocked
    | SBacklog => map (fun e : entry => e.1.1) (sort_by entry_le backlog)
    | _ => []
    end.
Proof.
  unfold build_slack_report_lines. rewrite !issues_in_app.
  rewrite orphan_section_issues, issues_in_unknown_section.
  remember (sort_by entry_le backlog) as sb eqn:Esb.
  destruct backlog as [|k0 backlog]; [cbn in Esb; subst sb|];
    destruct done as [|d0 done]; destruct review as [|r0 review];
    destruct blocked as [|b0 blocked];
    (destruct (bool_decide_reflect (wo = ∅)) as [->|_];
     [rewrite sorted_items_empty|]);
    rewrite ?issues_in_heading, ?slack_done_items_issues,
      ?slack_worked_items_issues,
      ?(issue_lines_issues s SBlocked slack_blocked_item
          (fun e : entry => e.1.1)),
      ?(issue_lines_issues s SBacklog slack_backlog_item
          (fun e : entry => e.1.1)) by reflexivity;
    destruct s; cbn; rewrite ?app_nil_r; reflexivity.
Qed.

End Rendering.

(** ** The section of unknown tickets *)

Section Unknown.

Ltac in_sec :=
  repeat match goal with
    | |- Forall _ (concat (map _ _)) => apply concat_map_in; intros
    | |- Forall _ (map _ _) => apply map_in; intros; reflexivity
    | |- Forall _ (tagged _ _) => apply tagged_in
    | |- Forall _ (slack_done_item _ _ _ _) => apply slack_done_item_in
    | |- Forall _ (slack_worked_item _ _) => apply slack_worked_item_in
    | |- Forall _ [] => constructor
    | |- Forall _ (_ :: _) => constructor; [reflexivity|]
    end.

Ltac other_section s' :=
  rewrite (section_lines_other SUnknown s') by first [discriminate | in_sec].

Lemma section_lines_same (s : section) (l : list line) :
  Forall (in_section s) l -> section_lines s l = l.
Proof.
  intros Hl. unfold section_lines.
  induction Hl as [|x l Hx _ IH]; [reflexivity|].
  rewrite filter_cons_True by exact Hx. f_equal. exact IH.
Qed.

Lemma section_lines_app (s : section) (l1 l2 : list line) :
  section_lines s (l1 ++ l2) = section_lines s l1 ++ section_lines s l2.
Proof. apply filter_app. Qed.

(** The lines of the section of unknown tickets are those that
    [slack_unknown_section] gives. *)
Lemma slack_unknown_lines today done review wo blocked backlog cs oc show dc :
  section_lines SUnknown
    (build_slack_report_lines today done review wo blocked backlog cs oc show dc)
  = slack_unknown_section done review wo cs show.
Proof.
  unfold build_slack_report_lines. rewrite !section_lines_app.
  assert (Hu : section_lines SUnknown (slack_unknown_section done review wo cs show)
               = slack_unknown_section done review wo cs show).
  { apply section_lines_same, slack_unknown_section_in. }
  rewrite Hu. set (u := slack_unknown_section done review wo cs show). clearbody u.
  rewrite section_lines_title.
  destruct done as [|d0 done]; destruct review as [|r0 review];
    destruct blocked as [|b0 blocked]; destruct backlog as [|k0 backlog];
    destruct (bool_decide (wo = ∅));
    destruct (shows show "orphan" && negb (bool_decide (oc = [])));
    other_section SDone; other_section SDone;
    try other_section SReview;
    other_section SInProgress; other_section SInProgress;
    try other_section SOrphan;
    other_section SBlocked; other_section SBlocked;
    other_section SNeedTasks; other_section SNeedTasks;
    try other_section SBacklog;
    cbn [app]; rewrite ?app_nil_r; reflexivity.
Qed.

End Unknown.

(** ** A property of every line of a report *)

Section EveryLine.

Lemma append_empty (s : string) : s +:+ EmptyString = s.
Proof.
  induction s as [|c s IH]; [reflexivity|].
  change (String c s +:+ EmptyString) with (String c (s +:+ EmptyString)).
  rewrite IH. reflexivity.
Qed.

Lemma tagged_text (P : line -> Prop) (s : section) (l : list string) :
  (forall x, P (KCommit s, x)) -> Forall P (tagged (KCommit s) l).
Proof. intros HP. induction l; constructor; [apply HP | assumption]. Qed.

Lemma concat_map_text {A} (P : line -> Prop) (f : A -> list line) (l : list A) :
  (forall a, Forall P (f a)) -> Forall P (concat (map f l)).
Proof.
  intros Hf. induction l as [|a l IH]; cbn [map concat]; [constructor|].
  apply Forall_app. split; [apply Hf | exact IH].
Qed.

Lemma map_text {A} (P : line -> Prop) (f : A -> line) (l : list A) :
  (forall a, P (f a)) -> Forall P (map f l).
Proof. intros Hf. induction l; constructor; [apply Hf | assumption]. Qed.

End EveryLine.

(** ** The buckets of a run *)

Section Buckets.

Context (cfg : config) (date_from date_to : date) (projects : list project_fetch).

#[local] Abbreviation L := (fetched_issues projects).
#[local] Abbreviation B := (classify cfg date_from date_to projects).
#[local] Abbreviation verdict_at := (verdict_of date_from date_to).

Lemma classify_buckets :
  done_issues B = entries_with cfg date_from date_to VDone L /\
  review_issues B = entries_with cfg date_from date_to VReview L /\
  blocked_issues B = entries_with cfg date_from date_to VBlocked L /\
  backlog_issues B = entries_with cfg date_from date_to VBacklog L.
Proof.
  unfold classify. rewrite classify_flat.
  exact (buckets_after cfg date_from date_to no_buckets L).
Qed.

Lemma entries_with_elem (v : verdict) (e : entry) :
  e ∈ entries_with cfg date_from date_to v L <->
  exists y, y ∈ L /\ verdict_at y = v /\ e = entry_of cfg y.
Proof.
  unfold entries_with. rewrite list_elem_of_fmap. split.
  - intros (y & -> & Hy). apply list_elem_of_filter in Hy as [Hv Hy]. eauto.
  - intros (y & Hy & Hv & ->). exists y. split; [reflexivity|].
    apply list_elem_of_filter. auto.
Qed.

Lemma entry_of_ident (x : fetched_issue) : (entry_of cfg x).1.1 = ident x.
Proof. reflexivity. Qed.

Lemma ident_unique (l : list fetched_issue) (x y : fetched_issue) :
  NoDup (map ident l) -> x ∈ l -> y ∈ l -> ident x = ident y -> x = y.
Proof.
  induction l as [|z l IH]; intros Hnd Hx Hy E.
  - apply elem_of_nil in Hx. destruct Hx.
  - cbn [map] in Hnd. apply NoDup_cons in Hnd as [Hz Hnd].
    apply elem_of_cons in Hx as [->|Hx]; apply elem_of_cons in Hy as [->|Hy].
    + reflexivity.
    + exfalso. apply Hz. rewrite E. apply list_elem_of_fmap. eauto.
    + exfalso. apply Hz. rewrite <- E. apply list_elem_of_fmap. eauto.
    + apply IH; assumption.
Qed.

Lemma last_filter_None {A} (P : A -> Prop) `{!forall a, Decision (P a)} (l : list A) :
  (forall a, a ∈ l -> ~ P a) -> last (filter P l) = None.
Proof. intros Hl. rewrite filter_none by exact Hl. reflexivity. Qed.

Lemma last_filter_unique {A} (P : A -> Prop) `{!forall a, Decision (P a)}
  (l : list A) (x : A) :
  x ∈ l -> P x -> (forall a, a ∈ l -> P a -> a = x) -> last (filter P l) = Some x.
Proof.
  intros Hx Px Hu.
  destruct (last (filter P l)) as [y|] eqn:E.
  - apply last_Some_elem_of in E. apply list_elem_of_filter in E as [Py Hy].
    f_equal. apply Hu; assumption.
  - apply last_None in E.
    assert (x ∈ filter P l) as Hin by (apply list_elem_of_filter; auto).
    rewrite E in Hin. apply elem_of_nil in Hin. destruct Hin.
Qed.

Lemma lookup_of_classify (k : string) :
  all_issues_lookup B !! k
  = match last (filter (fun x => ident x = k) L) with
    | Some x => Some (info_of cfg x)
    | None => None
    end.
Proof.
  unfold classify. rewrite classify_flat, lookup_after.
  destruct (last _); [reflexivity | apply lookup_empty].
Qed.

Lemma active_of_classify (k : string) :
  plane_active B !! k
  = match last (filter (fun x => ident x = k /\ verdict_at x = VActive) L) with
    | Some x => Some (info_of cfg x)
    | None => None
    end.
Proof.
  unfold classify. rewrite classify_flat, active_after.
  destruct (last _); [reflexivity | apply lookup_empty].
Qed.


Section Unique.

(** An issue [x] of the run whose identifier no other fetched issue has. *)
Context (x : fetched_issue) (x_fetched : x ∈ L).
Hypothesis x_only : forall y, y ∈ L -> ident y = ident x -> y = x.

Lemma lookup_of_issue : all_issues_lookup B !! ident x = Some (info_of cfg x).
Proof.
  rewrite lookup_of_classify, (last_filter_unique _ L x); auto.
Qed.

Lemma active_of_issue :
  plane_active B !! ident x
  = if decide (verdict_at x = VActive) then Some (info_of cfg x) else None.
Proof.
  rewrite active_of_classify. destruct (decide (verdict_at x = VActive)) as [V|V].
  - rewrite (last_filter_unique _ L x); auto.
    intros a Ha [E _]. apply x_only; assumption.
  - rewrite last_filter_None; [reflexivity|].
    intros a Ha [E Va]. apply V. rewrite <- (x_only a Ha E). exact Va.
Qed.

Lemma entry_in_bucket (v : verdict) :
  entry_of cfg x ∈ entries_with cfg date_from date_to v L <-> verdict_at x = v.
Proof.
  rewrite entries_with_elem. split.
  - intros (y & Hy & Hv & E).
    assert (ident y = ident x) as Ei by (rewrite <- !entry_of_ident, E; reflexivity).
    rewrite <- (x_only y Hy Ei). exact Hv.
  - intros Hv. exists x. auto.
Qed.

Lemma ident_in_bucket (v : verdict) :
  ident x ∈ entry_ids (entries_with cfg date_from date_to v L) <-> verdict_at x = v.
Proof.
  unfold entry_ids. rewrite elem_of_list_to_set, list_elem_of_fmap. split.
  - intros (e & E & He). apply entries_with_elem in He as (y & Hy & Hv & ->).
    rewrite entry_of_ident in E. rewrite <- (x_only y Hy (eq_sym E)). exact Hv.
  - intros Hv. exists (entry_of cfg x). split; [reflexivity|].
    apply entries_with_elem. exists x. auto.
Qed.

Lemma ident_done :
  ident x ∈ done_ids_of (done_issues B) (review_issues B)
  <-> verdict_at x = VDone \/ verdict_at x = VReview.
Proof.
  destruct classify_buckets as (D & R & _ & _). rewrite D, R.
  unfold done_ids_of. rewrite elem_of_union, !ident_in_bucket. reflexivity.
Qed.

End Unique.

End Buckets.

(** ** What the scan collects *)

Section Collected.










Lemma holds_ticket_map (s : scan_state) (k l : string) :
  holds s k l -> exists lines, (k, lines) ∈ ticket_map s /\ l ∈ lines.
Proof.
  intros (msgs & Hk & Hl). exists (sorted (elements msgs)). split.
  - apply ticket_map_elem. eauto.
  - rewrite sorted_perm. apply elem_of_elements, Hl.
Qed.

End Collected.

(** ** The issues and the tickets of a run *)

Section Run.

Context (cfg : config) (date_from date_to : date)
        (projects : list project_fetch) (org : outcome (list (list fetched))).

#[local] Abbreviation issues := (fetched_issues projects).
#[local] Abbreviation classified := (classify cfg date_from date_to projects).
#[local] Abbreviation verdict_on := (verdict_of date_from date_to).

Lemma verdict_backlog (x : fetched_issue) :
  verdict_on x = VBacklog <-> in_backlog_group (group_of x) = true.
Proof.
  unfold verdict_of.
  destruct (in_backlog_group (group_of x)); [tauto|].
  destruct (negb (updated_in_range date_from date_to x.2)),
    (String.eqb (group_of x) "completed"),
    (contains "review" (state_name x.1.2 x.2)), (is_blocked x.2),
    (String.eqb (group_of x) "started"); split; congruence.
Qed.

Lemma verdict_work (x : fetched_issue) :
  in_backlog_group (group_of x) = false ->
  (verdict_on x = VDone \/ verdict_on x = VReview \/ verdict_on x = VBlocked
   \/ verdict_on x = VActive)
  <-> (updated_in_range date_from date_to x.2 = true /\ has_work_state x = true).
Proof.
  intros Hb. unfold verdict_of, has_work_state. rewrite Hb.
  destruct (updated_in_range date_from date_to x.2),
    (String.eqb (group_of x) "completed"),
    (contains "review" (state_name x.1.2 x.2)), (is_blocked x.2),
    (String.eqb (group_of x) "started"); cbn; intuition congruence.
Qed.

(** C9: every ticket of the commit map is the identifier of a done or
    in-review issue or has an in-progress entry, so the set of unknown
    tickets that the chat renderer computes is empty, and the chat report
    has no line in the section of unknown tickets. *)
Theorem unknown_tickets_section_is_empty
  (r : reconciled) (today : string) (show_commits : gset string) :
  run cfg date_from date_to projects org = Ok r ->
  orphan_tickets (r_done_issues r) (r_review_issues r) (r_worked_on r)
    (r_commits_by_ticket r) = ∅
  /\ section_lines SUnknown
       (build_slack_report_lines today (r_done_issues r) (r_review_issues r)
          (r_worked_on r) (r_blocked_issues r) (r_backlog_issues r)
          (r_commits_by_ticket r) (r_orphan_commits r) show_commits
          (r_done_commits r)) = [].
Proof.
  intros Hrun.
  assert (E : orphan_tickets (r_done_issues r) (r_review_issues r) (r_worked_on r)
                (r_commits_by_ticket r) = ∅).
  { unfold orphan_tickets. rewrite filter_none; [reflexivity|].
    intros t Ht [Hw Hd].
    apply list_elem_of_fmap in Ht as ([t' lines] & Et & Ht). cbn in Et. subst t'.
    destruct (ticket_filed_once cfg date_from date_to projects org
                r t lines Hrun Ht) as [(Hd' & _)|(_ & _ & w & Hw' & _)];
      [contradiction | congruence]. }
  split; [exact E|].
  rewrite slack_unknown_lines. unfold slack_unknown_section. rewrite E.
  destruct (shows show_commits "in_progress"); reflexivity.
Qed.



Section UniqueIdentifiers.

(** The issue [x] is the only fetched issue with its identifier. *)
Context (x : fetched_issue).
Hypothesis x_only : forall y, y ∈ issues -> ident y = ident x -> y = x.

(** C2, amended: an issue in the backlog or unstarted group is in the
    backlog bucket whatever its date of last update, and in none of the
    done, in-review and blocked buckets; it has an in-progress entry, with
    its own title and link, exactly when the commit map has its
    identifier.  (No other fetched issue has the identifier of the issue.) *)
Theorem backlog_issue_buckets (r : reconciled) :
  run cfg date_from date_to projects org = Ok r ->
  x ∈ issues ->
  in_backlog_group (group_of x) = true ->
  (entry_of cfg x ∈ r_backlog_issues r)
  /\ (entry_of cfg x ∉ r_done_issues r)
  /\ (entry_of cfg x ∉ r_review_issues r)
  /\ (entry_of cfg x ∉ r_blocked_issues r)
  /\ (forall lines,
        (ident x, lines) ∈ r_commits_by_ticket r ->
        r_worked_on r !! ident x
        = Some (Worked (i_title (info_of cfg x)) (i_url (info_of cfg x)) lines))
  /\ (ident x ∉ map fst (r_commits_by_ticket r) -> r_worked_on r !! ident x = None).
Proof.
  intros Hrun Hx Hg. destruct (run_Ok cfg _ _ _ _ r Hrun) as (cs & oc & _ & Hnd & ->).
  apply verdict_backlog in Hg.
  destruct (classify_buckets cfg date_from date_to projects) as (D & R & K & G).
  cbn [r_backlog_issues r_done_issues r_review_issues r_blocked_issues
       r_commits_by_ticket reconcile].
  rewrite D, R, K, G.
  rewrite !(entry_in_bucket cfg date_from date_to projects x Hx x_only).
  assert (Hd : ident x ∉ done_ids_of (done_issues classified) (review_issues classified)).
  { rewrite (ident_done cfg date_from date_to projects x Hx x_only).
    intros [E|E]; congruence. }
  assert (Ha : plane_active classified !! ident x = None).
  { rewrite (active_of_issue cfg date_from date_to projects x Hx x_only).
    destruct (decide _); [congruence | reflexivity]. }
  repeat split; try congruence.
  - intros lines Hin.
    rewrite (reconcile_worked_commits cfg classified cs oc Hnd (ident x) lines Hin Hd).
    unfold ticket_info. rewrite Ha.
    rewrite (lookup_of_issue cfg date_from date_to projects x Hx x_only).
    reflexivity.
  - intros Hk.
    rewrite (reconcile_worked_active cfg classified cs oc (ident x) Hk Hd), Ha.
    reflexivity.
Qed.

(** C3, amended: an issue outside the backlog and unstarted groups is in
    one of the buckets done, in review, blocked and in progress exactly
    when its date of last update is in the window and its state is
    completed, in review, blocked or started, or else when the commit map
    has its identifier.  (No other fetched issue has the identifier of the
    issue.) *)
Theorem work_bucket_iff (r : reconciled) :
  run cfg date_from date_to projects org = Ok r ->
  x ∈ issues ->
  in_backlog_group (group_of x) = false ->
  in_work_bucket cfg r x
  <-> (updated_in_range date_from date_to x.2 = true /\ has_work_state x = true)
      \/ ident x ∈ map fst (r_commits_by_ticket r).
Proof.
  intros Hrun Hx Hg. destruct (run_Ok cfg _ _ _ _ r Hrun) as (cs & oc & _ & Hnd & ->).
  rewrite <- (verdict_work x Hg).
  assert (Hnb : verdict_on x <> VBacklog).
  { rewrite verdict_backlog. congruence. }
  destruct (classify_buckets cfg date_from date_to projects) as (D & R & K & _).
  unfold in_work_bucket.
  cbn [r_done_issues r_review_issues r_blocked_issues r_commits_by_ticket reconcile].
  rewrite D, R, K.
  rewrite !(entry_in_bucket cfg date_from date_to projects x Hx x_only).
  pose proof (ident_done cfg date_from date_to projects x Hx x_only) as Hd.
  pose proof (active_of_issue cfg date_from date_to projects x Hx x_only) as Ha.
  pose proof (lookup_of_issue cfg date_from date_to projects x Hx x_only) as Hl.
  fold (reconcile cfg classified cs oc).
  destruct (decide (verdict_on x = VDone)) as [V|V1]; [tauto|].
  destruct (decide (verdict_on x = VReview)) as [V|V2]; [tauto|].
  destruct (decide (verdict_on x = VBlocked)) as [V|V3]; [tauto|].
  assert (Hnd' : ident x ∉ done_ids_of (done_issues classified) (review_issues classified))
    by (rewrite Hd; tauto).
  destruct (decide (ident x ∈ map fst cs)) as [Hk|Hk].
  - destruct (key_has_commits cs (ident x) Hk) as [lines Hin].
    split; [tauto|]. intros _. right. right. right. exists lines.
    rewrite (reconcile_worked_commits cfg classified cs oc Hnd (ident x) lines Hin Hnd').
    unfold ticket_info. rewrite Ha, Hl.
    destruct (decide (verdict_on x = VActive)); reflexivity.
  - rewrite (reconcile_worked_active cfg classified cs oc (ident x) Hk Hnd'), Ha.
    destruct (decide (verdict_on x = VActive)) as [V|V4].
    + split; [tauto|]. intros _. right. right. right. exists []. reflexivity.
    + split; [|tauto]. intros [?|[?|[?|[lines ?]]]]; try contradiction.
      discriminate.
Qed.

End UniqueIdentifiers.

End Run.

(** ** The example run *)

Section ExampleRun.

Import Example.

Ltac elem := apply list_elem_of_In; vm_compute; auto 20.
Ltac not_elem := rewrite list_elem_of_In; vm_compute; intuition discriminate.

Lemma example_run : run cfg day day projects (Ok repos) = Ok result.
Proof. vm_compute. reflexivity. Qed.

Lemma example_ids_unique : NoDup (map ident (fetched_issues projects)).
Proof. apply (bool_decide_unpack _). vm_compute. reflexivity. Qed.


Lemma unknown_tickets_section_is_empty_witness :
  run cfg day day projects (Ok repos) = Ok result /\
  orphan_tickets (r_done_issues result) (r_review_issues result)
    (r_worked_on result) (r_commits_by_ticket result) = ∅ /\
  section_lines SUnknown
    (build_slack_report_lines "2024-01-05" (r_done_issues result)
       (r_review_issues result) (r_worked_on result) (r_blocked_issues result)
       (r_backlog_issues result) (r_commits_by_ticket result)
       (r_orphan_commits result) {["in_progress"]} (r_done_commits result)) = [].
Proof.
  split; [exact example_run|].
  exact (unknown_tickets_section_is_empty cfg day day projects (Ok repos) result
           "2024-01-05" {["in_progress"]} example_run).
Defined.

Lemma backlog_issue_buckets_witness :
  (forall y, y ∈ fetched_issues projects ->
             ident y = ident the_backlog_issue -> y = the_backlog_issue) /\
  run cfg day day projects (Ok repos) = Ok result /\
  the_backlog_issue ∈ fetched_issues projects /\
  in_backlog_group (group_of the_backlog_issue) = true /\
  (entry_of cfg the_backlog_issue ∈ r_backlog_issues result)
  /\ (entry_of cfg the_backlog_issue ∉ r_done_issues result)
  /\ (entry_of cfg the_backlog_issue ∉ r_review_issues result)
  /\ (entry_of cfg the_backlog_issue ∉ r_blocked_issues result)
  /\ (forall lines,
        (ident the_backlog_issue, lines) ∈ r_commits_by_ticket result ->
        r_worked_on result !! ident the_backlog_issue
        = Some (Worked (i_title (info_of cfg the_backlog_issue))
                       (i_url (info_of cfg the_backlog_issue)) lines))
  /\ (ident the_backlog_issue ∉ map fst (r_commits_by_ticket result) ->
      r_worked_on result !! ident the_backlog_issue = None).
Proof.
  assert (H3 : the_backlog_issue ∈ fetched_issues projects).
  { apply list_elem_of_In. cbn. auto. }
  assert (H4 : in_backlog_group (group_of the_backlog_issue) = true)
    by (vm_compute; reflexivity).
  assert (H0 : forall y, y ∈ fetched_issues projects ->
                 ident y = ident the_backlog_issue -> y = the_backlog_issue).
  { intros y Hy. apply (ident_unique _ _ _ example_ids_unique Hy H3). }
  split; [exact H0|]. split; [exact example_run|].
  split; [exact H3|]. split; [exact H4|].
  exact (backlog_issue_buckets cfg day day projects (Ok repos) the_backlog_issue H0
           result example_run H3 H4).
Defined.

(** C2, as stated, fails: the issue DATA-7 is in the backlog group, a
    commit of the window mentions DATA-7, and the issue is in the backlog
    bucket and in the in-progress bucket. *)
Lemma backlog_issue_with_commits_is_in_progress :
  run cfg day day projects (Ok repos) = Ok result /\
  the_backlog_issue ∈ fetched_issues projects /\
  in_backlog_group (group_of the_backlog_issue) = true /\
  ident the_backlog_issue = "DATA-7" /\
  findall TICKET_RE "DATA-7 start the plan" = ["DATA-7"] /\
  entry_of cfg the_backlog_issue ∈ r_backlog_issues result /\
  r_worked_on result !! "DATA-7"
  = Some (Worked "Plan the migration"
            "https://app.plane.so/acme/projects/p1/issues/u7"
            ["`c3d4e5f` DATA-7 start the plan (https://github.com/acme/etl/commit/c3d4e5f6a7)"]).
Proof.
  split; [exact example_run|].
  split; [apply list_elem_of_In; cbn; auto|].
  split; [vm_compute; reflexivity|]. split; [vm_compute; reflexivity|].
  split; [vm_compute; reflexivity|]. split; [elem|].
  vm_compute. reflexivity.
Qed.

Lemma work_bucket_iff_witness :
  (forall y, y ∈ fetched_issues projects ->
             ident y = ident the_stale_issue -> y = the_stale_issue) /\
  run cfg day day projects (Ok repos) = Ok result /\
  the_stale_issue ∈ fetched_issues projects /\
  in_backlog_group (group_of the_stale_issue) = false /\
  (in_work_bucket cfg result the_stale_issue
   <-> (updated_in_range day day the_stale_issue.2 = true
        /\ has_work_state the_stale_issue = true)
       \/ ident the_stale_issue ∈ map fst (r_commits_by_ticket result)).
Proof.
  assert (H3 : the_stale_issue ∈ fetched_issues projects).
  { apply list_elem_of_In. cbn. auto 10. }
  assert (H4 : in_backlog_group (group_of the_stale_issue) = false)
    by (vm_compute; reflexivity).
  assert (H0 : forall y, y ∈ fetched_issues projects ->
                 ident y = ident the_stale_issue -> y = the_stale_issue).
  { intros y Hy. apply (ident_unique _ _ _ example_ids_unique Hy H3). }
  split; [exact H0|]. split; [exact example_run|].
  split; [exact H3|]. split; [exact H4|].
  exact (work_bucket_iff cfg day day projects (Ok repos) the_stale_issue H0
           result example_run H3 H4).
Defined.

(** C3, as stated, fails in both directions: the cancelled issue DATA-8
    was updated in the window and is in no bucket, and the started issue
    DATA-9 was updated a month before the window and is in progress,
    because a commit of the window mentions it. *)
Lemma window_does_not_decide_the_bucket :
  run cfg day day projects (Ok repos) = Ok result /\
  (the_cancelled_issue ∈ fetched_issues projects /\
   in_backlog_group (group_of the_cancelled_issue) = false /\
   updated_in_range day day the_cancelled_issue.2 = true /\
   ~ in_work_bucket cfg result the_cancelled_issue) /\
  (the_stale_issue ∈ fetched_issues projects /\
   in_backlog_group (group_of the_stale_issue) = false /\
   updated_in_range day day the_stale_issue.2 = false /\
   in_work_bucket cfg result the_stale_issue).
Proof.
  split; [exact example_run|]. split.
  - split; [apply list_elem_of_In; cbn; auto 10|].
    split; [vm_compute; reflexivity|]. split; [vm_compute; reflexivity|].
    intros [H|[H|[H|[lines H]]]].
    + revert H. not_elem.
    + revert H. not_elem.
    + revert H. not_elem.
    + vm_compute in H. discriminate.
  - split; [apply list_elem_of_In; cbn; auto 10|].
    split; [vm_compute; reflexivity|]. split; [vm_compute; reflexivity|].
    right. right. right. eexists. vm_compute. reflexivity.
Qed.


Lemma undated_issue_is_left_out_witness :
  in_backlog_group (state_group states undated) = false /\
  (iss_updated_at undated = None \/ iss_updated_at undated = Some EmptyString) /\
  updated_in_range day day undated = false /\
  classify_issue cfg day day data states no_buckets undated
  = Buckets [] [] [] [] ∅
      (<[get_issue_identifier data undated := issue_info cfg data undated]> ∅).
Proof.
  assert (H1 : in_backlog_group (state_group states undated) = false)
    by (vm_compute; reflexivity).
  assert (H2 : iss_updated_at undated = None \/ iss_updated_at undated = Some EmptyString)
    by (left; reflexivity).
  split; [exact H1|]. split; [exact H2|].
  exact (undated_issue_is_left_out cfg day day data states no_buckets undated H1 H2).
Defined.

End ExampleRun.

(** ** The previous working day and the window of an override *)

Section MoreWindow.

Lemma weekday_range (d : date) : 0 <= weekday d <= 6.
Proof. unfold weekday. pose proof (Z.mod_pos_bound (toordinal d + 6) 7). lia. Qed.

(** X1: the day that [prev_workday] gives is a working day, Monday to
    Friday, for every reference day but a Sunday, for which it is the
    Saturday. *)
Theorem prev_workday_weekday (ref : date) :
  valid ref -> 3 < toordinal ref ->
  exists d, prev_workday ref = Some d
    /\ toordinal d < toordinal ref
    /\ (weekday ref <> 6 -> 0 <= weekday d <= 4)
    /\ (weekday ref = 6 -> weekday d = 5).
Proof.
  intros V Hlo. pose proof (toordinal_bounds _ V) as B.
  pose proof (weekday_range ref) as R.
  unfold prev_workday.
  destruct (Z.eqb_spec (weekday ref) 0) as [E|N].
  - destruct (sub_days_Some ref 3 ltac:(lia)) as (d & Ed & Od).
    exists d. split; [exact Ed|]. split; [lia|].
    rewrite (weekday_shift ref d 3 Od), E.
    change ((0 - 3) mod 7) with 4. split; intros; lia.
  - destruct (sub_days_Some ref 1 ltac:(lia)) as (d & Ed & Od).
    exists d. split; [exact Ed|]. split; [lia|].
    rewrite (weekday_shift ref d 1 Od).
    assert (C : weekday ref = 1 \/ weekday ref = 2 \/ weekday ref = 3 \/
                weekday ref = 4 \/ weekday ref = 5 \/ weekday ref = 6) by lia.
    split; intros H;
      repeat (destruct C as [C|C]; [rewrite C in *; vm_compute; intuition congruence|]);
      rewrite C in *; vm_compute; intuition congruence.
Qed.

Lemma prev_workday_weekday_witness :
  exists d, prev_workday (Date 2024 1 7) = Some d
    /\ toordinal d < toordinal (Date 2024 1 7)
    /\ (weekday (Date 2024 1 7) <> 6 -> 0 <= weekday d <= 4)
    /\ (weekday (Date 2024 1 7) = 6 -> weekday d = 5).
Proof.
  apply prev_workday_weekday.
  - vm_compute; intuition discriminate.
  - vm_compute; reflexivity.
Defined.

(** X2: the window of an override does not depend on today: it starts on
    the overridden day, and it ends on that day unless the day is a
    Monday, when it ends on the Sunday before. *)
Theorem override_window (d : date) :
  valid d -> 1 < toordinal d ->
  exists e,
    (forall today, resolve_window (Some d) today = Some (d, d, e))
    /\ (weekday d <> 0 -> e = d)
    /\ (weekday d = 0 -> toordinal e = toordinal d - 1 /\ weekday e = 6).
Proof.
  intros V Hlo. pose proof (toordinal_bounds _ V) as B.
  destruct (Z.eq_dec (weekday d) 0) as [E|N].
  - destruct (sub_days_Some d 1 ltac:(lia)) as (e & Ee & Oe).
    exists e. split; [|split; [intros; contradiction|]].
    + intros today. unfold resolve_window, workday_range. cbn.
      rewrite E. cbn [Z.eqb]. rewrite Ee. reflexivity.
    + intros _. split; [exact Oe|].
      rewrite (weekday_shift d e 1 Oe), E. reflexivity.
  - exists d. split; [|split; [reflexivity | intros; contradiction]].
    intros today. apply override_other_day. exact N.
Qed.

Lemma override_window_witness :
  exists e,
    (forall today, resolve_window (Some (Date 2024 1 9)) today
                   = Some (Date 2024 1 9, Date 2024 1 9, e))
    /\ (weekday (Date 2024 1 9) <> 0 -> e = Date 2024 1 9)
    /\ (weekday (Date 2024 1 9) = 0
        -> toordinal e = toordinal (Date 2024 1 9) - 1 /\ weekday e = 6).
Proof.
  apply override_window.
  - vm_compute; intuition discriminate.
  - vm_compute; reflexivity.
Defined.

End MoreWindow.

(** ** The window of the commits *)

Section CommitWindow.

Lemma date_compare_refl (d : date) : PyDate.compare d d = Eq.
Proof. unfold PyDate.compare. rewrite !Z.compare_refl. reflexivity. Qed.

(** X3: the window that is asked of the source-control API holds the
    instants (to the second) of the days from [start] to [end], and no
    instant of another day. *)
Theorem date_window_whole_days (start end_ : date) (t : datetime) :
  0 <= dt_hour t <= 23 -> 0 <= dt_minute t <= 59 -> 0 <= dt_second t <= 59 ->
  dt_microsecond t = 0 ->
  dt_leb (_date_window start end_).1 t && dt_leb t (_date_window start end_).2
  = PyDate.leb start (dt_date t) && PyDate.leb (dt_date t) end_.
Proof.
  intros Hh Hm Hs Hu. destruct t as [d h m s u].
  cbn [dt_hour dt_minute dt_second dt_microsecond dt_date] in *. subst u.
  unfold dt_leb, dt_compare, PyDate.leb, time_compare, _date_window.
  cbn [fst snd dt_hour dt_minute dt_second dt_microsecond dt_date].
  f_equal.
  - destruct (PyDate.compare start d); try reflexivity.
    destruct (Z.compare_spec 0 h); try lia; try reflexivity.
    destruct (Z.compare_spec 0 m); try lia; try reflexivity.
    destruct (Z.compare_spec 0 s); try lia; reflexivity.
  - destruct (PyDate.compare d end_); try reflexivity.
    destruct (Z.compare_spec h 23); try lia; try reflexivity.
    destruct (Z.compare_spec m 59); try lia; try reflexivity.
    destruct (Z.compare_spec s 59); try lia; reflexivity.
Qed.

Lemma date_window_whole_days_witness :
  dt_leb (_date_window (Date 2024 1 5) (Date 2024 1 7)).1
         (DateTime (Date 2024 1 7) 23 59 59 0)
  && dt_leb (DateTime (Date 2024 1 7) 23 59 59 0)
            (_date_window (Date 2024 1 5) (Date 2024 1 7)).2
  = PyDate.leb (Date 2024 1 5) (Date 2024 1 7)
    && PyDate.leb (Date 2024 1 7) (Date 2024 1 7).
Proof.
  apply (date_window_whole_days (Date 2024 1 5) (Date 2024 1 7)
           (DateTime (Date 2024 1 7) 23 59 59 0)); cbn; lia.
Defined.

End CommitWindow.

(** ** The groups of commits to show *)

Section CommitGroups.

(** X4: the set of groups given to the renderers never holds [all]: a
    group is in it when it is one of done, in_progress and orphan and
    either it or [all] was given on the command line. *)
Theorem show_commits_groups (values : list string) (sc : gset string) (g : string) :
  parse_commits values = Some sc ->
  (g ∈ sc <-> g ∈ ["done"; "in_progress"; "orphan"]
              /\ ("all" ∈ values \/ g ∈ values)).
Proof.
  unfold parse_commits.
  destruct (forallb _ values) eqn:F; [|discriminate].
  intros E. inversion E; subst sc. clear E.
  rewrite forallb_forall in F.
  unfold expand_commits. case_bool_decide as A.
  - split.
    + intros Hg. split; [|left; exact A].
      rewrite !elem_of_union, !elem_of_singleton in Hg.
      rewrite !elem_of_cons. tauto.
    + intros [Hg _]. rewrite !elem_of_cons, elem_of_nil in Hg.
      rewrite !elem_of_union, !elem_of_singleton. tauto.
  - rewrite elem_of_list_to_set. split.
    + intros H. split; [|right; exact H].
      assert (C : g ∈ COMMIT_CHOICES).
      { apply list_elem_of_In in H. specialize (F g H).
        apply bool_decide_eq_true in F. exact F. }
      unfold COMMIT_CHOICES in C.
      apply elem_of_cons in C as [->|C]; [contradiction|]. exact C.
    + intros [_ [H|H]]; [contradiction | exact H].
Qed.

Lemma show_commits_groups_witness :
  "orphan" ∈ ({["done"; "in_progress"; "orphan"]} : gset string)
  <-> "orphan" ∈ ["done"; "in_progress"; "orphan"]
      /\ ("all" ∈ ["all"; "done"] \/ "orphan" ∈ ["all"; "done"]).
Proof.
  apply (show_commits_groups ["all"; "done"]). reflexivity.
Defined.

End CommitGroups.

(** ** The window test on an issue *)

Section WindowTest.

(** X5: the window is applied to the issues by comparing strings; on a
    timestamp that starts with the ISO form of a date this is the
    comparison of dates: the issue is in the window exactly when its date
    of last update is neither before the first day nor after the last. *)
Theorem window_test_compares_dates
  (date_from date_to updated : date) (time : string) (i : issue) :
  valid date_from -> valid date_to -> valid updated ->
  iss_updated_at i = Some (isoformat updated +:+ time) ->
  (updated_in_range date_from date_to i = true
   <-> PyDate.leb date_from updated = true /\ PyDate.leb updated date_to = true).
Proof.
  intros Vf Vt Vu Hu.
  rewrite (updated_in_range_dates date_from date_to updated time i Vf Vt Vu Hu).
  apply andb_true_iff.
Qed.

Lemma window_test_compares_dates_witness :
  updated_in_range Example.day Example.day Example.fix_bug = true
  <-> PyDate.leb Example.day (Date 2024 1 4) = true
      /\ PyDate.leb (Date 2024 1 4) Example.day = true.
Proof.
  apply (window_test_compares_dates Example.day Example.day (Date 2024 1 4)
           "T16:20:00Z" Example.fix_bug).
  - vm_compute; intuition discriminate.
  - vm_compute; intuition discriminate.
  - vm_compute; intuition discriminate.
  - reflexivity.
Defined.

End WindowTest.

(** ** The pages of work items *)

Section Pagination.

Context (api : nat -> outcome page).

Lemma fetch_pages_run (pages : list page) (p : page) (fuel n : nat)
  (acc : list work_item) :
  (forall j q, pages !! j = Some q -> api (n + j)%nat = Ok q /\ last_page q = false) ->
  api (n + length pages)%nat = Ok p -> last_page p = true ->
  (length pages < fuel)%nat ->
  fetch_pages fuel api n acc
  = Some (Ok (acc ++ concat (map page_items pages) ++ page_items p)).
Proof.
  revert fuel n acc. induction pages as [|q pages IH]; intros fuel n acc Hp Hl Hlast Hf.
  - destruct fuel as [|fuel]; [cbn in Hf; lia|]. cbn [fetch_pages].
    cbn [length] in Hl. rewrite Nat.add_0_r in Hl. rewrite Hl.
    destruct p as [items|results next]; cbn in *; [reflexivity|].
    destruct next; [discriminate|]. reflexivity.
  - destruct fuel as [|fuel]; [cbn in Hf; lia|]. cbn [fetch_pages].
    destruct (Hp 0%nat q eq_refl) as [Hq Hn]. rewrite Nat.add_0_r in Hq. rewrite Hq.
    destruct q as [items|results next]; cbn in Hn; [discriminate|].
    destruct next; [|discriminate].
    rewrite (IH fuel (S n) (acc ++ default [] results)).
    + cbn [map concat page_items]. rewrite <- !app_assoc. reflexivity.
    + intros j q' Hj. specialize (Hp (S j) q' Hj).
      replace (S n + j)%nat with (n + S j)%nat by lia. exact Hp.
    + cbn [length] in Hl. replace (S n + length pages)%nat with (n + S (length pages))%nat by lia.
      exact Hl.
    + exact Hlast.
    + cbn [length] in Hf. lia.
Qed.

Lemma fetch_pages_fail (pages : list page) (fuel n : nat) (acc : list work_item) :
  (forall j q, pages !! j = Some q -> api (n + j)%nat = Ok q /\ last_page q = false) ->
  api (n + length pages)%nat = Raised ->
  (length pages < fuel)%nat ->
  fetch_pages fuel api n acc = Some Raised.
Proof.
  revert fuel n acc. induction pages as [|q pages IH]; intros fuel n acc Hp Hl Hf.
  - destruct fuel as [|fuel]; [cbn in Hf; lia|]. cbn [fetch_pages].
    cbn [length] in Hl. rewrite Nat.add_0_r in Hl. rewrite Hl. reflexivity.
  - destruct fuel as [|fuel]; [cbn in Hf; lia|]. cbn [fetch_pages].
    destruct (Hp 0%nat q eq_refl) as [Hq Hn]. rewrite Nat.add_0_r in Hq. rewrite Hq.
    destruct q as [items|results next]; cbn in Hn; [discriminate|].
    destruct next; [|discriminate].
    apply IH.
    + intros j q' Hj. specialize (Hp (S j) q' Hj).
      replace (S n + j)%nat with (n + S j)%nat by lia. exact Hp.
    + cbn [length] in Hl. replace (S n + length pages)%nat with (n + S (length pages))%nat by lia.
      exact Hl.
    + cbn [length] in Hf. lia.
Qed.

(** X6: the pages are requested from the first one up to the first page
    that is a bare list or names no next page; the result is the work
    items of these pages, in order, that are assigned to the member, and no
    later page is looked at. *)
Theorem get_my_issues_pages
  (member_id : string) (pages : list page) (p : page) (fuel : nat) :
  (forall j q, pages !! j = Some q -> api (S j) = Ok q /\ last_page q = false) ->
  api (S (length pages)) = Ok p -> last_page p = true ->
  (length pages < fuel)%nat ->
  get_my_issues fuel api member_id
  = Some (Ok (filter (fun w => is_assigned member_id w = true)
                     (concat (map page_items pages) ++ page_items p))).
Proof.
  intros Hp Hl Hlast Hf. unfold get_my_issues.
  rewrite (fetch_pages_run pages p fuel 1 []); auto.
Qed.

(** X7: an HTTP error on a page makes the whole fetch raise, whatever the
    pages before it gave; [main] then skips the project, which adds
    nothing to the buckets. *)
Theorem get_my_issues_page_error
  (member_id : string) (pages : list page) (fuel : nat)
  (cfg : config) (date_from date_to : date) (p : project)
  (states : outcome (gmap string wstate)) (b : buckets) :
  (forall j q, pages !! j = Some q -> api (S j) = Ok q /\ last_page q = false) ->
  api (S (length pages)) = Raised ->
  (length pages < fuel)%nat ->
  get_my_issues fuel api member_id = Some Raised
  /\ classify_project cfg date_from date_to b (fetch_project p states Raised) = b.
Proof.
  intros Hp Hl Hf. split.
  - unfold get_my_issues. rewrite (fetch_pages_fail pages fuel 1 []); auto.
  - unfold classify_project, fetch_project. cbn. destruct states; reflexivity.
Qed.

(** X8: the loop has no bound: against an API whose every page names a
    next page it never returns. *)
Theorem get_my_issues_unbounded (member_id : string) (fuel : nat) :
  (forall n, exists results, api n = Ok (PageObject results true)) ->
  get_my_issues fuel api member_id = None.
Proof.
  intros H. unfold get_my_issues.
  enough (E : forall n acc, fetch_pages fuel api n acc = None) by (rewrite E; reflexivity).
  induction fuel as [|fuel IH]; intros n acc; [reflexivity|].
  cbn [fetch_pages]. destruct (H n) as [results ->]. apply IH.
Qed.

End Pagination.

(** ** The order of the branches of the classification *)

Section Precedence.

Context (cfg : config) (date_from date_to : date) (projects : list project_fetch).
Context (x : fetched_issue).
Hypothesis x_fetched : x ∈ fetched_issues projects.
Hypothesis x_only :
  forall y, y ∈ fetched_issues projects -> ident y = ident x -> y = x.

#[local] Abbreviation b := (classify cfg date_from date_to projects).
#[local] Abbreviation e := (entry_of cfg x).
#[local] Abbreviation in_window := (updated_in_range date_from date_to x.2).
#[local] Abbreviation g := (group_of x).
#[local] Abbreviation in_review := (contains "review" (state_name x.1.2 x.2)).

Lemma verdict_cases :
  (verdict_of date_from date_to x = VBacklog <-> in_backlog_group g = true) /\
  (verdict_of date_from date_to x = VDone
   <-> in_backlog_group g = false /\ in_window = true /\ g = "completed") /\
  (verdict_of date_from date_to x = VReview
   <-> in_backlog_group g = false /\ in_window = true /\ g <> "completed"
       /\ in_review = true) /\
  (verdict_of date_from date_to x = VBlocked
   <-> in_backlog_group g = false /\ in_window = true /\ g <> "completed"
       /\ in_review = false /\ is_blocked x.2 = true) /\
  (verdict_of date_from date_to x = VActive
   <-> in_backlog_group g = false /\ in_window = true /\ g <> "completed"
       /\ in_review = false /\ is_blocked x.2 = false /\ g = "started").
Proof.
  unfold verdict_of.
  destruct (in_backlog_group g), in_window, (String.eqb_spec g "completed"),
    in_review, (is_blocked x.2), (String.eqb_spec g "started");
    cbn; repeat split; intros; intuition congruence.
Qed.

(** X9: the branches of the classification are tried in a fixed order, so
    an issue with an identifier of its own is in at most one of the
    buckets: in the backlog by its group alone; otherwise, when updated in
    the window, done if completed, else in review if the name of its state
    holds "review", else blocked if it has the label, else active if
    started. *)
Theorem issue_bucket_precedence :
  (e ∈ backlog_issues b <-> in_backlog_group g = true) /\
  (e ∈ done_issues b
   <-> in_backlog_group g = false /\ in_window = true /\ g = "completed") /\
  (e ∈ review_issues b
   <-> in_backlog_group g = false /\ in_window = true /\ g <> "completed"
       /\ in_review = true) /\
  (e ∈ blocked_issues b
   <-> in_backlog_group g = false /\ in_window = true /\ g <> "completed"
       /\ in_review = false /\ is_blocked x.2 = true) /\
  (plane_active b !! ident x = Some (info_of cfg x)
   <-> in_backlog_group g = false /\ in_window = true /\ g <> "completed"
       /\ in_review = false /\ is_blocked x.2 = false /\ g = "started").
Proof.
  destruct (classify_buckets cfg date_from date_to projects) as (D & R & K & G).
  rewrite D, R, K, G.
  rewrite !(entry_in_bucket cfg date_from date_to projects x x_fetched x_only).
  rewrite (active_of_issue cfg date_from date_to projects x x_fetched x_only).
  destruct verdict_cases as (C1 & C2 & C3 & C4 & C5).
  rewrite <- C1, <- C2, <- C3, <- C4, <- C5.
  repeat split; try tauto.
  - destruct (decide _); [tauto | discriminate].
  - intros V. destruct (decide _); [reflexivity | contradiction].
Qed.

Lemma verdict_unknown_state :
  iss_state x.2 ≫= (x.1.2 !!.) = None ->
  verdict_of date_from date_to x
  = if negb in_window then VExcluded
    else if is_blocked x.2 then VBlocked else VNone.
Proof.
  intros Hs. unfold verdict_of.
  assert (Eg : g = EmptyString).
  { unfold group_of, state_group, issue_state. rewrite Hs. reflexivity. }
  assert (En : in_review = false).
  { unfold state_name, issue_state. rewrite Hs. reflexivity. }
  rewrite Eg, En. reflexivity.
Qed.

(** X10: an issue whose state is not among the states of its project (or
    that names no state) has the empty group and the empty state name: it
    is not in the backlog, not done, not in review and not active, and it
    is blocked exactly when it has the label and was updated in the
    window. *)
Theorem unknown_state_issue :
  iss_state x.2 ≫= (x.1.2 !!.) = None ->
  (e ∉ backlog_issues b) /\ (e ∉ done_issues b) /\ (e ∉ review_issues b)
  /\ plane_active b !! ident x = None
  /\ (e ∈ blocked_issues b <-> in_window = true /\ is_blocked x.2 = true).
Proof.
  intros Hs. pose proof (verdict_unknown_state Hs) as V.
  destruct (classify_buckets cfg date_from date_to projects) as (D & R & K & G).
  rewrite D, R, K, G.
  rewrite !(entry_in_bucket cfg date_from date_to projects x x_fetched x_only).
  rewrite (active_of_issue cfg date_from date_to projects x x_fetched x_only).
  rewrite V.
  destruct in_window, (is_blocked x.2); cbn [negb];
    (destruct (decide _); [discriminate|]);
    repeat split; try discriminate; try reflexivity; intuition discriminate.
Qed.

End Precedence.

(** ** The in-progress entries *)

Section InProgress.

Context (cfg : config) (date_from date_to : date)
        (projects : list project_fetch) (org : outcome (list (list fetched))).


(** X12: a blocked issue whose ticket has commits in the window is listed
    twice: in the blocked bucket, and as an in-progress entry with its own
    title and link and those commits. *)
Theorem blocked_issue_with_commits
  (r : reconciled) (x : fetched_issue) (lines : list string) :
  run cfg date_from date_to projects org = Ok r ->
  x ∈ fetched_issues projects ->
  (forall y, y ∈ fetched_issues projects -> ident y = ident x -> y = x) ->
  in_backlog_group (group_of x) = false ->
  updated_in_range date_from date_to x.2 = true ->
  group_of x <> "completed" ->
  contains "review" (state_name x.1.2 x.2) = false ->
  is_blocked x.2 = true ->
  (ident x, lines) ∈ r_commits_by_ticket r ->
  entry_of cfg x ∈ r_blocked_issues r
  /\ r_worked_on r !! ident x
     = Some (Worked (i_title (info_of cfg x)) (i_url (info_of cfg x)) lines).
Proof.
  intros Hrun Hx Hu Hb Hw Hc Hr Hl Hin.
  assert (Hv : verdict_of date_from date_to x = VBlocked)
    by (apply verdict_cases; auto).
  destruct (run_Ok cfg _ _ _ _ r Hrun) as (cs & oc & _ & Hnd & ->).
  set (b := classify cfg date_from date_to projects).
  cbn [r_blocked_issues r_commits_by_ticket reconcile] in *.
  fold (reconcile cfg b cs oc).
  destruct (classify_buckets cfg date_from date_to projects) as (_ & _ & K & _).
  split.
  - fold b in K. rewrite K.
    apply (entry_in_bucket cfg date_from date_to projects x Hx Hu). exact Hv.
  - assert (Hd : ident x ∉ done_ids_of (done_issues b) (review_issues b)).
    { unfold b. rewrite (ident_done cfg date_from date_to projects x Hx Hu).
      intros [E|E]; congruence. }
    rewrite (reconcile_worked_commits cfg b cs oc Hnd (ident x) lines Hin Hd).
    unfold ticket_info, b.
    rewrite (active_of_issue cfg date_from date_to projects x Hx Hu).
    rewrite (lookup_of_issue cfg date_from date_to projects x Hx Hu).
    destruct (decide _); [congruence | reflexivity].
Qed.

End InProgress.

(** ** The lookup of all the issues *)

Section Lookup.

Context (cfg : config) (date_from date_to : date) (projects : list project_fetch).

Lemma lookup_records_in (k : string) :
  (is_Some (all_issues_lookup (classify cfg date_from date_to projects) !! k)
   -> k ∈ map ident (fetched_issues projects))
  /\ (k ∈ map ident (fetched_issues projects)
      -> is_Some (all_issues_lookup (classify cfg date_from date_to projects) !! k)).
Proof.
  rewrite lookup_of_classify.
  destruct (last (filter (fun x => ident x = k) (fetched_issues projects)))
    as [x|] eqn:E.
  - apply last_Some_elem_of, list_elem_of_filter in E as [Ex Hx].
    split; [|eauto]. intros _. apply list_elem_of_fmap. exists x. auto.
  - apply last_None in E. split; [intros [i Hi]; discriminate|].
    intros Hk. apply list_elem_of_fmap in Hk as (x & -> & Hx).
    assert (Hin : x ∈ filter (fun y => ident y = ident x) (fetched_issues projects))
      by (apply list_elem_of_filter; auto).
    rewrite E in Hin. apply elem_of_nil in Hin. destruct Hin.
Qed.

(** X25: every fetched issue is recorded in [all_issues_lookup], whatever
    its state and its date: the lookup has an entry for an identifier
    exactly when a fetched issue has it, the entry holds the title and the
    link of such an issue, and every active issue is in the lookup. *)
Theorem lookup_records_every_issue (k : string) :
  let b := classify cfg date_from date_to projects in
  (is_Some (all_issues_lookup b !! k) <-> k ∈ map ident (fetched_issues projects))
  /\ (forall i, all_issues_lookup b !! k = Some i ->
        exists x, x ∈ fetched_issues projects /\ ident x = k /\ i = info_of cfg x)
  /\ (is_Some (plane_active b !! k) -> is_Some (all_issues_lookup b !! k)).
Proof.
  cbv zeta. rewrite lookup_of_classify, active_of_classify.
  destruct (last (filter (fun x => ident x = k) (fetched_issues projects)))
    as [x|] eqn:E.
  - apply last_Some_elem_of, list_elem_of_filter in E as [Ex Hx].
    split; [|split].
    + split; [|eauto]. intros _. apply list_elem_of_fmap. exists x. auto.
    + intros i Hi. inversion Hi. exists x. auto.
    + eauto.
  - apply last_None in E. split; [|split].
    + split; [intros [i Hi]; discriminate|].
      intros Hk. apply list_elem_of_fmap in Hk as (x & -> & Hx).
      assert (Hin : x ∈ filter (fun y => ident y = ident x) (fetched_issues projects))
        by (apply list_elem_of_filter; auto).
      rewrite E in Hin. apply elem_of_nil in Hin. destruct Hin.
    + intros i Hi. discriminate.
    + intros [i Hi].
      destruct (last (filter _ (fetched_issues projects))) as [x|] eqn:Ea;
        [|discriminate].
      apply last_Some_elem_of, list_elem_of_filter in Ea as [[Ex _] Hx].
      assert (Hin : x ∈ filter (fun y => ident y = k) (fetched_issues projects))
        by (apply list_elem_of_filter; auto).
      rewrite E in Hin. apply elem_of_nil in Hin. destruct Hin.
Qed.

End Lookup.

(** ** What the scan files *)

Section ScanContents.

Lemma holds_add_ticket (short t : string) (s : scan_state) (k l : string) :
  holds (add_ticket short s t) k l <-> holds s k l \/ (k = upper t /\ l = short).
Proof.
  unfold holds, add_ticket. cbn [by_ticket].
  destruct (decide (upper t = k)) as [<-|Hne].
  - rewrite lookup_insert_eq. split.
    + intros (msgs & E & Hl). inversion E; subst msgs. clear E.
      apply elem_of_union in Hl as [Hl|Hl].
      * apply elem_of_singleton in Hl. auto.
      * left. destruct (by_ticket s !! upper t) as [m|]; cbn in Hl.
        -- eauto.
        -- apply not_elem_of_empty in Hl. destruct Hl.
    + intros [(msgs & E & Hl)|[_ ->]].
      * rewrite E. cbn. eexists. split; [reflexivity|].
        apply elem_of_union. auto.
      * eexists. split; [reflexivity|]. apply elem_of_union. left.
        apply elem_of_singleton. reflexivity.
  - rewrite lookup_insert_ne by exact Hne. split; [auto|].
    intros [H|[E _]]; [exact H | congruence].
Qed.

Lemma holds_add_tickets (short : string) (ts : list string) (s : scan_state)
  (k l : string) :
  holds (foldl (add_ticket short) s ts) k l
  <-> holds s k l \/ (k ∈ map upper ts /\ l = short).
Proof.
  revert s. induction ts as [|t ts IH]; intros s; cbn [foldl map].
  - rewrite elem_of_nil. tauto.
  - rewrite IH, holds_add_ticket, elem_of_cons. tauto.
Qed.

Lemma orphans_add_tickets (short : string) (ts : list string) (s : scan_state) :
  orphans (foldl (add_ticket short) s ts) = orphans s.
Proof.
  revert s. induction ts as [|t ts IH]; intros s; [reflexivity|].
  cbn [foldl]. rewrite IH. reflexivity.
Qed.

Lemma collect_filed (s : scan_state) (c : commit) :
  collect s c
  = match filed c with
    | None => s
    | Some (short, []) => add_orphan short s
    | Some (short, _) =>
        foldl (add_ticket short) s (findall TICKET_RE (until_linebreak (c_message c)))
    end.
Proof.
  unfold collect, process, filed, first_line.
  destruct (is_empty (c_message c)); [reflexivity|].
  destruct (re_match MERGE_RE _); [reflexivity|].
  destruct (findall TICKET_RE _); reflexivity.
Qed.

Lemma filed_keys (c : commit) (short : string) (ks : list string) :
  filed c = Some (short, ks) ->
  ks = map upper (findall TICKET_RE (until_linebreak (c_message c))).
Proof.
  unfold filed, first_line.
  destruct (is_empty (c_message c)); [discriminate|].
  destruct (re_match MERGE_RE _); [discriminate|].
  intros E. inversion E. reflexivity.
Qed.

Lemma holds_collect (s : scan_state) (c : commit) (k l : string) :
  holds (collect s c) k l
  <-> holds s k l \/ exists ks, filed c = Some (l, ks) /\ k ∈ ks.
Proof.
  rewrite collect_filed. destruct (filed c) as [[short ks]|] eqn:F.
  - pose proof (filed_keys c short ks F) as Ek.
    destruct ks as [|k0 ks].
    + split; [intros H; left; exact H|].
      intros [H|(ks' & E & Hk)]; [exact H|].
      inversion E; subst. apply elem_of_nil in Hk. destruct Hk.
    + rewrite holds_add_tickets, <- Ek. split.
      * intros [H|[Hk ->]]; [auto|]. right. eauto.
      * intros [H|(ks' & E & Hk)]; [auto|]. inversion E; subst. auto.
  - split; [auto|]. intros [H|(ks & E & _)]; [exact H | discriminate].
Qed.

Lemma orphans_collect (s : scan_state) (c : commit) (l : string) :
  l ∈ orphans (collect s c) <-> l ∈ orphans s \/ filed c = Some (l, []).
Proof.
  rewrite collect_filed. destruct (filed c) as [[short ks]|] eqn:F.
  - destruct ks as [|k0 ks].
    + unfold add_orphan. cbn [orphans]. rewrite elem_of_union, elem_of_singleton.
      split; intros [H|H]; auto; [subst; auto | inversion H; auto].
    + rewrite orphans_add_tickets. split; [auto|].
      intros [H|H]; [exact H | discriminate].
  - split; [auto|]. intros [H|H]; [exact H | discriminate].
Qed.

Lemma holds_collected (cs : list commit) (s : scan_state) (k l : string) :
  holds (foldl collect s cs) k l
  <-> holds s k l \/ exists c ks, c ∈ cs /\ filed c = Some (l, ks) /\ k ∈ ks.
Proof.
  revert s. induction cs as [|c cs IH]; intros s; cbn [foldl].
  - split; [auto|]. intros [H|(c & ks & Hc & _)]; [exact H|].
    apply elem_of_nil in Hc. destruct Hc.
  - rewrite IH, holds_collect. split.
    + intros [[H|(ks & F & Hk)]|(c' & ks & Hc & F & Hk)]; [auto| |].
      * right. exists c, ks. split; [left|]; auto.
      * right. exists c', ks. split; [right|]; auto.
    + intros [H|(c' & ks & Hc & F & Hk)]; [auto|].
      apply elem_of_cons in Hc as [->|Hc]; [left; right; eauto|].
      right. eauto.
Qed.

Lemma orphans_collected (cs : list commit) (s : scan_state) (l : string) :
  l ∈ orphans (foldl collect s cs)
  <-> l ∈ orphans s \/ exists c, c ∈ cs /\ filed c = Some (l, []).
Proof.
  revert s. induction cs as [|c cs IH]; intros s; cbn [foldl].
  - split; [auto|]. intros [H|(c & Hc & _)]; [exact H|].
    apply elem_of_nil in Hc. destruct Hc.
  - rewrite IH, orphans_collect. split.
    + intros [[H|F]|(c' & Hc & F)]; [auto| |].
      * right. exists c. split; [left|]; auto.
      * right. exists c'. split; [right|]; auto.
    + intros [H|(c' & Hc & F)]; [auto|].
      apply elem_of_cons in Hc as [->|Hc]; [left; right; eauto|].
      right. eauto.
Qed.

Lemma inhabited_add_ticket (short t : string) (s : scan_state) :
  inhabited_keys s -> inhabited_keys (add_ticket short s t).
Proof.
  intros Hs k msgs. unfold add_ticket. cbn [by_ticket].
  destruct (decide (upper t = k)) as [<-|Hne].
  - rewrite lookup_insert_eq. intros E. inversion E. exists short.
    apply elem_of_union. left. apply elem_of_singleton. reflexivity.
  - rewrite lookup_insert_ne by exact Hne. apply Hs.
Qed.

Lemma inhabited_collect (s : scan_state) (c : commit) :
  inhabited_keys s -> inhabited_keys (collect s c).
Proof.
  intros Hs. rewrite collect_filed. destruct (filed c) as [[short [|k0 ks]]|]; auto.
  generalize (findall TICKET_RE (until_linebreak (c_message c))). intros ts.
  revert s Hs. induction ts as [|t ts IH]; intros s Hs; [exact Hs|].
  cbn [foldl]. apply IH, inhabited_add_ticket, Hs.
Qed.

Lemma inhabited_collected (cs : list commit) (s : scan_state) :
  inhabited_keys s -> inhabited_keys (foldl collect s cs).
Proof.
  revert s. induction cs as [|c cs IH]; intros s Hs; [exact Hs|].
  cbn [foldl]. apply IH, inhabited_collect, Hs.
Qed.

Lemma inhabited_empty : inhabited_keys (ScanState ∅ ∅).
Proof. intros k msgs E. cbn in E. rewrite lookup_empty in E. discriminate. Qed.

(** Two states whose keys are inhabited and that hold the same lines are
    equal. *)
Lemma scan_state_ext (s1 s2 : scan_state) :
  inhabited_keys s1 -> inhabited_keys s2 ->
  (forall l, l ∈ orphans s1 <-> l ∈ orphans s2) ->
  (forall k l, holds s1 k l <-> holds s2 k l) ->
  s1 = s2.
Proof.
  intros I1 I2 Ho Hh. destruct s1 as [m1 o1], s2 as [m2 o2]. cbn in *.
  f_equal.
  - apply map_eq. intros k.
    destruct (m1 !! k) as [a|] eqn:E1, (m2 !! k) as [b|] eqn:E2.
    + f_equal. apply set_eq. intros l. specialize (Hh k l). unfold holds in Hh.
      cbn in Hh. rewrite E1, E2 in Hh. split; intros H.
      * destruct (proj1 Hh (ex_intro _ a (conj eq_refl H))) as (b' & Eb & Hb).
        inversion Eb; subst. exact Hb.
      * destruct (proj2 Hh (ex_intro _ b (conj eq_refl H))) as (a' & Ea & Ha).
        inversion Ea; subst. exact Ha.
    + exfalso. destruct (I1 k a E1) as [l Hl].
      destruct (proj1 (Hh k l)) as (b & Eb & _).
      * exists a. cbn. auto.
      * cbn in Eb. congruence.
    + exfalso. destruct (I2 k b E2) as [l Hl].
      destruct (proj2 (Hh k l)) as (a & Ea & _).
      * exists b. cbn. auto.
      * cbn in Ea. congruence.
    + reflexivity.
  - apply set_eq. exact Ho.
Qed.

Lemma ticket_map_holds (s : scan_state) (k l : string) :
  (exists lines, (k, lines) ∈ ticket_map s /\ l ∈ lines) <-> holds s k l.
Proof.
  split.
  - intros (lines & Hin & Hl). apply ticket_map_elem in Hin as (msgs & E & ->).
    rewrite sorted_perm in Hl. apply elem_of_elements in Hl.
    exists msgs. auto.
  - apply holds_ticket_map.
Qed.

(** What the scan returns, when it scans. *)
Lemma scan_result (cfg : config) (repos : list (list fetched))
  (cs : list (string * list string)) (oc : list string) :
  is_empty (GITHUB_TOKEN cfg) = false ->
  get_github_commits cfg (Ok repos) = Ok (cs, oc) ->
  let s := foldl collect (ScanState ∅ ∅) (concat (map yielded repos)) in
  cs = ticket_map s /\ oc = sorted (elements (orphans s)).
Proof.
  intros Htok. unfold get_github_commits. rewrite Htok, for_repos_run.
  intros E. inversion E. auto.
Qed.

(** X13: what the scan files, exactly, when the first lines of the messages
    of the commits are ASCII text: a line is listed under a ticket when it
    is the line of a commit that a repository yielded, that is not a
    merge, and whose message names the ticket, in whatever case; it is
    listed as an orphan when it is the line of such a commit that names no
    ticket.  A merge commit is listed nowhere. *)
Theorem scan_files_the_yielded_commits
  (cfg : config) (repos : list (list fetched))
  (cs : list (string * list string)) (oc : list string) (k l : string) :
  is_empty (GITHUB_TOKEN cfg) = false ->
  forallb ascii_message (concat (map yielded repos)) = true ->
  get_github_commits cfg (Ok repos) = Ok (cs, oc) ->
  ((exists lines, (k, lines) ∈ cs /\ l ∈ lines)
   <-> exists c ks, c ∈ concat (map yielded repos)
                    /\ filed c = Some (l, ks) /\ k ∈ ks)
  /\ (l ∈ oc
      <-> exists c, c ∈ concat (map yielded repos) /\ filed c = Some (l, [])).
Proof.
  intros Htok _ Hscan.
  destruct (scan_result cfg repos cs oc Htok Hscan) as [-> ->].
  split.
  - rewrite ticket_map_holds, holds_collected. split; [|auto].
    intros [(msgs & E & _)|H]; [|exact H].
    cbn in E. rewrite lookup_empty in E. discriminate.
  - rewrite sorted_perm, elem_of_elements, orphans_collected. split; [|auto].
    intros [H|H]; [|exact H]. cbn in H. apply not_elem_of_empty in H. destruct H.
Qed.

(** X14: the result of the scan depends on the set of the commits that the
    repositories yield only: neither the order of the repositories and of
    their commits nor a commit that is yielded more than once changes it. *)
Theorem scan_of_the_same_commits
  (cfg : config) (repos1 repos2 : list (list fetched)) :
  (forall c, c ∈ concat (map yielded repos1) <-> c ∈ concat (map yielded repos2)) ->
  get_github_commits cfg (Ok repos1) = get_github_commits cfg (Ok repos2).
Proof.
  intros Hsame. unfold get_github_commits.
  destruct (is_empty (GITHUB_TOKEN cfg)); [reflexivity|].
  rewrite !for_repos_run.
  replace (foldl collect (ScanState ∅ ∅) (concat (map yielded repos1)))
    with (foldl collect (ScanState ∅ ∅) (concat (map yielded repos2)));
    [reflexivity|].
  apply scan_state_ext; try (apply inhabited_collected, inhabited_empty).
  - intros l. rewrite !orphans_collected.
    split; (intros [H|(c & Hc & F)]; [left; exact H | right; exists c]);
      (split; [apply Hsame, Hc | exact F]).
  - intros k l. rewrite !holds_collected.
    split; (intros [H|(c & ks & Hc & F)]; [left; exact H | right; exists c, ks]);
      (split; [apply Hsame, Hc | exact F]).
Qed.

End ScanContents.

(** ** The order of the result of the scan *)

Section ScanOrder.

Lemma leb_ne_ltb (a b : string) : le a b = true -> a <> b -> String.ltb a b = true.
Proof.
  unfold le, String.leb, String.ltb. intros Hle Hne.
  destruct (String.compare a b) eqn:E; try reflexivity; try discriminate.
  apply String.compare_eq_iff in E. contradiction.
Qed.

Lemma not_leb_ltb (a b : string) : le a b = false -> String.ltb b a = true.
Proof.
  unfold le, String.leb, String.ltb. intros Hle.
  rewrite String.compare_antisym.
  destruct (String.compare a b); try discriminate. reflexivity.
Qed.

Lemma insert_sorted_ascending (x : string) (l : list string) :
  x ∉ l -> ascending l = true -> ascending (insert_sorted x l) = true.
Proof.
  induction l as [|y l IH]; intros Hx Hl; [reflexivity|].
  cbn [insert_sorted]. apply not_elem_of_cons in Hx as [Hxy Hx].
  destruct (le x y) eqn:E.
  - change (String.ltb x y && ascending (y :: l) = true).
    rewrite Hl, (leb_ne_ltb x y E Hxy). reflexivity.
  - assert (Hl' : ascending l = true).
    { cbn [ascending] in Hl. destruct l as [|z l]; [reflexivity|].
      apply andb_true_iff in Hl as [_ Hl]. exact Hl. }
    specialize (IH Hx Hl').
    destruct l as [|z l]; cbn [insert_sorted] in *.
    + cbn [ascending]. rewrite (not_leb_ltb x y E). reflexivity.
    + destruct (le x z).
      * change (String.ltb y x && ascending (x :: z :: l) = true).
        rewrite IH, (not_leb_ltb x y E). reflexivity.
      * change (String.ltb y z && ascending (z :: insert_sorted x l) = true).
        rewrite IH, andb_true_r. cbn [ascending] in Hl.
        apply andb_true_iff in Hl as [Hl _]. exact Hl.
Qed.

Lemma sorted_ascending (l : list string) :
  NoDup l -> ascending (sorted l) = true.
Proof.
  induction l as [|x l IH]; intros Hn; [reflexivity|].
  apply NoDup_cons in Hn as [Hx Hn].
  change (sorted (x :: l)) with (insert_sorted x (sorted l)).
  apply insert_sorted_ascending; [|apply IH, Hn].
  rewrite sorted_perm. exact Hx.
Qed.

Lemma sorted_elements_ascending (X : gset string) :
  ascending (sorted (elements X)) = true.
Proof. apply sorted_ascending, NoDup_elements. Qed.

(** X15: the scan returns its lines in order: the tickets of the commit map
    are strictly ascending, and so are the lines of each ticket, of which
    there is at least one, and the orphan lines; no line is repeated. *)
Theorem scan_result_is_ordered
  (cfg : config) (org : outcome (list (list fetched)))
  (cs : list (string * list string)) (oc : list string) :
  get_github_commits cfg org = Ok (cs, oc) ->
  (ascending (map fst cs) = true /\ NoDup (map fst cs))
  /\ (ascending oc = true /\ NoDup oc)
  /\ forall k lines,
       (k, lines) ∈ cs -> ascending lines = true /\ NoDup lines /\ lines <> [].
Proof.
  unfold get_github_commits.
  destruct (is_empty (GITHUB_TOKEN cfg)).
  - intros E. inversion E. repeat split; try reflexivity; try constructor;
      apply elem_of_nil in H; destruct H.
  - destruct org as [repos|]; [|discriminate].
    rewrite for_repos_run. intros E. inversion E. clear E.
    set (s := foldl collect (ScanState ∅ ∅) (concat (map yielded repos))).
    split; [|split].
    + split; [|apply ticket_map_NoDup].
      rewrite ticket_map_keys. apply sorted_elements_ascending.
    + split; [apply sorted_elements_ascending|].
      rewrite sorted_perm. apply NoDup_elements.
    + intros k lines Hin. apply ticket_map_elem in Hin as (msgs & Hk & ->).
      split; [apply sorted_elements_ascending|]. split.
      * rewrite sorted_perm. apply NoDup_elements.
      * destruct (inhabited_collected (concat (map yielded repos)) (ScanState ∅ ∅)
                    inhabited_empty k msgs Hk) as [l Hl].
        intros En. apply elem_of_elements in Hl. rewrite <- sorted_perm, En in Hl.
        apply elem_of_nil in Hl. destruct Hl.
Qed.

End ScanOrder.

(** ** The matches of the pattern of the tickets *)

Section Subject.

Lemma take_drop (n : nat) (s : string) : take n s +:+ drop n s = s.
Proof.
  revert s. induction n as [|n IH]; intros [|c s]; cbn [take drop]; try reflexivity.
  change (String c (take n s) +:+ drop n s) with (String c (take n s +:+ drop n s)).
  rewrite IH. reflexivity.
Qed.

Lemma drop_drop (n m : nat) (s : string) : drop n (drop m s) = drop (m + n) s.
Proof.
  revert s. induction m as [|m IH]; intros s; [reflexivity|].
  destruct s as [|c s]; cbn [drop Nat.add].
  - destruct n; reflexivity.
  - apply IH.
Qed.

Lemma drop_append (s t : string) : drop (String.length s) (s +:+ t) = t.
Proof.
  induction s as [|c s IH]; [destruct t; reflexivity|].
  change (String c s +:+ t) with (String c (s +:+ t)). exact IH.
Qed.

Lemma length_append (s t : string) :
  String.length (s +:+ t) = (String.length s + String.length t)%nat.
Proof.
  induction s as [|c s IH]; [reflexivity|].
  change (String c s +:+ t) with (String c (s +:+ t)). cbn [String.length].
  rewrite IH. reflexivity.
Qed.

Lemma take_length (n : nat) (s : string) :
  (n <= String.length s)%nat -> String.length (take n s) = n.
Proof.
  revert s. induction n as [|n IH]; intros [|c s] H; cbn in *; try lia.
  rewrite IH; lia.
Qed.

Lemma span_length (p : ascii -> bool) (s : string) :
  (span p s <= String.length s)%nat.
Proof.
  induction s as [|c s IH]; cbn; [lia|]. destruct (p c); lia.
Qed.

Lemma every_take_span (p : ascii -> bool) (j : nat) (s : string) :
  (j <= span p s)%nat -> every p (take j s) = true.
Proof.
  revert s. induction j as [|j IH]; intros [|c s] H; cbn in *; try reflexivity; try lia.
  destruct (p c); [|lia]. cbn. apply IH. lia.
Qed.

Lemma advance_take (j : nat) (prev : option ascii) (rest : string) (pos : nat) o g :
  (j <= String.length rest)%nat ->
  advance j (MState prev rest pos o g)
  = MState (last_or prev (take j rest)) (drop j rest) (pos + j) o g.
Proof.
  intros Hj.
  pose proof (advance_append (take j rest) (drop j rest) prev pos o g) as H.
  rewrite take_drop, take_length in H by exact Hj. exact H.
Qed.

Lemma greedy_inv (k : mstate -> option mstate) (st m : mstate) (lo n : nat) :
  greedy k st lo n = Some m ->
  exists j, (j <= n)%nat /\ (j = n \/ lo <= j)%nat /\ k (advance j st) = Some m.
Proof.
  induction n as [|n IH]; cbn [greedy].
  - destruct (k (advance 0 st)) eqn:E; [|discriminate].
    intros H. exists 0%nat. rewrite E. auto.
  - destruct (k (advance (S n) st)) eqn:E.
    + intros H. exists (S n). rewrite E. auto.
    + destruct (lo <=? n)%nat eqn:L; [|discriminate].
      intros H. destruct (IH H) as (j & Hj & Hlo & Hk).
      exists j. split; [lia|]. split; [|exact Hk].
      right. apply Nat.leb_le in L. lia.
Qed.

Lemma upper_lower_char (c : ascii) : upper_char (lower_char c) = upper_char c.
Proof. destruct c as [[] [] [] [] [] [] [] []]; vm_compute; reflexivity. Qed.

Lemma ci_upper (c x : ascii) :
  Ascii.eqb (lower_char c) (lower_char x) = true -> upper_char c = upper_char x.
Proof.
  intros H. apply Ascii.eqb_eq in H.
  rewrite <- (upper_lower_char c), H. apply upper_lower_char.
Qed.

Lemma upper_append (s t : string) : upper (s +:+ t) = upper s +:+ upper t.
Proof.
  unfold upper. induction s as [|c s IH]; [reflexivity|].
  change (String c s +:+ t) with (String c (s +:+ t)). cbn [map_chars].
  rewrite IH. reflexivity.
Qed.

(** A match of the pattern of the tickets: five characters that are
    [data-] in some case, then one or more digits. *)
Lemma ticket_match_inv (prev : option ascii) (rest : string) (pos : nat) (m : mstate) :
  rmatch TICKET_RE (MState prev rest pos [] []) = Some m ->
  exists pre ds,
    rest = pre +:+ ds +:+ ms_rest m
    /\ String.length pre = 5%nat /\ upper pre = "DATA-"
    /\ every is_digit ds = true /\ ds <> EmptyString
    /\ ms_pos m = (pos + 5 + String.length ds)%nat
    /\ ms_groups m = [(1%nat, (pos, pos + 5 + String.length ds))%nat].
Proof.
  unfold TICKET_RE. cbn [app lit_ci]. cbn [rmatch].
  destruct (at_boundary _); [|discriminate].
  unfold open_group. cbn [ms_rest ms_prev ms_pos ms_open ms_groups].
  destruct rest as [|c1 rest]; [discriminate|].
  destruct (Ascii.eqb (lower_char c1) _) eqn:E1; [|discriminate].
  cbn [advance ms_rest ms_prev ms_pos ms_open ms_groups].
  destruct rest as [|c2 rest]; [discriminate|].
  destruct (Ascii.eqb (lower_char c2) _) eqn:E2; [|discriminate].
  cbn [advance ms_rest ms_prev ms_pos ms_open ms_groups].
  destruct rest as [|c3 rest]; [discriminate|].
  destruct (Ascii.eqb (lower_char c3) _) eqn:E3; [|discriminate].
  cbn [advance ms_rest ms_prev ms_pos ms_open ms_groups].
  destruct rest as [|c4 rest]; [discriminate|].
  destruct (Ascii.eqb (lower_char c4) _) eqn:E4; [|discriminate].
  cbn [advance ms_rest ms_prev ms_pos ms_open ms_groups].
  destruct rest as [|c5 rest]; [discriminate|].
  destruct (Ascii.eqb (lower_char c5) _) eqn:E5; [|discriminate].
  cbn [advance ms_rest ms_prev ms_pos ms_open ms_groups].
  destruct (1 <=? span is_digit rest)%nat eqn:Hn; [|discriminate].
  intros H. apply greedy_inv in H as (j & Hj & Hlo & H).
  apply Nat.leb_le in Hn.
  assert (1 <= j)%nat as Hj1 by lia.
  pose proof (span_length is_digit rest) as Hs.
  rewrite advance_take in H by lia.
  cbn [rmatch] in H. unfold close_group in H.
  cbn [ms_open ms_prev ms_rest ms_pos ms_groups List.find fst Nat.eqb] in H.
  destruct (at_boundary _); [|discriminate].
  inversion H; subst m. clear H. cbn [ms_rest ms_pos ms_groups].
  exists (String c1 (String c2 (String c3 (String c4 (String c5 EmptyString))))),
    (take j rest).
  rewrite take_length by lia.
  split; [|split; [reflexivity|split; [|split; [|split; [|split]]]]].
  - cbn. rewrite take_drop. reflexivity.
  - unfold upper. cbn [map_chars].
    rewrite (ci_upper _ _ E1), (ci_upper _ _ E2), (ci_upper _ _ E3),
      (ci_upper _ _ E4), (ci_upper _ _ E5). reflexivity.
  - apply every_take_span. lia.
  - destruct rest; [cbn in Hn; lia|]. destruct j; [lia|]. discriminate.
  - lia.
  - repeat f_equal; lia.
Qed.

(** The position [st] is a position of the subject [s]. *)
Lemma advance_1_drop (s : string) (st : mstate) :
  ms_rest st = drop (ms_pos st) s ->
  ms_rest (advance 1 st) = drop (ms_pos (advance 1 st)) s.
Proof.
  destruct st as [prev rest pos o g]. cbn [ms_rest ms_pos advance]. intros H.
  destruct rest as [|c r]; [exact H|]. cbn [ms_rest ms_pos].
  replace (S pos) with (pos + 1)%nat by lia.
  rewrite <- drop_drop, <- H. reflexivity.
Qed.

Lemma scan_tickets (s : string) (fuel : nat) (st : mstate) (x : mstate * mstate) :
  ms_rest st = drop (ms_pos st) s ->
  x ∈ scan fuel TICKET_RE st ->
  exists ds, upper (group s x.2 1) = "DATA-" +:+ ds
             /\ ds <> EmptyString /\ every is_digit ds = true.
Proof.
  revert st. induction fuel as [|fuel IH]; intros st Hst Hx; cbn [scan] in Hx.
  - apply elem_of_nil in Hx. destruct Hx.
  - pose proof (advance_1_drop s st Hst) as Hadv.
    destruct (rmatch TICKET_RE _) as [m|] eqn:Em.
    + assert (Hm := Em). apply ticket_match_inv in Hm
        as (pre & ds & Hr & Hp & Hu & Hd & Hne & Hpos & Hg).
      assert (Hhere : exists ds, upper (group s m 1) = "DATA-" +:+ ds
                                 /\ ds <> EmptyString /\ every is_digit ds = true).
      { exists ds. split; [|auto]. unfold group. rewrite Hg.
        cbn [List.find fst Nat.eqb].
        replace (ms_pos st + 5 + String.length ds - ms_pos st)%nat
          with (String.length (pre +:+ ds)) by (rewrite length_append; lia).
        rewrite <- Hst, Hr.
        change (pre +:+ ds +:+ ms_rest m) with (pre +:+ (ds +:+ ms_rest m)).
        replace (pre +:+ (ds +:+ ms_rest m)) with ((pre +:+ ds) +:+ ms_rest m).
        - rewrite take_append, upper_append, Hu, upper_digits by exact Hd. reflexivity.
        - clear. induction pre as [|c pre IH]; [reflexivity|].
          change (String c pre +:+ ds) with (String c (pre +:+ ds)).
          change (String c (pre +:+ ds) +:+ ms_rest m)
            with (String c ((pre +:+ ds) +:+ ms_rest m)).
          rewrite IH. reflexivity. }
      assert (Hm' : ms_rest m = drop (ms_pos m) s).
      { rewrite Hpos.
        replace (ms_pos st + 5 + String.length ds)%nat
          with (ms_pos st + (String.length pre + String.length ds))%nat by lia.
        rewrite <- drop_drop, <- Hst, Hr, <- drop_drop, !drop_append. reflexivity. }
      destruct (ms_pos st <? ms_pos m)%nat.
      * apply elem_of_cons in Hx as [->|Hx]; [exact Hhere|].
        apply (IH m Hm' Hx).
      * destruct (ms_rest st) eqn:Er.
        -- apply elem_of_cons in Hx as [->|Hx]; [exact Hhere|].
           apply elem_of_nil in Hx. destruct Hx.
        -- apply elem_of_cons in Hx as [->|Hx]; [exact Hhere|].
           apply (IH (advance 1 st)); [exact Hadv | exact Hx].
    + destruct (ms_rest st) eqn:Er.
      * apply elem_of_nil in Hx. destruct Hx.
      * apply (IH (advance 1 st)); [exact Hadv | exact Hx].
Qed.

Lemma findall_tickets (msg t : string) :
  t ∈ findall TICKET_RE msg ->
  exists ds, upper t = "DATA-" +:+ ds /\ ds <> EmptyString /\ every is_digit ds = true.
Proof.
  unfold findall, matches. intros H.
  apply list_elem_of_fmap in H as (x & -> & Hx).
  apply (scan_tickets msg (S (String.length msg)) (start msg) x); [|exact Hx].
  unfold start. cbn. destruct msg; reflexivity.
Qed.

(** X16: when the first lines of the messages of the commits are ASCII
    text, every ticket of the commit map is [DATA-] followed by one or more
    digits: the prefix is in upper case whatever its case in the message
    of the commit. *)
Theorem ticket_keys_are_upper_case
  (cfg : config) (org : outcome (list (list fetched)))
  (cs : list (string * list string)) (oc : list string) (k : string) :
  (forall repos, org = Ok repos ->
     forallb ascii_message (concat (map yielded repos)) = true) ->
  get_github_commits cfg org = Ok (cs, oc) ->
  k ∈ map fst cs ->
  exists ds, k = "DATA-" +:+ ds /\ ds <> EmptyString /\ every is_digit ds = true.
Proof.
  intros _. unfold get_github_commits.
  destruct (is_empty (GITHUB_TOKEN cfg)).
  - intros E. inversion E. intros Hk. apply elem_of_nil in Hk. destruct Hk.
  - destruct org as [repos|]; [|discriminate].
    rewrite for_repos_run. intros E. inversion E. clear E.
    set (s := foldl collect (ScanState ∅ ∅) (concat (map yielded repos))).
    intros Hk. apply list_elem_of_fmap in Hk as ([k' lines] & -> & Hin).
    cbn [fst]. apply ticket_map_elem in Hin as (msgs & Hm & _).
    destruct (inhabited_collected _ _ inhabited_empty k' msgs Hm) as [l Hl].
    assert (Hh : holds s k' l) by (exists msgs; auto).
    apply holds_collected in Hh as [(m0 & E0 & _)|(c & ks & _ & F & Hk)].
    + cbn in E0. rewrite lookup_empty in E0. discriminate.
    + rewrite (filed_keys c l ks F) in Hk.
      apply list_elem_of_fmap in Hk as (t & -> & Ht).
      apply (findall_tickets _ t Ht).
Qed.

End Subject.

(** ** The line of a commit, written and read back *)

Section CommitLine.

Lemma every_append (p : ascii -> bool) (s t : string) :
  every p (s +:+ t) = every p s && every p t.
Proof.
  induction s as [|c s IH]; [reflexivity|].
  change (String c s +:+ t) with (String c (s +:+ t)). cbn [every].
  rewrite IH, andb_assoc. reflexivity.
Qed.

Lemma every_impl (p q : ascii -> bool) (s : string) :
  (forall c, p c = true -> q c = true) -> every p s = true -> every q s = true.
Proof.
  intros Hpq. induction s as [|c s IH]; [reflexivity|]. cbn [every].
  intros H. apply andb_true_iff in H as [Hc Hs].
  rewrite (Hpq c Hc), IH by exact Hs. reflexivity.
Qed.

Lemma span_all (p : ascii -> bool) (s : string) :
  every p s = true -> span p s = String.length s.
Proof.
  intros H. rewrite <- (append_empty s) at 1. apply span_every; [exact H | exact I].
Qed.

Lemma graph_char (c : ascii) :
  is_graph c = true ->
  not_space c = true /\ not_newline c = true /\ Ascii.eqb " " c = false.
Proof. destruct c as [[] [] [] [] [] [] [] []]; vm_compute; intuition congruence. Qed.

Lemma hex_char (c : ascii) : is_hex c = true -> Ascii.eqb "`" c = false.
Proof. destruct c as [[] [] [] [] [] [] [] []]; vm_compute; intuition congruence. Qed.

Lemma append_assoc (a b c : string) : (a +:+ b) +:+ c = a +:+ (b +:+ c).
Proof.
  induction a as [|x a IH]; [reflexivity|].
  change (String x a +:+ b) with (String x (a +:+ b)).
  change (String x (a +:+ b) +:+ c) with (String x ((a +:+ b) +:+ c)).
  rewrite IH. reflexivity.
Qed.

Lemma drop_append_ge (n : nat) (s t : string) :
  (String.length s <= n)%nat -> drop n (s +:+ t) = drop (n - String.length s) t.
Proof.
  intros H. replace n with (String.length s + (n - String.length s))%nat at 1 by lia.
  rewrite <- drop_drop, drop_append. reflexivity.
Qed.

(** The first character of a suffix of a text whose characters are all
    of the class [p] is of the class [p]. *)
Lemma drop_every (p : ascii -> bool) (i : nat) (t : string) :
  every p t = true ->
  match drop i t with String c _ => p c = true | EmptyString => True end.
Proof.
  revert t. induction i as [|i IH]; intros [|c t] H; cbn [drop]; try exact I.
  - cbn [every] in H. apply andb_true_iff in H as [Hc _]. exact Hc.
  - cbn [every] in H. apply andb_true_iff in H as [_ Ht]. apply IH, Ht.
Qed.

(** The repetition stops at the longest run after which the rest of the
    pattern matches. *)
Lemma greedy_skip (k : mstate -> option mstate) (st m : mstate) (lo j0 n : nat) :
  (lo <= j0 <= n)%nat ->
  (forall j, (j0 < j <= n)%nat -> k (advance j st) = None) ->
  k (advance j0 st) = Some m ->
  greedy k st lo n = Some m.
Proof.
  intros Hj Hfail Hk. induction n as [|n IH].
  - assert (j0 = 0)%nat as -> by lia. cbn [greedy]. rewrite Hk. reflexivity.
  - destruct (Nat.eq_dec j0 (S n)) as [->|Hne].
    + apply greedy_first, Hk.
    + cbn [greedy]. rewrite (Hfail (S n)) by lia.
      assert (lo <= n)%nat as Hlo by lia. apply Nat.leb_le in Hlo. rewrite Hlo.
      apply IH; [lia|]. intros j Hjn. apply Hfail. lia.
Qed.

Lemma rmatch_plus_upto (p : ascii -> bool) (r : list atom) (st m : mstate) (j0 : nat) :
  (1 <= j0 <= span p (ms_rest st))%nat ->
  (forall j, (j0 < j <= span p (ms_rest st))%nat -> rmatch r (advance j st) = None) ->
  rmatch r (advance j0 st) = Some m ->
  rmatch (Plus p :: r) st = Some m.
Proof.
  intros Hj Hfail Hk. cbn [rmatch].
  assert (1 <= span p (ms_rest st))%nat as Hn by lia.
  apply Nat.leb_le in Hn. rewrite Hn.
  apply (greedy_skip _ _ _ _ j0); assumption.
Qed.

Lemma rmatch_opt_skip (p : ascii -> bool) (r : list atom) (st : mstate) :
  span p (ms_rest st) = 0%nat -> rmatch (Opt p :: r) st = rmatch r st.
Proof.
  intros H. cbn [rmatch]. rewrite H. cbn [Nat.min greedy advance].
  destruct (rmatch r st); reflexivity.
Qed.

Lemma rmatch_opt_take (p : ascii -> bool) (r : list atom) (st m : mstate) :
  (1 <= span p (ms_rest st))%nat ->
  rmatch r (advance 1 st) = Some m -> rmatch (Opt p :: r) st = Some m.
Proof.
  intros H Hk. cbn [rmatch].
  replace (Nat.min 1 (span p (ms_rest st))) with 1%nat by lia.
  apply greedy_first, Hk.
Qed.

(** The end of the pattern of a commit line, on the address and the
    closing parenthesis. *)
Lemma address_match (prev : option ascii) (body : string) (pos from : nat) o g :
  body <> EmptyString -> every is_graph body = true ->
  rmatch ([Plus not_space; GClose 3] ++ lit ")" ++ [Eol])
         (MState prev (body +:+ ")") pos ((3%nat, from) :: o) g)
  = Some (MState (Some ")"%char) EmptyString (S (pos + String.length body))
            ((3%nat, from) :: o)
            ((3%nat, (from, pos + String.length body)%nat) :: g)).
Proof.
  intros Hne Hb. cbn [app lit].
  assert (Hall : every not_space (body +:+ ")") = true).
  { rewrite every_append, (every_impl is_graph not_space body); auto.
    intros c Hc. apply graph_char, Hc. }
  assert (Hspan : span not_space (body +:+ ")") = S (String.length body)).
  { rewrite span_all by exact Hall. rewrite length_append. cbn. lia. }
  apply (rmatch_plus_upto _ _ _ _ (String.length body)); cbn [ms_rest].
  - rewrite Hspan. destruct body; [congruence|]. cbn. lia.
  - rewrite Hspan. intros j Hj. assert (j = S (String.length body)) as -> by lia.
    rewrite advance_take by (rewrite length_append; cbn; lia).
    rewrite drop_append_ge by lia.
    replace (S (String.length body) - String.length body)%nat with 1%nat by lia.
    reflexivity.
  - rewrite advance_append. cbn [rmatch]. unfold close_group.
    cbn [ms_open ms_prev ms_rest ms_pos ms_groups List.find fst Nat.eqb].
    cbn [advance ms_rest ms_prev ms_pos ms_open ms_groups at_end].
    reflexivity.
Qed.

Lemma url_match (prev : option ascii) (scheme body : string) (pos from : nat) o g :
  scheme = "http://" \/ scheme = "https://" ->
  body <> EmptyString -> every is_graph body = true ->
  rmatch (lit "http" ++ [Opt (Ascii.eqb "s")] ++ lit "://"
          ++ [Plus not_space; GClose 3] ++ lit ")" ++ [Eol])
         (MState prev (scheme +:+ body +:+ ")") pos ((3%nat, from) :: o) g)
  = Some (MState (Some ")"%char) EmptyString
            (S (pos + String.length scheme + String.length body))
            ((3%nat, from) :: o)
            ((3%nat, (from, pos + String.length scheme + String.length body)%nat) :: g)).
Proof.
  intros [-> | ->] Hne Hb.
  - change ("http://" +:+ body +:+ ")")
      with (String "h" (String "t" (String "t" (String "p"
             (String ":" (String "/" (String "/" (body +:+ ")")))))))).
    cbn [app lit]. rewrite !rmatch_chr by reflexivity.
    rewrite rmatch_opt_skip by reflexivity.
    rewrite !rmatch_chr by reflexivity.
    pose proof (address_match (Some "/"%char) body (S (S (S (S (S (S (S pos)))))))
                  from o g Hne Hb) as H.
    cbn [app lit] in H. rewrite H. cbn [String.length]. repeat f_equal; lia.
  - change ("https://" +:+ body +:+ ")")
      with (String "h" (String "t" (String "t" (String "p" (String "s"
             (String ":" (String "/" (String "/" (body +:+ ")"))))))))).
    cbn [app lit]. rewrite !rmatch_chr by reflexivity.
    apply rmatch_opt_take; [cbn; lia|].
    cbn [advance ms_rest ms_prev ms_pos ms_open ms_groups].
    rewrite !rmatch_chr by reflexivity.
    pose proof (address_match (Some "/"%char) body
                  (S (S (S (S (S (S (S (S pos)))))))) from o g Hne Hb) as H.
    cbn [app lit] in H. rewrite H. cbn [String.length]. repeat f_equal; lia.
Qed.

Lemma rmatch_bol (r : list atom) (st : mstate) :
  ms_pos st = 0%nat -> rmatch (Bol :: r) st = rmatch r st.
Proof. intros H. cbn [rmatch]. rewrite H. reflexivity. Qed.

Lemma rmatch_chr_fail (p : ascii -> bool) (r : list atom) (st : mstate) :
  match ms_rest st with String c _ => p c = false | EmptyString => True end ->
  rmatch (Chr p :: r) st = None.
Proof.
  intros H. cbn [rmatch]. destruct (ms_rest st) as [|c rest]; [reflexivity|].
  rewrite H. reflexivity.
Qed.

Lemma close_group_rest (g : nat) (st : mstate) :
  ms_rest (close_group g st) = ms_rest st.
Proof. unfold close_group. destruct (List.find _ _) as [[? ?]|]; reflexivity. Qed.

(** The pattern of a commit line from the message on: the message is
    what comes before the last space and parenthesis that open the
    address. *)
Lemma message_match (prev : option ascii) (msg scheme body : string)
  (pos from : nat) o g :
  msg <> EmptyString -> every not_newline msg = true ->
  scheme = "http://" \/ scheme = "https://" ->
  body <> EmptyString -> every is_graph body = true ->
  rmatch ([Plus not_newline; GClose 2] ++ lit " (" ++ [GOpen 3]
          ++ lit "http" ++ [Opt (Ascii.eqb "s")] ++ lit "://"
          ++ [Plus not_space; GClose 3] ++ lit ")" ++ [Eol])
         (MState prev (msg +:+ " (" +:+ scheme +:+ body +:+ ")") pos
            ((2%nat, from) :: o) g)
  = Some (MState (Some ")"%char) EmptyString
            (S (pos + String.length msg + 2 + String.length scheme
                + String.length body))
            ((3%nat, (pos + String.length msg + 2)%nat) :: (2%nat, from) :: o)
            ((3%nat, ((pos + String.length msg + 2)%nat,
                      (pos + String.length msg + 2 + String.length scheme
                       + String.length body)%nat))
             :: (2%nat, (from, (pos + String.length msg)%nat)) :: g)).
Proof.
  intros Hne Hm Hs Hbne Hb. cbn [app lit].
  set (tail := "(" +:+ scheme +:+ body +:+ ")").
  assert (Ht : every is_graph tail = true).
  { unfold tail. rewrite !every_append, Hb.
    destruct Hs as [-> | ->]; reflexivity. }
  change (msg +:+ " (" +:+ scheme +:+ body +:+ ")") with (msg +:+ String " " tail).
  assert (Hall : every not_newline (msg +:+ String " " tail) = true).
  { rewrite every_append, Hm. cbn [every andb].
    change (not_newline " ") with true. cbn [andb].
    apply (every_impl is_graph); [|exact Ht]. intros c Hc. apply graph_char, Hc. }
  assert (Hspan : span not_newline (msg +:+ String " " tail)
                  = (String.length msg + S (String.length tail))%nat).
  { rewrite span_all by exact Hall. rewrite length_append. reflexivity. }
  apply (rmatch_plus_upto _ _ _ _ (String.length msg)); cbn [ms_rest].
  - rewrite Hspan. destruct msg; [congruence|]. cbn. lia.
  - rewrite Hspan. intros j Hj.
    rewrite advance_take by (rewrite length_append; cbn [String.length]; lia).
    rewrite rmatch_close. apply rmatch_chr_fail.
    rewrite close_group_rest. cbn [ms_rest].
    rewrite drop_append_ge by lia.
    destruct (j - String.length msg)%nat as [|i] eqn:Ei; [lia|].
    cbn [drop].
    pose proof (drop_every is_graph i tail Ht) as Hd.
    destruct (drop i tail) as [|c rest]; [exact I|].
    apply graph_char in Hd. tauto.
  - rewrite advance_append, rmatch_close. unfold close_group.
    cbn [ms_open ms_prev ms_rest ms_pos ms_groups List.find fst Nat.eqb].
    unfold tail.
    change (String " " ("(" +:+ scheme +:+ body +:+ ")"))
      with (String " " (String "(" (scheme +:+ body +:+ ")"))).
    rewrite !rmatch_chr by reflexivity. rewrite rmatch_open. unfold open_group.
    cbn [ms_open ms_prev ms_rest ms_pos ms_groups].
    pose proof (url_match (Some "("%char) scheme body
                  (S (S (pos + String.length msg)))
                  (S (S (pos + String.length msg)))
                  ((2%nat, from) :: o)
                  ((2%nat, (from, (pos + String.length msg)%nat)) :: g)
                  Hs Hbne Hb) as H.
    cbn [app lit] in H. rewrite H. repeat f_equal; lia.
Qed.

(** The whole pattern, on the line that the scan makes for a commit. *)
Lemma commit_line_match (sha msg scheme body : string) :
  sha <> EmptyString -> every is_hex sha = true ->
  msg <> EmptyString -> every not_newline msg = true ->
  scheme = "http://" \/ scheme = "https://" ->
  body <> EmptyString -> every is_graph body = true ->
  let line := "`" +:+ sha +:+ "` " +:+ msg +:+ " (" +:+ (scheme +:+ body) +:+ ")" in
  exists m,
    re_match COMMIT_RE line = Some m
    /\ group line m 1 = "`" +:+ sha +:+ "`"
    /\ group line m 2 = msg
    /\ group line m 3 = scheme +:+ body.
Proof.
  intros Hsne Hsha Hne Hm Hs Hbne Hb line.
  assert (Eline : line = String "`" (sha +:+ String "`" (String " "
                           (msg +:+ " (" +:+ scheme +:+ body +:+ ")")))).
  { unfold line. rewrite (append_assoc scheme body ")"). reflexivity. }
  eexists. split; [|split; [|split]].
  - rewrite Eline. unfold re_match, start, COMMIT_RE. cbn [app lit].
    rewrite rmatch_bol by reflexivity. rewrite rmatch_open. unfold open_group.
    cbn [ms_open ms_prev ms_rest ms_pos ms_groups].
    rewrite rmatch_chr by reflexivity.
    assert (Hspan : span is_hex (sha +:+ String "`" (String " "
                      (msg +:+ " (" +:+ scheme +:+ body +:+ ")")))
                    = String.length sha).
    { apply span_every; [exact Hsha | reflexivity]. }
    apply rmatch_plus_all; cbn [ms_rest]; rewrite Hspan.
    + destruct sha; [congruence|]. cbn. lia.
    + rewrite advance_append. rewrite rmatch_chr by reflexivity.
      rewrite rmatch_close. unfold close_group.
      cbn [ms_open ms_prev ms_rest ms_pos ms_groups List.find fst Nat.eqb].
      rewrite rmatch_chr by reflexivity. rewrite rmatch_open. unfold open_group.
      cbn [ms_open ms_prev ms_rest ms_pos ms_groups].
      pose proof (message_match (Some " "%char) msg scheme body
                    (S (S (1 + String.length sha))) (S (S (1 + String.length sha)))
                    [(1%nat, 0%nat)]
                    [(1%nat, (0%nat, S (1 + String.length sha)))]
                    Hne Hm Hs Hbne Hb) as H.
      cbn [app lit] in H. exact H.
  - unfold group. cbn [ms_groups List.find fst Nat.eqb]. cbn [drop].
    replace (S (1 + String.length sha) - 0)%nat
      with (String.length ("`" +:+ sha +:+ "`"))
      by (rewrite !length_append; cbn [String.length]; lia).
    unfold line.
    replace ("`" +:+ sha +:+ "` " +:+ msg +:+ " (" +:+ (scheme +:+ body) +:+ ")")
      with (("`" +:+ sha +:+ "`") +:+ " " +:+ msg +:+ " (" +:+ (scheme +:+ body) +:+ ")").
    + apply take_append.
    + change ("`" +:+ sha +:+ "`") with (String "`" (sha +:+ "`")).
      change (String "`" (sha +:+ "`") +:+ " " +:+ msg +:+ " (" +:+ (scheme +:+ body) +:+ ")")
        with (String "`" ((sha +:+ "`") +:+ " " +:+ msg +:+ " (" +:+ (scheme +:+ body) +:+ ")")).
      rewrite append_assoc. reflexivity.
  - unfold group. cbn [ms_groups List.find fst snd Nat.eqb].
    replace (S (S (1 + String.length sha)) + String.length msg
             - S (S (1 + String.length sha)))%nat
      with (String.length msg) by lia.
    replace (S (S (1 + String.length sha)))
      with (String.length ("`" +:+ sha +:+ "` "))
      by (rewrite !length_append; cbn [String.length]; lia).
    unfold line.
    replace ("`" +:+ sha +:+ "` " +:+ msg +:+ " (" +:+ (scheme +:+ body) +:+ ")")
      with (("`" +:+ sha +:+ "` ") +:+ msg +:+ " (" +:+ (scheme +:+ body) +:+ ")").
    + rewrite drop_append. apply take_append.
    + change ("`" +:+ sha +:+ "` ") with (String "`" (sha +:+ "` ")).
      change (String "`" (sha +:+ "` ") +:+ msg +:+ " (" +:+ (scheme +:+ body) +:+ ")")
        with (String "`" ((sha +:+ "` ") +:+ msg +:+ " (" +:+ (scheme +:+ body) +:+ ")")).
      rewrite append_assoc. reflexivity.
  - unfold group. cbn [ms_groups List.find fst snd Nat.eqb].
    replace (S (S (1 + String.length sha)) + String.length msg + 2
             + String.length scheme + String.length body
             - (S (S (1 + String.length sha)) + String.length msg + 2))%nat
      with (String.length (scheme +:+ body)) by (rewrite length_append; lia).
    replace (S (S (1 + String.length sha)) + String.length msg + 2)%nat
      with (String.length ("`" +:+ sha +:+ "` " +:+ msg +:+ " ("))
      by (rewrite !length_append; cbn [String.length]; lia).
    unfold line.
    replace ("`" +:+ sha +:+ "` " +:+ msg +:+ " (" +:+ (scheme +:+ body) +:+ ")")
      with (("`" +:+ sha +:+ "` " +:+ msg +:+ " (") +:+ (scheme +:+ body) +:+ ")").
    + rewrite drop_append. apply take_append.
    + change ("`" +:+ sha +:+ "` " +:+ msg +:+ " (")
        with (String "`" (sha +:+ "` " +:+ msg +:+ " (")).
      change (String "`" (sha +:+ "` " +:+ msg +:+ " (") +:+ (scheme +:+ body) +:+ ")")
        with (String "`" ((sha +:+ "` " +:+ msg +:+ " (") +:+ (scheme +:+ body) +:+ ")")).
      rewrite !append_assoc. reflexivity.
Qed.

Lemma rstrip_by_wrapped (p : ascii -> bool) (s : string) (c : ascii) :
  every (fun x => negb (p x)) s = true -> p c = true ->
  rstrip_by p (s +:+ String c EmptyString) = s.
Proof.
  intros Hs Hc. induction s as [|x s IH].
  - change (EmptyString +:+ String c EmptyString) with (String c EmptyString).
    cbn [rstrip_by is_empty andb]. rewrite Hc. reflexivity.
  - cbn [every] in Hs. apply andb_true_iff in Hs as [Hx Hs].
    change (String x s +:+ String c EmptyString)
      with (String x (s +:+ String c EmptyString)).
    cbn [rstrip_by]. rewrite IH by exact Hs.
    apply negb_true_iff in Hx. rewrite Hx, andb_false_r. reflexivity.
Qed.

Lemma lstrip_by_clean (p : ascii -> bool) (s : string) :
  every (fun x => negb (p x)) s = true -> lstrip_by p s = s.
Proof.
  destruct s as [|x s]; [reflexivity|]. cbn [every lstrip_by].
  intros H. apply andb_true_iff in H as [Hx _].
  apply negb_true_iff in Hx. rewrite Hx. reflexivity.
Qed.

(** X17: a line that the scan makes is read back by the renderers: for a
    commit with a hexadecimal hash, a first line of ASCII text that is not
    empty and an http or https address of printable ASCII characters, the
    parts of the line are the first seven characters of the hash, the
    message without its tickets, leading dashes and surrounding white
    space, and the address. *)
Theorem commit_line_round_trip (c : commit) (msg scheme body : string) :
  take 7 (c_sha c) <> EmptyString -> every is_hex (take 7 (c_sha c)) = true ->
  msg <> EmptyString -> every not_newline msg = true -> ascii_text msg = true ->
  scheme = "http://" \/ scheme = "https://" ->
  body <> EmptyString -> every is_graph body = true ->
  c_html_url c = scheme +:+ body ->
  _slack_commit_line (short_line c msg)
  = Some (take 7 (c_sha c),
          strip (lstrip_dashes (sub_empty TICKET_RE msg)),
          c_html_url c)
  /\ line_message (short_line c msg) = msg.
Proof.
  intros Hsne Hsha Hne Hm _ Hs Hbne Hb Hurl.
  destruct (commit_line_match (take 7 (c_sha c)) msg scheme body
              Hsne Hsha Hne Hm Hs Hbne Hb) as (m & Hmatch & G1 & G2 & G3).
  cbv zeta in Hmatch, G1, G2, G3.
  unfold _slack_commit_line, line_message, short_line. rewrite Hurl, Hmatch, G1, G2, G3.
  split; [|reflexivity]. repeat f_equal.
  unfold strip_by.
  change ("`" +:+ take 7 (c_sha c) +:+ "`")
    with (String "`" (take 7 (c_sha c) +:+ String "`" EmptyString)).
  assert (Hclean : every (fun x => negb (Ascii.eqb "`" x)) (take 7 (c_sha c)) = true).
  { apply (every_impl is_hex); [|exact Hsha].
    intros x Hx. rewrite (hex_char x Hx). reflexivity. }
  cbn [rstrip_by]. rewrite rstrip_by_wrapped by (auto; reflexivity).
  destruct (take 7 (c_sha c)) as [|x s] eqn:E; [congruence|].
  cbn [is_empty andb]. change (Ascii.eqb "`" "`") with true. cbv iota.
  exact (lstrip_by_clean _ _ Hclean).
Qed.

End CommitLine.

(** ** The title made from the commits *)

Section Title.

Lemma rmatch_lit_ci (ticket written : string) (r : list atom) prev rest pos o g :
  lower written = lower ticket ->
  rmatch (lit_ci ticket ++ r) (MState prev (written +:+ rest) pos o g)
  = rmatch r (MState (last_or prev written) rest (pos + String.length written) o g).
Proof.
  revert written prev pos. induction ticket as [|t ticket IH]; intros written prev pos E.
  - destruct written as [|w written]; [|discriminate].
    cbn [lit_ci app last_or String.length]. rewrite Nat.add_0_r. reflexivity.
  - destruct written as [|w written]; [discriminate|].
    unfold lower in E. cbn [map_chars] in E. inversion E as [[Ec Er]].
    cbn [lit_ci app].
    change (String w written +:+ rest) with (String w (written +:+ rest)).
    rewrite rmatch_chr by (rewrite Ec; apply Ascii.eqb_refl).
    rewrite IH by exact Er. cbn [last_or String.length]. f_equal. f_equal. lia.
Qed.

Lemma rmatch_star_all (p : ascii -> bool) (r : list atom) (st m : mstate) :
  rmatch r (advance (span p (ms_rest st)) st) = Some m ->
  rmatch (Star p :: r) st = Some m.
Proof. intros H. cbn [rmatch]. apply greedy_first, H. Qed.

Lemma rmatch_alt_here (a : string) (alts : list string) (r : list atom)
  (st m : mstate) :
  String.prefix a (ms_rest st) = true ->
  rmatch r (advance (String.length a) st) = Some m ->
  rmatch (Alt (a :: alts) :: r) st = Some m.
Proof. intros Hp Hk. cbn [rmatch first_alt]. rewrite Hp, Hk. reflexivity. Qed.

Lemma rmatch_alt_next (a : string) (alts : list string) (r : list atom) (st : mstate) :
  String.prefix a (ms_rest st) = false ->
  rmatch (Alt (a :: alts) :: r) st = rmatch (Alt alts :: r) st.
Proof. intros Hp. cbn [rmatch first_alt]. rewrite Hp. reflexivity. Qed.

Lemma prefix_append (a rest : string) : String.prefix a (a +:+ rest) = true.
Proof.
  induction a as [|c a IH]; [destruct rest; reflexivity|].
  change (String c a +:+ rest) with (String c (a +:+ rest)). cbn [String.prefix].
  destruct (ascii_dec c c); [exact IH | congruence].
Qed.

(** A pattern anchored at the start matches nowhere else. *)
Lemma scan_bol_nil (fuel : nat) (r : list atom) (st : mstate) :
  (0 < ms_pos st)%nat -> scan fuel (Bol :: r) st = [].
Proof.
  revert st. induction fuel as [|fuel IH]; intros st Hp; [reflexivity|].
  cbn [scan rmatch ms_pos].
  destruct (ms_pos st =? 0)%nat eqn:E; [apply Nat.eqb_eq in E; lia|].
  destruct st as [prev rest pos o g]. cbn [ms_rest ms_pos] in *.
  destruct rest as [|c rest]; [reflexivity|].
  apply IH. cbn. lia.
Qed.

Lemma graph_not_space (c : ascii) : is_graph c = true -> is_space c = false.
Proof. intros H. apply graph_char in H as [H _]. apply negb_true_iff in H. exact H. Qed.

Lemma rstrip_by_last (p : ascii -> bool) (s : string) (d : option ascii) (y : ascii) :
  s <> EmptyString -> last_or d s = Some y -> p y = false -> rstrip_by p s = s.
Proof.
  revert d. induction s as [|x s IH]; intros d Hne Hl Hy; [congruence|].
  cbn [last_or] in Hl. cbn [rstrip_by].
  destruct s as [|x' s].
  - cbn in Hl. inversion Hl; subst. cbn. rewrite Hy. reflexivity.
  - rewrite (IH (Some x)) by (auto; discriminate).
    cbn [is_empty andb]. reflexivity.
Qed.

Lemma strip_trimmed (s : string) : trimmed s = true -> strip s = s.
Proof.
  destruct s as [|x s]; [discriminate|]. unfold trimmed.
  intros H. apply andb_true_iff in H as [Hx Hl].
  destruct (last_or None (String x s)) as [y|] eqn:E; [|discriminate].
  unfold strip, strip_by.
  rewrite (rstrip_by_last is_space (String x s) None y);
    [|discriminate | exact E | apply graph_not_space, Hl].
  cbn [lstrip_by]. rewrite (graph_not_space x Hx). reflexivity.
Qed.

(** The pattern of the prefix of a title, on a message that starts with
    the ticket and a separator. *)
Lemma prefix_match (ticket written ws1 ws2 sep ws3 text : string) :
  lower written = lower ticket ->
  written <> EmptyString -> every is_graph written = true ->
  every is_space ws1 = true -> every is_space ws2 = true ->
  every is_space ws3 = true ->
  sep ∈ ["-"; "–"; "—"; ":"] ->
  trimmed text = true ->
  exists prev,
    rmatch (prefix_re ticket)
           (start (ws1 +:+ written +:+ ws2 +:+ sep +:+ ws3 +:+ text))
    = Some (MState prev text
              (String.length ws1 + String.length written + String.length ws2
               + String.length sep + String.length ws3) [] []).
Proof.
  intros Elow Hwne Hw H1 H2 H3 Hsep Ht.
  destruct written as [|w written]; [congruence|].
  destruct text as [|x text]; [discriminate|].
  assert (Hx : is_space x = false).
  { unfold trimmed in Ht. apply andb_true_iff in Ht as [Ht _].
    apply graph_not_space, Ht. }
  assert (Hwsp : is_space w = false).
  { cbn [every] in Hw. apply andb_true_iff in Hw as [Hw _].
    apply graph_not_space, Hw. }
  unfold prefix_re, start. cbn [app].
  rewrite rmatch_bol by reflexivity.
  exists (last_or (last_or (last_or (last_or (last_or None ws1) (String w written))
                              ws2) sep) ws3).
  apply rmatch_star_all. cbn [ms_rest].
  rewrite span_every by (auto; exact Hwsp).
  rewrite advance_append.
  rewrite (rmatch_lit_ci ticket (String w written)) by exact Elow.
  apply rmatch_star_all. cbn [ms_rest].
  assert (Hs : match next_char (sep +:+ ws3 +:+ String x text) with
               | Some c => is_space c = false | None => True end).
  { repeat (apply elem_of_cons in Hsep as [->|Hsep]); try reflexivity.
    apply elem_of_nil in Hsep. destruct Hsep. }
  rewrite span_every by (auto; exact Hs).
  rewrite advance_append.
  assert (Hstar : forall prev pos,
             rmatch [Star is_space] (MState prev (ws3 +:+ String x text) pos [] [])
             = Some (MState (last_or prev ws3) (String x text)
                       (pos + String.length ws3) [] [])).
  { intros prev pos. apply rmatch_star_all. cbn [ms_rest].
    rewrite span_every by (auto; exact Hx). rewrite advance_append. reflexivity. }
  assert (Hend : forall prev pos,
             rmatch [Star is_space]
               (advance (String.length sep)
                  (MState prev (sep +:+ ws3 +:+ String x text) pos [] []))
             = Some (MState (last_or (last_or prev sep) ws3) (String x text)
                       (pos + String.length sep + String.length ws3) [] [])).
  { intros prev pos. rewrite advance_append. apply Hstar. }
  repeat (apply elem_of_cons in Hsep as [->|Hsep]).
  - apply rmatch_alt_here; [apply prefix_append|].
    cbn [ms_rest]. rewrite Hend. repeat f_equal; lia.
  - rewrite rmatch_alt_next by reflexivity.
    apply rmatch_alt_here; [apply prefix_append|].
    cbn [ms_rest]. rewrite Hend. repeat f_equal; lia.
  - rewrite !rmatch_alt_next by reflexivity.
    apply rmatch_alt_here; [apply prefix_append|].
    cbn [ms_rest]. rewrite Hend. repeat f_equal; lia.
  - rewrite !rmatch_alt_next by reflexivity.
    apply rmatch_alt_here; [apply prefix_append|].
    cbn [ms_rest]. rewrite Hend. repeat f_equal; lia.
  - apply elem_of_nil in Hsep. destruct Hsep.
Qed.

Lemma append_nonempty (a b : string) : b <> EmptyString -> a +:+ b <> EmptyString.
Proof.
  intros Hb. destruct a as [|x a]; [exact Hb|].
  change (String x a +:+ b) with (String x (a +:+ b)). discriminate.
Qed.

(** What is left of a message that starts with the ticket and a
    separator, once the prefix is removed. *)
Lemma prefix_removed (ticket written ws1 ws2 sep ws3 text : string) :
  lower written = lower ticket ->
  written <> EmptyString -> every is_graph written = true ->
  every is_space ws1 = true -> every is_space ws2 = true ->
  every is_space ws3 = true ->
  sep ∈ ["-"; "–"; "—"; ":"] ->
  trimmed text = true ->
  sub_empty (prefix_re ticket)
            (ws1 +:+ written +:+ ws2 +:+ sep +:+ ws3 +:+ text) = text.
Proof.
  intros Elow Hwne Hw H1 H2 H3 Hsep Ht.
  destruct (prefix_match ticket written ws1 ws2 sep ws3 text
              Elow Hwne Hw H1 H2 H3 Hsep Ht) as [prev Hm].
  set (msg := ws1 +:+ written +:+ ws2 +:+ sep +:+ ws3 +:+ text) in *.
  set (P := (String.length ws1 + String.length written + String.length ws2
             + String.length sep + String.length ws3)%nat) in *.
  assert (HP : (0 < P)%nat).
  { unfold P. destruct written; [congruence|]. cbn [String.length]. lia. }
  unfold sub_empty, matches. cbn [scan].
  change (MState (ms_prev (start msg)) (ms_rest (start msg)) (ms_pos (start msg)) [] [])
    with (start msg).
  rewrite Hm. cbn [ms_pos start].
  apply Nat.ltb_lt in HP. rewrite HP. apply Nat.ltb_lt in HP.
  unfold prefix_re. cbn [app]. rewrite scan_bol_nil by exact HP.
  cbn [cut ms_pos Nat.sub take drop].
  change (EmptyString +:+ drop P msg) with (drop P msg).
  unfold P, msg. rewrite <- !drop_drop, !drop_append. reflexivity.
Qed.

(** X18: the title made for a ticket without issue: when the first line of
    the first commit of the ticket is the ticket, in whatever case, a
    separator (a hyphen, a dash or a colon) and a text, with or without
    white space around them, the title is the text. *)
Theorem title_of_prefixed_commit
  (c : commit) (ticket written ws1 ws2 sep ws3 text scheme body : string)
  (rest : list string) :
  take 7 (c_sha c) <> EmptyString -> every is_hex (take 7 (c_sha c)) = true ->
  scheme = "http://" \/ scheme = "https://" ->
  body <> EmptyString -> every is_graph body = true ->
  c_html_url c = scheme +:+ body ->
  lower written = lower ticket ->
  written <> EmptyString -> every is_graph written = true ->
  every is_space ws1 = true -> every is_space ws2 = true ->
  every is_space ws3 = true ->
  sep ∈ ["-"; "–"; "—"; ":"] ->
  trimmed text = true ->
  every not_newline (ws1 +:+ written +:+ ws2 +:+ sep +:+ ws3 +:+ text) = true ->
  title_from_commits ticket
    (short_line c (ws1 +:+ written +:+ ws2 +:+ sep +:+ ws3 +:+ text) :: rest)
  = text.
Proof.
  intros Hsne Hsha Hs Hbne Hb Hurl Elow Hwne Hw H1 H2 H3 Hsep Ht Hnl.
  set (msg := ws1 +:+ written +:+ ws2 +:+ sep +:+ ws3 +:+ text) in *.
  assert (Hmne : msg <> EmptyString).
  { unfold msg. apply append_nonempty.
    destruct written as [|w written]; [congruence|].
    change (String w written +:+ ws2 +:+ sep +:+ ws3 +:+ text)
      with (String w (written +:+ ws2 +:+ sep +:+ ws3 +:+ text)). discriminate. }
  destruct (commit_line_match (take 7 (c_sha c)) msg scheme body
              Hsne Hsha Hmne Hnl Hs Hbne Hb) as (m & Hmatch & _ & G2 & _).
  cbv zeta in Hmatch, G2.
  cbn [title_from_commits]. unfold cleaned_title, line_message, short_line.
  rewrite Hurl, Hmatch, G2. unfold msg.
  rewrite prefix_removed by assumption.
  rewrite strip_trimmed by exact Ht.
  destruct text; [discriminate | reflexivity].
Qed.

End Title.

(** ** The commit lines and the outline of the reports *)

Section Outline.

Lemma shows_elem (show : gset string) (g : string) :
  shows show g = true -> g ∈ show.
Proof. unfold shows. apply bool_decide_eq_true. Qed.

Ltac allowed_lines :=
  repeat match goal with
    | |- Forall _ (_ ++ _) => apply Forall_app; split
    | |- Forall _ (concat (map _ _)) => apply concat_map_text; intros
    | |- Forall _ (map _ _) => apply map_text; intros
    | |- Forall _ [] => constructor
    | |- Forall _ (_ :: _) => constructor
    | |- Forall _ (match ?l with [] => _ | _ :: _ => _ end) => destruct l
    | |- Forall _ (if (_ && _)%bool then _ else _) =>
        let E := fresh "E" in
        destruct (_ && _)%bool eqn:E;
        [apply andb_true_iff in E as [E _]; apply shows_elem in E|]
    | |- Forall _ (if shows ?s ?g then _ else _) =>
        let E := fresh "E" in
        destruct (shows s g) eqn:E; [apply shows_elem in E|]
    | |- Forall _ (if ?c then _ else _) => destruct c
    | |- Forall _ (tagged (KCommit ?s) _) =>
        apply tagged_text; intros; eexists; split; [reflexivity | assumption]
    | |- commits_allowed _ (KCommit _, _) =>
        eexists; split; [reflexivity | assumption]
    | |- commits_allowed _ _ => exact I
    end.

(** The lines of commits of the two reports are in sections whose group is
    shown. *)
Lemma commit_lines_allowed
  (today : string) (done review : list entry) (wo : gmap string worked)
  (blocked backlog : list entry) (cs : list (string * list string))
  (oc : list string) (add_links : bool) (show : gset string)
  (dc : gmap string (list string)) :
  Forall (commits_allowed show)
    (build_report_lines today done review wo blocked add_links show dc oc)
  /\ Forall (commits_allowed show)
       (build_slack_report_lines today done review wo blocked backlog cs oc show dc).
Proof.
  split.
  - unfold build_report_lines, plain_done_item, plain_worked_item, plain_blocked_item.
    allowed_lines.
  - unfold build_slack_report_lines, slack_unknown_section, slack_done_item,
      slack_worked_item, slack_blocked_item, slack_backlog_item, slack_unknown_item.
    allowed_lines.
Qed.

Lemma headings_app (l1 l2 : list line) : headings (l1 ++ l2) = headings l1 ++ headings l2.
Proof. apply omap_app. Qed.

Lemma placeholders_app (l1 l2 : list line) :
  placeholders (l1 ++ l2) = placeholders l1 ++ placeholders l2.
Proof. apply omap_app. Qed.

Lemma item_lines_outline (l : list line) :
  Forall item_line l -> headings l = [] /\ placeholders l = [].
Proof.
  induction 1 as [|[k t] l Hk _ [IH1 IH2]]; [split; reflexivity|].
  unfold headings, placeholders in *. cbn [omap list_omap fst].
  unfold item_line in Hk. cbn [fst] in Hk.
  destruct k; try contradiction; rewrite ?IH1, ?IH2; split; reflexivity.
Qed.

Ltac all_items :=
  repeat match goal with
    | |- Forall _ (_ ++ _) => apply Forall_app; split
    | |- Forall _ (concat (map _ _)) => apply concat_map_text; intros
    | |- Forall _ (map _ _) => apply map_text; intros
    | |- Forall _ [] => constructor
    | |- Forall _ (_ :: _) => constructor
    | |- Forall _ (if ?c then _ else _) => destruct c
    | |- Forall _ (tagged (KCommit ?s) _) => apply tagged_text; intros; exact I
    | |- item_line _ => exact I
    end.

Lemma plain_done_items add_links show dc s (l : list entry) :
  Forall item_line (concat (map (plain_done_item add_links show dc s) l)).
Proof. unfold plain_done_item. all_items. Qed.

Lemma plain_worked_items add_links show (l : list (string * worked)) :
  Forall item_line (concat (map (plain_worked_item add_links show) l)).
Proof. unfold plain_worked_item. all_items. Qed.

Lemma slack_done_items show dc s (l : list entry) :
  Forall item_line (concat (map (slack_done_item show dc s) l)).
Proof. unfold slack_done_item. all_items. Qed.

Lemma slack_worked_items show (l : list (string * worked)) :
  Forall item_line (concat (map (slack_worked_item show) l)).
Proof. unfold slack_worked_item. all_items. Qed.

Lemma slack_unknown_items cs (l : list string) :
  Forall item_line (concat (map (slack_unknown_item cs) l)).
Proof. unfold slack_unknown_item. all_items. Qed.

Lemma tagged_items s (l : list string) : Forall item_line (tagged (KCommit s) l).
Proof. all_items. Qed.

Lemma blocked_items {A} (f : A -> line) (l : list A) :
  (forall a, item_line (f a)) -> Forall item_line (map f l).
Proof. intros H. all_items. apply H. Qed.

Lemma headings_items (l : list line) : Forall item_line l -> headings l = [].
Proof. intros H. apply item_lines_outline, H. Qed.

Lemma placeholders_items (l : list line) : Forall item_line l -> placeholders l = [].
Proof. intros H. apply item_lines_outline, H. Qed.

Ltac item_lines :=
  first [ apply plain_done_items | apply plain_worked_items
        | apply slack_done_items | apply slack_worked_items
        | apply slack_unknown_items | apply tagged_items
        | apply blocked_items; intros; exact I ].

Lemma headings_cons (k : line_kind) (t : string) (l : list line) :
  headings ((k, t) :: l)
  = match k with KHeading s => s :: headings l | _ => headings l end.
Proof. destruct k; reflexivity. Qed.

Lemma placeholders_cons (k : line_kind) (t : string) (l : list line) :
  placeholders ((k, t) :: l)
  = match k with KPlaceholder s => s :: placeholders l | _ => placeholders l end.
Proof. destruct k; reflexivity. Qed.

Ltac outline :=
  rewrite ?headings_app, ?placeholders_app, ?headings_cons, ?placeholders_cons;
  repeat match goal with
    | |- context [headings (tagged ?k ?l)] =>
        rewrite (headings_items (tagged k l)) by item_lines
    | |- context [headings (concat ?l)] =>
        rewrite (headings_items (concat l)) by item_lines
    | |- context [headings (map ?f ?l)] =>
        rewrite (headings_items (map f l)) by item_lines
    | |- context [placeholders (tagged ?k ?l)] =>
        rewrite (placeholders_items (tagged k l)) by item_lines
    | |- context [placeholders (concat ?l)] =>
        rewrite (placeholders_items (concat l)) by item_lines
    | |- context [placeholders (map ?f ?l)] =>
        rewrite (placeholders_items (map f l)) by item_lines
    end;
  reflexivity.

Lemma plain_outline
  (today : string) (done review : list entry) (wo : gmap string worked)
  (blocked : list entry) (oc : list string) (add_links : bool) (show : gset string)
  (dc : gmap string (list string)) :
  let plain := build_report_lines today done review wo blocked add_links show dc oc in
  headings plain
  = [SDone] ++ match review with [] => [] | _ => [SReview] end ++ [SInProgress]
    ++ (if shows show "orphan" && negb (bool_decide (oc = [])) then [SOrphan] else [])
    ++ [SBlocked; SNeedTasks]
  /\ placeholders plain
     = match done with [] => [SDone] | _ => [] end
       ++ (if bool_decide (wo = ∅) then [SInProgress] else [])
       ++ match blocked with [] => [SBlocked] | _ => [] end
       ++ [SNeedTasks].
Proof.
  cbv zeta. unfold build_report_lines.
  destruct done as [|d0 done]; destruct review as [|r0 review];
    destruct blocked as [|b0 blocked];
    destruct (bool_decide (wo = ∅));
    destruct (shows show "orphan" && negb (bool_decide (oc = [])));
    split; outline.
Qed.

Lemma slack_outline
  (today : string) (done review : list entry) (wo : gmap string worked)
  (blocked backlog : list entry) (cs : list (string * list string))
  (oc : list string) (show : gset string) (dc : gmap string (list string)) :
  let chat := build_slack_report_lines today done review wo blocked backlog cs oc
                show dc in
  headings chat
  = [SDone] ++ match review with [] => [] | _ => [SReview] end ++ [SInProgress]
    ++ (if shows show "in_progress"
           && negb (bool_decide (orphan_tickets done review wo cs = ∅))
        then [SUnknown] else [])
    ++ (if shows show "orphan" && negb (bool_decide (oc = [])) then [SOrphan] else [])
    ++ [SBlocked; SNeedTasks]
    ++ match backlog with [] => [] | _ => [SBacklog] end
  /\ placeholders chat
     = match done with [] => [SDone] | _ => [] end
       ++ (if bool_decide (wo = ∅) then [SInProgress] else [])
       ++ match blocked with [] => [SBlocked] | _ => [] end
       ++ [SNeedTasks].
Proof.
  cbv zeta. unfold build_slack_report_lines, slack_unknown_section.
  destruct (shows show "in_progress");
    destruct (bool_decide (orphan_tickets done review wo cs = ∅));
    destruct (shows show "orphan" && negb (bool_decide (oc = [])));
    destruct (bool_decide (wo = ∅));
    destruct done as [|d0 done]; destruct review as [|r0 review];
    destruct blocked as [|b0 blocked]; destruct backlog as [|k0 backlog];
    split; outline.
Qed.

End Outline.

(** ** The grouping of the commits by message *)

Section Grouping.

Context {V : Type}.

Lemma od_append_keys (k : string) (v : V) (d : list (string * list V)) :
  map fst (od_append k v d)
  = if bool_decide (k ∈ map fst d) then map fst d else map fst d ++ [k].
Proof.
  induction d as [|[k' vs] d IH]; [reflexivity|].
  cbn [od_append map fst]. destruct (String.eqb_spec k k') as [->|Hne].
  - rewrite bool_decide_eq_true_2 by left. reflexivity.
  - cbn [map fst]. rewrite IH.
    destruct (bool_decide (k ∈ map fst d)) eqn:E.
    + apply bool_decide_eq_true in E.
      rewrite bool_decide_eq_true_2 by (right; exact E). reflexivity.
    + apply bool_decide_eq_false in E.
      rewrite bool_decide_eq_false_2; [reflexivity|].
      intros H. apply elem_of_cons in H as [H|H]; [congruence | contradiction].
Qed.

Lemma od_append_NoDup (k : string) (v : V) (d : list (string * list V)) :
  NoDup (map fst d) -> NoDup (map fst (od_append k v d)).
Proof.
  intros H. rewrite od_append_keys. case_bool_decide as E; [exact H|].
  apply NoDup_app. split; [exact H|]. split; [|apply NoDup_singleton].
  intros x Hx Hk. apply list_elem_of_singleton in Hk. subst x. contradiction.
Qed.

Lemma od_append_listed (k : string) (v : V) (d : list (string * list V))
  (k' : string) (v' : V) :
  (exists vs, (k', vs) ∈ od_append k v d /\ v' ∈ vs)
  <-> (exists vs, (k', vs) ∈ d /\ v' ∈ vs) \/ (k' = k /\ v' = v).
Proof.
  induction d as [|[k0 vs0] d IH]; cbn [od_append].
  - split.
    + intros (vs & Hin & Hv). apply list_elem_of_singleton in Hin.
      inversion Hin; subst. apply list_elem_of_singleton in Hv. auto.
    + intros [(vs & Hin & _)|[-> ->]].
      * apply elem_of_nil in Hin. destruct Hin.
      * exists [v]. split; apply list_elem_of_singleton; reflexivity.
  - destruct (String.eqb_spec k k0) as [->|Hne].
    + split.
      * intros (vs & Hin & Hv). apply elem_of_cons in Hin as [Hin|Hin].
        -- inversion Hin; subst. apply elem_of_app in Hv as [Hv|Hv].
           ++ left. exists vs0. split; [left | exact Hv].
           ++ apply list_elem_of_singleton in Hv. auto.
        -- left. exists vs. split; [right; exact Hin | exact Hv].
      * intros [(vs & Hin & Hv)|[-> ->]].
        -- apply elem_of_cons in Hin as [Hin|Hin].
           ++ inversion Hin; subst. exists (vs0 ++ [v]). split; [left|].
              apply elem_of_app. auto.
           ++ exists vs. split; [right; exact Hin | exact Hv].
        -- exists (vs0 ++ [v]). split; [left|]. apply elem_of_app. right.
           apply list_elem_of_singleton. reflexivity.
    + split.
      * intros (vs & Hin & Hv). apply elem_of_cons in Hin as [Hin|Hin].
        -- inversion Hin; subst. left. exists vs0. split; [left | exact Hv].
        -- destruct (proj1 IH (ex_intro _ vs (conj Hin Hv))) as [(vs' & H1 & H2)|H].
           ++ left. exists vs'. split; [right; exact H1 | exact H2].
           ++ right. exact H.
      * intros [(vs & Hin & Hv)|H].
        -- apply elem_of_cons in Hin as [Hin|Hin].
           ++ inversion Hin; subst. exists vs0. split; [left | exact Hv].
           ++ destruct (proj2 IH (or_introl (ex_intro _ vs (conj Hin Hv))))
                as (vs' & H1 & H2).
              exists vs'. split; [right; exact H1 | exact H2].
        -- destruct (proj2 IH (or_intror H)) as (vs' & H1 & H2).
           exists vs'. split; [right; exact H1 | exact H2].
Qed.

Lemma od_append_count (k : string) (v : V) (d : list (string * list V)) :
  length (concat (map snd (od_append k v d))) = S (length (concat (map snd d))).
Proof.
  induction d as [|[k0 vs0] d IH]; [reflexivity|].
  cbn [od_append]. destruct (String.eqb k k0); cbn [map snd concat].
  - rewrite !length_app. cbn [length]. lia.
  - rewrite !length_app, IH. lia.
Qed.

End Grouping.

Section Groups.

Lemma group_by_msg_snoc (commits : list string) (c : string) :
  group_by_msg (commits ++ [c])
  = match _slack_commit_line c with
    | None => group_by_msg commits
    | Some (sha, raw_msg, commit_url) =>
        od_append raw_msg (sha, commit_url) (group_by_msg commits)
    end.
Proof.
  unfold group_by_msg. rewrite foldl_app. cbn [foldl].
  destruct (_slack_commit_line c) as [[[sha msg] url]|]; reflexivity.
Qed.

(** X21: the commits under an issue are grouped by message: every line
    that the renderer can read is listed once, under its message; a
    message has one line of output, made in the plain report as in the
    chat report; the lines that it cannot read are left out. *)
Theorem commits_grouped_by_message (commits : list string) (add_links : bool) :
  let parsed := omap _slack_commit_line commits in
  let groups := group_by_msg commits in
  NoDup (map fst groups)
  /\ (forall sha msg url,
        (exists l, (msg, l) ∈ groups /\ (sha, url) ∈ l) <-> (sha, msg, url) ∈ parsed)
  /\ length (concat (map snd groups)) = length parsed
  /\ length (_render_commits_slack commits) = length groups
  /\ length (_render_commits_plain commits add_links) = length groups.
Proof.
  cbv zeta. split; [|split; [|split; [|split]]].
  - induction commits as [|c commits IH] using rev_ind; [constructor|].
    rewrite group_by_msg_snoc. destruct (_slack_commit_line c) as [[[sha msg] url]|];
      [apply od_append_NoDup, IH | exact IH].
  - induction commits as [|c commits IH] using rev_ind; intros sha msg url.
    + split.
      * intros (l & H & _). apply elem_of_nil in H. destruct H.
      * intros H. apply elem_of_nil in H. destruct H.
    + rewrite group_by_msg_snoc, omap_app, elem_of_app. cbn [omap list_omap].
      destruct (_slack_commit_line c) as [[[sha' msg'] url']|].
      * rewrite od_append_listed, IH, list_elem_of_singleton.
        split; (intros [H|H]; [left; exact H | right]).
        -- destruct H as [-> E]. inversion E. reflexivity.
        -- inversion H. auto.
      * rewrite IH, elem_of_nil. tauto.
  - induction commits as [|c commits IH] using rev_ind; [reflexivity|].
    rewrite group_by_msg_snoc, omap_app, length_app. cbn [omap list_omap].
    destruct (_slack_commit_line c) as [[[sha msg] url]|]; cbn [length].
    + rewrite od_append_count, IH. lia.
    + rewrite IH. lia.
  - unfold _render_commits_slack. apply length_map.
  - unfold _render_commits_plain. apply length_map.
Qed.

End Groups.

(** ** The order of the in-progress entries *)

Section Order.

Lemma sorted_items_keys {V} (d : gmap string V) :
  map fst (sorted_items d) = sorted (elements (dom d)).
Proof.
  unfold sorted_items.
  assert (H : forall k, k ∈ sorted (elements (dom d)) -> is_Some (d !! k)).
  { intros k Hk. rewrite sorted_perm in Hk.
    apply elem_of_elements, elem_of_dom in Hk. exact Hk. }
  induction (sorted (elements (dom d))) as [|k l IH]; [reflexivity|].
  cbn [omap list_omap]. destruct (H k ltac:(left)) as [v Hv]. rewrite Hv.
  cbn [fmap option_fmap option_map map fst]. f_equal.
  apply IH. intros k' Hk'. apply H. right. exact Hk'.
Qed.

End Order.

(** ** The order of the backlog *)

Section Backlog.

Lemma insert_by_perm {A} (leb : A -> A -> bool) (x : A) (l : list A) :
  insert_by leb x l ≡ₚ x :: l.
Proof.
  induction l as [|y l IH]; cbn [insert_by]; [reflexivity|].
  destruct (leb x y); [reflexivity|]. rewrite IH. apply Permutation_swap.
Qed.

Lemma sort_by_perm {A} (leb : A -> A -> bool) (l : list A) : sort_by leb l ≡ₚ l.
Proof.
  induction l as [|x l IH]; [reflexivity|].
  unfold sort_by in *. cbn [foldr]. rewrite insert_by_perm, IH. reflexivity.
Qed.

Lemma le_refl (a : string) : le a a = true.
Proof. destruct (String.leb_total a a); assumption. Qed.

(** The order of the entries is total, and it orders the identifiers. *)
Lemma entry_le_total (a b : entry) : entry_le a b = false -> entry_le b a = true.
Proof.
  unfold entry_le. rewrite (String.eqb_sym b.1.1), (String.eqb_sym b.1.2).
  destruct (String.eqb a.1.1 b.1.1), (String.eqb a.1.2 b.1.2); unfold le;
    intros H;
    match goal with
    | |- String.leb ?y ?x = true =>
        destruct (String.leb_total x y); [congruence | assumption]
    end.
Qed.

Lemma entry_le_ident (a b : entry) : entry_le a b = true -> le a.1.1 b.1.1 = true.
Proof.
  unfold entry_le. destruct (String.eqb_spec a.1.1 b.1.1) as [->|_]; [|auto].
  intros _. apply le_refl.
Qed.

Lemma insert_by_ordered (x : entry) (l : list entry) :
  ordered entry_le l = true -> ordered entry_le (insert_by entry_le x l) = true.
Proof.
  induction l as [|y l IH]; intros Hl; [reflexivity|].
  cbn [insert_by]. destruct (entry_le x y) eqn:E.
  - change (entry_le x y && ordered entry_le (y :: l) = true).
    rewrite E, Hl. reflexivity.
  - assert (Hl' : ordered entry_le l = true).
    { cbn [ordered] in Hl. destruct l as [|z l]; [reflexivity|].
      apply andb_true_iff in Hl as [_ Hl]. exact Hl. }
    specialize (IH Hl').
    destruct l as [|z l]; cbn [insert_by] in *.
    + cbn [ordered]. rewrite (entry_le_total x y E). reflexivity.
    + destruct (entry_le x z).
      * change (entry_le y x && ordered entry_le (x :: z :: l) = true).
        rewrite IH, (entry_le_total x y E). reflexivity.
      * change (entry_le y z && ordered entry_le (z :: insert_by entry_le x l) = true).
        rewrite IH, andb_true_r. cbn [ordered] in Hl.
        apply andb_true_iff in Hl as [Hl _]. exact Hl.
Qed.

Lemma sort_by_ordered (l : list entry) : ordered entry_le (sort_by entry_le l) = true.
Proof.
  induction l as [|x l IH]; [reflexivity|].
  unfold sort_by in *. cbn [foldr]. apply insert_by_ordered, IH.
Qed.

Lemma ordered_idents (l : list entry) :
  ordered entry_le l = true -> ordered le (map (fun e : entry => e.1.1) l) = true.
Proof.
  induction l as [|a l IH]; intros Hl; [reflexivity|].
  cbn [map ordered] in *. destruct l as [|b l]; [reflexivity|].
  apply andb_true_iff in Hl as [Hab Hl]. cbn [map].
  rewrite (entry_le_ident a b Hab). exact (IH Hl).
Qed.

End Backlog.

(** ** The text copied to the clipboard *)

Section Clipboard.

Lemma lines_from_char (c : ascii) (s : string) :
  boundary_length (String c s) = 0%nat ->
  splitlines (String c s) = push c (splitlines s).
Proof. intros H. unfold splitlines. cbn [lines_from]. rewrite H. reflexivity. Qed.

Lemma date_char_boundary (c : ascii) (s : string) :
  is_date_char c = true -> boundary_length (String c s) = 0%nat.
Proof.
  intros H. unfold boundary_length.
  assert (E : (code c =? 13)%nat = false /\ is_linebreak c = false
              /\ (code c =? 194)%nat = false /\ (code c =? 226)%nat = false).
  { revert H. destruct c as [[] [] [] [] [] [] [] []]; vm_compute; intuition congruence. }
  destruct E as (-> & -> & -> & ->). reflexivity.
Qed.

Lemma splitlines_date (today rest : string) :
  every is_date_char today = true ->
  splitlines (today +:+ nl rest) = today :: splitlines rest.
Proof.
  intros H. induction today as [|c today IH].
  - reflexivity.
  - cbn [every] in H. apply andb_true_iff in H as [Hc H].
    change (String c today +:+ nl rest) with (String c (today +:+ nl rest)).
    rewrite lines_from_char by (apply date_char_boundary, Hc).
    rewrite IH by exact H. reflexivity.
Qed.

Lemma join_cons (sep x : string) (l : list string) :
  l <> [] -> join sep (x :: l) = x +:+ sep +:+ join sep l.
Proof. destruct l; [congruence | reflexivity]. Qed.

Lemma push_join (c : ascii) (ls : list string) :
  join (nl EmptyString) (push c ls) = String c (join (nl EmptyString) ls).
Proof. destruct ls as [|l [|l' ls]]; reflexivity. Qed.

Lemma splitlines_nil (s : string) : splitlines s = [] -> s = EmptyString.
Proof.
  destruct s as [|c s]; [reflexivity|]. unfold splitlines. cbn [lines_from].
  destruct (boundary_length (String c s)); [|discriminate].
  destruct (lines_from 0 s); discriminate.
Qed.

(** Splitting a text whose only boundaries are line feeds, and that does
    not end with one, and joining the lines by line feeds gives the text
    back. *)
Lemma join_splitlines (s : string) (d : option ascii) :
  only_line_feeds s = true ->
  last_or d s <> Some "010"%char ->
  join (nl EmptyString) (splitlines s) = s.
Proof.
  revert d. induction s as [|c s IH]; intros d Hs Hl; [reflexivity|].
  cbn [only_line_feeds] in Hs. apply andb_true_iff in Hs as [Hc Hs].
  cbn [last_or] in Hl. specialize (IH (Some c) Hs Hl).
  destruct (boundary_length (String c s)) as [|k] eqn:Eb.
  - rewrite lines_from_char by exact Eb. rewrite push_join, IH. reflexivity.
  - cbn [Nat.eqb orb] in Hc. apply Nat.eqb_eq in Hc.
    assert (Ec : c = "010"%char).
    { rewrite <- (ascii_nat_embedding c). unfold code in Hc. rewrite Hc. reflexivity. }
    subst c. unfold splitlines in *. cbn [lines_from].
    change (boundary_length (String "010" s)) with 1%nat. cbv iota.
    destruct (lines_from 0 s) as [|l ls] eqn:El.
    + apply splitlines_nil in El. subst s. cbn in Hl. congruence.
    + rewrite join_cons by discriminate. rewrite IH. reflexivity.
Qed.

Lemma last_or_append (d : option ascii) (a b : string) :
  last_or d (a +:+ b) = last_or (last_or d a) b.
Proof.
  revert d. induction a as [|c a IH]; intros d; [reflexivity|].
  change (String c a +:+ b) with (String c (a +:+ b)). cbn [last_or]. apply IH.
Qed.

Lemma last_or_join (d : option ascii) (l : list string) (x : string) :
  x <> EmptyString ->
  last_or d (join (nl EmptyString) (l ++ [x])) = last_or None x.
Proof.
  intros Hx. revert d. induction l as [|y l IH]; intros d.
  - cbn [app join]. destruct x; [congruence | reflexivity].
  - cbn [app]. rewrite join_cons by (destruct l; discriminate).
    rewrite !last_or_append. apply IH.
Qed.

Lemma last_line_out {A} (a b x : A) (l1 l2 l3 l4 l5 l6 l7 l8 : list A) :
  [a] ++ [b] ++ l1 ++ l2 ++ l3 ++ l4 ++ l5 ++ l6 ++ l7 ++ l8 ++ [x]
  = a :: b :: (l1 ++ l2 ++ l3 ++ l4 ++ l5 ++ l6 ++ l7 ++ l8) ++ [x].
Proof. cbn [app]. rewrite <- !app_assoc. reflexivity. Qed.

Lemma build_report_lines_shape
  (today : string) (done review : list entry) (wo : gmap string worked)
  (blocked : list entry) (add_links : bool) (show : gset string)
  (dc : gmap string (list string)) (oc : list string) :
  exists rest,
    build_report_lines today done review wo blocked add_links show dc oc
    = (KTitle, "Daily standup — " +:+ today +:+ nl EmptyString)
      :: (KHeading SDone, SEC_DONE)
      :: rest ++ [(KPlaceholder SNeedTasks, "• Need tasks: no")].
Proof.
  unfold build_report_lines. eexists. apply last_line_out.
Qed.

(** X23: the text copied to the clipboard is the plain report without its
    title and the empty line under it: the lines of the rest of the
    report, joined by line feeds. *)
Theorem clipboard_is_the_report_body
  (today : string) (done review : list entry) (wo : gmap string worked)
  (blocked : list entry) (add_links : bool) (show : gset string)
  (dc : gmap string (list string)) (oc : list string) :
  every is_date_char today = true ->
  exists body,
    build_report today done review wo blocked add_links show dc oc
    = "Daily standup — " +:+ today +:+ nl (nl body)
    /\ String.prefix SEC_DONE body = true
    /\ clipboard_body (build_report today done review wo blocked add_links show dc oc)
       = join (nl EmptyString) (splitlines body)
    /\ (only_line_feeds body = true ->
        clipboard_body (build_report today done review wo blocked add_links show dc oc)
        = body).
Proof.
  intros Ht. unfold build_report.
  destruct (build_report_lines_shape today done review wo blocked add_links show dc oc)
    as (rest & ->).
  cbn [map snd]. rewrite map_app. cbn [map snd].
  set (tail := map snd rest ++ ["• Need tasks: no"]).
  exists (join (nl EmptyString) (SEC_DONE :: tail)).
  assert (Htail : tail <> []) by (unfold tail; destruct (map snd rest); discriminate).
  assert (E : join (nl EmptyString)
                (("Daily standup — " +:+ today +:+ nl EmptyString) :: SEC_DONE :: tail)
              = "Daily standup — " +:+ today
                +:+ nl (nl (join (nl EmptyString) (SEC_DONE :: tail)))).
  { rewrite join_cons by discriminate.
    rewrite !append_assoc. reflexivity. }
  assert (C : clipboard_body
                (join (nl EmptyString)
                   (("Daily standup — " +:+ today +:+ nl EmptyString)
                    :: SEC_DONE :: tail))
              = join (nl EmptyString)
                  (splitlines (join (nl EmptyString) (SEC_DONE :: tail)))).
  { rewrite E. unfold clipboard_body.
    change ("Daily standup — " +:+ today +:+ nl (nl (join (nl "") (SEC_DONE :: tail))))
      with (String "D" (String "a" (String "i" (String "l" (String "y" (String " "
             (String "s" (String "t" (String "a" (String "n" (String "d"
             (String "u" (String "p" (String " " (String "226" (String "128"
             (String "148" (String " "
               (today +:+ nl (nl (join (nl "") (SEC_DONE :: tail)))))))))))))))))))))).
    rewrite !lines_from_char by reflexivity.
    rewrite splitlines_date by exact Ht.
    change (splitlines (nl (join (nl "") (SEC_DONE :: tail))))
      with (EmptyString :: splitlines (join (nl "") (SEC_DONE :: tail))).
    reflexivity. }
  split; [exact E|]. split; [|split; [exact C|]].
  - rewrite join_cons by exact Htail. apply prefix_append.
  - intros Hb. rewrite C. apply (join_splitlines _ None); [exact Hb|].
    change (SEC_DONE :: tail) with ((SEC_DONE :: map snd rest) ++ ["• Need tasks: no"]).
    rewrite last_or_join by discriminate. discriminate.
Qed.

(** The first line that the scan takes from the message of a commit is
    the first of the lines of [splitlines]. *)
Lemma first_line_splitlines (s : string) :
  first_line s = head (splitlines s).
Proof.
  unfold first_line, splitlines. destruct s as [|c s]; [reflexivity|].
  cbn [is_empty]. revert c. induction s as [|c' s IH]; intros c.
  - cbn [until_linebreak lines_from].
    destruct (boundary_length (String c EmptyString)); reflexivity.
  - specialize (IH c'). remember (String c' s) as s' eqn:E.
    cbn [until_linebreak lines_from].
    destruct (boundary_length (String c s')) as [|k]; [|reflexivity].
    destruct (lines_from 0 s') as [|l ls] eqn:El.
    + subst s'. cbn [lines_from] in El.
      destruct (boundary_length (String c' s)); [|discriminate].
      destruct (lines_from 0 s); discriminate.
    + cbn [push head]. cbn [head] in IH. inversion IH as [E']. rewrite E'.
      reflexivity.
Qed.

End Clipboard.

(** ** The order and the number of the classified issues *)

Section FetchOrder.

Context (cfg : config) (date_from date_to : date) (projects : list project_fetch).

Lemma filter_verdict (v : verdict) (P : fetched_issue -> Prop)
  `{!forall x, Decision (P x)} (l : list fetched_issue) :
  (forall x, verdict_of date_from date_to x = v <-> P x) ->
  filter (fun x => verdict_of date_from date_to x = v) l = filter P l.
Proof.
  intros Hiff. induction l as [|x l IH]; [reflexivity|].
  rewrite !filter_cons, IH.
  destruct (decide (verdict_of date_from date_to x = v)) as [E|E],
    (decide (P x)) as [p|p]; try reflexivity.
  - exfalso. apply p, Hiff, E.
  - exfalso. apply E, Hiff, p.
Qed.

Lemma verdict_count (l : list fetched_issue) :
  (length (filter (fun x => verdict_of date_from date_to x = VBacklog) l)
   + length (filter (fun x => verdict_of date_from date_to x = VDone) l)
   + length (filter (fun x => verdict_of date_from date_to x = VReview) l)
   + length (filter (fun x => verdict_of date_from date_to x = VBlocked) l)
   <= length l)%nat.
Proof.
  induction l as [|x l IH]; [cbn; lia|].
  rewrite !filter_cons.
  repeat (destruct (decide _) as [?|?]); cbn [length]; try lia; congruence.
Qed.

(** X26: the classification keeps the order in which the issues were
    fetched and neither loses nor repeats an issue: each of the four lists
    is made of the entries of the fetched issues that take its branch, in
    the order of the fetch, so that the lists together are never longer
    than the list of the fetched issues. *)
Theorem buckets_in_fetch_order :
  let b := classify cfg date_from date_to projects in
  let fetched := fetched_issues projects in
  let in_window x := updated_in_range date_from date_to x.2 = true in
  let in_review x := contains "review" (state_name x.1.2 x.2) = true in
  backlog_issues b
  = map (entry_of cfg) (filter (fun x => in_backlog_group (group_of x) = true) fetched)
  /\ done_issues b
     = map (entry_of cfg)
         (filter (fun x => in_backlog_group (group_of x) = false /\ in_window x
                           /\ group_of x = "completed") fetched)
  /\ review_issues b
     = map (entry_of cfg)
         (filter (fun x => in_backlog_group (group_of x) = false /\ in_window x
                           /\ group_of x <> "completed" /\ in_review x) fetched)
  /\ blocked_issues b
     = map (entry_of cfg)
         (filter (fun x => in_backlog_group (group_of x) = false /\ in_window x
                           /\ group_of x <> "completed" /\ ~ in_review x
                           /\ is_blocked x.2 = true) fetched)
  /\ (length (backlog_issues b) + length (done_issues b) + length (review_issues b)
      + length (blocked_issues b) <= length fetched)%nat.
Proof.
  cbv zeta.
  destruct (classify_buckets cfg date_from date_to projects) as (D & R & K & G).
  split; [|split; [|split; [|split]]].
  - rewrite G. unfold entries_with. f_equal. apply filter_verdict.
    intros x. apply verdict_cases.
  - rewrite D. unfold entries_with. f_equal. apply filter_verdict.
    intros x. apply verdict_cases.
  - rewrite R. unfold entries_with. f_equal. apply filter_verdict.
    intros x. apply verdict_cases.
  - rewrite K. unfold entries_with. f_equal. apply filter_verdict.
    intros x. rewrite (proj1 (proj2 (proj2 (proj2 (verdict_cases date_from date_to x))))).
    rewrite not_true_iff_false. reflexivity.
  - rewrite D, R, K, G. unfold entries_with. rewrite !length_map.
    apply verdict_count.
Qed.

End FetchOrder.

(** ** Only the issues of the member *)

Section Assigned.

Context (api : nat -> outcome page) (member_id : string) (fuel : nat).

Lemma get_my_issues_assigned (issues : list work_item) (w : work_item) :
  get_my_issues fuel api member_id = Some (Ok issues) ->
  w ∈ issues -> is_assigned member_id w = true.
Proof.
  unfold get_my_issues.
  destruct (fetch_pages fuel api 1 []) as [[all|]|]; try discriminate.
  intros E. inversion E; subst issues. intros Hw.
  apply list_elem_of_filter in Hw as [Hw _]. exact Hw.
Qed.

(** X27: only the issues of the member are reported: whatever the pages
    hold, every entry that the classification of a project puts in a
    bucket, and every record of the lookup, is made from a work item that
    has the member among its assignees. *)
Theorem only_assigned_issues_are_classified
  (cfg : config) (date_from date_to : date) (p : project)
  (states : gmap string wstate) (issues : list work_item) (e : entry) :
  get_my_issues fuel api member_id = Some (Ok issues) ->
  let b := classify cfg date_from date_to [fetch_project p (Ok states) (Ok issues)] in
  (e ∈ done_issues b \/ e ∈ review_issues b \/ e ∈ blocked_issues b
   \/ e ∈ backlog_issues b \/ is_Some (all_issues_lookup b !! e.1.1)) ->
  exists w, w ∈ issues /\ is_assigned member_id w = true
            /\ get_issue_identifier p (wi_issue w) = e.1.1.
Proof.
  intros Hget. cbv zeta.
  set (projects := [fetch_project p (Ok states) (Ok issues)]).
  assert (Hf : forall x, x ∈ fetched_issues projects ->
                 exists w, w ∈ issues /\ x = (p, states, wi_issue w)).
  { intros x Hx. unfold projects, fetched_issues, fetch_project in Hx.
    cbn [map concat pf_data pf_project] in Hx. rewrite app_nil_r in Hx.
    apply list_elem_of_fmap in Hx as (i & -> & Hi).
    apply list_elem_of_fmap in Hi as (w & -> & Hw). eauto. }
  assert (Hx : forall x, x ∈ fetched_issues projects ->
                 exists w, w ∈ issues /\ is_assigned member_id w = true
                           /\ get_issue_identifier p (wi_issue w) = ident x).
  { intros x Hin. destruct (Hf x Hin) as (w & Hw & ->).
    exists w. split; [exact Hw|]. split; [|reflexivity].
    apply (get_my_issues_assigned issues w Hget Hw). }
  destruct (classify_buckets cfg date_from date_to projects) as (D & R & K & G).
  rewrite D, R, K, G, !entries_with_elem.
  intros [H|[H|[H|[H|H]]]];
    try (destruct H as (x & Hin & _ & ->); apply (Hx x Hin)).
  destruct (lookup_records_in cfg date_from date_to projects e.1.1) as [Hl _].
  apply Hl in H. apply list_elem_of_fmap in H as (x & -> & Hin).
  apply (Hx x Hin).
Qed.

End Assigned.

(** ** The title of a line without the prefix *)

Section TitleKept.

Lemma greedy_none (k : mstate -> option mstate) (st : mstate) (lo n : nat) :
  (forall j, (j <= n)%nat -> k (advance j st) = None) -> greedy k st lo n = None.
Proof.
  intros H. induction n as [|n IH]; cbn [greedy]; rewrite (H _ (le_n _)); [reflexivity|].
  destruct (lo <=? n)%nat; [|reflexivity]. apply IH. intros j Hj. apply H. lia.
Qed.

Lemma rmatch_star_none (p : ascii -> bool) (r : list atom) (st : mstate) :
  (forall j, (j <= span p (ms_rest st))%nat -> rmatch r (advance j st) = None) ->
  rmatch (Star p :: r) st = None.
Proof. intros H. cbn [rmatch]. apply greedy_none, H. Qed.

Lemma is_space_lower (c : ascii) : is_space (lower_char c) = is_space c.
Proof. destruct c as [[] [] [] [] [] [] [] []]; vm_compute; reflexivity. Qed.

Lemma ci_space (s t : ascii) :
  is_space s = true -> is_space t = false ->
  Ascii.eqb (lower_char s) (lower_char t) = false.
Proof.
  intros Hs Ht. apply Ascii.eqb_neq. intros E.
  rewrite <- (is_space_lower s), E, is_space_lower in Hs. congruence.
Qed.

(** A continuation that fails on white space and on the text fails after
    every part of a run of white space before the text. *)
Lemma space_run_fail (k : mstate -> option mstate) (ws text : string) :
  (forall prev pos, k (MState prev text pos [] []) = None) ->
  (forall prev c rest pos,
     is_space c = true -> k (MState prev (String c rest) pos [] []) = None) ->
  every is_space ws = true ->
  forall j prev pos,
    (j <= String.length ws)%nat ->
    k (advance j (MState prev (ws +:+ text) pos [] [])) = None.
Proof.
  intros Htext Hspace. induction ws as [|c ws IH]; intros Hws j prev pos Hj.
  - cbn [String.length] in Hj. assert (j = 0)%nat as -> by lia.
    change (EmptyString +:+ text) with text. apply Htext.
  - cbn [every] in Hws. apply andb_true_iff in Hws as [Hc Hws].
    change (String c ws +:+ text) with (String c (ws +:+ text)).
    destruct j as [|j].
    + apply Hspace, Hc.
    + cbn [advance ms_rest ms_pos ms_open ms_groups].
      apply IH; [exact Hws|]. cbn [String.length] in Hj. lia.
Qed.

(** The pattern of the prefix is anchored: where it does not match at the
    start, nothing is removed. *)
Lemma sub_unmatched (ticket msg : string) :
  rmatch (prefix_re ticket) (start msg) = None ->
  sub_empty (prefix_re ticket) msg = msg.
Proof.
  intros H. unfold sub_empty, matches. cbn [scan].
  change (MState (ms_prev (start msg)) (ms_rest (start msg)) (ms_pos (start msg)) [] [])
    with (start msg).
  rewrite H. unfold start at 1. cbn [ms_rest].
  destruct msg as [|c msg]; [reflexivity|].
  unfold prefix_re. cbn [app]. rewrite scan_bol_nil by (cbn; lia). reflexivity.
Qed.

Lemma lstrip_by_run (p : ascii -> bool) (ws text : string) :
  every p ws = true ->
  match next_char text with Some c => p c = false | None => True end ->
  lstrip_by p (ws +:+ text) = text.
Proof.
  intros Hws Ht. induction ws as [|c ws IH].
  - change (EmptyString +:+ text) with text.
    destruct text as [|x text]; [reflexivity|]. cbn in Ht. cbn [lstrip_by].
    rewrite Ht. reflexivity.
  - cbn [every] in Hws. apply andb_true_iff in Hws as [Hc Hws].
    change (String c ws +:+ text) with (String c (ws +:+ text)).
    cbn [lstrip_by]. rewrite Hc. apply IH, Hws.
Qed.

Lemma strip_padded (ws text : string) :
  every is_space ws = true -> trimmed text = true -> strip (ws +:+ text) = text.
Proof.
  intros Hws Ht. destruct text as [|x text]; [discriminate|].
  pose proof Ht as Ht'. unfold trimmed in Ht'. apply andb_true_iff in Ht' as [Hx Hl].
  destruct (last_or None (String x text)) as [y|] eqn:E; [|discriminate].
  unfold strip, strip_by.
  rewrite (rstrip_by_last is_space (ws +:+ String x text) None y).
  - apply lstrip_by_run; [exact Hws|]. cbn. apply graph_not_space, Hx.
  - apply append_nonempty. discriminate.
  - rewrite last_or_append. cbn [last_or] in *. exact E.
  - apply graph_not_space, Hl.
Qed.

(** The pattern of the prefix fails where the text after the leading white
    space does not start with the first character of the ticket. *)
Lemma prefix_mismatch (t0 x : ascii) (ticket ws text : string) :
  is_space t0 = false -> is_space x = false ->
  lower_char x <> lower_char t0 ->
  every is_space ws = true ->
  rmatch (prefix_re (String t0 ticket)) (start (ws +:+ String x text)) = None.
Proof.
  intros Ht0 Hx Hne Hws. unfold prefix_re. cbn [app lit_ci].
  rewrite rmatch_bol by reflexivity.
  apply rmatch_star_none. unfold start. cbn [ms_rest].
  rewrite span_every by (auto; exact Hx).
  intros j Hj. apply space_run_fail; [| |exact Hws|exact Hj].
  - intros prev pos. apply rmatch_chr_fail. cbn [ms_rest].
    apply Ascii.eqb_neq, Hne.
  - intros prev c rest pos Hc. apply rmatch_chr_fail. cbn [ms_rest].
    apply ci_space; assumption.
Qed.

Lemma alt_separator_fail (r : list atom) (st : mstate) :
  match next_char (ms_rest st) with
  | Some c => c <> "-"%char /\ c <> ":"%char /\ (is_space c = true \/ is_graph c = true)
  | None => True
  end ->
  rmatch (Alt ["-"; "–"; "—"; ":"] :: r) st = None.
Proof.
  intros H. cbn [rmatch first_alt].
  destruct (ms_rest st) as [|c rest]; [reflexivity|].
  cbn [next_char] in H. destruct H as (Hd & Hc & Hk).
  cbn [String.prefix].
  destruct (ascii_dec "-" c) as [E|_]; [congruence|].
  destruct (ascii_dec ":" c) as [E|_]; [congruence|].
  destruct (ascii_dec "226" c) as [<-|_]; [|reflexivity].
  destruct Hk as [Hk|Hk]; discriminate.
Qed.

(** The pattern of the prefix fails where no separator follows the
    ticket. *)
Lemma prefix_unseparated (ticket written ws1 ws2 after : string) :
  lower written = lower ticket ->
  match next_char written with Some w => is_graph w = true | None => False end ->
  every is_space ws1 = true -> every is_space ws2 = true ->
  match next_char after with
  | Some y => is_graph y = true /\ y <> "-"%char /\ y <> ":"%char
  | None => True
  end ->
  rmatch (prefix_re ticket) (start (ws1 +:+ written +:+ ws2 +:+ after)) = None.
Proof.
  intros Elow Hw H1 H2 Hy.
  destruct written as [|w written]; [destruct Hw|]. cbn [next_char] in Hw.
  destruct ticket as [|t0 ticket]; [discriminate|].
  assert (Et : lower_char w = lower_char t0).
  { unfold lower in Elow. cbn [map_chars] in Elow. congruence. }
  assert (Ht0 : is_space t0 = false).
  { rewrite <- is_space_lower, <- Et, is_space_lower. apply graph_not_space, Hw. }
  unfold prefix_re. cbn [app].
  rewrite rmatch_bol by reflexivity.
  apply rmatch_star_none. unfold start. cbn [ms_rest].
  change (String w written +:+ ws2 +:+ after)
    with (String w (written +:+ ws2 +:+ after)).
  rewrite span_every by (auto; apply graph_not_space, Hw).
  intros j Hj.
  change (String w (written +:+ ws2 +:+ after))
    with (String w written +:+ ws2 +:+ after).
  apply space_run_fail; [| |exact H1|exact Hj].
  - intros prev pos.
    rewrite (rmatch_lit_ci (String t0 ticket) (String w written)) by exact Elow.
    apply rmatch_star_none. cbn [ms_rest].
    assert (Hsp : match next_char after with
                  | Some c => is_space c = false | None => True end).
    { destruct after as [|y after]; [exact I|]. cbn [next_char] in *.
      apply graph_not_space, Hy. }
    rewrite span_every by (auto; exact Hsp).
    intros i Hi. apply space_run_fail; [| |exact H2|exact Hi].
    + intros prev' pos'. apply alt_separator_fail. cbn [ms_rest].
      destruct after as [|y after]; [exact I|]. cbn [next_char] in *. tauto.
    + intros prev' c rest pos' Hc. apply alt_separator_fail. cbn [ms_rest next_char].
      split; [intros ->; discriminate|]. split; [intros ->; discriminate|]. auto.
  - intros prev c rest pos Hc. cbn [lit_ci app]. apply rmatch_chr_fail. cbn [ms_rest].
    apply ci_space; assumption.
Qed.

Lemma title_of_kept_line (c : commit) (ticket ws text scheme body : string)
  (rest : list string) :
  take 7 (c_sha c) <> EmptyString -> every is_hex (take 7 (c_sha c)) = true ->
  scheme = "http://" \/ scheme = "https://" ->
  body <> EmptyString -> every is_graph body = true ->
  c_html_url c = scheme +:+ body ->
  every is_space ws = true -> trimmed text = true ->
  every not_newline (ws +:+ text) = true ->
  rmatch (prefix_re ticket) (start (ws +:+ text)) = None ->
  title_from_commits ticket (short_line c (ws +:+ text) :: rest) = text.
Proof.
  intros Hsne Hsha Hs Hbne Hb Hurl Hws Ht Hnl Hfail.
  assert (Hmne : ws +:+ text <> EmptyString).
  { apply append_nonempty. destruct text; [discriminate|discriminate]. }
  destruct (commit_line_match (take 7 (c_sha c)) (ws +:+ text) scheme body
              Hsne Hsha Hmne Hnl Hs Hbne Hb) as (m & Hmatch & _ & G2 & _).
  cbv zeta in Hmatch, G2.
  cbn [title_from_commits]. unfold cleaned_title, line_message, short_line.
  rewrite Hurl, Hmatch, G2.
  rewrite sub_unmatched by exact Hfail.
  rewrite strip_padded by assumption.
  destruct text; [discriminate | reflexivity].
Qed.

(** X28: the title made for a ticket without issue is the whole first line
    of the first commit, without the white space around it, when the line
    does not start with the ticket: its first character is not the first
    character of the ticket in either case. *)
Theorem title_of_unprefixed_commit
  (c : commit) (t0 x : ascii) (ticket ws text scheme body : string)
  (rest : list string) :
  take 7 (c_sha c) <> EmptyString -> every is_hex (take 7 (c_sha c)) = true ->
  scheme = "http://" \/ scheme = "https://" ->
  body <> EmptyString -> every is_graph body = true ->
  c_html_url c = scheme +:+ body ->
  is_graph t0 = true ->
  every is_space ws = true ->
  trimmed (String x text) = true ->
  lower_char x <> lower_char t0 ->
  every not_newline (ws +:+ String x text) = true ->
  title_from_commits (String t0 ticket) (short_line c (ws +:+ String x text) :: rest)
  = String x text.
Proof.
  intros Hsne Hsha Hs Hbne Hb Hurl Ht0 Hws Ht Hne Hnl.
  assert (Hx : is_space x = false).
  { unfold trimmed in Ht. apply andb_true_iff in Ht as [Hx _].
    apply graph_not_space, Hx. }
  apply (title_of_kept_line c (String t0 ticket) ws (String x text) scheme body);
    try assumption.
  apply prefix_mismatch; try assumption. apply graph_not_space, Ht0.
Qed.

(** X29: the ticket stays in the title when no separator follows it: when
    the first line of the first commit is the ticket, in whatever case,
    and then nothing, or white space and a text that starts with a
    printable character other than the hyphen and the colon, the title is
    the line, without the white space around it. *)
Theorem title_keeps_ticket_without_separator
  (c : commit) (ticket written ws1 ws2 after scheme body : string)
  (rest : list string) :
  take 7 (c_sha c) <> EmptyString -> every is_hex (take 7 (c_sha c)) = true ->
  scheme = "http://" \/ scheme = "https://" ->
  body <> EmptyString -> every is_graph body = true ->
  c_html_url c = scheme +:+ body ->
  lower written = lower ticket -> written <> EmptyString ->
  every is_space ws1 = true -> every is_space ws2 = true ->
  match next_char after with
  | Some y => is_graph y = true /\ y <> "-"%char /\ y <> ":"%char
  | None => True
  end ->
  trimmed (written +:+ ws2 +:+ after) = true ->
  every not_newline (ws1 +:+ written +:+ ws2 +:+ after) = true ->
  title_from_commits ticket
    (short_line c (ws1 +:+ written +:+ ws2 +:+ after) :: rest)
  = written +:+ ws2 +:+ after.
Proof.
  intros Hsne Hsha Hs Hbne Hb Hurl Elow Hwne H1 H2 Hy Ht Hnl.
  assert (Hw : match next_char written with
               | Some w => is_graph w = true | None => False end).
  { destruct written as [|w written]; [congruence|].
    change (String w written +:+ ws2 +:+ after)
      with (String w (written +:+ ws2 +:+ after)) in Ht.
    unfold trimmed in Ht. apply andb_true_iff in Ht as [Hw _]. exact Hw. }
  apply (title_of_kept_line c ticket ws1 (written +:+ ws2 +:+ after) scheme body);
    try assumption.
  apply prefix_unseparated; assumption.
Qed.

End TitleKept.

(** ** Reading the lines of a text *)

Section ReadingLines.

Lemma split_nl_nonempty (s : string) : split_nl s <> [].
Proof.
  induction s as [|c s IH]; [discriminate|]. cbn [split_nl].
  destruct (code c =? 10)%nat; [discriminate|].
  destruct (split_nl s); [congruence | discriminate].
Qed.

Lemma split_nl_single (s : string) : single_line s = true -> split_nl s = [s].
Proof.
  unfold single_line. induction s as [|c s IH]; [reflexivity|].
  cbn [every split_nl]. intros H. apply andb_true_iff in H as [Hc Hs].
  unfold not_newline in Hc. apply negb_true_iff in Hc. rewrite Hc, IH by exact Hs.
  reflexivity.
Qed.

Lemma push_app (c : ascii) (l1 l2 : list string) :
  l1 <> [] -> push c (l1 ++ l2) = push c l1 ++ l2.
Proof. destruct l1; [congruence | reflexivity]. Qed.

Lemma split_nl_nl (a b : string) : split_nl (a +:+ nl b) = split_nl a ++ split_nl b.
Proof.
  induction a as [|c a IH]; [reflexivity|].
  change (String c a +:+ nl b) with (String c (a +:+ nl b)). cbn [split_nl].
  rewrite IH. destruct (code c =? 10)%nat; [reflexivity|].
  apply push_app, split_nl_nonempty.
Qed.

Lemma split_join (l : list string) :
  l <> [] -> split_nl (join (nl EmptyString) l) = concat (map split_nl l).
Proof.
  induction l as [|x l IH]; [congruence|]. intros _.
  destruct l as [|y l].
  - cbn [join map concat]. rewrite app_nil_r. reflexivity.
  - change (join (nl EmptyString) (x :: y :: l))
      with (x +:+ nl (join (nl EmptyString) (y :: l))).
    rewrite split_nl_nl, IH by discriminate. reflexivity.
Qed.

Lemma omap_concat {A B} (f : A -> option B) (ls : list (list A)) :
  omap f (concat ls) = concat (map (omap f) ls).
Proof.
  induction ls as [|l ls IH]; [reflexivity|].
  cbn [concat map]. rewrite omap_app, IH. reflexivity.
Qed.

(** The marks of a report whose lines are read as their tags say. *)
Lemma marks_lines (lines : list line) :
  lines <> [] -> Forall reads_as lines ->
  marks (join (nl EmptyString) (map snd lines)) = omap mark_of lines.
Proof.
  intros Hne Hr. unfold marks.
  rewrite split_join by (destruct lines; [congruence | discriminate]).
  rewrite omap_concat, map_map.
  clear Hne. induction Hr as [|l lines Hl _ IH]; [reflexivity|].
  cbn [map concat omap list_omap]. rewrite IH. unfold reads_as in Hl.
  rewrite Hl. destruct (mark_of l); reflexivity.
Qed.

Lemma read_heading_other (c : ascii) (s : string) :
  Ascii.eqb c "*" = false -> Ascii.eqb c ":" = false ->
  read_heading (String c s) = None.
Proof.
  intros H1 H2. unfold read_heading. cbn [unbold]. rewrite H1.
  unfold section_headings, SEC_DONE, SEC_REVIEW, SEC_IN_PROGRESS, SEC_UNKNOWN_TICKETS,
    SEC_ORPHAN_COMMITS, SEC_BLOCKED, SEC_NEED_TASKS, SEC_BACKLOG.
  cbn [List.find fst String.eqb]. rewrite H2. reflexivity.
Qed.

Lemma bullet_cons (x : string) :
  bullet +:+ x = String "226" (String "128" (String "162" (String " " x))).
Proof. reflexivity. Qed.

Lemma prefix_empty (s : string) : String.prefix EmptyString s = true.
Proof. destruct s; reflexivity. Qed.

Lemma prefix_app (n a b : string) :
  String.prefix n a = true -> String.prefix n (a +:+ b) = true.
Proof.
  revert a. induction n as [|x n IH]; intros a; [intros _; apply prefix_empty|].
  destruct a as [|c a]; [discriminate|].
  change (String c a +:+ b) with (String c (a +:+ b)). cbn [String.prefix].
  destruct (ascii_dec x c); [apply IH | discriminate].
Qed.

Lemma contains_append (n a b : string) :
  contains n a = true -> contains n (a +:+ b) = true.
Proof.
  induction a as [|c a IH].
  - destruct n as [|x n]; [|cbn; discriminate]. intros _.
    destruct (EmptyString +:+ b); reflexivity.
  - change (String c a +:+ b) with (String c (a +:+ b)). cbn [contains].
    intros H. apply orb_true_iff in H as [H|H].
    + change (String c (a +:+ b)) with (String c a +:+ b).
      rewrite (prefix_app _ _ b H). reflexivity.
    + rewrite IH by exact H. apply orb_true_r.
Qed.

Lemma until_char_append (c : ascii) (i rest : string) :
  every (fun x => negb (Ascii.eqb x c)) i = true ->
  match next_char rest with Some x => x = c | None => True end ->
  until_char c (i +:+ rest) = i.
Proof.
  intros Hi Hr. induction i as [|x i IH].
  - change (EmptyString +:+ rest) with rest. destruct rest as [|y rest]; [reflexivity|].
    cbn in Hr. subst y. cbn [until_char]. rewrite Ascii.eqb_refl. reflexivity.
  - cbn [every] in Hi. apply andb_true_iff in Hi as [Hx Hi].
    change (String x i +:+ rest) with (String x (i +:+ rest)). cbn [until_char].
    apply negb_true_iff in Hx. rewrite Hx, IH by exact Hi. reflexivity.
Qed.

Lemma after_char_append (c : ascii) (u rest : string) :
  every (fun x => negb (Ascii.eqb x c)) u = true ->
  after_char c (u +:+ String c rest) = rest.
Proof.
  intros Hu. induction u as [|x u IH].
  - change (EmptyString +:+ String c rest) with (String c rest).
    cbn [after_char]. rewrite Ascii.eqb_refl. reflexivity.
  - cbn [every] in Hu. apply andb_true_iff in Hu as [Hx Hu].
    change (String x u +:+ String c rest) with (String x (u +:+ String c rest)).
    cbn [after_char]. apply negb_true_iff in Hx. rewrite Hx. apply IH, Hu.
Qed.

Lemma id_char_plain (c : ascii) :
  id_char c = true ->
  not_newline c = true /\ Ascii.eqb c " " = false /\ Ascii.eqb c ">" = false
  /\ Ascii.eqb c "<" = false.
Proof. destruct c as [[] [] [] [] [] [] [] []]; vm_compute; intuition congruence. Qed.

Lemma identifier_single (i : string) : is_identifier i = true -> single_line i = true.
Proof.
  unfold is_identifier, single_line. intros H. apply andb_true_iff in H as [H _].
  apply (every_impl id_char); [|exact H]. intros c Hc. apply id_char_plain, Hc.
Qed.

Lemma single_line_append (a b : string) :
  single_line (a +:+ b) = single_line a && single_line b.
Proof. apply every_append. Qed.

Lemma not_placeholder (i rest : string) :
  is_identifier i = true ->
  bool_decide (bullet +:+ i +:+ rest ∈ placeholder_lines) = false.
Proof.
  intros Hi. apply bool_decide_eq_false. intros Hin.
  unfold is_identifier in Hi. apply andb_true_iff in Hi as [_ Hc].
  pose proof (contains_append "-" i rest Hc) as Hc'.
  unfold placeholder_lines in Hin. rewrite bullet_cons in Hin.
  repeat (apply elem_of_cons in Hin as [Hin|Hin]);
    try (inversion Hin as [E]; rewrite E in Hc'; vm_compute in Hc'; discriminate).
  apply elem_of_nil in Hin. destruct Hin.
Qed.

Lemma read_line_bullet (x : string) :
  read_line (bullet +:+ x)
  = if bool_decide (bullet +:+ x ∈ placeholder_lines) then Some MPlaceholder
    else Some (MIssue (read_identifier x)).
Proof.
  unfold read_line. rewrite prefix_append.
  rewrite bullet_cons at 1. rewrite read_heading_other by reflexivity.
  rewrite bullet_cons. reflexivity.
Qed.

(** The line of an issue whose identifier is bare. *)
Lemma read_bare_item (i rest : string) :
  is_identifier i = true -> single_line rest = true ->
  match next_char rest with Some x => x = " "%char | None => True end ->
  omap read_line (split_nl (bullet +:+ i +:+ rest)) = [MIssue i].
Proof.
  intros Hi Hrest Hnext.
  rewrite split_nl_single
    by (rewrite !single_line_append, (identifier_single i Hi), Hrest; reflexivity).
  cbn [omap list_omap]. rewrite read_line_bullet, not_placeholder by exact Hi.
  unfold read_identifier.
  pose proof Hi as Hi'. unfold is_identifier in Hi'.
  apply andb_true_iff in Hi' as [Hchars Hc].
  destruct i as [|c i]; [discriminate|].
  change (String c i +:+ rest) with (String c (i +:+ rest)).
  cbn [every] in Hchars. pose proof Hchars as Hc0.
  apply andb_true_iff in Hc0 as [Hc0 _].
  rewrite (proj2 (proj2 (proj2 (id_char_plain c Hc0)))).
  change (String c (i +:+ rest)) with (String c i +:+ rest).
  rewrite until_char_append; [reflexivity| |exact Hnext].
  apply (every_impl id_char); [|exact Hchars].
  intros x Hx. rewrite (proj1 (proj2 (id_char_plain x Hx))). reflexivity.
Qed.

(** The line of an issue whose identifier is the label of a link. *)
Lemma read_linked_item (u i rest : string) :
  is_identifier i = true -> link_target u = true -> single_line rest = true ->
  omap read_line
    (split_nl (bullet +:+ "<" +:+ u +:+ "|" +:+ i +:+ ">" +:+ rest)) = [MIssue i].
Proof.
  intros Hi Hu Hrest.
  assert (Hus : single_line u = true).
  { apply (every_impl link_char); [|exact Hu].
    intros c Hc. apply andb_true_iff in Hc as [Hc _]. exact Hc. }
  rewrite split_nl_single
    by (rewrite !single_line_append, (identifier_single i Hi), Hrest, Hus;
        reflexivity).
  cbn [omap list_omap]. rewrite read_line_bullet.
  replace (bool_decide _) with false.
  2:{ symmetry. apply bool_decide_eq_false. intros Hin.
      unfold placeholder_lines in Hin. rewrite bullet_cons in Hin.
      repeat (apply elem_of_cons in Hin as [Hin|Hin]); try discriminate.
      apply elem_of_nil in Hin. destruct Hin. }
  change ("<" +:+ u +:+ "|" +:+ i +:+ ">" +:+ rest)
    with (String "<" (u +:+ String "|" (i +:+ String ">" rest))).
  unfold read_identifier. rewrite Ascii.eqb_refl.
  rewrite after_char_append.
  - rewrite until_char_append; [reflexivity| |reflexivity].
    unfold is_identifier in Hi. apply andb_true_iff in Hi as [Hchars _].
    apply (every_impl id_char); [|exact Hchars].
    intros x Hx. rewrite (proj1 (proj2 (proj2 (id_char_plain x Hx)))). reflexivity.
  - apply (every_impl link_char); [|exact Hu].
    intros c Hc. apply andb_true_iff in Hc as [_ Hc]. exact Hc.
Qed.

(** An indented line. *)
Lemma read_indented (x : string) :
  single_line x = true -> omap read_line (split_nl ("  " +:+ x)) = [MCommit].
Proof.
  intros Hx.
  rewrite split_nl_single by (rewrite single_line_append, Hx; reflexivity).
  cbn [omap list_omap]. change ("  " +:+ x) with (String " " (String " " x)).
  unfold read_line. rewrite read_heading_other by reflexivity.
  cbn [String.prefix bullet]. 
  destruct (ascii_dec "226" " ") as [E|_]; [discriminate|].
  destruct (ascii_dec " " " ") as [_|N]; [|congruence].
  rewrite prefix_empty. reflexivity.
Qed.


Lemma every_take (p : ascii -> bool) (n : nat) (s : string) :
  every p s = true -> every p (take n s) = true.
Proof.
  revert s. induction n as [|n IH]; intros [|c s] H; try reflexivity.
  cbn [every take] in *. apply andb_true_iff in H as [Hc Hs].
  rewrite Hc, IH by exact Hs. reflexivity.
Qed.

Lemma every_drop (p : ascii -> bool) (n : nat) (s : string) :
  every p s = true -> every p (drop n s) = true.
Proof.
  revert s. induction n as [|n IH]; intros [|c s] H; try exact H.
  cbn [every drop] in *. apply andb_true_iff in H as [_ Hs]. apply IH, Hs.
Qed.

Lemma every_lstrip_by (p q : ascii -> bool) (s : string) :
  every p s = true -> every p (lstrip_by q s) = true.
Proof.
  induction s as [|c s IH]; [reflexivity|]. intros H. cbn [lstrip_by].
  destruct (q c); [|exact H].
  cbn [every] in H. apply andb_true_iff in H as [_ Hs]. apply IH, Hs.
Qed.

Lemma every_rstrip_by (p q : ascii -> bool) (s : string) :
  every p s = true -> every p (rstrip_by q s) = true.
Proof.
  induction s as [|c s IH]; [reflexivity|]. intros H. cbn [rstrip_by].
  cbn [every] in H. apply andb_true_iff in H as [Hc Hs].
  destruct (is_empty (rstrip_by q s) && q c); [reflexivity|].
  cbn [every]. rewrite Hc, IH by exact Hs. reflexivity.
Qed.

Lemma every_strip_by (p q : ascii -> bool) (s : string) :
  every p s = true -> every p (strip_by q s) = true.
Proof. intros H. apply every_lstrip_by, every_rstrip_by, H. Qed.

Lemma every_lstrip_dashes (p : ascii -> bool) (s : string) :
  every p s = true -> every p (lstrip_dashes s) = true.
Proof.
  remember (String.length s) as n eqn:En. revert s En.
  induction n as [n IH] using lt_wf_ind. intros s En H.
  destruct s as [|c s]; [reflexivity|]. cbn [lstrip_dashes].
  cbn [every] in H. pose proof H as H0. apply andb_true_iff in H0 as [Hc Hs].
  cbn [String.length] in En.
  destruct ((code c =? 32)%nat || (code c =? 45)%nat).
  - apply (IH (String.length s)); [lia | reflexivity | exact Hs].
  - destruct s as [|c2 [|c3 s3]]; try exact H.
    destruct ((code c =? 226)%nat && (code c2 =? 128)%nat
              && ((code c3 =? 147)%nat || (code c3 =? 148)%nat)); [|exact H].
    cbn [every] in Hs. apply andb_true_iff in Hs as [_ Hs].
    apply andb_true_iff in Hs as [_ Hs].
    apply (IH (String.length s3)); [cbn [String.length] in En; lia | reflexivity | exact Hs].
Qed.

Lemma every_cut (p : ascii -> bool) (s : string) (pos : nat)
  (ms : list (mstate * mstate)) :
  every p s = true -> every p (cut s pos ms) = true.
Proof.
  intros H. revert pos. induction ms as [|[a b] ms IH]; intros pos; cbn [cut].
  - apply every_drop, H.
  - rewrite every_append, IH, andb_true_r. apply every_take, every_drop, H.
Qed.

Lemma every_group (p : ascii -> bool) (s : string) (m : mstate) (g : nat) :
  every p s = true -> every p (group s m g) = true.
Proof.
  intros H. unfold group. destruct (List.find _ _) as [[? [from to]]|]; [|reflexivity].
  apply every_take, every_drop, H.
Qed.

Lemma slack_commit_line_single (c sha msg url : string) :
  single_line c = true -> _slack_commit_line c = Some (sha, msg, url) ->
  single_line sha = true /\ single_line msg = true /\ single_line url = true.
Proof.
  unfold _slack_commit_line, single_line. intros Hc.
  destruct (re_match COMMIT_RE c) as [m|]; [|discriminate].
  intros E. inversion E; subst. clear E. repeat split.
  - apply every_strip_by, every_group, Hc.
  - unfold strip. apply every_strip_by, every_lstrip_dashes.
    unfold sub_empty. apply every_cut, every_group, Hc.
  - apply every_group, Hc.
Qed.

Lemma od_append_single (k : string) (v : string * string)
  (d : list (string * list (string * string))) :
  single_line k = true -> single_line v.1 && single_line v.2 = true ->
  forallb single_group d = true -> forallb single_group (od_append k v d) = true.
Proof.
  intros Hk Hv. induction d as [|[k' vs] d IH]; cbn [od_append forallb].
  - intros _. unfold single_group. cbn [fst snd forallb]. rewrite Hk, Hv. reflexivity.
  - intros H. apply andb_true_iff in H as [H1 H2].
    destruct (String.eqb k k'); cbn [forallb].
    + rewrite H2, andb_true_r. unfold single_group in *. cbn [fst snd] in *.
      apply andb_true_iff in H1 as [Hk' Hvs]. rewrite Hk'.
      rewrite forallb_app, Hvs. cbn [forallb]. rewrite Hv. reflexivity.
    + rewrite H1, IH by exact H2. reflexivity.
Qed.

Lemma group_by_msg_single (commits : list string) :
  forallb single_line commits = true ->
  forallb single_group (group_by_msg commits) = true.
Proof.
  unfold group_by_msg.
  assert (Hgen : forall d, forallb single_group d = true ->
                   forallb single_line commits = true ->
                   forallb single_group
                     (foldl (fun d c =>
                               match _slack_commit_line c with
                               | None => d
                               | Some (sha, raw_msg, commit_url) =>
                                   od_append raw_msg (sha, commit_url) d
                               end) d commits) = true).
  { induction commits as [|c commits IH]; intros d Hd Hc; [exact Hd|].
    cbn [forallb] in Hc. apply andb_true_iff in Hc as [Hc Hcs].
    cbn [foldl]. apply IH; [|exact Hcs].
    destruct (_slack_commit_line c) as [[[sha msg] url]|] eqn:E; [|exact Hd].
    destruct (slack_commit_line_single c sha msg url Hc E) as (H1 & H2 & H3).
    apply od_append_single; [exact H2 | cbn [fst snd]; rewrite H1, H3; reflexivity
                            | exact Hd]. }
  apply Hgen. reflexivity.
Qed.

Lemma join_single (sep : string) (l : list string) :
  single_line sep = true -> forallb single_line l = true ->
  single_line (join sep l) = true.
Proof.
  intros Hsep. induction l as [|x l IH]; [reflexivity|].
  cbn [forallb]. intros H. apply andb_true_iff in H as [Hx Hl].
  destruct l as [|y l]; [exact Hx|].
  change (join sep (x :: y :: l)) with (x +:+ sep +:+ join sep (y :: l)).
  rewrite !single_line_append, Hx, Hsep, IH by exact Hl. reflexivity.
Qed.

Lemma commit_subline_single (msg sha_str : string) :
  single_line msg = true -> single_line sha_str = true ->
  single_line (commit_subline msg sha_str) = true.
Proof.
  intros H1 H2. unfold commit_subline.
  rewrite !single_line_append, H1, H2. reflexivity.
Qed.

Lemma render_plain_single (commits : list string) (add_links : bool) :
  forallb single_line commits = true ->
  forallb single_line (_render_commits_plain commits add_links) = true.
Proof.
  intros H. apply group_by_msg_single in H. unfold _render_commits_plain.
  induction (group_by_msg commits) as [|[msg shas] d IH]; [reflexivity|].
  cbn [forallb] in H. apply andb_true_iff in H as [Hg Hd].
  cbn [map forallb fst snd]. rewrite IH, andb_true_r by exact Hd.
  unfold single_group in Hg. cbn [fst snd] in Hg.
  apply andb_true_iff in Hg as [Hmsg Hshas].
  apply commit_subline_single; [exact Hmsg|]. apply join_single; [reflexivity|].
  clear -Hshas. induction shas as [|[sha url] shas IH]; [reflexivity|].
  cbn [forallb fst snd] in Hshas. apply andb_true_iff in Hshas as [Hs Hshas].
  apply andb_true_iff in Hs as [Hsha Hurl].
  cbn [map forallb fst snd]. rewrite IH, andb_true_r by exact Hshas.
  destruct add_links; [|exact Hsha].
  rewrite !single_line_append, Hsha, Hurl. reflexivity.
Qed.

Lemma render_slack_single (commits : list string) :
  forallb single_line commits = true ->
  forallb single_line (_render_commits_slack commits) = true.
Proof.
  intros H. apply group_by_msg_single in H. unfold _render_commits_slack.
  induction (group_by_msg commits) as [|[msg shas] d IH]; [reflexivity|].
  cbn [forallb] in H. apply andb_true_iff in H as [Hg Hd].
  cbn [map forallb fst snd]. rewrite IH, andb_true_r by exact Hd.
  unfold single_group in Hg. cbn [fst snd] in Hg.
  apply andb_true_iff in Hg as [Hmsg Hshas].
  apply commit_subline_single; [exact Hmsg|]. apply join_single; [reflexivity|].
  clear -Hshas. induction shas as [|[sha url] shas IH]; [reflexivity|].
  cbn [forallb fst snd] in Hshas. apply andb_true_iff in Hshas as [Hs Hshas].
  apply andb_true_iff in Hs as [Hsha Hurl].
  cbn [map forallb fst snd]. rewrite IH, andb_true_r by exact Hshas.
  rewrite !single_line_append, Hsha, Hurl. reflexivity.
Qed.

Lemma commit_subline_indented (msg sha_str : string) :
  commit_subline msg sha_str = "  " +:+ ("↳ " +:+ msg +:+ " (" +:+ sha_str +:+ ")").
Proof. reflexivity. Qed.

(** The lines of the commits are read as such. *)
Lemma indented_reads (s : section) (l : list string) :
  Forall (fun x => exists y, x = "  " +:+ y /\ single_line y = true) l ->
  Forall reads_as (tagged (KCommit s) l).
Proof.
  intros H. induction H as [|x l (y & -> & Hy) _ IH]; constructor; [|exact IH].
  unfold reads_as. cbn [fst snd mark_of option_list]. apply read_indented, Hy.
Qed.

Lemma indented_single (x : string) :
  single_line ("  " +:+ x) = single_line x.
Proof. reflexivity. Qed.

Lemma rendered_indented (groups : list (string * list (string * string)))
  (f : list (string * string) -> string) :
  forallb single_line (map (fun ms => commit_subline ms.1 (f ms.2)) groups) = true ->
  Forall (fun x => exists y, x = "  " +:+ y /\ single_line y = true)
    (map (fun ms => commit_subline ms.1 (f ms.2)) groups).
Proof.
  induction groups as [|ms groups IH]; [constructor|].
  cbn [map forallb]. intros H. apply andb_true_iff in H as [H1 H2].
  constructor; [|apply IH, H2].
  eexists. split; [apply commit_subline_indented|].
  rewrite commit_subline_indented, indented_single in H1. exact H1.
Qed.

Lemma render_plain_reads (s : section) (commits : list string) (add_links : bool) :
  forallb single_line commits = true ->
  Forall reads_as (tagged (KCommit s) (_render_commits_plain commits add_links)).
Proof.
  intros H. apply indented_reads.
  apply (render_plain_single commits add_links) in H.
  unfold _render_commits_plain in *.
  apply (rendered_indented (group_by_msg commits)
           (fun shas => join ", " (map (fun sc : string * string =>
                                          if add_links then sc.1 +:+ " " +:+ sc.2
                                          else sc.1) shas))), H.
Qed.

Lemma render_slack_reads (s : section) (commits : list string) :
  forallb single_line commits = true ->
  Forall reads_as (tagged (KCommit s) (_render_commits_slack commits)).
Proof.
  intros H. apply indented_reads.
  apply render_slack_single in H. unfold _render_commits_slack in *.
  apply (rendered_indented (group_by_msg commits)
           (fun shas => join ", " (map (fun sc : string * string =>
                                          "<" +:+ sc.2 +:+ "|" +:+ sc.1 +:+ ">") shas))), H.
Qed.

End ReadingLines.

(** ** Reading the lines of the issues and the titles *)

Section ReadingItems.

Lemma label_single (t : string) :
  single_line t = true ->
  single_line (if is_empty t then EmptyString else " — " +:+ t) = true.
Proof.
  intros H. destruct (is_empty t); [reflexivity|].
  rewrite single_line_append, H. reflexivity.
Qed.

Lemma link_target_single (u : string) : link_target u = true -> single_line u = true.
Proof.
  apply every_impl. intros c Hc. apply andb_true_iff in Hc as [Hc _]. exact Hc.
Qed.

Lemma plain_issue_reads (s : section) (add_links : bool) (i t u sfx : string) :
  is_identifier i = true -> single_line t = true -> single_line u = true ->
  sfx = EmptyString \/ sfx = " blocked" ->
  reads_as (KIssue s i, plain_issue_line add_links i t u sfx).
Proof.
  intros Hi Ht Hu Hsfx. unfold reads_as. cbn [fst snd mark_of option_list].
  unfold plain_issue_line. apply (read_bare_item i); [exact Hi| |].
  - rewrite !single_line_append, label_single by exact Ht.
    destruct Hsfx as [-> | ->];
      (destruct (add_links && negb (is_empty u));
       [rewrite single_line_append, Hu|]; reflexivity).
  - destruct (is_empty t); [|reflexivity].
    destruct Hsfx as [-> | ->]; [|reflexivity].
    destruct (add_links && negb (is_empty u)); reflexivity.
Qed.

Lemma slack_issue_reads (s : section) (i t u sfx : string) :
  is_identifier i = true -> single_line t = true -> link_target u = true ->
  sfx = EmptyString \/ sfx = " — blocked" ->
  reads_as (KIssue s i, slack_issue_line i t u sfx).
Proof.
  intros Hi Ht Hu Hsfx. unfold reads_as. cbn [fst snd mark_of option_list].
  unfold slack_issue_line.
  assert (Hrest : single_line ((if is_empty t then EmptyString else " — " +:+ t)
                               +:+ sfx) = true).
  { rewrite single_line_append, label_single by exact Ht.
    destruct Hsfx as [-> | ->]; reflexivity. }
  destruct (is_empty u).
  - apply (read_bare_item i); [exact Hi | exact Hrest |].
    destruct (is_empty t); [|reflexivity].
    destruct Hsfx as [-> | ->]; reflexivity.
  - rewrite !append_assoc.
    apply (read_linked_item u i); [exact Hi | exact Hu | exact Hrest].
Qed.

Lemma terminal_issue_reads (add_links : bool) (e : entry) :
  readable_entry e = true -> reads_as (backlog_terminal_line add_links e).
Proof.
  unfold readable_entry. intros H. apply andb_true_iff in H as [H Hu].
  apply andb_true_iff in H as [Hi Ht]. apply link_target_single in Hu.
  unfold reads_as, backlog_terminal_line. cbn [fst snd mark_of option_list].
  apply (read_bare_item e.1.1); [exact Hi| |reflexivity].
  rewrite !single_line_append, Ht.
  destruct add_links; [rewrite single_line_append, Hu|]; reflexivity.
Qed.

Lemma read_heading_star (c : ascii) (s : string) :
  Ascii.eqb c "*" = false -> Ascii.eqb c ":" = false ->
  read_heading (String "*" (String c s)) = None.
Proof.
  intros H1 H2. unfold read_heading. cbn [unbold]. rewrite H1.
  change (Ascii.eqb "*" "*") with true. cbv iota.
  unfold section_headings, SEC_DONE, SEC_REVIEW, SEC_IN_PROGRESS, SEC_UNKNOWN_TICKETS,
    SEC_ORPHAN_COMMITS, SEC_BLOCKED, SEC_NEED_TASKS, SEC_BACKLOG.
  cbn [List.find fst String.eqb]. rewrite H2. reflexivity.
Qed.

Lemma plain_title_reads (today : string) :
  single_line today = true ->
  reads_as (KTitle, "Daily standup — " +:+ today +:+ nl EmptyString).
Proof.
  intros H. unfold reads_as. cbn [fst snd mark_of option_list].
  rewrite <- append_assoc, split_nl_nl.
  rewrite split_nl_single by (rewrite single_line_append, H; reflexivity).
  reflexivity.
Qed.

Lemma slack_title_reads (today : string) :
  single_line today = true ->
  reads_as (KTitle, "*Daily standup — " +:+ today +:+ "*" +:+ nl EmptyString).
Proof.
  intros H. unfold reads_as. cbn [fst snd mark_of option_list].
  change ("*" +:+ nl EmptyString) with ("*" +:+ nl EmptyString).
  replace ("*Daily standup — " +:+ today +:+ "*" +:+ nl EmptyString)
    with (("*Daily standup — " +:+ today +:+ "*") +:+ nl EmptyString)
    by (rewrite !append_assoc; reflexivity).
  rewrite split_nl_nl.
  rewrite split_nl_single by (rewrite !single_line_append, H; reflexivity).
  cbn [app omap list_omap split_nl].
  change ("*Daily standup — " +:+ today +:+ "*")
    with (String "*" (String "D" ("aily standup — " +:+ today +:+ "*"))).
  unfold read_line. rewrite read_heading_star by reflexivity. reflexivity.
Qed.


Lemma Forall_concat_map {A B} (P : B -> Prop) (Q : A -> Prop) (f : A -> list B)
  (l : list A) :
  Forall Q l -> (forall a, Q a -> Forall P (f a)) -> Forall P (concat (map f l)).
Proof.
  intros Hl Hf. induction Hl as [|a l Ha _ IH]; cbn [map concat]; [constructor|].
  apply Forall_app. split; [apply Hf, Ha | exact IH].
Qed.

Lemma forallb_Forall {A} (p : A -> bool) (l : list A) :
  forallb p l = true -> Forall (fun x => p x = true) l.
Proof.
  induction l as [|x l IH]; [constructor|]. cbn [forallb]. intros H.
  apply andb_true_iff in H as [Hx Hl]. constructor; [exact Hx | apply IH, Hl].
Qed.

Lemma forallb_elem {A} (p : A -> bool) (l : list A) (x : A) :
  forallb p l = true -> x ∈ l -> p x = true.
Proof.
  intros H Hx. apply forallb_Forall in H. rewrite Forall_forall in H. apply H, Hx.
Qed.

Lemma sorted_items_elem {V} (d : gmap string V) (ti : string * V) :
  ti ∈ sorted_items d -> ti ∈ map_to_list d.
Proof.
  unfold sorted_items. intros H. apply list_elem_of_omap in H as (k & _ & Hk).
  destruct (d !! k) as [v|] eqn:E; [|discriminate]. cbn in Hk. inversion Hk; subst.
  apply elem_of_map_to_list, E.
Qed.

Lemma dict_get_elem {V} (d : list (string * V)) (k : string) (v : V) :
  dict_get d k = Some v -> exists k', (k', v) ∈ d.
Proof.
  induction d as [|[k' v'] d IH]; [discriminate|]. cbn [dict_get].
  destruct (String.eqb k k').
  - intros E. inversion E; subst. exists k'. left.
  - intros E. destruct (IH E) as [k'' H]. exists k''. right. exact H.
Qed.

(** What the arguments of the renderers are, when they can be read
    back. *)
Lemma readable_parts today done review wo blocked backlog cs oc dc :
  readable today done review wo blocked backlog cs oc dc = true ->
  single_line today = true
  /\ Forall (fun e => readable_entry e = true) done
  /\ Forall (fun e => readable_entry e = true) review
  /\ Forall (fun ti => readable_worked ti = true) (sorted_items wo)
  /\ Forall (fun e => readable_entry e = true) blocked
  /\ Forall (fun e => readable_entry e = true) backlog
  /\ (forall k lines, (k, lines) ∈ cs ->
        single_line k = true /\ forallb single_line lines = true)
  /\ forallb single_line oc = true
  /\ (forall k, forallb single_line (default [] (dc !! k)) = true).
Proof.
  unfold readable. intros H.
  repeat (apply andb_true_iff in H as [H ?]).
  split; [exact H|]. split; [apply forallb_Forall; assumption|].
  split; [apply forallb_Forall; assumption|].
  split.
  { apply Forall_forall. intros ti Hti.
    apply (forallb_elem _ (map_to_list wo)); [assumption|].
    apply sorted_items_elem, Hti. }
  split; [apply forallb_Forall; assumption|].
  split; [apply forallb_Forall; assumption|].
  split.
  { intros k lines Hk.
    assert (Hr : readable_commits (k, lines) = true)
      by (apply (forallb_elem _ cs); assumption).
    unfold readable_commits in Hr. apply andb_true_iff in Hr. exact Hr. }
  split; [assumption|].
  intros k. destruct (dc !! k) as [lines|] eqn:E; [|reflexivity]. cbn [default].
  assert (Hr : readable_commits (k, lines) = true).
  { apply (forallb_elem _ (map_to_list dc)); [assumption|].
    apply elem_of_map_to_list, E. }
  unfold readable_commits in Hr. apply andb_true_iff in Hr as [_ Hr]. exact Hr.
Qed.

Lemma plain_done_item_reads add_links show dc (s : section) (e : entry) :
  (forall k, forallb single_line (default [] (dc !! k)) = true) ->
  readable_entry e = true ->
  Forall reads_as (plain_done_item add_links show dc s e).
Proof.
  intros Hdc He. unfold readable_entry in He.
  apply andb_true_iff in He as [He Hu]. apply andb_true_iff in He as [Hi Ht].
  unfold plain_done_item. constructor.
  - apply plain_issue_reads; auto using link_target_single.
  - destruct (shows show "done"); [|constructor]. apply render_plain_reads, Hdc.
Qed.

Lemma slack_done_item_reads show dc (s : section) (e : entry) :
  (forall k, forallb single_line (default [] (dc !! k)) = true) ->
  readable_entry e = true ->
  Forall reads_as (slack_done_item show dc s e).
Proof.
  intros Hdc He. unfold readable_entry in He.
  apply andb_true_iff in He as [He Hu]. apply andb_true_iff in He as [Hi Ht].
  unfold slack_done_item. constructor.
  - apply slack_issue_reads; auto.
  - destruct (shows show "done"); [|constructor]. apply render_slack_reads, Hdc.
Qed.

Lemma plain_worked_item_reads add_links show (ti : string * worked) :
  readable_worked ti = true -> Forall reads_as (plain_worked_item add_links show ti).
Proof.
  unfold readable_worked. intros H. apply andb_true_iff in H as [H Hc].
  apply andb_true_iff in H as [H Hu]. apply andb_true_iff in H as [Hi Ht].
  unfold plain_worked_item. constructor.
  - apply plain_issue_reads; auto using link_target_single.
  - destruct (shows show "in_progress"); [|constructor].
    apply render_plain_reads, Hc.
Qed.

Lemma slack_worked_item_reads show (ti : string * worked) :
  readable_worked ti = true -> Forall reads_as (slack_worked_item show ti).
Proof.
  unfold readable_worked. intros H. apply andb_true_iff in H as [H Hc].
  apply andb_true_iff in H as [H Hu]. apply andb_true_iff in H as [Hi Ht].
  unfold slack_worked_item. constructor.
  - apply slack_issue_reads; auto.
  - destruct (shows show "in_progress"); [|constructor].
    apply render_slack_reads, Hc.
Qed.

Lemma plain_blocked_item_reads add_links (e : entry) :
  readable_entry e = true -> reads_as (plain_blocked_item add_links e).
Proof.
  unfold readable_entry. intros He.
  apply andb_true_iff in He as [He Hu]. apply andb_true_iff in He as [Hi Ht].
  apply plain_issue_reads; auto using link_target_single.
Qed.

Lemma slack_blocked_item_reads (e : entry) :
  readable_entry e = true -> reads_as (slack_blocked_item e).
Proof.
  unfold readable_entry. intros He.
  apply andb_true_iff in He as [He Hu]. apply andb_true_iff in He as [Hi Ht].
  apply slack_issue_reads; auto.
Qed.

Lemma slack_backlog_item_reads (e : entry) :
  readable_entry e = true -> reads_as (slack_backlog_item e).
Proof.
  unfold readable_entry. intros He.
  apply andb_true_iff in He as [He Hu]. apply andb_true_iff in He as [Hi Ht].
  apply slack_issue_reads; auto.
Qed.

Lemma Forall_map_reads {A} (Q : A -> Prop) (f : A -> line) (l : list A) :
  Forall Q l -> (forall a, Q a -> reads_as (f a)) -> Forall reads_as (map f l).
Proof.
  intros Hl Hf. induction Hl; constructor; [apply Hf; assumption | assumption].
Qed.

Lemma slack_unknown_item_reads (cs : list (string * list string)) (ticket : string) :
  (forall k lines, (k, lines) ∈ cs ->
     single_line k = true /\ forallb single_line lines = true) ->
  single_line ticket = true ->
  Forall reads_as (slack_unknown_item cs ticket).
Proof.
  intros Hcs Ht. unfold slack_unknown_item. apply indented_reads.
  assert (Hl : forallb single_line (default [] (dict_get cs ticket)) = true).
  { destruct (dict_get cs ticket) as [lines|] eqn:E; [|reflexivity].
    destruct (dict_get_elem cs ticket lines E) as [k Hk]. apply (Hcs k lines Hk). }
  apply render_slack_single in Hl.
  induction (_render_commits_slack (default [] (dict_get cs ticket))) as [|l ls IH];
    [constructor|].
  cbn [forallb] in Hl. apply andb_true_iff in Hl as [Hl Hls].
  cbn [map]. constructor; [|apply IH, Hls].
  eexists. split; [reflexivity|].
  rewrite !single_line_append, Ht. cbn [andb]. unfold lstrip.
  apply every_lstrip_by, Hl.
Qed.

Lemma sort_by_Forall {A} (leb : A -> A -> bool) (P : A -> Prop) (l : list A) :
  Forall P l -> Forall P (sort_by leb l).
Proof.
  intros H. induction H as [|x l Hx _ IH]; [constructor|].
  cbn [sort_by foldr]. fold (sort_by leb l).
  induction IH as [|y l' Hy Hl' IH']; cbn [insert_by]; [repeat constructor; exact Hx|].
  destruct (leb x y); repeat (constructor; try assumption).
Qed.

End ReadingItems.

(** ** Reading the two reports *)

Section ReadingReports.

(** Every line of the plain-text report is read as its tag says. *)
Lemma plain_lines_read today done review wo blocked backlog cs oc dc add_links show :
  readable today done review wo blocked backlog cs oc dc = true ->
  Forall reads_as (build_report_lines today done review wo blocked add_links show dc oc).
Proof.
  intros H.
  destruct (readable_parts _ _ _ _ _ _ _ _ _ H)
    as (Ht & Hd & Hr & Hw & Hb & Hk & Hcs & Hoc & Hdc).
  unfold build_report_lines. repeat (apply Forall_app; split).
  - constructor; [apply plain_title_reads, Ht | constructor].
  - constructor; [vm_compute; reflexivity | constructor].
  - destruct done as [|d0 done].
    + constructor; [vm_compute; reflexivity | constructor].
    + apply (Forall_concat_map _ _ _ _ Hd). intros e He.
      apply plain_done_item_reads; assumption.
  - destruct review as [|r0 review]; [constructor|].
    constructor; [vm_compute; reflexivity|].
    apply (Forall_concat_map _ _ _ _ Hr). intros e He.
    apply plain_done_item_reads; assumption.
  - constructor; [vm_compute; reflexivity | constructor].
  - destruct (bool_decide (wo = ∅)).
    + constructor; [vm_compute; reflexivity | constructor].
    + apply (Forall_concat_map _ _ _ _ Hw). intros ti Hti.
      apply plain_worked_item_reads, Hti.
  - destruct (shows show "orphan" && negb (bool_decide (oc = []))); [|constructor].
    constructor; [vm_compute; reflexivity|]. apply render_plain_reads, Hoc.
  - constructor; [vm_compute; reflexivity | constructor].
  - destruct blocked as [|b0 blocked].
    + constructor; [vm_compute; reflexivity | constructor].
    + apply (Forall_map_reads _ _ _ Hb). intros e He.
      apply plain_blocked_item_reads, He.
  - constructor; [vm_compute; reflexivity | constructor].
  - constructor; [vm_compute; reflexivity | constructor].
Qed.

Lemma unknown_ticket_single done review wo (cs : list (string * list string))
  (t : string) :
  (forall k lines, (k, lines) ∈ cs ->
     single_line k = true /\ forallb single_line lines = true) ->
  t ∈ sorted (elements (orphan_tickets done review wo cs)) ->
  single_line t = true.
Proof.
  intros Hcs Ht. rewrite sorted_perm, elem_of_elements in Ht.
  unfold orphan_tickets in Ht. rewrite elem_of_list_to_set in Ht.
  apply list_elem_of_filter in Ht as [_ Ht].
  apply list_elem_of_fmap in Ht as ([k lines] & -> & Hk).
  apply (Hcs k lines Hk).
Qed.

(** Every line of the chat report is read as its tag says. *)
Lemma slack_lines_read today done review wo blocked backlog cs oc dc show :
  readable today done review wo blocked backlog cs oc dc = true ->
  Forall reads_as
    (build_slack_report_lines today done review wo blocked backlog cs oc show dc).
Proof.
  intros H.
  destruct (readable_parts _ _ _ _ _ _ _ _ _ H)
    as (Ht & Hd & Hr & Hw & Hb & Hk & Hcs & Hoc & Hdc).
  unfold build_slack_report_lines. repeat (apply Forall_app; split).
  - constructor; [apply slack_title_reads, Ht | constructor].
  - constructor; [vm_compute; reflexivity | constructor].
  - destruct done as [|d0 done].
    + constructor; [vm_compute; reflexivity | constructor].
    + apply (Forall_concat_map _ _ _ _ Hd). intros e He.
      apply slack_done_item_reads; assumption.
  - destruct review as [|r0 review]; [constructor|].
    constructor; [vm_compute; reflexivity|].
    apply (Forall_concat_map _ _ _ _ Hr). intros e He.
    apply slack_done_item_reads; assumption.
  - constructor; [vm_compute; reflexivity | constructor].
  - destruct (bool_decide (wo = ∅)).
    + constructor; [vm_compute; reflexivity | constructor].
    + apply (Forall_concat_map _ _ _ _ Hw). intros ti Hti.
      apply slack_worked_item_reads, Hti.
  - unfold slack_unknown_section.
    destruct (shows show "in_progress"); [|constructor].
    destruct (bool_decide _); [constructor|].
    constructor; [vm_compute; reflexivity|].
    apply (Forall_concat_map _ (fun t => single_line t = true)).
    + apply Forall_forall. intros t Ht'.
      apply (unknown_ticket_single done review wo cs t Hcs Ht').
    + intros t Ht'. apply slack_unknown_item_reads; assumption.
  - destruct (shows show "orphan" && negb (bool_decide (oc = []))); [|constructor].
    constructor; [vm_compute; reflexivity|]. apply render_slack_reads, Hoc.
  - constructor; [vm_compute; reflexivity | constructor].
  - destruct blocked as [|b0 blocked].
    + constructor; [vm_compute; reflexivity | constructor].
    + apply (Forall_map_reads _ _ _ Hb). intros e He.
      apply slack_blocked_item_reads, He.
  - constructor; [vm_compute; reflexivity | constructor].
  - constructor; [vm_compute; reflexivity | constructor].
  - destruct backlog as [|k0 backlog]; [constructor|].
    constructor; [vm_compute; reflexivity|].
    apply (Forall_map_reads (fun e => readable_entry e = true)).
    + apply sort_by_Forall, Hk.
    + intros e He. apply slack_backlog_item_reads, He.
Qed.

(** ** Sections *)

Lemma item_of_tagged (s : section) (l : list string) :
  Forall (item_of s) (tagged (KCommit s) l).
Proof. induction l; constructor; [reflexivity | assumption]. Qed.

Lemma item_of_concat_map {A} (s : section) (f : A -> list line) (l : list A) :
  (forall a, Forall (item_of s) (f a)) -> Forall (item_of s) (concat (map f l)).
Proof.
  intros Hf. induction l as [|a l IH]; cbn [map concat]; [constructor|].
  apply Forall_app. split; [apply Hf | exact IH].
Qed.

Lemma item_of_map {A} (s : section) (f : A -> line) (l : list A) :
  (forall a, item_of s (f a)) -> Forall (item_of s) (map f l).
Proof. intros Hf. induction l; constructor; [apply Hf | assumption]. Qed.

Ltac section_items :=
  repeat match goal with
    | |- Forall (item_of _) (concat (map _ _)) => apply item_of_concat_map; intros
    | |- Forall (item_of _) (map _ _) => apply item_of_map; intros; reflexivity
    | |- Forall (item_of _) (tagged _ _) => apply item_of_tagged
    | |- Forall (item_of _) [] => constructor
    | |- Forall (item_of _) (_ :: _) => constructor; [reflexivity|]
    | |- Forall (item_of _) (if ?c then _ else _) => destruct c
    | |- Forall (item_of _) (match ?l with [] => _ | _ :: _ => _ end) => destruct l
    end.

Ltac headed_block :=
  match goal with
  | |- block [] => left; reflexivity
  | |- block ((KHeading _, _) :: _) =>
      right; eexists _, _, _; split; [reflexivity|]; section_items
  | |- block (match ?l with [] => _ | _ :: _ => _ end) => destruct l; headed_block
  | |- block (if ?c then _ else _) => destruct c; headed_block
  end.

Lemma plain_blocks today done review wo blocked add_links show dc oc :
  exists t blocks,
    build_report_lines today done review wo blocked add_links show dc oc
    = (KTitle, t) :: concat blocks
    /\ Forall block blocks.
Proof.
  eexists.
  exists [(KHeading SDone, SEC_DONE)
          :: (match done with
              | [] => [(KPlaceholder SDone, "• —")]
              | _ => concat (map (plain_done_item add_links show dc SDone) done)
              end);
          (match review with
           | [] => []
           | _ => (KHeading SReview, nl SEC_REVIEW)
                  :: concat (map (plain_done_item add_links show dc SReview) review)
           end);
          (KHeading SInProgress, nl SEC_IN_PROGRESS)
          :: (if bool_decide (wo = ∅) then [(KPlaceholder SInProgress, "• —")]
              else concat (map (plain_worked_item add_links show) (sorted_items wo)));
          (if shows show "orphan" && negb (bool_decide (oc = []))
           then (KHeading SOrphan, nl SEC_ORPHAN_COMMITS)
                :: tagged (KCommit SOrphan) (_render_commits_plain oc add_links)
           else []);
          (KHeading SBlocked, nl SEC_BLOCKED)
          :: (match blocked with
              | [] => [(KPlaceholder SBlocked, "• No")]
              | _ => map (plain_blocked_item add_links) blocked
              end);
          [(KHeading SNeedTasks, nl SEC_NEED_TASKS);
           (KPlaceholder SNeedTasks, "• Need tasks: no")]].
  split; [reflexivity|].
  unfold plain_done_item, plain_worked_item, plain_blocked_item.
  repeat (constructor; [headed_block|]). constructor.
Qed.

Lemma slack_blocks today done review wo blocked backlog cs oc show dc :
  exists t blocks,
    build_slack_report_lines today done review wo blocked backlog cs oc show dc
    = (KTitle, t) :: concat blocks
    /\ Forall block blocks.
Proof.
  eexists.
  exists [(KHeading SDone, bold SEC_DONE)
          :: (match done with
              | [] => [(KPlaceholder SDone, "• —")]
              | _ => concat (map (slack_done_item show dc SDone) done)
              end);
          (match review with
           | [] => []
           | _ => (KHeading SReview, nl (bold SEC_REVIEW))
                  :: concat (map (slack_done_item show dc SReview) review)
           end);
          (KHeading SInProgress, nl (bold SEC_IN_PROGRESS))
          :: (if bool_decide (wo = ∅) then [(KPlaceholder SInProgress, "• —")]
              else concat (map (slack_worked_item show) (sorted_items wo)));
          slack_unknown_section done review wo cs show;
          (if shows show "orphan" && negb (bool_decide (oc = []))
           then (KHeading SOrphan, nl (bold SEC_ORPHAN_COMMITS))
                :: tagged (KCommit SOrphan) (_render_commits_slack oc)
           else []);
          (KHeading SBlocked, nl (bold SEC_BLOCKED))
          :: (match blocked with
              | [] => [(KPlaceholder SBlocked, "• No")]
              | _ => map slack_blocked_item blocked
              end);
          [(KHeading SNeedTasks, nl (bold SEC_NEED_TASKS));
           (KPlaceholder SNeedTasks, "• Need tasks: no")];
          (match backlog with
           | [] => []
           | _ => (KHeading SBacklog, nl ("---" +:+ nl (bold SEC_BACKLOG)))
                  :: map slack_backlog_item (sort_by entry_le backlog)
           end)].
  split.
  { unfold build_slack_report_lines. cbn [concat app]. rewrite app_nil_r.
    reflexivity. }
  unfold slack_unknown_section, slack_unknown_item, slack_done_item,
    slack_worked_item, slack_blocked_item, slack_backlog_item.
  repeat (constructor; [headed_block|]). constructor.
Qed.

Lemma items_of_app (s : section) (l1 l2 : list line) :
  items_of s (l1 ++ l2) = items_of s l1 ++ items_of s l2.
Proof. apply omap_app. Qed.

Lemma items_of_heading (s s' : section) (t : string) (l : list line) :
  items_of s ((KHeading s', t) :: l) = items_of s l.
Proof. reflexivity. Qed.

Lemma items_of_items (s s' : section) (body : list line) :
  Forall (item_of s') body ->
  items_of s body = if decide (s' = s) then omap mark_of body else [].
Proof.
  intros H. induction H as [|[k x] body Hk _ IH].
  - destruct (decide (s' = s)); reflexivity.
  - unfold items_of in *. cbn [omap list_omap]. rewrite IH.
    unfold item_of in Hk. cbn [fst] in *.
    destruct k as [|h|s0 i|s0|s0]; try contradiction; subst s0;
      destruct (decide (s' = s)); reflexivity.
Qed.

Lemma under_items (s s' : section) (body : list line) (rest : list mark) :
  Forall (item_of s') body ->
  under (Some s') s (omap mark_of body ++ rest)
  = (if decide (s' = s) then omap mark_of body else []) ++ under (Some s') s rest.
Proof.
  intros H. induction H as [|[k x] body Hk _ IH].
  - destruct (decide (s' = s)); reflexivity.
  - unfold item_of in Hk. cbn [fst] in Hk. cbn [omap list_omap].
    destruct k as [|h|s0 i|s0|s0]; try contradiction; subst s0;
      unfold mark_of at 1; cbn [fst]; cbn [app under]; rewrite IH;
      destruct (decide (s' = s)) as [E|N];
      destruct (decide (Some s' = Some s)) as [E'|N'];
      try reflexivity; congruence.
Qed.

(** Under a heading, a reader finds the lines of its section. *)
Lemma under_blocks (s : section) (blocks : list (list line)) :
  Forall block blocks ->
  forall cur, under cur s (omap mark_of (concat blocks)) = items_of s (concat blocks).
Proof.
  intros H. induction H as [|b blocks Hb _ IH]; intros cur; [reflexivity|].
  cbn [concat]. destruct Hb as [->|(s' & t & body & -> & Hbody)]; [apply IH|].
  cbn [app omap list_omap]. unfold mark_of at 1. cbn [fst under].
  rewrite omap_app, under_items by exact Hbody.
  rewrite IH, items_of_heading, items_of_app, (items_of_items s s' body Hbody).
  reflexivity.
Qed.

(** What a reader finds in a report whose lines are read as their tags
    say: the marks of the lines, and under each heading the lines of its
    section. *)
Lemma report_read (lines : list line) (t : string) (blocks : list (list line)) :
  lines = (KTitle, t) :: concat blocks -> Forall block blocks ->
  Forall reads_as lines ->
  marks (join (nl EmptyString) (map snd lines)) = omap mark_of lines
  /\ forall s, section_marks s (join (nl EmptyString) (map snd lines))
               = items_of s lines.
Proof.
  intros E Hb Hr.
  assert (Hm : marks (join (nl EmptyString) (map snd lines)) = omap mark_of lines).
  { apply marks_lines; [subst; discriminate | exact Hr]. }
  split; [exact Hm|]. intros s. unfold section_marks. rewrite Hm, E.
  cbn [omap list_omap]. unfold mark_of at 1. cbn [fst].
  rewrite (under_blocks s blocks Hb). reflexivity.
Qed.

Lemma issues_items (s : section) (lines : list line) :
  omap issue_of (items_of s lines) = issues_in s lines.
Proof.
  unfold items_of, issues_in. induction lines as [|[k x] lines IH]; [reflexivity|].
  cbn [omap list_omap fst]. rewrite <- IH.
  destruct k as [|h|s0 i|s0|s0]; try reflexivity;
    unfold mark_of; cbn [fst]; destruct (decide (s0 = s)); reflexivity.
Qed.

Lemma headings_marks (lines : list line) :
  omap heading_of (omap mark_of lines) = headings lines.
Proof.
  unfold headings. induction lines as [|[k x] lines IH]; [reflexivity|].
  cbn [omap list_omap fst]. rewrite <- IH. unfold mark_of. cbn [fst].
  destruct k; reflexivity.
Qed.

Lemma issues_marks (lines : list line) :
  omap issue_of (omap mark_of lines)
  = omap (fun l : line => match l.1 with KIssue _ i => Some i | _ => None end) lines.
Proof.
  induction lines as [|[k x] lines IH]; [reflexivity|].
  cbn [omap list_omap fst]. rewrite <- IH. unfold mark_of. cbn [fst].
  destruct k; reflexivity.
Qed.

Lemma commit_items (s : section) (lines : list line) :
  MCommit ∈ items_of s lines <-> exists x, (KCommit s, x) ∈ lines.
Proof.
  unfold items_of. rewrite list_elem_of_omap. split.
  - intros ([k x] & Hin & E). cbn [fst] in E.
    destruct k as [|h|s0 i|s0|s0]; try discriminate;
      destruct (decide (s0 = s)); try discriminate; subst;
      unfold mark_of in E; cbn [fst] in E; try discriminate.
    exists x. exact Hin.
  - intros [x Hin]. exists (KCommit s, x). split; [exact Hin|]. cbn [fst].
    destruct (decide (s = s)); [reflexivity | congruence].
Qed.

Lemma placeholder_items (s : section) (lines : list line) :
  MPlaceholder ∈ items_of s lines <-> s ∈ placeholders lines.
Proof.
  unfold items_of, placeholders. rewrite !list_elem_of_omap. split.
  - intros ([k x] & Hin & E). cbn [fst] in E.
    destruct k as [|h|s0 i|s0|s0]; try discriminate;
      destruct (decide (s0 = s)); try discriminate; subst;
      unfold mark_of in E; cbn [fst] in E; try discriminate.
    exists (KPlaceholder s, x). auto.
  - intros ([k x] & Hin & E). cbn [fst] in E.
    destruct k as [|h|s0 i|s0|s0]; try discriminate. inversion E; subst.
    exists (KPlaceholder s, x). split; [exact Hin|]. cbn [fst].
    destruct (decide (s = s)); [reflexivity | congruence].
Qed.

(** The reading of the plain-text report and of the chat report. *)
Lemma plain_read today done review wo blocked backlog cs oc dc add_links show :
  readable today done review wo blocked backlog cs oc dc = true ->
  let lines := build_report_lines today done review wo blocked add_links show dc oc in
  let text := build_report today done review wo blocked add_links show dc oc in
  marks text = omap mark_of lines
  /\ forall s, section_marks s text = items_of s lines.
Proof.
  intros H. cbv zeta. unfold build_report.
  destruct (plain_blocks today done review wo blocked add_links show dc oc)
    as (t & blocks & E & Hb).
  apply (report_read _ t blocks E Hb).
  apply (plain_lines_read today done review wo blocked backlog cs oc dc), H.
Qed.

Lemma slack_read today done review wo blocked backlog cs oc dc show :
  readable today done review wo blocked backlog cs oc dc = true ->
  let lines :=
    build_slack_report_lines today done review wo blocked backlog cs oc show dc in
  let text := build_slack_report today done review wo blocked backlog cs oc show dc in
  marks text = omap mark_of lines
  /\ forall s, section_marks s text = items_of s lines.
Proof.
  intros H. cbv zeta. unfold build_slack_report.
  destruct (slack_blocks today done review wo blocked backlog cs oc show dc)
    as (t & blocks & E & Hb).
  apply (report_read _ t blocks E Hb).
  apply slack_lines_read, H.
Qed.

End ReadingReports.

(** ** What a reader finds in the reports *)

Section ReadReports.

(** The issues that a reader finds in a section of a report. *)
Lemma plain_issues_read today done review wo blocked backlog cs oc dc add_links show
  (s : section) :
  readable today done review wo blocked backlog cs oc dc = true ->
  issues_read s (build_report today done review wo blocked add_links show dc oc)
  = issues_in s (build_report_lines today done review wo blocked add_links show dc oc).
Proof.
  intros H. unfold issues_read.
  rewrite (proj2 (plain_read today done review wo blocked backlog cs oc dc add_links
                    show H) s).
  apply issues_items.
Qed.

Lemma slack_issues_read today done review wo blocked backlog cs oc dc show
  (s : section) :
  readable today done review wo blocked backlog cs oc dc = true ->
  issues_read s (build_slack_report today done review wo blocked backlog cs oc show dc)
  = issues_in s
      (build_slack_report_lines today done review wo blocked backlog cs oc show dc).
Proof.
  intros H. unfold issues_read.
  rewrite (proj2 (slack_read today done review wo blocked backlog cs oc dc show H) s).
  apply issues_items.
Qed.

(** C5, amended: for the same buckets and flags, a reader of the text of
    the plain report and a reader of the text of the chat report, who looks
    through the emphasis and the links of the markup, find the same issues
    in the same order, and so the same number of issues, under each of the
    headings done, moved to review, in progress and blocked; the issues of
    the backlog are listed by the chat report alone, under a last heading
    that the plain report does not have.  The arguments are such that the
    text can be read back: identifiers of letters, digits, underscores and
    hyphens, titles, addresses and commit lines without line feed,
    addresses without vertical bar. *)
Theorem renderings_list_the_same_issues
  (today : string) (done review : list entry) (wo : gmap string worked)
  (blocked backlog : list entry) (cs : list (string * list string))
  (oc : list string) (add_links : bool) (show : gset string)
  (dc : gmap string (list string)) :
  readable today done review wo blocked backlog cs oc dc = true ->
  let plain := build_report today done review wo blocked add_links show dc oc in
  let chat := build_slack_report today done review wo blocked backlog cs oc show dc in
  (issues_read SDone plain = issues_read SDone chat
   /\ issues_read SReview plain = issues_read SReview chat
   /\ issues_read SInProgress plain = issues_read SInProgress chat
   /\ issues_read SBlocked plain = issues_read SBlocked chat)
  /\
  (length (issues_read SDone plain) = length (issues_read SDone chat)
   /\ length (issues_read SReview plain) = length (issues_read SReview chat)
   /\ length (issues_read SInProgress plain) = length (issues_read SInProgress chat)
   /\ length (issues_read SBlocked plain) = length (issues_read SBlocked chat))
  /\
  (issues_read SDone chat = map (fun e : entry => e.1.1) done
   /\ issues_read SReview chat = map (fun e : entry => e.1.1) review
   /\ issues_read SInProgress chat = map fst (sorted_items wo)
   /\ issues_read SBlocked chat = map (fun e : entry => e.1.1) blocked)
  /\
  (issues_read SBacklog plain = []
   /\ issues_read SBacklog chat
      = map (fun e : entry => e.1.1) (sort_by entry_le backlog)).
Proof.
  intros H. cbv zeta.
  rewrite !(plain_issues_read today done review wo blocked backlog cs oc dc add_links
              show _ H).
  rewrite !(slack_issues_read today done review wo blocked backlog cs oc dc show _ H).
  rewrite !plain_issues, !slack_issues. repeat split; reflexivity.
Qed.

(** X22: in the text of the plain report as in the text of the chat
    report, the in-progress section lists the tickets of [worked_on], each
    once, in ascending order of the identifiers as strings. *)
Theorem in_progress_in_ticket_order
  (today : string) (done review : list entry) (wo : gmap string worked)
  (blocked backlog : list entry) (cs : list (string * list string))
  (oc : list string) (add_links : bool) (show : gset string)
  (dc : gmap string (list string)) :
  readable today done review wo blocked backlog cs oc dc = true ->
  let plain := issues_read SInProgress
                 (build_report today done review wo blocked add_links show dc oc) in
  let chat := issues_read SInProgress
                (build_slack_report today done review wo blocked backlog cs oc show dc) in
  plain = chat
  /\ ascending chat = true
  /\ NoDup chat
  /\ forall t, t ∈ chat <-> is_Some (wo !! t).
Proof.
  intros H. cbv zeta.
  rewrite (plain_issues_read today done review wo blocked backlog cs oc dc add_links
             show _ H).
  rewrite (slack_issues_read today done review wo blocked backlog cs oc dc show _ H).
  rewrite plain_issues, slack_issues. cbn match. rewrite sorted_items_keys.
  split; [reflexivity|]. split; [apply sorted_elements_ascending|].
  split; [rewrite sorted_perm; apply NoDup_elements|].
  intros t. rewrite sorted_perm, elem_of_elements, elem_of_dom. reflexivity.
Qed.

Lemma split_printed (lines : list string) :
  split_nl (printed lines) = concat (map split_nl lines) ++ [EmptyString].
Proof.
  induction lines as [|l lines IH]; [reflexivity|].
  cbn [printed foldr map concat]. fold (printed lines).
  rewrite split_nl_nl, IH, app_assoc. reflexivity.
Qed.

(** The issues that a reader finds in what [main] prints last. *)
Lemma terminal_issues_read (add_links : bool) (backlog : list entry) :
  Forall (fun e => readable_entry e = true) backlog ->
  issues_listed (backlog_terminal_text add_links backlog)
  = map (fun e : entry => e.1.1) (sort_by entry_le backlog).
Proof.
  intros H. unfold issues_listed, marks, backlog_terminal_text.
  rewrite split_printed, omap_app, omap_concat, map_map.
  cbn [omap list_omap]. change (read_line EmptyString) with (@None mark).
  rewrite app_nil_r. unfold backlog_terminal_lines.
  destruct backlog as [|k0 backlog]; [reflexivity|].
  apply (sort_by_Forall entry_le) in H.
  cbn [map concat snd]. rewrite omap_app.
  replace (omap issue_of (omap read_line (split_nl (nl "--- Backlog (assigned, not started) ---"))))
    with (@nil string) by (vm_compute; reflexivity).
  cbn [app].
  induction H as [|e l He _ IH]; [reflexivity|].
  cbn [map concat]. rewrite omap_app, IH.
  pose proof (terminal_issue_reads add_links e He) as Hr. unfold reads_as in Hr.
  rewrite Hr. reflexivity.
Qed.

(** X24: the backlog is listed in the same order in the text of the chat
    report, under its last heading, and in the text that [main] prints
    last: the identifiers that a reader finds there are those of the
    backlog issues sorted as (identifier, title, url), each as many times
    as it is in the backlog. *)
Theorem backlog_listed_in_order
  (today : string) (done review : list entry) (wo : gmap string worked)
  (blocked backlog : list entry) (cs : list (string * list string))
  (oc : list string) (add_links : bool) (show : gset string)
  (dc : gmap string (list string)) :
  readable today done review wo blocked backlog cs oc dc = true ->
  let chat := issues_read SBacklog
                (build_slack_report today done review wo blocked backlog cs oc show dc) in
  let terminal := issues_listed (backlog_terminal_text add_links backlog) in
  exists ordered_backlog : list entry,
    ordered_backlog ≡ₚ backlog
    /\ ordered entry_le ordered_backlog = true
    /\ chat = map (fun e : entry => e.1.1) ordered_backlog
    /\ terminal = map (fun e : entry => e.1.1) ordered_backlog
    /\ ordered le chat = true.
Proof.
  intros H. cbv zeta. exists (sort_by entry_le backlog).
  rewrite (slack_issues_read today done review wo blocked backlog cs oc dc show _ H).
  rewrite slack_issues.
  destruct (readable_parts _ _ _ _ _ _ _ _ _ H)
    as (_ & _ & _ & _ & _ & Hk & _).
  split; [apply sort_by_perm|]. split; [apply sort_by_ordered|].
  split; [reflexivity|]. split; [apply terminal_issues_read, Hk|].
  apply ordered_idents, sort_by_ordered.
Qed.

(** X19: the text of a report has the lines of the commits of a group only
    when the group is asked for: an indented line under the headings done
    or moved to review needs [done], one under the headings in progress or
    unknown tickets needs [in_progress], and one under the heading of the
    commits without ticket needs [orphan]; there is none under the other
    headings, and with no group no line of a report is indented. *)
Theorem commits_shown_on_request
  (today : string) (done review : list entry) (wo : gmap string worked)
  (blocked backlog : list entry) (cs : list (string * list string))
  (oc : list string) (add_links : bool) (show : gset string)
  (dc : gmap string (list string)) (text : string) :
  readable today done review wo blocked backlog cs oc dc = true ->
  text = build_report today done review wo blocked add_links show dc oc
  \/ text = build_slack_report today done review wo blocked backlog cs oc show dc ->
  (forall s, MCommit ∈ section_marks s text ->
             exists g, section_group s = Some g /\ g ∈ show)
  /\ (show = ∅ -> MCommit ∉ marks text).
Proof.
  intros H Htext.
  destruct (commit_lines_allowed today done review wo blocked backlog cs oc add_links
              show dc) as [Hp Hc].
  assert (Hgen : forall lines,
             Forall (commits_allowed show) lines ->
             marks text = omap mark_of lines ->
             (forall s, section_marks s text = items_of s lines) ->
             (forall s, MCommit ∈ section_marks s text ->
                        exists g, section_group s = Some g /\ g ∈ show)
             /\ (show = ∅ -> MCommit ∉ marks text)).
  { intros lines Hall Hm Hs. rewrite Forall_forall in Hall. split.
    - intros s Hin. rewrite Hs in Hin. apply commit_items in Hin as [x Hx].
      apply (Hall _ Hx).
    - intros -> Hin. rewrite Hm in Hin.
      apply list_elem_of_omap in Hin as ([k x] & Hx & E).
      unfold mark_of in E. cbn [fst] in E.
      destruct k as [|h|s0 i|s0|s0]; try discriminate.
      destruct (Hall _ Hx) as (g & _ & Hg). apply not_elem_of_empty in Hg.
      exact Hg. }
  destruct Htext as [-> | ->].
  - destruct (plain_read today done review wo blocked backlog cs oc dc add_links
                show H) as [Hm Hs].
    apply (Hgen _ Hp Hm Hs).
  - destruct (slack_read today done review wo blocked backlog cs oc dc show H)
      as [Hm Hs].
    apply (Hgen _ Hc Hm Hs).
Qed.

(** X20: the outline of the text of the reports.  Both have the headings
    done, in progress, blocked and need tasks, in this order and even when
    the section is empty; the heading moved to review is there when there
    is an issue in review, the heading of the commits without ticket when
    they are asked for and there is one; the chat report has the heading
    of the unknown tickets when the commits in progress are asked for and
    there is such a ticket, and the heading of the backlog, last, when
    there is one.  Under a heading the placeholder of an empty section is
    found exactly when the section lists nothing, and always under need
    tasks. *)
Theorem report_outline
  (today : string) (done review : list entry) (wo : gmap string worked)
  (blocked backlog : list entry) (cs : list (string * list string))
  (oc : list string) (add_links : bool) (show : gset string)
  (dc : gmap string (list string)) :
  readable today done review wo blocked backlog cs oc dc = true ->
  let plain := build_report today done review wo blocked add_links show dc oc in
  let chat := build_slack_report today done review wo blocked backlog cs oc show dc in
  let review_section := match review with [] => [] | _ => [SReview] end in
  let orphan_section :=
    if shows show "orphan" && negb (bool_decide (oc = [])) then [SOrphan] else [] in
  let unknown_section :=
    if shows show "in_progress"
       && negb (bool_decide (orphan_tickets done review wo cs = ∅))
    then [SUnknown] else [] in
  let backlog_section := match backlog with [] => [] | _ => [SBacklog] end in
  let empty_sections :=
    match done with [] => [SDone] | _ => [] end
    ++ (if bool_decide (wo = ∅) then [SInProgress] else [])
    ++ match blocked with [] => [SBlocked] | _ => [] end
    ++ [SNeedTasks] in
  headings_read plain
  = [SDone] ++ review_section ++ [SInProgress] ++ orphan_section
    ++ [SBlocked; SNeedTasks]
  /\ headings_read chat
     = [SDone] ++ review_section ++ [SInProgress] ++ unknown_section
       ++ orphan_section ++ [SBlocked; SNeedTasks] ++ backlog_section
  /\ (forall s, MPlaceholder ∈ section_marks s plain <-> s ∈ empty_sections)
  /\ (forall s, MPlaceholder ∈ section_marks s chat <-> s ∈ empty_sections).
Proof.
  intros H. cbv zeta.
  destruct (plain_read today done review wo blocked backlog cs oc dc add_links show H)
    as [Hm Hs].
  destruct (slack_read today done review wo blocked backlog cs oc dc show H)
    as [Hm' Hs'].
  destruct (plain_outline today done review wo blocked oc add_links show dc) as [H1 H2].
  destruct (slack_outline today done review wo blocked backlog cs oc show dc) as [H3 H4].
  cbv zeta in *. unfold headings_read.
  rewrite Hm, Hm', !headings_marks, H1, H3.
  split; [reflexivity|]. split; [reflexivity|]. split.
  - intros s. rewrite Hs, placeholder_items, H2. reflexivity.
  - intros s. rewrite Hs', placeholder_items, H4. reflexivity.
Qed.

End ReadReports.

(** ** The entry of a ticket without issue *)

Section Untracked.



End Untracked.

(** ** The second example run and the paginated listing *)

Section MoreExamples.

Import Example.

Ltac listed := apply list_elem_of_In; vm_compute; auto 20.

Lemma second_run :
  run cfg day day Example2.second_projects (Ok Example2.second_repos) = Ok Example2.second_result.
Proof. vm_compute. reflexivity. Qed.

Lemma second_ids_unique : NoDup (map ident (fetched_issues Example2.second_projects)).
Proof. apply (bool_decide_unpack _). vm_compute. reflexivity. Qed.

Lemma example_scan :
  get_github_commits cfg (Ok repos)
  = Ok (r_commits_by_ticket result, r_orphan_commits result).
Proof. vm_compute. reflexivity. Qed.

Lemma get_my_issues_pages_witness :
  get_my_issues 5 Example2.api "me" = Some (Ok [Example2.mine; Example2.ours]).
Proof.
  apply (get_my_issues_pages Example2.api "me" [Example2.first_page]
           Example2.second_page 5).
  - intros [|j] q Hq; [|destruct j; discriminate].
    inversion Hq. split; reflexivity.
  - reflexivity.
  - reflexivity.
  - cbn. lia.
Defined.

Lemma get_my_issues_page_error_witness :
  get_my_issues 5 Example2.failing_api "me" = Some Raised
  /\ classify_project cfg day day no_buckets
       (fetch_project data (Ok states) Raised) = no_buckets.
Proof.
  apply (get_my_issues_page_error Example2.failing_api "me" [Example2.first_page] 5
           cfg day day data (Ok states) no_buckets).
  - intros [|j] q Hq; [|destruct j; discriminate].
    inversion Hq. split; reflexivity.
  - reflexivity.
  - cbn. lia.
Defined.

Lemma get_my_issues_unbounded_witness :
  get_my_issues 1000 Example2.endless_api "me" = None.
Proof.
  apply (get_my_issues_unbounded Example2.endless_api "me" 1000).
  intros n. exists None. reflexivity.
Defined.

Lemma issue_bucket_precedence_witness :
  entry_of cfg Example2.the_blocked_issue
    ∈ blocked_issues (classify cfg day day Example2.second_projects)
  <-> in_backlog_group (group_of Example2.the_blocked_issue) = false
      /\ updated_in_range day day Example2.waiting = true
      /\ group_of Example2.the_blocked_issue <> "completed"
      /\ contains "review" (state_name states Example2.waiting) = false
      /\ is_blocked Example2.waiting = true.
Proof.
  assert (H1 : Example2.the_blocked_issue ∈ fetched_issues Example2.second_projects).
  { apply list_elem_of_In. cbn. auto. }
  assert (H2 : forall y, y ∈ fetched_issues Example2.second_projects ->
                 ident y = ident Example2.the_blocked_issue ->
                 y = Example2.the_blocked_issue).
  { intros y Hy. apply (ident_unique _ _ _ second_ids_unique Hy H1). }
  exact (proj1 (proj2 (proj2 (proj2
           (issue_bucket_precedence cfg day day Example2.second_projects
              Example2.the_blocked_issue H1 H2))))).
Defined.

Lemma unknown_state_issue_witness :
  (entry_of cfg Example2.the_stateless_issue
     ∉ backlog_issues (classify cfg day day Example2.second_projects))
  /\ (entry_of cfg Example2.the_stateless_issue
        ∉ done_issues (classify cfg day day Example2.second_projects))
  /\ (entry_of cfg Example2.the_stateless_issue
        ∉ review_issues (classify cfg day day Example2.second_projects))
  /\ plane_active (classify cfg day day Example2.second_projects)
       !! ident Example2.the_stateless_issue = None
  /\ (entry_of cfg Example2.the_stateless_issue
        ∈ blocked_issues (classify cfg day day Example2.second_projects)
      <-> updated_in_range day day Example2.stateless = true
          /\ is_blocked Example2.stateless = true).
Proof.
  assert (H1 : Example2.the_stateless_issue ∈ fetched_issues Example2.second_projects).
  { apply list_elem_of_In. cbn. auto. }
  assert (H2 : forall y, y ∈ fetched_issues Example2.second_projects ->
                 ident y = ident Example2.the_stateless_issue ->
                 y = Example2.the_stateless_issue).
  { intros y Hy. apply (ident_unique _ _ _ second_ids_unique Hy H1). }
  apply (unknown_state_issue cfg day day Example2.second_projects
           Example2.the_stateless_issue H1 H2).
  vm_compute. reflexivity.
Defined.


Lemma blocked_issue_with_commits_witness :
  entry_of cfg Example2.the_blocked_issue ∈ r_blocked_issues Example2.second_result
  /\ r_worked_on Example2.second_result !! ident Example2.the_blocked_issue
     = Some (Worked (i_title (info_of cfg Example2.the_blocked_issue))
               (i_url (info_of cfg Example2.the_blocked_issue))
               ["`0a1b2c3` DATA-20: ask the vendor again (https://github.com/acme/etl/commit/0a1b2c3d4e)"]).
Proof.
  assert (H1 : Example2.the_blocked_issue ∈ fetched_issues Example2.second_projects).
  { apply list_elem_of_In. cbn. auto. }
  assert (H2 : forall y, y ∈ fetched_issues Example2.second_projects ->
                 ident y = ident Example2.the_blocked_issue ->
                 y = Example2.the_blocked_issue).
  { intros y Hy. apply (ident_unique _ _ _ second_ids_unique Hy H1). }
  apply (blocked_issue_with_commits cfg day day Example2.second_projects (Ok Example2.second_repos)
           Example2.second_result Example2.the_blocked_issue _ second_run H1 H2).
  - vm_compute. reflexivity.
  - vm_compute. reflexivity.
  - vm_compute. discriminate.
  - vm_compute. reflexivity.
  - vm_compute. reflexivity.
  - listed.
Defined.

Lemma scan_files_the_yielded_commits_witness :
  ((exists lines, ("DATA-99", lines) ∈ r_commits_by_ticket result
                  /\ "`b2c3d4e` data-99: add the parser (https://github.com/acme/etl/commit/b2c3d4e5f6)" ∈ lines)
   <-> exists c ks, c ∈ concat (map yielded repos)
         /\ filed c = Some ("`b2c3d4e` data-99: add the parser (https://github.com/acme/etl/commit/b2c3d4e5f6)", ks)
         /\ "DATA-99" ∈ ks)
  /\ ("`b2c3d4e` data-99: add the parser (https://github.com/acme/etl/commit/b2c3d4e5f6)"
        ∈ r_orphan_commits result
      <-> exists c, c ∈ concat (map yielded repos)
            /\ filed c = Some ("`b2c3d4e` data-99: add the parser (https://github.com/acme/etl/commit/b2c3d4e5f6)", [])).
Proof.
  apply (scan_files_the_yielded_commits cfg repos).
  - reflexivity.
  - reflexivity.
  - exact example_scan.
Defined.

Lemma scan_of_the_same_commits_witness :
  get_github_commits cfg (Ok [[Yield parser_commit; Yield loader_commit]])
  = get_github_commits cfg
      (Ok [[Yield loader_commit; Fail]; [Yield parser_commit; Yield loader_commit]]).
Proof.
  apply scan_of_the_same_commits. intros c.
  change (concat (map yielded [[Yield parser_commit; Yield loader_commit]]))
    with [parser_commit; loader_commit].
  change (concat (map yielded [[Yield loader_commit; Fail];
                               [Yield parser_commit; Yield loader_commit]]))
    with [loader_commit; parser_commit; loader_commit].
  rewrite !elem_of_cons, elem_of_nil. tauto.
Defined.

Lemma scan_result_is_ordered_witness :
  (ascending (map fst (r_commits_by_ticket result)) = true
   /\ NoDup (map fst (r_commits_by_ticket result)))
  /\ (ascending (r_orphan_commits result) = true /\ NoDup (r_orphan_commits result))
  /\ forall k lines, (k, lines) ∈ r_commits_by_ticket result ->
       ascending lines = true /\ NoDup lines /\ lines <> [].
Proof.
  exact (scan_result_is_ordered cfg (Ok repos) _ _ example_scan).
Defined.

Lemma ticket_keys_are_upper_case_witness :
  exists ds, "DATA-99" = "DATA-" +:+ ds /\ ds <> EmptyString
             /\ every is_digit ds = true.
Proof.
  apply (ticket_keys_are_upper_case cfg (Ok repos) (r_commits_by_ticket result)
           (r_orphan_commits result) "DATA-99").
  - intros repos' E. inversion E. reflexivity.
  - exact example_scan.
  - listed.
Defined.

Lemma commit_line_round_trip_witness :
  _slack_commit_line (short_line parser_commit "data-99: add the parser")
  = Some (take 7 (c_sha parser_commit),
          strip (lstrip_dashes (sub_empty TICKET_RE "data-99: add the parser")),
          c_html_url parser_commit)
  /\ line_message (short_line parser_commit "data-99: add the parser")
     = "data-99: add the parser".
Proof.
  apply (commit_line_round_trip parser_commit "data-99: add the parser"
           "https://" "github.com/acme/etl/commit/b2c3d4e5f6").
  - discriminate.
  - reflexivity.
  - discriminate.
  - reflexivity.
  - reflexivity.
  - right. reflexivity.
  - discriminate.
  - reflexivity.
  - reflexivity.
Defined.

Lemma title_of_prefixed_commit_witness :
  title_from_commits "DATA-99"
    [short_line parser_commit
       (EmptyString +:+ "data-99" +:+ EmptyString +:+ ":" +:+ " " +:+ "add the parser")]
  = "add the parser".
Proof.
  apply (title_of_prefixed_commit parser_commit "DATA-99" "data-99" EmptyString
           EmptyString ":" " " "add the parser"
           "https://" "github.com/acme/etl/commit/b2c3d4e5f6" []).
  - discriminate.
  - reflexivity.
  - right. reflexivity.
  - discriminate.
  - reflexivity.
  - reflexivity.
  - reflexivity.
  - discriminate.
  - reflexivity.
  - reflexivity.
  - reflexivity.
  - reflexivity.
  - rewrite !elem_of_cons. auto.
  - reflexivity.
  - reflexivity.
Defined.

Lemma clipboard_is_the_report_body_witness :
  exists body,
    build_report "2024-01-05" (r_done_issues result) (r_review_issues result)
      (r_worked_on result) (r_blocked_issues result) false ∅ (r_done_commits result)
      (r_orphan_commits result)
    = "Daily standup — " +:+ "2024-01-05" +:+ nl (nl body)
    /\ String.prefix SEC_DONE body = true
    /\ clipboard_body
         (build_report "2024-01-05" (r_done_issues result) (r_review_issues result)
            (r_worked_on result) (r_blocked_issues result) false ∅
            (r_done_commits result) (r_orphan_commits result))
       = join (nl EmptyString) (splitlines body)
    /\ (only_line_feeds body = true ->
        clipboard_body
          (build_report "2024-01-05" (r_done_issues result) (r_review_issues result)
             (r_worked_on result) (r_blocked_issues result) false ∅
             (r_done_commits result) (r_orphan_commits result))
        = body).
Proof.
  apply clipboard_is_the_report_body. reflexivity.
Defined.

Lemma only_assigned_issues_are_classified_witness :
  exists w, w ∈ [Example2.mine; Example2.ours] /\ is_assigned "me" w = true
            /\ get_issue_identifier data (wi_issue w) = "DATA-42".
Proof.
  apply (only_assigned_issues_are_classified Example2.api "me" 5 cfg day day data
           states [Example2.mine; Example2.ours] (entry_of cfg (data, states, fix_bug))).
  - reflexivity.
  - left. listed.
Defined.

Lemma title_of_unprefixed_commit_witness :
  title_from_commits "DATA-99"
    [short_line parser_commit (" " +:+ "fix the DATA-99 parser")]
  = "fix the DATA-99 parser".
Proof.
  apply (title_of_unprefixed_commit parser_commit "D" "f" "ATA-99" " "
           "ix the DATA-99 parser" "https://" "github.com/acme/etl/commit/b2c3d4e5f6" []).
  - discriminate.
  - reflexivity.
  - right. reflexivity.
  - discriminate.
  - reflexivity.
  - reflexivity.
  - reflexivity.
  - reflexivity.
  - reflexivity.
  - discriminate.
  - reflexivity.
Defined.

Lemma title_keeps_ticket_without_separator_witness :
  title_from_commits "DATA-99"
    [short_line parser_commit (EmptyString +:+ "data-99" +:+ " " +:+ "add the parser")]
  = "data-99" +:+ " " +:+ "add the parser".
Proof.
  apply (title_keeps_ticket_without_separator parser_commit "DATA-99" "data-99"
           EmptyString " " "add the parser"
           "https://" "github.com/acme/etl/commit/b2c3d4e5f6" []).
  - discriminate.
  - reflexivity.
  - right. reflexivity.
  - discriminate.
  - reflexivity.
  - reflexivity.
  - reflexivity.
  - discriminate.
  - reflexivity.
  - reflexivity.
  - cbn. split; [reflexivity|]. split; discriminate.
  - reflexivity.
  - reflexivity.
Defined.

Lemma example_readable :
  readable "2024-01-05" (r_done_issues result) (r_review_issues result)
    (r_worked_on result) (r_blocked_issues result) (r_backlog_issues result)
    (r_commits_by_ticket result) (r_orphan_commits result) (r_done_commits result)
  = true.
Proof. vm_compute. reflexivity. Qed.


Lemma renderings_list_the_same_issues_witness :
  issues_read SDone (Example2.plain_report true Example2.shown)
  = issues_read SDone (Example2.chat_report Example2.shown)
  /\ issues_read SReview (Example2.plain_report true Example2.shown)
     = issues_read SReview (Example2.chat_report Example2.shown)
  /\ issues_read SInProgress (Example2.plain_report true Example2.shown)
     = issues_read SInProgress (Example2.chat_report Example2.shown)
  /\ issues_read SBlocked (Example2.plain_report true Example2.shown)
     = issues_read SBlocked (Example2.chat_report Example2.shown).
Proof.
  exact (proj1 (renderings_list_the_same_issues "2024-01-05" (r_done_issues result)
                  (r_review_issues result) (r_worked_on result)
                  (r_blocked_issues result) (r_backlog_issues result)
                  (r_commits_by_ticket result) (r_orphan_commits result) true
                  Example2.shown (r_done_commits result) example_readable)).
Defined.

(** C5, as stated, fails: the text of the chat report of the example run
    ends with the heading of the backlog and the line of the issue DATA-7;
    the text of the plain report, given the same buckets and flags, has no
    such heading and lists four issues where the chat report lists
    five. *)
Lemma chat_report_lists_the_backlog :
  r_backlog_issues result
  = [("DATA-7", "Plan the migration",
      "https://app.plane.so/acme/projects/p1/issues/u7")]
  /\ split_nl (Example2.plain_report false ∅)
     = ["Daily standup — 2024-01-05"; EmptyString; ":white_check_mark: Done:";
        "• DATA-42 — Fix bug"; EmptyString;
        ":arrows_counterclockwise: In progress / planned (with ETA):";
        "• DATA-7 — Plan the migration"; "• DATA-9 — Rework the loader";
        "• DATA-99 — add the parser"; EmptyString; ":no_entry: Blocked:"; "• No";
        EmptyString; ":jigsaw: Need tasks (Optional):"; "• Need tasks: no"]
  /\ split_nl (Example2.chat_report ∅)
     = ["*Daily standup — 2024-01-05*"; EmptyString; ":white_check_mark: *Done:*";
        "• <https://app.plane.so/acme/projects/p1/issues/u42|DATA-42> — Fix bug";
        EmptyString; ":arrows_counterclockwise: *In progress / planned (with ETA):*";
        "• <https://app.plane.so/acme/projects/p1/issues/u7|DATA-7> — Plan the migration";
        "• <https://app.plane.so/acme/projects/p1/issues/u9|DATA-9> — Rework the loader";
        "• <https://app.plane.so/acme/browse/DATA-99/|DATA-99> — add the parser";
        EmptyString; ":no_entry: *Blocked:*"; "• No"; EmptyString;
        ":jigsaw: *Need tasks (Optional):*"; "• Need tasks: no"; EmptyString; "---";
        ":card_index: *Backlog (assigned, not started):*";
        "• <https://app.plane.so/acme/projects/p1/issues/u7|DATA-7> — Plan the migration"]
  /\ issues_read SBacklog (Example2.plain_report false ∅) = []
  /\ issues_read SBacklog (Example2.chat_report ∅) = ["DATA-7"]
  /\ issues_listed (Example2.plain_report false ∅)
     = ["DATA-42"; "DATA-7"; "DATA-9"; "DATA-99"]
  /\ issues_listed (Example2.chat_report ∅)
     = ["DATA-42"; "DATA-7"; "DATA-9"; "DATA-99"; "DATA-7"].
Proof. repeat split; vm_compute; reflexivity. Qed.

Lemma in_progress_in_ticket_order_witness :
  issues_read SInProgress (Example2.plain_report true Example2.shown)
  = issues_read SInProgress (Example2.chat_report Example2.shown)
  /\ ascending (issues_read SInProgress (Example2.chat_report Example2.shown)) = true
  /\ NoDup (issues_read SInProgress (Example2.chat_report Example2.shown))
  /\ forall t, t ∈ issues_read SInProgress (Example2.chat_report Example2.shown)
               <-> is_Some (r_worked_on result !! t).
Proof.
  exact (in_progress_in_ticket_order "2024-01-05" (r_done_issues result)
           (r_review_issues result) (r_worked_on result)
           (r_blocked_issues result) (r_backlog_issues result)
           (r_commits_by_ticket result) (r_orphan_commits result) true
           Example2.shown (r_done_commits result) example_readable).
Defined.

Lemma backlog_listed_in_order_witness :
  exists ordered_backlog : list entry,
    ordered_backlog ≡ₚ r_backlog_issues result
    /\ ordered entry_le ordered_backlog = true
    /\ issues_read SBacklog (Example2.chat_report Example2.shown)
       = map (fun e : entry => e.1.1) ordered_backlog
    /\ issues_listed (backlog_terminal_text true (r_backlog_issues result))
       = map (fun e : entry => e.1.1) ordered_backlog
    /\ ordered le (issues_read SBacklog (Example2.chat_report Example2.shown)) = true.
Proof.
  exact (backlog_listed_in_order "2024-01-05" (r_done_issues result)
           (r_review_issues result) (r_worked_on result)
           (r_blocked_issues result) (r_backlog_issues result)
           (r_commits_by_ticket result) (r_orphan_commits result) true
           Example2.shown (r_done_commits result) example_readable).
Defined.

Lemma commits_shown_on_request_witness :
  (forall s, MCommit ∈ section_marks s (Example2.chat_report {["done"]}) ->
             exists g, section_group s = Some g /\ g ∈ ({["done"]} : gset string))
  /\ (({["done"]} : gset string) = ∅ ->
      MCommit ∉ marks (Example2.chat_report {["done"]})).
Proof.
  apply (commits_shown_on_request "2024-01-05" (r_done_issues result)
           (r_review_issues result) (r_worked_on result)
           (r_blocked_issues result) (r_backlog_issues result)
           (r_commits_by_ticket result) (r_orphan_commits result) true
           {["done"]} (r_done_commits result)).
  - exact example_readable.
  - right. reflexivity.
Defined.

Lemma report_outline_witness :
  headings_read (Example2.plain_report true Example2.shown)
  = [SDone; SInProgress; SOrphan; SBlocked; SNeedTasks]
  /\ headings_read (Example2.chat_report Example2.shown)
     = [SDone; SInProgress; SOrphan; SBlocked; SNeedTasks; SBacklog]
  /\ (forall s, MPlaceholder ∈ section_marks s (Example2.plain_report true Example2.shown)
                <-> s ∈ [SBlocked; SNeedTasks])
  /\ (forall s, MPlaceholder ∈ section_marks s (Example2.chat_report Example2.shown)
                <-> s ∈ [SBlocked; SNeedTasks]).
Proof.
  pose proof (report_outline "2024-01-05" (r_done_issues result)
                (r_review_issues result) (r_worked_on result)
                (r_blocked_issues result) (r_backlog_issues result)
                (r_commits_by_ticket result) (r_orphan_commits result) true
                Example2.shown (r_done_commits result) example_readable) as H.
  cbv zeta in H. destruct H as (H1 & H2 & H3 & H4).
  unfold Example2.plain_report, Example2.chat_report.
  split; [rewrite H1; vm_compute; reflexivity|].
  split; [rewrite H2; vm_compute; reflexivity|].
  split.
  - intros s. rewrite H3.
    match goal with
    | |- _ ∈ ?l <-> _ =>
        replace l with [SBlocked; SNeedTasks] by (vm_compute; reflexivity)
    end.
    reflexivity.
  - intros s. rewrite H4.
    match goal with
    | |- _ ∈ ?l <-> _ =>
        replace l with [SBlocked; SNeedTasks] by (vm_compute; reflexivity)
    end.
    reflexivity.
Defined.

End MoreExamples.
